(** * spear-cli: the build pipeline of [magic.ts]

    A shallow embedding of [packages/spear-cli/src/magic.ts]: the settings
    loader ([loadSettings]), the build pass ([bundle]) and the entry point
    ([magic]), together with the properties of the pipeline that the
    specification states.

    Modelling conventions.
    - JavaScript objects that the pipeline shares with plugins ([State] and
      [DefaultSettings] objects) live in an object store indexed by
      references; arrays and strings are values.
    - Asynchronous code is run sequentially: every [await] completes before
      the next statement starts, as in a single build pass.
    - A computation ends normally or by a thrown exception; [try]/[catch]
      is explicit.
    - An object of the store stands for everything reachable from it. A
      plugin hook may read and write any object of the store; references
      are never deallocated.
    - Values have the types the TypeScript source declares: the settings
      objects, the mapping read from the settings file and the objects
      that configuration hooks return are read at the type
      [DefaultSettings]. A settings file or a hook that puts a value of
      another type in a key is outside the model; the properties that
      depend on what the settings file holds say so by taking the data of
      the file, at that type, as a hypothesis.
    - A [for ... of] loop over [Settings.plugins] runs over the list read
      when the loop starts. The source iterates over the array itself: the
      two agree as long as no hook adds to, removes from or reorders that
      array while the loop runs, which the properties that speak of the
      plugins a loop calls assume ([hooksKeepPluginLists]).
    - Every call the pipeline makes to a plugin hook, to a collaborator or
      to the console is recorded in the list of events of the run. *)

From stdpp Require Import base gmap strings list fin_maps sorting.
From Stdlib Require Import String List Ascii ZArith Lia DecimalString.
Import ListNotations.

Open Scope string_scope.
Open Scope list_scope.

(** ** JavaScript built-ins used by the pipeline *)

Module Js.

(** [s.startsWith(search)] *)
Definition startsWith (s search : string) : bool := String.prefix search s.

(** [s.endsWith(search)]: one of the tails of [s] is [search]. *)
Fixpoint endsWith (s search : string) : bool :=
  if String.eqb s search then true
  else match s with
       | EmptyString => false
       | String _ s' => endsWith s' search
       end.

(** [a !== b] on strings compares the contents. *)
Definition strictNotEqual (a b : string) : bool := negb (String.eqb a b).

(** [l.some(f)] and [l.filter(f)] *)
Definition some {A} (f : A -> bool) (l : list A) : bool := existsb f l.
Definition filter {A} (f : A -> bool) (l : list A) : list A := List.filter f l.

(** Truthiness of an optional string and of an optional number. *)
Definition truthyString (o : option string) : option string :=
  match o with
  | Some EmptyString => None
  | other => other
  end.

Definition truthyNumber (o : option Z) : option Z :=
  match o with
  | Some 0%Z => None
  | other => other
  end.

End Js.

(** ** Settings deduplication (magic.ts, lines 181-187) *)

(** The callback given to [some]: does [srcDir2] make [srcDir] redundant? *)
Definition shadowedBy (srcDir srcDir2 : string) : bool :=
  if Js.strictNotEqual srcDir srcDir2 && negb (Js.endsWith srcDir2 "components")
  then false
  else Js.strictNotEqual srcDir srcDir2 && Js.startsWith srcDir srcDir2.

(** [Settings.srcDir.filter(srcDir => !Settings.srcDir.some(...))] *)
Definition dedupSrcDir (srcDirs : list string) : list string :=
  Js.filter (fun srcDir => negb (Js.some (shadowedBy srcDir) srcDirs)) srcDirs.

(** The rule as the specification words it: an entry is dropped when it
    starts with a distinct entry that does not end with the components
    suffix. *)
Definition specShadowedBy (a b : string) : bool :=
  Js.strictNotEqual a b && Js.startsWith a b && negb (Js.endsWith b "components").

(** [A] is a sub-path of [B]: it starts with it. *)
Definition subPathOf (a b : string) : Prop := exists rest, a = b +:+ rest.

(** [s] ends with [suffix]. *)
Definition suffixOf (s suffix : string) : Prop := exists front, s = front +:+ suffix.

(** [B] is a components directory: its path ends with the suffix. *)
Definition componentsDir (b : string) : Prop := suffixOf b "components".

(** [A] is redundant in a list: a distinct entry that is a components
    directory contains it. *)
Definition nestedInComponents (srcDirs : list string) (a : string) : Prop :=
  exists b, In b srcDirs /\ b <> a /\ subPathOf a b /\ componentsDir b.

(** The containment invariant as the specification words it. *)
Definition specContainmentFree (srcDirs : list string) : Prop :=
  forall a b, In a srcDirs -> In b srcDirs -> a <> b -> subPathOf a b -> componentsDir b.

(** The containment property that deduplication establishes. *)
Definition componentsContainmentFree (srcDirs : list string) : Prop :=
  forall a b, In a srcDirs -> In b srcDirs -> a <> b -> subPathOf a b -> ~ componentsDir b.

(** ** Data model (interfaces/MagicInterfaces, interfaces/SettingsInterfaces) *)

(** References into the object store. *)
Definition loc := positive.

(** Thrown values. *)
Definition Exn := string.

(** How a call ends: with a value or with a thrown exception. *)
Inductive Completion (A : Type) : Type :=
| Normal (a : A)
| Throw (e : Exn).
Arguments Normal {A} a.
Arguments Throw {A} e.

(** Values stored in [globalProps] and in component [props]. *)
Inductive JsValue : Type :=
| JsUndefined
| JsNull
| JsBoolean (b : bool)
| JsNumber (z : Z)
| JsString (s : string).

(** A node of the document tree of node-html-parser. *)
Unset Elimination Schemes.
Inductive Element : Type :=
| mkElement (rawTagName rawAttrs rawText : string) (childNodes : list Element).
Set Elimination Schemes.

Definition rawTagName (e : Element) : string := let '(mkElement t _ _ _) := e in t.
Definition rawAttrs (e : Element) : string := let '(mkElement _ a _ _) := e in a.
Definition rawText (e : Element) : string := let '(mkElement _ _ x _) := e in x.
Definition childNodes (e : Element) : list Element := let '(mkElement _ _ _ c) := e in c.

(** [e.childNodes = nodes] *)
Definition setChildNodes (e : Element) (nodes : list Element) : Element :=
  mkElement (rawTagName e) (rawAttrs e) (rawText e) nodes.

Module Component.
Record t : Type := mk {
  fname : string;
  rawData : string;
  tagName : string;
  node : Element;
  props : gmap string JsValue;
}.
End Component.

(** Modelled from the spec: the declaration of a page is not among the
    sources; a page is a document node tree together with the identity of
    its source file. *)
Module Page.
Record t : Type := mk {
  fname : string;
  node : Element;
}.

(** [page.node.childNodes = nodes] *)
Definition setChildNodes (page : t) (nodes : list Element) : t :=
  {| fname := fname page; node := setChildNodes (node page) nodes |}.
End Page.

(** Modelled from the spec: an asset file descriptor of [out.assetsFiles]. *)
Module AssetFile.
Record t : Type := mk {
  filePath : string;
  rawData : string;
}.
End AssetFile.

(** The [out] record of a state. *)
Module Out.
Record t : Type := mk {
  assetsFiles : list AssetFile.t;
}.
End Out.

Module State.
Record t : Type := mk {
  pagesList : list Page.t;
  componentsList : list Component.t;
  body : Element;
  globalProps : gmap string JsValue;
  out : Out.t;
}.

(** [state.componentsList = l] *)
Definition setComponentsList (s : t) (l : list Component.t) : t :=
  {| pagesList := pagesList s; componentsList := l; body := body s;
     globalProps := globalProps s; out := out s |}.

(** [state.pagesList = l] *)
Definition setPagesList (s : t) (l : list Page.t) : t :=
  {| pagesList := l; componentsList := componentsList s; body := body s;
     globalProps := globalProps s; out := out s |}.
End State.

(** Plugins are the entries of a fixed table; [Settings.plugins] lists
    their indices. *)
Definition PluginId := nat.

Module DefaultSettings.
Record t : Type := mk {
  projectName : string;
  settingsFile : string;
  pagesFolder : string;
  componentsFolder : list string;
  srcDir : list string;
  distDir : string;
  entry : string;
  template : string;
  spearlyAuthKey : string;
  port : Z;
  host : string;
  crossOriginIsolation : bool;
  apiDomain : string;
  analysysDomain : string;
  generateSitemap : bool;
  siteURL : string;
  rootDir : string;
  plugins : list PluginId;
  quiteMode : bool;
}.

(** [Settings.srcDir = l] *)
Definition setSrcDir (s : t) (l : list string) : t :=
  mk (projectName s) (settingsFile s) (pagesFolder s) (componentsFolder s) l
     (distDir s) (entry s) (template s) (spearlyAuthKey s) (port s) (host s)
     (crossOriginIsolation s) (apiDomain s) (analysysDomain s) (generateSitemap s)
     (siteURL s) (rootDir s) (plugins s) (quiteMode s).

(** [Settings.distDir = d] *)
Definition setDistDir (s : t) (d : string) : t :=
  mk (projectName s) (settingsFile s) (pagesFolder s) (componentsFolder s) (srcDir s)
     d (entry s) (template s) (spearlyAuthKey s) (port s) (host s)
     (crossOriginIsolation s) (apiDomain s) (analysysDomain s) (generateSitemap s)
     (siteURL s) (rootDir s) (plugins s) (quiteMode s).

(** [Settings.port = p] *)
Definition setPort (s : t) (p : Z) : t :=
  mk (projectName s) (settingsFile s) (pagesFolder s) (componentsFolder s) (srcDir s)
     (distDir s) (entry s) (template s) (spearlyAuthKey s) p (host s)
     (crossOriginIsolation s) (apiDomain s) (analysysDomain s) (generateSitemap s)
     (siteURL s) (rootDir s) (plugins s) (quiteMode s).
End DefaultSettings.

(** The mapping read from the settings file: the keys it defines, at the
    types [DefaultSettings] declares for them. *)
Module SettingsData.
Record t : Type := mk {
  projectName : option string;
  settingsFile : option string;
  pagesFolder : option string;
  componentsFolder : option (list string);
  srcDir : option (list string);
  distDir : option string;
  entry : option string;
  template : option string;
  spearlyAuthKey : option string;
  port : option Z;
  host : option string;
  crossOriginIsolation : option bool;
  apiDomain : option string;
  analysysDomain : option string;
  generateSitemap : option bool;
  siteURL : option string;
  rootDir : option string;
  plugins : option (list PluginId);
  quiteMode : option bool;
}.

(** [Object.keys(data).forEach((k) => { Settings[k] = data[k] })] *)
Definition assignTo (data : t) (s : DefaultSettings.t) : DefaultSettings.t :=
  DefaultSettings.mk
    (default (DefaultSettings.projectName s) (projectName data))
    (default (DefaultSettings.settingsFile s) (settingsFile data))
    (default (DefaultSettings.pagesFolder s) (pagesFolder data))
    (default (DefaultSettings.componentsFolder s) (componentsFolder data))
    (default (DefaultSettings.srcDir s) (srcDir data))
    (default (DefaultSettings.distDir s) (distDir data))
    (default (DefaultSettings.entry s) (entry data))
    (default (DefaultSettings.template s) (template data))
    (default (DefaultSettings.spearlyAuthKey s) (spearlyAuthKey data))
    (default (DefaultSettings.port s) (port data))
    (default (DefaultSettings.host s) (host data))
    (default (DefaultSettings.crossOriginIsolation s) (crossOriginIsolation data))
    (default (DefaultSettings.apiDomain s) (apiDomain data))
    (default (DefaultSettings.analysysDomain s) (analysysDomain data))
    (default (DefaultSettings.generateSitemap s) (generateSitemap data))
    (default (DefaultSettings.siteURL s) (siteURL data))
    (default (DefaultSettings.rootDir s) (rootDir data))
    (default (DefaultSettings.plugins s) (plugins data))
    (default (DefaultSettings.quiteMode s) (quiteMode data)).
End SettingsData.

(** The arguments of [new SpearlyJSGenerator(...)]. *)
Module SpearlyJSGenerator.
Record t : Type := mk {
  authKey : string;
  apiDomain : string;
  analysysDomain : string;
}.
End SpearlyJSGenerator.

(** Command-line arguments read by [magic]. *)
Module Args.
Record t : Type := mk {
  action : string;
  src : option string;
  port : option Z;
}.
End Args.

(** ** The object store *)

(** What plugins and collaborators can reach and change: the [State] and
    [DefaultSettings] objects, the shared logger and the outside world
    (file system, network). *)
Module Mem.
Record t (World : Type) : Type := mk {
  stateObjs : gmap loc State.t;
  settingsObjs : gmap loc DefaultSettings.t;
  loggerIsQuite : bool;
  world : World;
}.
Arguments mk {World}.
Arguments stateObjs {World}.
Arguments settingsObjs {World}.
Arguments loggerIsQuite {World}.
Arguments world {World}.

Section Ops.
Context {World : Type}.

Definition setStateObjs (m : t World) (h : gmap loc State.t) : t World :=
  mk h (settingsObjs m) (loggerIsQuite m) (world m).
Definition setSettingsObjs (m : t World) (h : gmap loc DefaultSettings.t) : t World :=
  mk (stateObjs m) h (loggerIsQuite m) (world m).
Definition setLoggerIsQuite (m : t World) (b : bool) : t World :=
  mk (stateObjs m) (settingsObjs m) b (world m).
Definition setWorld (m : t World) (w : World) : t World :=
  mk (stateObjs m) (settingsObjs m) (loggerIsQuite m) w.
End Ops.
End Mem.

(** ** Plugins *)

(** A hook receives a reference to the working object and runs against
    the store; it throws, returns nothing (or a falsy value), or returns a
    reference to an object. *)
Definition Hook (World : Type) : Type :=
  loc -> Mem.t World -> Completion (option loc) * Mem.t World.

Module Plugin.
Record t (World : Type) : Type := mk {
  pluginName : string;
  configuration : option (Hook World);
  beforeBuild : option (Hook World);
  afterBuild : option (Hook World);
  bundle : option (Hook World);
}.
Arguments mk {World}.
Arguments pluginName {World}.
Arguments configuration {World}.
Arguments beforeBuild {World}.
Arguments afterBuild {World}.
Arguments bundle {World}.
End Plugin.

(** The four checkpoints. *)
Inductive Checkpoint : Type :=
| Configuration
| BeforeBuild
| AfterBuild
| Bundle.

(** [plugin.configuration], [plugin.beforeBuild], ... *)
Definition hookSlot {World} (cp : Checkpoint) (p : Plugin.t World) : option (Hook World) :=
  match cp with
  | Configuration => Plugin.configuration p
  | BeforeBuild => Plugin.beforeBuild p
  | AfterBuild => Plugin.afterBuild p
  | Bundle => Plugin.bundle p
  end.

(** The text given to [console.warn] at each checkpoint. *)
Definition warnMessage (cp : Checkpoint) (pluginName : string) : string :=
  match cp with
  | BeforeBuild | AfterBuild => " plugin process failed. [" +:+ pluginName +:+ "]"
  | Bundle => " plugin process failed. " +:+ pluginName +:+ "}"
  | Configuration => " plugin process failed. " +:+ pluginName +:+ "}}"
  end.

(** ** Events of a run *)

Inductive Event : Type :=
| EvLoadFile (pattern : string) (outcome : Completion (option SettingsData.t))
| EvHook (cp : Checkpoint) (plugin : PluginId) (arg : loc) (outcome : Completion (option loc))
| EvConsoleWarn (msg : string)
| EvLoggerError (e : Exn)
| EvLoggerLog (msg : string)
| EvCreateDir (outcome : Completion unit)
| EvParseComponents (dir : string) (outcome : Completion unit)
| EvParsePages (dir : string) (outcome : Completion unit)
| EvParseElements (nodes : list Element) (outcome : Completion (list Element))
| EvGenerateAliasPages (outcome : Completion (list Page.t))
| EvDumpPages (state : loc) (outcome : Completion unit)
| EvWatch
| EvLiveServerStart (port : Z) (host root : string) (crossOriginIsolation : bool).

(** ** The machine: module-level variables of magic.ts and the store *)

Module Machine.
Record t (World : Type) : Type := mk {
  mem : Mem.t World;
  dirname : string;
  Settings : loc;
  jsGenerator : option SpearlyJSGenerator.t;
}.
Arguments mk {World}.
Arguments mem {World}.
Arguments dirname {World}.
Arguments Settings {World}.
Arguments jsGenerator {World}.

Section Ops.
Context {World : Type}.

Definition setMem (m : t World) (x : Mem.t World) : t World :=
  mk x (dirname m) (Settings m) (jsGenerator m).
Definition setDirname (m : t World) (d : string) : t World :=
  mk (mem m) d (Settings m) (jsGenerator m).
Definition setSettings (m : t World) (l : loc) : t World :=
  mk (mem m) (dirname m) l (jsGenerator m).
Definition setJsGenerator (m : t World) (g : SpearlyJSGenerator.t) : t World :=
  mk (mem m) (dirname m) (Settings m) (Some g).
End Ops.
End Machine.

(** ** Collaborators

    The modules magic.ts imports; they are taken as interfaces. Each call
    may read and change the outside world and may throw. *)

(** utils/file.js, [FileUtil]. [parseComponents] and [parsePages] fill the
    state object they are given. *)
Class FileUtil (World : Type) : Type := {
  loadFile : string -> World -> Completion (option SettingsData.t) * World;
  createDir : DefaultSettings.t -> World -> Completion unit * World;
  parseComponents :
    State.t -> string -> DefaultSettings.t -> World -> Completion unit * State.t * World;
  parsePages : State.t -> string -> World -> Completion unit * State.t * World;
  dumpPages : State.t -> string -> DefaultSettings.t -> World -> Completion unit * World;
}.

(** utils/dom.js. The resolver consults the generator, so a call depends
    on the outside world and may change it; it reads the state it is given
    and, as the specification describes it, does not mutate it: it returns
    a new sequence of nodes. *)
Class Dom (World : Type) : Type := {
  parseElements :
    State.t -> list Element -> SpearlyJSGenerator.t -> DefaultSettings.t -> World ->
    Completion (list Element) * World;
  generateAliasPagesFromPagesList :
    State.t -> SpearlyJSGenerator.t -> DefaultSettings.t -> World ->
    Completion (list Page.t) * World;
}.

(** node-html-parser, path, url, process and chalk, and the conversion of
    a number to a string that a template literal performs
    ([Number::toString] of ECMAScript). *)
Class Platform : Type := {
  parse : string -> Element;
  outerHTML : Element -> string;
  path_resolve : list string -> string;
  process_cwd : string;
  libDirname : string;
  chalk_green : string -> string;
  numberToString : Z -> string;
}.

#[global] Instance Element_inhabited : Inhabited Element :=
  populate (mkElement "" "" "" []).

#[global] Instance State_inhabited : Inhabited State.t :=
  populate (State.mk [] [] inhabitant ∅ (Out.mk [])).

#[global] Instance DefaultSettings_inhabited : Inhabited DefaultSettings.t :=
  populate (DefaultSettings.mk "" "" "" [] [] "" "" "" "" 0 "" false "" "" false "" "" [] false).

(** ** The pipeline monad: machine state, exceptions and events *)

Definition M (World A : Type) : Type :=
  Machine.t World -> Completion A * Machine.t World * list Event.

#[global] Instance M_ret {World} : MRet (M World) :=
  fun A a m => (Normal a, m, []).

#[global] Instance M_bind {World} : MBind (M World) :=
  fun A B k c m =>
    match c m with
    | (Normal a, m1, ev1) => let '(r, m2, ev2) := k a m1 in (r, m2, ev1 ++ ev2)
    | (Throw e, m1, ev1) => (Throw e, m1, ev1)
    end.

Section Primitives.
Context {World : Type}.

Definition throw {A} (e : Exn) : M World A := fun m => (Throw e, m, []).

(** The body of a [try]: its completion becomes a value. *)
Definition attempt {A} (c : M World A) : M World (Completion A) :=
  fun m => let '(r, m1, ev) := c m in (Normal r, m1, ev).

Definition emit (ev : Event) : M World unit := fun m => (Normal tt, m, [ev]).

Definition getMachine : M World (Machine.t World) := fun m => (Normal m, m, []).

Definition modifyMachine (f : Machine.t World -> Machine.t World) : M World unit :=
  fun m => (Normal tt, f m, []).

Definition modifyMem (f : Mem.t World -> Mem.t World) : M World unit :=
  modifyMachine (fun m => Machine.setMem m (f (Machine.mem m))).

(** The result, the final machine and the events of a run. *)
Definition resultOf {A} (r : Completion A * Machine.t World * list Event) := r.1.1.
Definition machineOf {A} (r : Completion A * Machine.t World * list Event) := r.1.2.
Definition eventsOf {A} (r : Completion A * Machine.t World * list Event) := r.2.

(** Reading and writing objects of the store. *)
Definition stateAt (m : Machine.t World) (l : loc) : State.t :=
  Mem.stateObjs (Machine.mem m) !!! l.

Definition settingsAt (m : Machine.t World) (l : loc) : DefaultSettings.t :=
  Mem.settingsObjs (Machine.mem m) !!! l.

(** The object the variable [Settings] refers to. *)
Definition currentSettings (m : Machine.t World) : DefaultSettings.t :=
  settingsAt m (Machine.Settings m).

Definition readState (l : loc) : M World State.t :=
  fun m => (Normal (stateAt m l), m, []).

Definition writeState (l : loc) (s : State.t) : M World unit :=
  modifyMem (fun x => Mem.setStateObjs x (<[l := s]> (Mem.stateObjs x))).

Definition readSettings : M World DefaultSettings.t :=
  fun m => (Normal (currentSettings m), m, []).

(** An assignment to a field of the object [Settings] refers to. *)
Definition updateSettings (f : DefaultSettings.t -> DefaultSettings.t) : M World unit :=
  modifyMachine (fun m =>
    Machine.setMem m
      (Mem.setSettingsObjs (Machine.mem m)
         (<[Machine.Settings m := f (currentSettings m)]>
            (Mem.settingsObjs (Machine.mem m))))).

(** An object literal: a new object in the store. *)
Definition newStateObject (s : State.t) : M World loc :=
  fun m =>
    let h := Mem.stateObjs (Machine.mem m) in
    let l := fresh (dom h) in
    (Normal l, Machine.setMem m (Mem.setStateObjs (Machine.mem m) (<[l := s]> h)), []).

Definition newSettingsObject (s : DefaultSettings.t) : M World loc :=
  fun m =>
    let h := Mem.settingsObjs (Machine.mem m) in
    let l := fresh (dom h) in
    (Normal l, Machine.setMem m (Mem.setSettingsObjs (Machine.mem m) (<[l := s]> h)), []).

(** Modelled from the spec: [stateDeepCopy] of utils/util.js is not among
    the sources; it returns a deep structural copy of its argument: a new
    object with the same contents that shares nothing with the
    original. *)
Definition stateDeepCopy (l : loc) : M World loc :=
  s ← readState l; newStateObject s.

(** Modelled from the spec: [defaultSettingDeepCopy] of utils/util.js is
    not among the sources; it returns a deep structural copy of its
    argument. *)
Definition defaultSettingDeepCopy (l : loc) : M World loc :=
  fun m => newSettingsObject (settingsAt m l) m.

Definition consoleWarn (msg : string) : M World unit := emit (EvConsoleWarn msg).
Definition loggerError (e : Exn) : M World unit := emit (EvLoggerError e).
Definition loggerLog (msg : string) : M World unit := emit (EvLoggerLog msg).

(** A call of a collaborator that only touches the world. *)
Definition onWorld {A} (f : World -> Completion A * World) (ev : Completion A -> list Event)
  : M World A :=
  fun m =>
    let '(r, w) := f (Mem.world (Machine.mem m)) in
    (r, Machine.setMem m (Mem.setWorld (Machine.mem m) w), ev r).

End Primitives.

(** ** magic.ts *)

Section Pipeline.
Context {World : Type} {FU : FileUtil World} {DM : Dom World} {PF : Platform}.

(** The plugin objects; [Settings.plugins] lists indices of this table. *)
Variable plugin : PluginId -> Plugin.t World.

(** [for (const x of l) { body }] *)
Fixpoint forEach {A} (l : list A) (body : A -> M World unit) : M World unit :=
  match l with
  | [] => mret tt
  | x :: rest => body x;; forEach rest body
  end.

(** The module-level variables at load time: [dirname = process.cwd()],
    [Settings] and [jsGenerator] not yet assigned. *)
Definition initialMachine (mem : Mem.t World) (unassigned : loc) : Machine.t World :=
  Machine.mk mem process_cwd unassigned None.

(** *** initializeArgument (lines 26-51) *)

Definition initializeArgument (args : Args.t) : M World unit :=
  match Js.truthyString (Args.src args) with
  | Some src => modifyMachine (fun m => Machine.setDirname m (path_resolve [src]))
  | None => mret tt
  end;;
  m ← getMachine;
  let dirname := Machine.dirname m in
  l ← newSettingsObject
        {| DefaultSettings.projectName := "Spear CLI";
           DefaultSettings.settingsFile := "spear.config";
           DefaultSettings.pagesFolder := dirname +:+ "/src/pages";
           DefaultSettings.componentsFolder := [ dirname +:+ "/src/components" ];
           DefaultSettings.srcDir := [ dirname +:+ "/src" ];
           DefaultSettings.distDir := dirname +:+ "/dist";
           DefaultSettings.entry := dirname +:+ "/src/pages/index.?(spear|html)";
           DefaultSettings.template := dirname +:+ "/public/index.html";
           DefaultSettings.spearlyAuthKey := "";
           DefaultSettings.port := 8080;
           DefaultSettings.host := "0.0.0.0";
           DefaultSettings.crossOriginIsolation := false;
           DefaultSettings.apiDomain := "api.spearly.com";
           DefaultSettings.analysysDomain := "analytics.spearly.com";
           DefaultSettings.generateSitemap := false;
           DefaultSettings.siteURL := "";
           DefaultSettings.rootDir := dirname;
           DefaultSettings.plugins := [];
           DefaultSettings.quiteMode := false |};
  modifyMachine (fun m => Machine.setSettings m l).

(** *** Plugin hooks *)

(** [await plugin.hook(arg, { fileUtil, logger })] *)
Definition callHook (cp : Checkpoint) (id : PluginId) (hook : Hook World) (arg : loc)
  : M World (option loc) :=
  fun m =>
    let '(r, mem) := hook arg (Machine.mem m) in
    (r, Machine.setMem m mem, [EvHook cp id arg r]).

(** One iteration of the loops at lines 67-80, 130-143 and 149-162; the
    loops run over the plugin list read when they start. *)
Definition stateHookStep (cp : Checkpoint) (id : PluginId) (state : loc) : M World loc :=
  match hookSlot cp (plugin id) with
  | None => mret state
  | Some hook =>
      r ← attempt (newState ← callHook cp id hook state;
                    match newState with
                    | Some newState => stateDeepCopy newState
                    | None => mret state
                    end);
      match r with
      | Normal state' => mret state'
      | Throw e =>
          consoleWarn (warnMessage cp (Plugin.pluginName (plugin id)));;
          mret state
      end
  end.

Fixpoint runStateHooks (cp : Checkpoint) (plugins : list PluginId) (state : loc)
  : M World loc :=
  match plugins with
  | [] => mret state
  | id :: rest =>
      state' ← stateHookStep cp id state;
      runStateHooks cp rest state'
  end.

(** One iteration of the loop at lines 190-203; the loop runs over the
    plugin list read when it starts. *)
Definition configurationHookStep (id : PluginId) : M World unit :=
  match hookSlot Configuration (plugin id) with
  | None => mret tt
  | Some hook =>
      r ← attempt (m ← getMachine;
                    newSettings ← callHook Configuration id hook (Machine.Settings m);
                    match newSettings with
                    | Some newSettings =>
                        l ← defaultSettingDeepCopy newSettings;
                        modifyMachine (fun m => Machine.setSettings m l)
                    | None => mret tt
                    end);
      match r with
      | Normal _ => mret tt
      | Throw e =>
          consoleWarn (warnMessage Configuration (Plugin.pluginName (plugin id)))
      end
  end.

Definition runConfigurationHooks (plugins : list PluginId) : M World unit :=
  forEach plugins configurationHookStep.

(** *** loadSettingsFromFile (lines 167-174) and loadSettings (lines 176-204) *)

Definition callLoadFile (pattern : string) : M World (option SettingsData.t) :=
  onWorld (loadFile pattern) (fun r => [EvLoadFile pattern r]).

Definition loadSettingsFromFile : M World unit :=
  m ← getMachine;
  data ← callLoadFile (Machine.dirname m +:+ "/" +:+
                        DefaultSettings.settingsFile (currentSettings m) +:+
                        ".?(mjs|js|json)");
  match data with
  | Some data => updateSettings (SettingsData.assignTo data)
  | None => mret tt
  end.

(** Lines 178-187: the settings file, the logger, the deduplication. *)
Definition loadSettingsPrologue : M World unit :=
  loadSettingsFromFile;;
  s ← readSettings;
  modifyMem (fun x => Mem.setLoggerIsQuite x (DefaultSettings.quiteMode s));;
  updateSettings (fun s => DefaultSettings.setSrcDir s (dedupSrcDir (DefaultSettings.srcDir s))).

Definition loadSettings : M World unit :=
  loadSettingsPrologue;;
  s ← readSettings;
  runConfigurationHooks (DefaultSettings.plugins s).

(** *** bundle (lines 53-165) *)

(** [parse("")]: the state a pass starts from. *)
Definition emptyState : State.t :=
  {| State.pagesList := [];
     State.componentsList := [];
     State.body := parse "";
     State.globalProps := ∅;
     State.out := {| Out.assetsFiles := [] |} |}.

Definition newSpearlyJSGenerator : M World SpearlyJSGenerator.t :=
  s ← readSettings;
  let gen := {| SpearlyJSGenerator.authKey := DefaultSettings.spearlyAuthKey s;
                SpearlyJSGenerator.apiDomain := DefaultSettings.apiDomain s;
                SpearlyJSGenerator.analysysDomain := DefaultSettings.analysysDomain s |} in
  modifyMachine (fun m => Machine.setJsGenerator m gen);;
  mret gen.

(** [fileUtil.createDir(Settings)] *)
Definition callCreateDir : M World unit :=
  s ← readSettings;
  onWorld (createDir s) (fun r => [EvCreateDir r]).

(** [await fileUtil.parseComponents(state, componentsFolder, Settings)] *)
Definition callParseComponents (state : loc) (componentsFolder : string) : M World unit :=
  fun m =>
    let '(r, s, w) :=
      parseComponents (stateAt m state) componentsFolder (currentSettings m)
        (Mem.world (Machine.mem m)) in
    (r,
     Machine.setMem m
       (Mem.setWorld
          (Mem.setStateObjs (Machine.mem m) (<[state := s]> (Mem.stateObjs (Machine.mem m))))
          w),
     [EvParseComponents componentsFolder r]).

(** [await fileUtil.parsePages(state, srcDir)] *)
Definition callParsePages (state : loc) (srcDir : string) : M World unit :=
  fun m =>
    let '(r, s, w) := parsePages (stateAt m state) srcDir (Mem.world (Machine.mem m)) in
    (r,
     Machine.setMem m
       (Mem.setWorld
          (Mem.setStateObjs (Machine.mem m) (<[state := s]> (Mem.stateObjs (Machine.mem m))))
          w),
     [EvParsePages srcDir r]).

(** [await parseElements(state, nodes, jsGenerator, Settings)] *)
Definition callParseElements (state : loc) (nodes : list Element)
    (gen : SpearlyJSGenerator.t) : M World (list Element) :=
  m ← getMachine;
  onWorld (parseElements (stateAt m state) nodes gen (currentSettings m))
          (fun r => [EvParseElements nodes r]).

(** [await generateAliasPagesFromPagesList(state, jsGenerator, Settings)] *)
Definition callGenerateAliasPages (state : loc) (gen : SpearlyJSGenerator.t)
  : M World (list Page.t) :=
  m ← getMachine;
  onWorld (generateAliasPagesFromPagesList (stateAt m state) gen (currentSettings m))
          (fun r => [EvGenerateAliasPages r]).

(** [fileUtil.dumpPages(state, libDirname, Settings)] *)
Definition callDumpPages (state : loc) : M World unit :=
  m ← getMachine;
  onWorld (dumpPages (stateAt m state) libDirname (currentSettings m))
          (fun r => [EvDumpPages state r]).

(** Reading [parsedNode[0].outerHTML] when [parsedNode] is empty. *)
Definition undefinedOuterHTML : Exn :=
  "TypeError: Cannot read properties of undefined (reading 'outerHTML')".

(** The loop at lines 107-116; [componentsList] is the local array. *)
Fixpoint resolveComponents (state : loc) (gen : SpearlyJSGenerator.t)
    (todo : list Component.t) (componentsList : list Component.t)
  : M World (list Component.t) :=
  match todo with
  | [] => mret componentsList
  | component :: rest =>
      parsedNode ← callParseElements state (childNodes (Component.node component)) gen;
      match parsedNode with
      | [] => throw undefinedOuterHTML
      | first :: _ =>
          resolveComponents state gen rest
            (componentsList ++
             [ {| Component.fname := Component.fname component;
                  Component.rawData := outerHTML first;
                  Component.tagName := Component.tagName component;
                  Component.node := first;
                  Component.props := ∅ |} ])
      end
  end.

(** [page.node.childNodes = nodes] for the page at index [i]. *)
Definition assignPageChildNodes (state : loc) (i : nat) (nodes : list Element)
  : M World unit :=
  s ← readState state;
  writeState state
    (State.setPagesList s
       (alter (fun page => Page.setChildNodes page nodes) i (State.pagesList s))).

(** The body of the loop at lines 120-124, for the page at index [i]. *)
Definition resolvePage (state : loc) (gen : SpearlyJSGenerator.t) (i : nat)
  : M World unit :=
  s ← readState state;
  match State.pagesList s !! i with
  | None => mret tt
  | Some page =>
      nodes ← callParseElements state (childNodes (Page.node page)) gen;
      assignPageChildNodes state i nodes;;
      s ← readState state;
      match State.pagesList s !! i with
      | None => mret tt
      | Some page =>
          nodes ← callParseElements state (childNodes (Page.node page)) gen;
          assignPageChildNodes state i nodes
      end
  end.

(** Lines 104-127: components, pages, alias pages. *)
Definition bundleResolve (state : loc) (gen : SpearlyJSGenerator.t) : M World unit :=
  s ← readState state;
  componentsList ← resolveComponents state gen (State.componentsList s) [];
  s ← readState state;
  writeState state (State.setComponentsList s componentsList);;
  s ← readState state;
  forEach (seq 0 (length (State.pagesList s))) (resolvePage state gen);;
  pages ← callGenerateAliasPages state gen;
  s ← readState state;
  writeState state (State.setPagesList s pages).

(** Lines 129-164: afterBuild hooks, dump, bundle hooks. *)
Definition bundleFinish (state : loc) : M World bool :=
  s ← readSettings;
  state ← runStateHooks AfterBuild (DefaultSettings.plugins s) state;
  callDumpPages state;;
  s ← readSettings;
  state ← runStateHooks Bundle (DefaultSettings.plugins s) state;
  mret true.

(** Lines 104-164: what follows the two parse loops. *)
Definition bundleAfterParse (state : loc) (gen : SpearlyJSGenerator.t) : M World bool :=
  bundleResolve state gen;;
  bundleFinish state.

(** Lines 85-164: the two parse loops and what follows them. *)
Definition bundleParse (state : loc) (gen : SpearlyJSGenerator.t) : M World bool :=
  r ← attempt (s ← readSettings;
                forEach (DefaultSettings.componentsFolder s) (callParseComponents state));
  match r with
  | Throw e => loggerError e;; mret false
  | Normal _ =>
      r ← attempt (s ← readSettings;
                    forEach (DefaultSettings.srcDir s) (callParsePages state));
      match r with
      | Throw e => loggerError e;; mret false
      | Normal _ => bundleAfterParse state gen
      end
  end.

(** The pass once its state object exists (lines 64-164). *)
Definition bundleFrom (state : loc) : M World bool :=
  gen ← newSpearlyJSGenerator;
  s ← readSettings;
  state ← runStateHooks BeforeBuild (DefaultSettings.plugins s) state;
  callCreateDir;;
  bundleParse state gen.

Definition bundle : M World bool :=
  state ← newStateObject emptyState;
  bundleFrom state.

(** *** magic (lines 206-274) *)

(** The template literal of lines 263-268, with its line breaks and its
    indentation. *)
Definition serverStartedMessage (port : Z) : string :=
  "
    Server started on port " +:+ numberToString port +:+ " 🚀
    You can access the following URL:

      http://localhost:" +:+ numberToString port +:+ "
    ".

(** The callback given to [watch] (lines 231-238). [bundle()] is not
    awaited there: neither its result nor its failure reaches the
    callback. *)
Definition onWatchEvent (name : string) : M World unit :=
  loggerLog ("changed: " +:+ name);;
  loadSettings;;
  _ ← attempt bundle;
  mret tt.

Definition magic (args : Args.t) : M World bool :=
  initializeArgument args;;
  (if String.eqb (Args.action args) "watch"
   then m ← getMachine;
        updateSettings (fun s =>
          DefaultSettings.setDistDir s
            (path_resolve [Machine.dirname m; "node_modules"; "spear-cli"; "tmpBuild"]))
   else mret tt);;
  loadSettings;;
  if String.eqb (Args.action args) "watch" then
    match Js.truthyNumber (Args.port args) with
    | Some port => updateSettings (fun s => DefaultSettings.setPort s port)
    | None => mret tt
    end;;
    _ ← bundle;
    emit EvWatch;;
    s ← readSettings;
    emit (EvLiveServerStart (DefaultSettings.port s) (DefaultSettings.host s)
            (DefaultSettings.distDir s) (DefaultSettings.crossOriginIsolation s));;
    s ← readSettings;
    loggerLog (chalk_green (serverStartedMessage (DefaultSettings.port s)));;
    mret true
  else if String.eqb (Args.action args) "build" then bundle
  else mret false.

End Pipeline.

(** ** Vocabulary of the properties *)

#[global] Instance Checkpoint_eq_dec : EqDecision Checkpoint.
Proof. solve_decision. Defined.

(** The plugin whose hook an event invokes at checkpoint [cp]. *)
Definition hookCall (cp : Checkpoint) (ev : Event) : option PluginId :=
  match ev with
  | EvHook cp' id _ _ => if decide (cp' = cp) then Some id else None
  | _ => None
  end.

(** The plugins invoked at checkpoint [cp], in the order of the run. *)
Definition hookCalls (cp : Checkpoint) (evs : list Event) : list PluginId :=
  omap (hookCall cp) evs.

(** The plugin has a hook in the slot of checkpoint [cp]. *)
Definition hasHook {World} (plugin : PluginId -> Plugin.t World) (cp : Checkpoint)
    (id : PluginId) : bool :=
  match hookSlot cp (plugin id) with
  | Some _ => true
  | None => false
  end.

(** The stage of the build a call belongs to; console and logger output
    belongs to none. *)
Definition eventRank (ev : Event) : option nat :=
  match ev with
  | EvLoadFile _ _ => Some 0
  | EvHook Configuration _ _ _ => Some 1
  | EvHook BeforeBuild _ _ _ => Some 2
  | EvCreateDir _ => Some 3
  | EvParseComponents _ _ => Some 4
  | EvParsePages _ _ => Some 5
  | EvParseElements _ _ => Some 6
  | EvGenerateAliasPages _ => Some 7
  | EvHook AfterBuild _ _ _ => Some 8
  | EvDumpPages _ _ => Some 9
  | EvHook Bundle _ _ _ => Some 10
  | EvWatch => Some 11
  | EvLiveServerStart _ _ _ _ => Some 12
  | EvConsoleWarn _ | EvLoggerError _ | EvLoggerLog _ => None
  end.

Definition checkpointRank (cp : Checkpoint) : nat :=
  match cp with
  | Configuration => 1
  | BeforeBuild => 2
  | AfterBuild => 8
  | Bundle => 10
  end.

(** The calls of a run happen stage after stage. *)
Definition inPipelineOrder (evs : list Event) : Prop :=
  StronglySorted le (omap eventRank evs).

(** The calls of a run happen stage after stage, within stages [lo..hi]. *)
Definition within (lo hi : nat) (evs : list Event) : Prop :=
  inPipelineOrder evs /\ Forall (fun r => lo <= r <= hi) (omap eventRank evs).

(** A collaborator call that threw. *)
Definition collaboratorFailed (ev : Event) : bool :=
  match ev with
  | EvLoadFile _ (Throw _)
  | EvCreateDir (Throw _)
  | EvParseComponents _ (Throw _)
  | EvParsePages _ (Throw _)
  | EvParseElements _ (Throw _)
  | EvGenerateAliasPages (Throw _)
  | EvDumpPages _ (Throw _) => true
  | _ => false
  end.

(** A parse of a component directory or of a source directory that threw. *)
Definition parseFailed (ev : Event) : bool :=
  match ev with
  | EvParseComponents _ (Throw _) | EvParsePages _ (Throw _) => true
  | _ => false
  end.

(** A parse call that returned, and a parse call that threw [e]. *)
Definition parsedOk (ev : Event) : Prop :=
  exists dir, ev = EvParseComponents dir (Normal tt) \/ ev = EvParsePages dir (Normal tt).

Definition parseThrew (ev : Event) (e : Exn) : Prop :=
  exists dir, ev = EvParseComponents dir (Throw e) \/ ev = EvParsePages dir (Throw e).

(** A resolver call that returned no node. *)
Definition resolvedToNothing (ev : Event) : bool :=
  match ev with
  | EvParseElements _ (Normal []) => true
  | _ => false
  end.

(** A thrown exception is explained by the events of the run: a
    collaborator call threw, or the pipeline read [parsedNode[0].outerHTML]
    after a resolver call returned no node. *)
Definition explained {A} (Q : A -> Prop) (r : Completion A) (evs : list Event) : Prop :=
  match r with
  | Normal a => Q a
  | Throw e =>
      (exists ev, In ev evs /\ collaboratorFailed ev = true) \/
      (e = undefinedOuterHTML /\
       exists nodes, In (EvParseElements nodes (Normal [])) evs)
  end.

Definition isParseElements (ev : Event) : bool :=
  match ev with
  | EvParseElements _ _ => true
  | _ => false
  end.

Definition isDumpPages (ev : Event) : bool :=
  match ev with
  | EvDumpPages _ _ => true
  | _ => false
  end.

(** A resolver call that returned at least one node. *)
Definition resolvedToSomething (ev : Event) : Prop :=
  exists nodes first others, ev = EvParseElements nodes (Normal (first :: others)).

(** The component rebuilt by line 109 from [component] and the first
    resolved node. *)
Definition rebuiltComponent `{!Platform} (component : Component.t) (first : Element)
  : Component.t :=
  {| Component.fname := Component.fname component;
     Component.rawData := outerHTML first;
     Component.tagName := Component.tagName component;
     Component.node := first;
     Component.props := ∅ |}.

(** One resolver call per component, on the children of its node, and the
    list rebuilt from the first node of each result. *)
Inductive Rebuilt `{!Platform}
  : list Component.t -> list Event -> list Component.t -> Prop :=
| Rebuilt_nil : Rebuilt [] [] []
| Rebuilt_cons component todo first others evs rebuilt :
    Rebuilt todo evs rebuilt ->
    Rebuilt (component :: todo)
      (EvParseElements (childNodes (Component.node component)) (Normal (first :: others))
         :: evs)
      (rebuiltComponent component first :: rebuilt).

(** Two resolver calls per page: the first on the children of the page,
    the second on the result of the first; the page keeps the result of
    the second. *)
Inductive TwicePerPage : list Page.t -> list Event -> list Page.t -> Prop :=
| TwicePerPage_nil : TwicePerPage [] [] []
| TwicePerPage_cons page pages first second evs resolved :
    TwicePerPage pages evs resolved ->
    TwicePerPage (page :: pages)
      (EvParseElements (childNodes (Page.node page)) (Normal first)
         :: EvParseElements first (Normal second) :: evs)
      (Page.setChildNodes page second :: resolved).

(** The event belongs to stage [n] at the latest. *)
Definition upTo (n : nat) (ev : Event) : Prop :=
  forall r, eventRank ev = Some r -> r <= n.

(** A computation that makes no call, and one whose calls stay within
    stages [lo..hi], in order. *)
Definition silent {World A} (c : M World A) : Prop := forall m, eventsOf (c m) = [].

Definition runsWithin {World A} (lo hi : nat) (c : M World A) : Prop :=
  forall m, within lo hi (eventsOf (c m)).

(** Whenever the computation throws, its events explain why. *)
Definition accountable {World A} (Q : A -> Prop) (c : M World A) : Prop :=
  forall m, explained Q (resultOf (c m)) (eventsOf (c m)).

(** What the pipeline does around a hook that throws: the call, then the
    warning. *)
Definition failureEvents {World} (plugin : PluginId -> Plugin.t World)
    (cp : Checkpoint) (id : PluginId) (arg : loc) (e : Exn) : list Event :=
  [ EvHook cp id arg (Throw e);
    EvConsoleWarn (warnMessage cp (Plugin.pluginName (plugin id))) ].

(** A run with events put in front of its own. *)
Definition prefixed {World A} (evs : list Event)
    (run : Completion A * Machine.t World * list Event)
  : Completion A * Machine.t World * list Event :=
  (resultOf run, machineOf run, evs ++ eventsOf run).

(** ** A small project, to run the pipeline on

    One components directory, four source directories, three plugins: one
    whose hooks all throw, one whose hooks all return the object they were
    given, one whose beforeBuild hook returns nothing. The resolver marks
    every node it is given. *)

Module Fixture.

Definition World : Type := unit.

Definition text (s : string) : Element := mkElement "" "" s [].

Definition boxRoot : Element :=
  mkElement "" "" "" [mkElement "div" "" "" [text "X"]; mkElement "p" "" "" [text "Y"]].

Definition box (dir : string) : Component.t :=
  Component.mk (dir +:+ "/box.spear") "<div>X</div><p>Y</p>" "box" boxRoot ∅.

Definition indexPage (dir : string) : Page.t :=
  Page.mk (dir +:+ "/index.html") (mkElement "" "" "" [mkElement "box" "" "" []]).

Definition settingsFile : SettingsData.t :=
  SettingsData.mk None None None (Some ["/a/components"])
    (Some ["/a"; "/a/b"; "/a/components"; "/a/components/sub"])
    None None None None None None None None None None None None (Some [0; 1; 2]) None.

#[global] Instance fileUtil : FileUtil World := {|
  loadFile _ w := (Normal (Some settingsFile), w);
  createDir _ w := (Normal tt, w);
  parseComponents st dir _ w :=
    (Normal tt, State.setComponentsList st (State.componentsList st ++ [box dir]), w);
  parsePages st dir w :=
    (Normal tt, State.setPagesList st (State.pagesList st ++ [indexPage dir]), w);
  dumpPages _ _ _ w := (Normal tt, w);
|}.

(** The same project with a components directory that cannot be read. *)
Definition unreadableComponents : FileUtil World := {|
  loadFile _ w := (Normal (Some settingsFile), w);
  createDir _ w := (Normal tt, w);
  parseComponents st dir _ w := (Throw "ENOENT", st, w);
  parsePages st dir w :=
    (Normal tt, State.setPagesList st (State.pagesList st ++ [indexPage dir]), w);
  dumpPages _ _ _ w := (Normal tt, w);
|}.

Definition mark (e : Element) : Element :=
  mkElement (rawTagName e) (rawAttrs e) (rawText e +:+ "!") (childNodes e).

#[global] Instance resolver : Dom World := {|
  parseElements _ nodes _ _ w := (Normal (map mark nodes), w);
  generateAliasPagesFromPagesList st _ _ w := (Normal (State.pagesList st), w);
|}.

(** The same resolver with an alias generation that throws. *)
Definition failingAlias : Dom World := {|
  parseElements _ nodes _ _ w := (Normal (map mark nodes), w);
  generateAliasPagesFromPagesList st _ _ w := (Throw "alias generation failed", w);
|}.

#[global] Instance platform : Platform := {|
  parse s := text s;
  outerHTML e := "<" +:+ rawTagName e +:+ ">";
  path_resolve parts := String.concat "/" parts;
  process_cwd := "/proj";
  libDirname := "/lib";
  chalk_green s := s;
  numberToString z := NilZero.string_of_int (Z.to_int z);
|}.

Definition throwing : Hook World := fun _ mem => (Throw "boom", mem).
Definition returningItsArgument : Hook World := fun arg mem => (Normal (Some arg), mem).
Definition returningNothing : Hook World := fun _ mem => (Normal None, mem).

Definition thrower : Plugin.t World :=
  Plugin.mk "thrower" (Some throwing) (Some throwing) (Some throwing) (Some throwing).

Definition replacer : Plugin.t World :=
  Plugin.mk "replacer" (Some returningItsArgument) (Some returningItsArgument)
    (Some returningItsArgument) (Some returningItsArgument).

Definition quiet : Plugin.t World :=
  Plugin.mk "quiet" None (Some returningNothing) None None.

Definition noHooks : Plugin.t World := Plugin.mk "" None None None None.

(** A configuration hook that returns new settings of its own making. *)
Definition returningNestedSrcDir : Hook World :=
  fun arg mem =>
    let objs := Mem.settingsObjs mem in
    let l := fresh (dom objs) in
    (Normal (Some l),
     Mem.setSettingsObjs mem
       (<[l := DefaultSettings.setSrcDir (objs !!! arg) ["/x"; "/x/y"]]> objs)).

Definition rewirer : Plugin.t World :=
  Plugin.mk "rewirer" (Some returningNestedSrcDir) None None None.

Definition plugin (id : PluginId) : Plugin.t World :=
  match id with
  | 0 => thrower
  | 1 => replacer
  | 2 => quiet
  | _ => noHooks
  end.

Definition build : Args.t := Args.mk "build" None None.

(** The process before [magic] is called, and once the settings are
    loaded. *)
Definition start : Machine.t World := initialMachine (Mem.mk ∅ ∅ false tt) 1%positive.

Definition loaded : Machine.t World :=
  Eval vm_compute in machineOf ((initializeArgument build;; loadSettings plugin) start).

(** The generator of the small project, and the store once its
    directories are parsed into the state object at reference 1. *)
Definition generator : SpearlyJSGenerator.t :=
  SpearlyJSGenerator.mk "" "api.spearly.com" "analytics.spearly.com".

Definition parsedState : State.t :=
  State.mk [indexPage "/a"; indexPage "/a/b"] [box "/a/components"] (text "") ∅
    (Out.mk []).

Definition parsed : Machine.t World :=
  Eval vm_compute in machineOf (writeState 1%positive parsedState loaded).

(** The store once a first pass has run. *)
Definition built : Machine.t World :=
  Eval vm_compute in machineOf (bundle plugin loaded).

End Fixture.

(** ** Vocabulary of the further properties *)

(** The pattern [loadSettingsFromFile] gives to [loadFile] (line 168). *)
Definition settingsFilePattern {World} (m : Machine.t World) : string :=
  Machine.dirname m +:+ "/" +:+ DefaultSettings.settingsFile (currentSettings m) +:+
  ".?(mjs|js|json)".

(** What [loadFile] answers to [loadSettingsFromFile] in a machine. *)
Definition settingsFileOutcome {World} `{!FileUtil World} (m : Machine.t World)
  : Completion (option SettingsData.t) :=
  (loadFile (settingsFilePattern m) (Mem.world (Machine.mem m))).1.

(** The value a key has once the settings file is read: the value of the
    file if the file defines the key, the previous one otherwise. *)
Definition fromFile {A} (data : option SettingsData.t) (key : SettingsData.t -> option A)
    (previous : A) : A :=
  default previous (data ≫= key).

(** The value of [dirname] once [initializeArgument] has read [args]. *)
Definition dirnameFor `{!Platform} (args : Args.t) (previous : string) : string :=
  match Js.truthyString (Args.src args) with
  | Some src => path_resolve [src]
  | None => previous
  end.

(** The object literal of lines 30-50, for a value of [dirname]. *)
Definition defaultSettingsFor (dirname : string) : DefaultSettings.t :=
  {| DefaultSettings.projectName := "Spear CLI";
     DefaultSettings.settingsFile := "spear.config";
     DefaultSettings.pagesFolder := dirname +:+ "/src/pages";
     DefaultSettings.componentsFolder := [ dirname +:+ "/src/components" ];
     DefaultSettings.srcDir := [ dirname +:+ "/src" ];
     DefaultSettings.distDir := dirname +:+ "/dist";
     DefaultSettings.entry := dirname +:+ "/src/pages/index.?(spear|html)";
     DefaultSettings.template := dirname +:+ "/public/index.html";
     DefaultSettings.spearlyAuthKey := "";
     DefaultSettings.port := 8080;
     DefaultSettings.host := "0.0.0.0";
     DefaultSettings.crossOriginIsolation := false;
     DefaultSettings.apiDomain := "api.spearly.com";
     DefaultSettings.analysysDomain := "analytics.spearly.com";
     DefaultSettings.generateSitemap := false;
     DefaultSettings.siteURL := "";
     DefaultSettings.rootDir := dirname;
     DefaultSettings.plugins := [];
     DefaultSettings.quiteMode := false |}.

(** Lines 169-173: the settings once the keys of the file are assigned. *)
Definition settingsWithFile (data : option SettingsData.t) (s : DefaultSettings.t)
  : DefaultSettings.t :=
  match data with
  | Some data => SettingsData.assignTo data s
  | None => s
  end.

(** Lines 178-187: the settings once the file is read and [srcDir] is
    deduplicated. *)
Definition settingsAfterLoad (data : option SettingsData.t) (s : DefaultSettings.t)
  : DefaultSettings.t :=
  DefaultSettings.setSrcDir (settingsWithFile data s)
    (dedupSrcDir (DefaultSettings.srcDir (settingsWithFile data s))).

(** The output directory of a watch session (line 210). *)
Definition watchDistDir `{!Platform} (dirname : string) : string :=
  path_resolve [dirname; "node_modules"; "spear-cli"; "tmpBuild"].

(** Lines 207-211 of [magic]: what precedes [loadSettings]. *)
Definition magicPrepare {World} `{!Platform} (args : Args.t) : M World unit :=
  initializeArgument args;;
  (if String.eqb (Args.action args) "watch"
   then m ← getMachine;
        updateSettings (fun s =>
          DefaultSettings.setDistDir s
            (path_resolve [Machine.dirname m; "node_modules"; "spear-cli"; "tmpBuild"]))
   else mret tt).

(** Lines 216-218 of [magic]: the port of the command line. *)
Definition magicPort {World} (args : Args.t) : M World unit :=
  match Js.truthyNumber (Args.port args) with
  | Some port => updateSettings (fun s => DefaultSettings.setPort s port)
  | None => mret tt
  end.

(** Lines 215-273 of [magic]: what follows [loadSettings]. *)
Definition magicAfterLoad {World} `{!FileUtil World, !Dom World, !Platform}
    (plugin : PluginId -> Plugin.t World) (args : Args.t) : M World bool :=
  if String.eqb (Args.action args) "watch" then
    magicPort args;;
    _ ← bundle plugin;
    emit EvWatch;;
    s ← readSettings;
    emit (EvLiveServerStart (DefaultSettings.port s) (DefaultSettings.host s)
            (DefaultSettings.distDir s) (DefaultSettings.crossOriginIsolation s));;
    s ← readSettings;
    loggerLog (chalk_green (serverStartedMessage (DefaultSettings.port s)));;
    mret true
  else if String.eqb (Args.action args) "build" then bundle plugin
  else mret false.

(** What a watch session does once its first pass is over (lines 222-269),
    with the settings [s] of that moment. *)
Definition serverEvents `{!Platform} (s : DefaultSettings.t) : list Event :=
  [ EvWatch;
    EvLiveServerStart (DefaultSettings.port s) (DefaultSettings.host s)
      (DefaultSettings.distDir s) (DefaultSettings.crossOriginIsolation s);
    EvLoggerLog (chalk_green (serverStartedMessage (DefaultSettings.port s))) ].

(** The paths of a settings object. *)
Definition settingsPaths (s : DefaultSettings.t) : list string :=
  DefaultSettings.pagesFolder s :: DefaultSettings.distDir s :: DefaultSettings.entry s
  :: DefaultSettings.template s :: DefaultSettings.rootDir s
  :: DefaultSettings.componentsFolder s ++ DefaultSettings.srcDir s.

(** The events of every run satisfy [P]. *)
Definition emits {World A} (P : list Event -> Prop) (c : M World A) : Prop :=
  forall m, P (eventsOf (c m)).

(** What a run leaves as it was: the module-level variables, and the part
    of the store that [C] describes. *)
Definition framed {World} (C : Mem.t World -> Mem.t World -> Prop)
    (m m' : Machine.t World) : Prop :=
  Machine.dirname m' = Machine.dirname m /\
  Machine.Settings m' = Machine.Settings m /\
  Machine.jsGenerator m' = Machine.jsGenerator m /\
  C (Machine.mem m) (Machine.mem m').

Definition keeps {World A} (C : Mem.t World -> Mem.t World -> Prop) (c : M World A) : Prop :=
  forall m, framed C m (machineOf (c m)).

(** Nothing is said of the store. *)
Definition anyStore {World} (mem mem' : Mem.t World) : Prop := True.

(** The settings objects are as they were. *)
Definition sameSettingsObjs {World} (mem mem' : Mem.t World) : Prop :=
  Mem.settingsObjs mem' = Mem.settingsObjs mem.

(** The hooks of the build checkpoints leave the settings objects alone. *)
Definition stateHooksKeepSettings {World} (plugin : PluginId -> Plugin.t World) : Prop :=
  forall cp id hook arg mem,
    cp <> Configuration ->
    hookSlot cp (plugin id) = Some hook ->
    Mem.settingsObjs (hook arg mem).2 = Mem.settingsObjs mem.

(** The generator [bundle] builds from settings (line 64). *)
Definition generatorOf (s : DefaultSettings.t) : SpearlyJSGenerator.t :=
  {| SpearlyJSGenerator.authKey := DefaultSettings.spearlyAuthKey s;
     SpearlyJSGenerator.apiDomain := DefaultSettings.apiDomain s;
     SpearlyJSGenerator.analysysDomain := DefaultSettings.analysysDomain s |}.

Definition isLoggerError (ev : Event) : bool :=
  match ev with
  | EvLoggerError _ => true
  | _ => false
  end.

Definition isConsoleWarn (ev : Event) : bool :=
  match ev with
  | EvConsoleWarn _ => true
  | _ => false
  end.

Definition isCreateDir (ev : Event) : bool :=
  match ev with
  | EvCreateDir _ => true
  | _ => false
  end.

Definition isGenerateAliasPages (ev : Event) : bool :=
  match ev with
  | EvGenerateAliasPages _ => true
  | _ => false
  end.

(** A hook call that threw. *)
Definition hookThrew (ev : Event) : bool :=
  match ev with
  | EvHook _ _ _ (Throw _) => true
  | _ => false
  end.

(** Every hook call that threw is followed at once by the warning of its
    checkpoint, and there is no other warning. *)
Inductive Warned {World} (plugin : PluginId -> Plugin.t World) : list Event -> Prop :=
| Warned_nil : Warned plugin []
| Warned_failed cp id arg e rest :
    Warned plugin rest ->
    Warned plugin (failureEvents plugin cp id arg e ++ rest)
| Warned_other ev rest :
    isConsoleWarn ev = false -> hookThrew ev = false ->
    Warned plugin rest ->
    Warned plugin (ev :: rest).

(** The exception of a collaborator call made outside any [try] block. *)
Definition uncaught (ev : Event) : option Exn :=
  match ev with
  | EvLoadFile _ (Throw e)
  | EvCreateDir (Throw e)
  | EvParseElements _ (Throw e)
  | EvGenerateAliasPages (Throw e)
  | EvDumpPages _ (Throw e) => Some e
  | _ => None
  end.

(** A run that threw ends with the call that made it throw: a collaborator
    call outside any [try] block that threw the same exception, or a
    resolver call that returned no node for a component. *)
Definition endsWhereItThrew {A} (r : Completion A) (evs : list Event) : Prop :=
  match r with
  | Normal _ => True
  | Throw e =>
      exists before ev,
        evs = before ++ [ev] /\
        (uncaught ev = Some e \/ (e = undefinedOuterHTML /\ resolvedToNothing ev = true))
  end.

Definition abrupt {World A} (c : M World A) : Prop :=
  forall m, endsWhereItThrew (resultOf (c m)) (eventsOf (c m)).

(** The directories a run parses, in the order of the run. *)
Inductive ParseCall : Type :=
| ParsedComponents (dir : string)
| ParsedPages (dir : string).

Definition parseCall (ev : Event) : option ParseCall :=
  match ev with
  | EvParseComponents dir _ => Some (ParsedComponents dir)
  | EvParsePages dir _ => Some (ParsedPages dir)
  | _ => None
  end.

Definition parseCalls (evs : list Event) : list ParseCall := omap parseCall evs.

(** The directories the settings ask a pass to parse: the component
    directories, then the source directories. *)
Definition parsePlan (s : DefaultSettings.t) : list ParseCall :=
  map ParsedComponents (DefaultSettings.componentsFolder s)
  ++ map ParsedPages (DefaultSettings.srcDir s).

(** ** Vocabulary of the stages of a pass *)

(** The plugin list of every settings object of [mem] is the same in
    [mem']. *)
Definition keepsPluginLists {World} (mem mem' : Mem.t World) : Prop :=
  forall l s,
    Mem.settingsObjs mem !! l = Some s ->
    exists s',
      Mem.settingsObjs mem' !! l = Some s' /\
      DefaultSettings.plugins s' = DefaultSettings.plugins s.

(** No hook adds to, removes from or reorders the plugin list of a
    settings object. The loops of the source iterate over the array
    [Settings.plugins] itself; as long as the hooks leave that array as it
    is, the plugins they call are those of the list read when the loop
    starts. *)
Definition hooksKeepPluginLists {World} (plugin : PluginId -> Plugin.t World) : Prop :=
  forall cp id hook arg mem,
    hookSlot cp (plugin id) = Some hook ->
    keepsPluginLists mem (hook arg mem).2.

(** The variable [Settings] refers to an object of the store. *)
Definition settingsAssigned {World} (m : Machine.t World) : Prop :=
  Machine.Settings m ∈ dom (Mem.settingsObjs (Machine.mem m)).

(** The events of one loop over a plugin list at checkpoint [cp], which
    starts with the working object [obj] and ends with the working object
    [final]. A plugin without the hook is passed over. After a hook that
    threw comes the warning, and the loop goes on with the same object;
    after a hook that returned nothing the loop goes on with the same
    object; after a hook that returned an object the loop goes on with
    another object, the copy. *)
Inductive HookRun {World} (plugin : PluginId -> Plugin.t World) (cp : Checkpoint)
  : list PluginId -> loc -> list Event -> loc -> Prop :=
| HookRun_done obj : HookRun plugin cp [] obj [] obj
| HookRun_absent id rest obj evs final :
    hasHook plugin cp id = false ->
    HookRun plugin cp rest obj evs final ->
    HookRun plugin cp (id :: rest) obj evs final
| HookRun_threw id rest obj e evs final :
    hasHook plugin cp id = true ->
    HookRun plugin cp rest obj evs final ->
    HookRun plugin cp (id :: rest) obj (failureEvents plugin cp id obj e ++ evs) final
| HookRun_nothing id rest obj evs final :
    hasHook plugin cp id = true ->
    HookRun plugin cp rest obj evs final ->
    HookRun plugin cp (id :: rest) obj (EvHook cp id obj (Normal None) :: evs) final
| HookRun_replaced id rest obj returned copy evs final :
    hasHook plugin cp id = true ->
    HookRun plugin cp rest copy evs final ->
    HookRun plugin cp (id :: rest) obj
      (EvHook cp id obj (Normal (Some returned)) :: evs) final.

(** The alias generation returned; the dump returned. *)
Definition aliasPagesReturned (ev : Event) : bool :=
  match ev with
  | EvGenerateAliasPages (Normal _) => true
  | _ => false
  end.


(** The three hook loops of a pass, read off its events. The pass starts
    with the beforeBuild loop, on the state object [state0], and then
    creates the output directory. If the alias generation returns, the
    afterBuild loop follows it, on the object the beforeBuild loop ended
    with; the pages are dumped from the object the afterBuild loop ended
    with; if the dump returns, the bundle loop follows it on that object
    and the pass returns [true]. Otherwise no further hook is called. *)
Definition hookLoopsOfAPass {World} (plugin : PluginId -> Plugin.t World)
    (plugins : list PluginId) (state0 : loc) (result : Completion bool)
    (evs : list Event) : Prop :=
  exists evB state1 created rest,
    evs = evB ++ EvCreateDir created :: rest /\
    HookRun plugin BeforeBuild plugins state0 evB state1 /\
    ((within 4 7 rest /\
      Forall (fun ev => aliasPagesReturned ev = false) rest /\
      result <> Normal true)
     \/
     (exists evR aliased evA state2 dumped evL,
        rest = evR ++ EvGenerateAliasPages (Normal aliased) :: evA
                   ++ EvDumpPages state2 dumped :: evL /\
        within 4 6 evR /\
        HookRun plugin AfterBuild plugins state1 evA state2 /\
        match dumped with
        | Normal _ =>
            result = Normal true /\
            exists state3, HookRun plugin Bundle plugins state2 evL state3
        | Throw e => result = Throw e /\ evL = []
        end)).

(** The configuration loop of [loadSettings], read off its events: it
    follows the events [evs0] of the load of the settings file, runs over
    the plugin list [plugins] with the variable [Settings] as working
    object, from the object [settings0] to the object [settings1]. *)
Definition configurationLoop {World} (plugin : PluginId -> Plugin.t World)
    (plugins : list PluginId) (settings0 settings1 : loc) (evs0 evs : list Event) : Prop :=
  exists evC,
    evs = evs0 ++ evC /\
    HookRun plugin Configuration plugins settings0 evC settings1.

Section Stages.
Context {World : Type} {FU : FileUtil World} {DM : Dom World} {PF : Platform}.
Variable plugin : PluginId -> Plugin.t World.

(** Lines 54-64 of [bundle]: the state and the generator of the pass. *)
Definition bundleInit : M World (loc * SpearlyJSGenerator.t) :=
  state ← newStateObject emptyState;
  gen ← newSpearlyJSGenerator;
  mret (state, gen).

(** Lines 66-83 of [bundle]: the beforeBuild hooks and the output
    directory. *)
Definition bundleBefore (state : loc) : M World loc :=
  s ← readSettings;
  state ← runStateHooks plugin BeforeBuild (DefaultSettings.plugins s) state;
  callCreateDir;;
  mret state.

(** Lines 85-102 of [bundle] without their [catch] blocks: the two parse
    loops, which throw what a parse call throws. *)
Definition parseDirectories (state : loc) : M World unit :=
  (s ← readSettings;
   forEach (DefaultSettings.componentsFolder s) (callParseComponents state));;
  (s ← readSettings;
   forEach (DefaultSettings.srcDir s) (callParsePages state)).

(** Lines 54-102 of [bundle]: the pass up to the end of parsing. It gives
    the state object and the generator of the pass; it throws what
    [createDir] or a parse call threw. *)
Definition bundleParsed : M World (loc * SpearlyJSGenerator.t) :=
  p ← bundleInit;
  state ← bundleBefore p.1;
  parseDirectories state;;
  mret (state, p.2).

(** Lines 106-117 of [bundle]: the loop over the components of the
    state. *)
Definition resolveComponentsOf (state : loc) (gen : SpearlyJSGenerator.t)
  : M World (list Component.t) :=
  s ← readState state;
  resolveComponents state gen (State.componentsList s) [].

End Stages.

(** [Settings] refers to the same object in [m'] as in [m], and the plugin
    lists are those of [m]. *)
Definition samePluginList {World} (m m' : Machine.t World) : Prop :=
  Machine.Settings m' = Machine.Settings m /\
  keepsPluginLists (Machine.mem m) (Machine.mem m').

(** Whenever the computation throws, a collaborator call of the run
    threw. *)
Definition blamesACollaborator {World A} (c : M World A) : Prop :=
  forall m,
    match resultOf (c m) with
    | Normal _ => True
    | Throw _ => exists ev, In ev (eventsOf (c m)) /\ collaboratorFailed ev = true
    end.


(** The beforeBuild hooks leave the settings objects alone. *)
Definition beforeBuildHooksKeepSettings {World} (plugin : PluginId -> Plugin.t World) : Prop :=
  forall id hook arg mem,
    Plugin.beforeBuild (plugin id) = Some hook ->
    Mem.settingsObjs (hook arg mem).2 = Mem.settingsObjs mem.

(** Further runs of the small project: a watch session on port 3000, an
    action that is neither watch nor build, a settings file that cannot be
    read, a settings file without plugins. *)
Module FixtureMore.

Definition watch : Args.t := Args.mk "watch" (Some "/site") (Some 3000%Z).

Definition serve : Args.t := Args.mk "serve" None None.

Definition unreadableSettings : FileUtil Fixture.World := {|
  loadFile _ w := (Throw "EACCES", w);
  createDir _ w := (Normal tt, w);
  parseComponents st dir _ w := (Normal tt, st, w);
  parsePages st dir w := (Normal tt, st, w);
  dumpPages _ _ _ w := (Normal tt, w);
|}.

(** The small project without a settings file. *)
Definition noSettingsFile : FileUtil Fixture.World := {|
  loadFile _ w := (Normal None, w);
  createDir _ w := (Normal tt, w);
  parseComponents st dir _ w :=
    (Normal tt, State.setComponentsList st (State.componentsList st ++ [Fixture.box dir]), w);
  parsePages st dir w :=
    (Normal tt, State.setPagesList st (State.pagesList st ++ [Fixture.indexPage dir]), w);
  dumpPages _ _ _ w := (Normal tt, w);
|}.

(** A plugin whose configuration hook returns settings of its own making,
    with [quiteMode] set. *)
Definition withQuiteMode (s : DefaultSettings.t) : DefaultSettings.t :=
  DefaultSettings.mk (DefaultSettings.projectName s) (DefaultSettings.settingsFile s)
    (DefaultSettings.pagesFolder s) (DefaultSettings.componentsFolder s)
    (DefaultSettings.srcDir s) (DefaultSettings.distDir s) (DefaultSettings.entry s)
    (DefaultSettings.template s) (DefaultSettings.spearlyAuthKey s) (DefaultSettings.port s)
    (DefaultSettings.host s) (DefaultSettings.crossOriginIsolation s)
    (DefaultSettings.apiDomain s) (DefaultSettings.analysysDomain s)
    (DefaultSettings.generateSitemap s) (DefaultSettings.siteURL s)
    (DefaultSettings.rootDir s) (DefaultSettings.plugins s) true.

Definition returningQuietSettings : Hook Fixture.World :=
  fun arg mem =>
    let objs := Mem.settingsObjs mem in
    let l := fresh (dom objs) in
    (Normal (Some l), Mem.setSettingsObjs mem (<[l := withQuiteMode (objs !!! arg)]> objs)).

Definition hushing : Plugin.t Fixture.World :=
  Plugin.mk "hushing" (Some returningQuietSettings) None None None.

(** A beforeBuild hook that writes to the state it is given and then
    throws. *)
Definition scribblingThenThrowing : Hook Fixture.World :=
  fun arg mem =>
    (Throw "boom",
     Mem.setStateObjs mem
       (<[arg := State.setPagesList (Mem.stateObjs mem !!! arg)
                   [Fixture.indexPage "/scribbled"]]> (Mem.stateObjs mem))).

Definition scribbler : Plugin.t Fixture.World :=
  Plugin.mk "scribbler" None (Some scribblingThenThrowing) None None.

Definition scribblers (id : PluginId) : Plugin.t Fixture.World :=
  match id with
  | 0 => scribbler
  | _ => Fixture.noHooks
  end.

(** A plugin whose hooks all return nothing. *)
Definition mute : Plugin.t Fixture.World :=
  Plugin.mk "mute" (Some Fixture.returningNothing) (Some Fixture.returningNothing)
    (Some Fixture.returningNothing) (Some Fixture.returningNothing).

Definition mutes (id : PluginId) : Plugin.t Fixture.World := mute.

(** A resolver that returns no node for the children of a component of
    the small project (two nodes), and one that returns no node for the
    children of a page (one node). *)
Definition emptyForComponents : Dom Fixture.World := {|
  parseElements _ nodes _ _ w :=
    (Normal (if Nat.eqb (length nodes) 2 then [] else map Fixture.mark nodes),
     w);
  generateAliasPagesFromPagesList st _ _ w := (Normal (State.pagesList st), w);
|}.

Definition emptyForPages : Dom Fixture.World := {|
  parseElements _ nodes _ _ w :=
    (Normal (if Nat.eqb (length nodes) 2 then map Fixture.mark nodes else []),
     w);
  generateAliasPagesFromPagesList st _ _ w := (Normal (State.pagesList st), w);
|}.

End FixtureMore.

(** * Properties *)

(** ** Strings *)

Section StringFacts.

Lemma append_cons (c : ascii) (s rest : string) :
  String c s +:+ rest = String c (s +:+ rest).
Proof. reflexivity. Qed.

Lemma append_nil (s : string) : "" +:+ s = s.
Proof. reflexivity. Qed.

Lemma startsWith_spec (s search : string) :
  Js.startsWith s search = true <-> subPathOf s search.
Proof.
  unfold Js.startsWith, subPathOf. revert search.
  induction s as [|c s IH]; intros [|d search]; cbn [String.prefix].
  - split; [intros _; exists ""; reflexivity | reflexivity].
  - split; [discriminate | intros [rest H]; rewrite append_cons in H; discriminate].
  - split; [intros _; exists (String c s); reflexivity | reflexivity].
  - destruct (ascii_dec d c) as [->|Hne].
    + split.
      * intros H. apply IH in H as [rest ->]. exists rest. reflexivity.
      * intros [rest H]. apply IH. exists rest.
        rewrite append_cons in H. now inversion H.
    + split; [discriminate |].
      intros [rest H]. rewrite append_cons in H. inversion H. congruence.
Qed.

Lemma endsWith_spec (s search : string) :
  Js.endsWith s search = true <-> suffixOf s search.
Proof.
  unfold suffixOf. induction s as [|c s IH]; cbn [Js.endsWith].
  - destruct (String.eqb_spec "" search) as [<-|Hne].
    + split; [intros _; exists ""; reflexivity | reflexivity].
    + split; [discriminate |].
      intros [[|d front] H]; [rewrite append_nil in H | rewrite append_cons in H];
        congruence.
  - destruct (String.eqb_spec (String c s) search) as [<-|Hne].
    + split; [intros _; exists ""; reflexivity | reflexivity].
    + split.
      * intros H. apply IH in H as [front ->]. exists (String c front). reflexivity.
      * intros [[|d front] H]; [rewrite append_nil in H; congruence |].
        rewrite append_cons in H. apply IH. exists front. now inversion H.
Qed.

Lemma strictNotEqual_spec (a b : string) :
  Js.strictNotEqual a b = true <-> a <> b.
Proof.
  unfold Js.strictNotEqual. destruct (String.eqb_spec a b); simpl; split; congruence.
Qed.

End StringFacts.

(** ** Settings deduplication *)

Section Dedup.

Lemma shadowedBy_spec (a b : string) :
  shadowedBy a b = true <-> b <> a /\ subPathOf a b /\ componentsDir b.
Proof.
  unfold shadowedBy, componentsDir.
  pose proof (startsWith_spec a b) as Hs.
  pose proof (endsWith_spec b "components") as He.
  pose proof (strictNotEqual_spec a b) as Hn.
  destruct (Js.strictNotEqual a b), (Js.endsWith b "components"),
    (Js.startsWith a b); simpl; intuition congruence.
Qed.

Lemma specShadowedBy_spec (a b : string) :
  specShadowedBy a b = true <-> b <> a /\ subPathOf a b /\ ~ componentsDir b.
Proof.
  unfold specShadowedBy, componentsDir.
  pose proof (startsWith_spec a b) as Hs.
  pose proof (endsWith_spec b "components") as He.
  pose proof (strictNotEqual_spec a b) as Hn.
  destruct (Js.strictNotEqual a b), (Js.endsWith b "components"),
    (Js.startsWith a b); simpl; intuition congruence.
Qed.

Lemma some_shadowedBy (srcDirs : list string) (a : string) :
  Js.some (shadowedBy a) srcDirs = true <-> nestedInComponents srcDirs a.
Proof.
  unfold Js.some, nestedInComponents. rewrite existsb_exists.
  split; intros [b [Hin H]]; exists b; split; try assumption;
    now apply shadowedBy_spec.
Qed.

Lemma In_dedupSrcDir (srcDirs : list string) (a : string) :
  In a (dedupSrcDir srcDirs) <-> In a srcDirs /\ ~ nestedInComponents srcDirs a.
Proof.
  unfold dedupSrcDir, Js.filter. rewrite filter_In, <- some_shadowedBy.
  destruct (Js.some (shadowedBy a) srcDirs); simpl; intuition congruence.
Qed.

Lemma filter_sublist {A} (f : A -> bool) (l : list A) : sublist (List.filter f l) l.
Proof.
  induction l as [|x l IH]; simpl.
  - constructor.
  - destruct (f x); now constructor.
Qed.

Lemma dedupSrcDir_componentsContainmentFree (srcDirs : list string) :
  componentsContainmentFree (dedupSrcDir srcDirs).
Proof.
  intros a b Ha Hb Hne Hsub Hcomp.
  apply In_dedupSrcDir in Ha as [_ Ha]. apply In_dedupSrcDir in Hb as [Hb _].
  apply Ha. exists b. auto.
Qed.

End Dedup.

Lemma count_occ_filter_true {A} (dec : forall x y : A, {x = y} + {x <> y})
    (f : A -> bool) (l : list A) (a : A) :
  f a = true -> count_occ dec (List.filter f l) a = count_occ dec l a.
Proof.
  intros Ha. induction l as [|x l IH]; [reflexivity |]. cbn [List.filter].
  destruct (dec x a) as [-> | Hne].
  - rewrite Ha. cbn [count_occ]. destruct (dec a a); [now rewrite IH | contradiction].
  - destruct (f x); cbn [count_occ]; destruct (dec x a); try contradiction; exact IH.
Qed.

Lemma count_occ_filter_false {A} (dec : forall x y : A, {x = y} + {x <> y})
    (f : A -> bool) (l : list A) (a : A) :
  f a = false -> count_occ dec (List.filter f l) a = 0.
Proof.
  intros Ha. apply count_occ_not_In. rewrite filter_In. intros [_ H]. congruence.
Qed.

(** C1, as the code has it. The entries [loadSettings] removes from
    [srcDir] are exactly the entries [A] for which the list holds a
    distinct entry [B] such that [A] starts with [B] and [B] ends with
    "components". The result is the configured list filtered by that
    criterion: the entries that stay are in the order they had, and an
    entry that stays occurs as many times as it did, while an entry that
    goes loses all its occurrences. An entry is never redundant with
    itself. For ["/a"; "/a/b"; "/a/components"; "/a/components/sub"] the
    result is ["/a"; "/a/b"; "/a/components"]. *)
Theorem dedupSrcDir_drops_entries_nested_in_components (srcDirs : list string) :
  (exists keep : string -> bool,
     (forall a, keep a = true <-> ~ nestedInComponents srcDirs a) /\
     dedupSrcDir srcDirs = List.filter keep srcDirs) /\
  sublist (dedupSrcDir srcDirs) srcDirs /\
  (forall a, In a srcDirs ->
     (In a (dedupSrcDir srcDirs) <-> ~ nestedInComponents srcDirs a)) /\
  (forall a, ~ nestedInComponents srcDirs a ->
     count_occ string_dec (dedupSrcDir srcDirs) a = count_occ string_dec srcDirs a) /\
  (forall a, nestedInComponents srcDirs a ->
     count_occ string_dec (dedupSrcDir srcDirs) a = 0) /\
  (forall a, ~ (a <> a /\ subPathOf a a /\ componentsDir a)) /\
  dedupSrcDir ["/a"; "/a/b"; "/a/components"; "/a/components/sub"]
    = ["/a"; "/a/b"; "/a/components"].
Proof.
  assert (Hkeep : forall a,
            negb (Js.some (shadowedBy a) srcDirs) = true <-> ~ nestedInComponents srcDirs a).
  { intros a. rewrite <- some_shadowedBy.
    destruct (Js.some (shadowedBy a) srcDirs); cbn; intuition congruence. }
  split.
  { exists (fun a => negb (Js.some (shadowedBy a) srcDirs)). split; [exact Hkeep | reflexivity]. }
  split; [apply filter_sublist |].
  split; [intros a Ha; rewrite In_dedupSrcDir; tauto |].
  split.
  { intros a Ha. unfold dedupSrcDir, Js.filter.
    apply (count_occ_filter_true string_dec (fun a => negb (Js.some (shadowedBy a) srcDirs))).
    now apply Hkeep. }
  split.
  { intros a Ha. unfold dedupSrcDir, Js.filter.
    apply (count_occ_filter_false string_dec (fun a => negb (Js.some (shadowedBy a) srcDirs))).
    apply some_shadowedBy in Ha. now rewrite Ha. }
  split; [| reflexivity].
  intros a [H _]. now apply H.
Qed.

(** C1, as the specification states it, fails. On the list of the
    specification's own example the code keeps "/a/b", which starts with
    the distinct entry "/a" that is no components directory, and drops
    "/a/components/sub", which is nested under a components directory; the
    result is not the list the specification gives. *)
Lemma dedupSrcDir_differs_from_stated_rule :
  dedupSrcDir ["/a"; "/a/b"; "/a/components"; "/a/components/sub"]
    = ["/a"; "/a/b"; "/a/components"] /\
  dedupSrcDir ["/a"; "/a/b"; "/a/components"; "/a/components/sub"]
    <> ["/a"; "/a/components"; "/a/components/sub"] /\
  specShadowedBy "/a/b" "/a" = true.
Proof. split; [reflexivity | split; [discriminate | reflexivity]]. Qed.

(** ** Runs of the pipeline monad *)

Section MonadFacts.
Context {World : Type}.

Lemma run_bind {A B} (c : M World A) (k : A -> M World B) (m : Machine.t World) :
  (c ≫= k) m =
  match c m with
  | (Normal a, m1, ev1) => let '(r, m2, ev2) := k a m1 in (r, m2, ev1 ++ ev2)
  | (Throw e, m1, ev1) => (Throw e, m1, ev1)
  end.
Proof. reflexivity. Qed.

Lemma run_bind_throw {A B} (c : M World A) (k : A -> M World B) m e m1 ev1 :
  c m = (Throw e, m1, ev1) -> (c ≫= k) m = (Throw e, m1, ev1).
Proof. intros H. rewrite run_bind, H. reflexivity. Qed.

Lemma run_bind_prefixed {A B} (c : M World A) (k : A -> M World B) m a m1 ev1 :
  c m = (Normal a, m1, ev1) -> (c ≫= k) m = prefixed ev1 (k a m1).
Proof.
  intros H. rewrite run_bind, H. unfold prefixed.
  destruct (k a m1) as [[r m2] ev2]. reflexivity.
Qed.

Lemma run_bind_silent_normal {A B} (c : M World A) (k : A -> M World B) m a m1 :
  c m = (Normal a, m1, []) -> (c ≫= k) m = k a m1.
Proof.
  intros H. rewrite run_bind, H. destruct (k a m1) as [[r m2] ev2]. reflexivity.
Qed.

Lemma run_attempt {A} (c : M World A) (m : Machine.t World) :
  attempt c m = (Normal (resultOf (c m)), machineOf (c m), eventsOf (c m)).
Proof. unfold attempt. destruct (c m) as [[r m1] ev]. reflexivity. Qed.

End MonadFacts.

(** ** Plugin hooks *)

Section HookFacts.
Context {World : Type} {FU : FileUtil World} {DM : Dom World} {PF : Platform}.
Variable plugin : PluginId -> Plugin.t World.

Lemma stateHookStep_absent cp id state (m : Machine.t World) :
  hookSlot cp (plugin id) = None ->
  stateHookStep plugin cp id state m = (Normal state, m, []).
Proof. intros H. unfold stateHookStep. rewrite H. reflexivity. Qed.

Lemma stateHookStep_throw cp id hook state (m : Machine.t World) e mem' :
  hookSlot cp (plugin id) = Some hook ->
  hook state (Machine.mem m) = (Throw e, mem') ->
  stateHookStep plugin cp id state m
  = (Normal state, Machine.setMem m mem', failureEvents plugin cp id state e).
Proof.
  intros Hslot Hrun. unfold stateHookStep. rewrite Hslot.
  rewrite run_bind, run_attempt.
  unfold callHook. rewrite run_bind, Hrun. reflexivity.
Qed.

Lemma stateHookStep_falsy cp id hook state (m : Machine.t World) mem' :
  hookSlot cp (plugin id) = Some hook ->
  hook state (Machine.mem m) = (Normal None, mem') ->
  stateHookStep plugin cp id state m
  = (Normal state, Machine.setMem m mem', [EvHook cp id state (Normal None)]).
Proof.
  intros Hslot Hrun. unfold stateHookStep. rewrite Hslot.
  rewrite run_bind, run_attempt.
  unfold callHook. rewrite run_bind, Hrun. reflexivity.
Qed.

Lemma stateHookStep_truthy cp id hook state (m : Machine.t World) newState mem' :
  hookSlot cp (plugin id) = Some hook ->
  hook state (Machine.mem m) = (Normal (Some newState), mem') ->
  stateHookStep plugin cp id state m
  = (Normal (fresh (dom (Mem.stateObjs mem'))),
     Machine.setMem m
       (Mem.setStateObjs mem'
          (<[fresh (dom (Mem.stateObjs mem')) := Mem.stateObjs mem' !!! newState]>
             (Mem.stateObjs mem'))),
     [EvHook cp id state (Normal (Some newState))]).
Proof.
  intros Hslot Hrun. unfold stateHookStep. rewrite Hslot.
  rewrite run_bind, run_attempt.
  unfold callHook. rewrite run_bind, Hrun. reflexivity.
Qed.

Lemma configurationHookStep_throw id hook (m : Machine.t World) e mem' :
  hookSlot Configuration (plugin id) = Some hook ->
  hook (Machine.Settings m) (Machine.mem m) = (Throw e, mem') ->
  configurationHookStep plugin id m
  = (Normal tt, Machine.setMem m mem',
     failureEvents plugin Configuration id (Machine.Settings m) e).
Proof.
  intros Hslot Hrun. unfold configurationHookStep. rewrite Hslot.
  rewrite run_bind, run_attempt.
  rewrite run_bind. cbn [getMachine]. unfold callHook. rewrite run_bind, Hrun. reflexivity.
Qed.

Lemma configurationHookStep_falsy id hook (m : Machine.t World) mem' :
  hookSlot Configuration (plugin id) = Some hook ->
  hook (Machine.Settings m) (Machine.mem m) = (Normal None, mem') ->
  configurationHookStep plugin id m
  = (Normal tt, Machine.setMem m mem',
     [EvHook Configuration id (Machine.Settings m) (Normal None)]).
Proof.
  intros Hslot Hrun. unfold configurationHookStep. rewrite Hslot.
  rewrite run_bind, run_attempt.
  rewrite run_bind. cbn [getMachine]. unfold callHook. rewrite run_bind, Hrun. reflexivity.
Qed.

Lemma configurationHookStep_truthy id hook (m : Machine.t World) newSettings mem' :
  hookSlot Configuration (plugin id) = Some hook ->
  hook (Machine.Settings m) (Machine.mem m) = (Normal (Some newSettings), mem') ->
  configurationHookStep plugin id m
  = (Normal tt,
     Machine.setSettings
       (Machine.setMem m
          (Mem.setSettingsObjs mem'
             (<[fresh (dom (Mem.settingsObjs mem')) := Mem.settingsObjs mem' !!! newSettings]>
                (Mem.settingsObjs mem'))))
       (fresh (dom (Mem.settingsObjs mem'))),
     [EvHook Configuration id (Machine.Settings m) (Normal (Some newSettings))]).
Proof.
  intros Hslot Hrun. unfold configurationHookStep. rewrite Hslot.
  rewrite run_bind, run_attempt.
  rewrite run_bind. cbn [getMachine]. unfold callHook. rewrite run_bind, Hrun. reflexivity.
Qed.

End HookFacts.

(** ** Events of a run, stage by stage *)

Section TraceFacts.
Context {World : Type}.

Lemma result_bind {A B} (c : M World A) (k : A -> M World B) (m : Machine.t World) :
  resultOf ((c ≫= k) m) =
  match resultOf (c m) with
  | Normal a => resultOf (k a (machineOf (c m)))
  | Throw e => Throw e
  end.
Proof.
  rewrite run_bind. destruct (c m) as [[[a|e] m1] ev1]; [|reflexivity].
  cbn. destruct (k a m1) as [[r m2] ev2]. reflexivity.
Qed.

Lemma machine_bind {A B} (c : M World A) (k : A -> M World B) (m : Machine.t World) :
  machineOf ((c ≫= k) m) =
  match resultOf (c m) with
  | Normal a => machineOf (k a (machineOf (c m)))
  | Throw e => machineOf (c m)
  end.
Proof.
  rewrite run_bind. destruct (c m) as [[[a|e] m1] ev1]; [|reflexivity].
  cbn. destruct (k a m1) as [[r m2] ev2]. reflexivity.
Qed.

Lemma events_bind {A B} (c : M World A) (k : A -> M World B) (m : Machine.t World) :
  eventsOf ((c ≫= k) m) =
  match resultOf (c m) with
  | Normal a => eventsOf (c m) ++ eventsOf (k a (machineOf (c m)))
  | Throw e => eventsOf (c m)
  end.
Proof.
  rewrite run_bind. destruct (c m) as [[[a|e] m1] ev1]; [|reflexivity].
  cbn. destruct (k a m1) as [[r m2] ev2]. reflexivity.
Qed.

Lemma result_attempt_bind {A B} (c : M World A) (k : Completion A -> M World B) m :
  resultOf ((attempt c ≫= k) m) = resultOf (k (resultOf (c m)) (machineOf (c m))).
Proof. rewrite result_bind, run_attempt. reflexivity. Qed.

Lemma events_attempt_bind {A B} (c : M World A) (k : Completion A -> M World B) m :
  eventsOf ((attempt c ≫= k) m)
  = eventsOf (c m) ++ eventsOf (k (resultOf (c m)) (machineOf (c m))).
Proof. rewrite events_bind, run_attempt. reflexivity. Qed.

(** Stage bounds of lists of events. *)

Lemma within_nil lo hi : within lo hi [].
Proof. split; constructor. Qed.

Lemma within_unranked lo hi ev : eventRank ev = None -> within lo hi [ev].
Proof. intros H. unfold within, inPipelineOrder. cbn. rewrite H. split; constructor. Qed.

Lemma within_ranked lo hi ev r :
  eventRank ev = Some r -> lo <= r <= hi -> within lo hi [ev].
Proof.
  intros H Hr. unfold within, inPipelineOrder. cbn. rewrite H.
  split; repeat constructor; lia.
Qed.

Lemma within_weaken lo hi lo' hi' evs :
  within lo hi evs -> lo' <= lo -> hi <= hi' -> within lo' hi' evs.
Proof.
  intros [S B] Hlo Hhi. split; [assumption |].
  eapply list.Forall_impl; [exact B |]. cbn. intros r Hr. lia.
Qed.

Lemma within_app lo mid hi evs1 evs2 :
  within lo mid evs1 -> within mid hi evs2 -> lo <= mid <= hi ->
  within lo hi (evs1 ++ evs2).
Proof.
  unfold within, inPipelineOrder. intros [S1 B1] [S2 B2] Hm.
  rewrite omap_app. rewrite list.Forall_forall in B1, B2. split.
  - apply StronglySorted_app_2; try assumption.
    intros x1 x2 H1 H2. apply B1 in H1. apply B2 in H2. lia.
  - apply list.Forall_app. split; apply list.Forall_forall; intros r Hr.
    + apply B1 in Hr. lia.
    + apply B2 in Hr. lia.
Qed.


Lemma within_rank lo hi evs ev r :
  within lo hi evs -> In ev evs -> eventRank ev = Some r -> lo <= r <= hi.
Proof.
  intros [_ B] Hin Hr. rewrite list.Forall_forall in B. apply B.
  apply list_elem_of_omap. exists ev. split; [now apply list_elem_of_In | assumption].
Qed.

(** Stage bounds of computations. *)

Lemma silent_runsWithin {A} lo hi (c : M World A) : silent c -> runsWithin lo hi c.
Proof. intros H m. rewrite H. apply within_nil. Qed.

Lemma runsWithin_weaken {A} lo hi lo' hi' (c : M World A) :
  runsWithin lo hi c -> lo' <= lo -> hi <= hi' -> runsWithin lo' hi' c.
Proof. intros H Hlo Hhi m. eapply within_weaken; eauto. Qed.

Lemma runsWithin_bind {A B} lo mid hi (c : M World A) (k : A -> M World B) :
  runsWithin lo mid c -> (forall a, runsWithin mid hi (k a)) -> lo <= mid <= hi ->
  runsWithin lo hi (c ≫= k).
Proof.
  intros Hc Hk Hm m. rewrite events_bind.
  destruct (resultOf (c m)) as [a|e].
  - apply (within_app lo mid hi); [apply Hc | apply Hk | assumption].
  - eapply within_weaken; [apply Hc | lia | lia].
Qed.

Lemma silent_bind {A B} (c : M World A) (k : A -> M World B) :
  silent c -> (forall a, silent (k a)) -> silent (c ≫= k).
Proof.
  intros Hc Hk m. rewrite events_bind, Hc.
  destruct (resultOf (c m)); [apply Hk | reflexivity].
Qed.

Lemma runsWithin_bind_silent {A B} lo hi (c : M World A) (k : A -> M World B) :
  silent c -> (forall a, runsWithin lo hi (k a)) -> runsWithin lo hi (c ≫= k).
Proof.
  intros Hc Hk m. rewrite events_bind, Hc.
  destruct (resultOf (c m)); [apply Hk | apply within_nil].
Qed.

Lemma runsWithin_then_silent {A B} lo hi (c : M World A) (k : A -> M World B) :
  runsWithin lo hi c -> (forall a, silent (k a)) -> runsWithin lo hi (c ≫= k).
Proof.
  intros Hc Hk m. rewrite events_bind.
  destruct (resultOf (c m)); [| apply Hc].
  rewrite Hk, app_nil_r. apply Hc.
Qed.

Lemma runsWithin_attempt {A} lo hi (c : M World A) :
  runsWithin lo hi c -> runsWithin lo hi (attempt c).
Proof. intros H m. rewrite run_attempt. apply H. Qed.

Lemma silent_attempt {A} (c : M World A) : silent c -> silent (attempt c).
Proof. intros H m. rewrite run_attempt. apply H. Qed.

Lemma silent_ret {A} (a : A) : silent (mret a : M World A).
Proof. intros m. reflexivity. Qed.

Lemma silent_throw {A} (e : Exn) : silent (throw e : M World A).
Proof. intros m. reflexivity. Qed.

Lemma silent_getMachine : silent (@getMachine World).
Proof. intros m. reflexivity. Qed.

Lemma silent_modifyMachine f : silent (@modifyMachine World f).
Proof. intros m. reflexivity. Qed.

Lemma silent_modifyMem f : silent (@modifyMem World f).
Proof. intros m. reflexivity. Qed.

Lemma silent_readState l : silent (@readState World l).
Proof. intros m. reflexivity. Qed.

Lemma silent_writeState l s : silent (@writeState World l s).
Proof. intros m. reflexivity. Qed.

Lemma silent_readSettings : silent (@readSettings World).
Proof. intros m. reflexivity. Qed.

Lemma silent_updateSettings f : silent (@updateSettings World f).
Proof. intros m. reflexivity. Qed.

Lemma silent_newStateObject s : silent (@newStateObject World s).
Proof. intros m. reflexivity. Qed.

Lemma silent_newSettingsObject s : silent (@newSettingsObject World s).
Proof. intros m. reflexivity. Qed.

Lemma silent_stateDeepCopy l : silent (@stateDeepCopy World l).
Proof. intros m. reflexivity. Qed.

Lemma silent_defaultSettingDeepCopy l : silent (@defaultSettingDeepCopy World l).
Proof. intros m. reflexivity. Qed.

Lemma events_onWorld {A} (f : World -> Completion A * World) evf (m : Machine.t World) :
  eventsOf (onWorld f evf m) = evf (resultOf (onWorld f evf m)).
Proof. unfold onWorld. destruct (f _) as [r w]. reflexivity. Qed.

Lemma runsWithin_onWorld {A} lo hi (f : World -> Completion A * World) evf :
  (forall r, within lo hi (evf r)) -> runsWithin lo hi (onWorld f evf).
Proof. intros H m. rewrite events_onWorld. apply H. Qed.

Lemma runsWithin_emit_unranked lo hi ev :
  eventRank ev = None -> runsWithin lo hi (@emit World ev).
Proof. intros H m. now apply within_unranked. Qed.


End TraceFacts.

Create HintDb pipeline.

#[local] Hint Resolve silent_ret silent_throw silent_getMachine silent_modifyMachine
  silent_modifyMem silent_readState silent_writeState silent_readSettings
  silent_updateSettings silent_newStateObject silent_newSettingsObject
  silent_stateDeepCopy silent_defaultSettingDeepCopy : pipeline.

Ltac solve_silent :=
  repeat first
    [ solve [auto with pipeline]
    | apply silent_bind; [| intros ?]
    | apply silent_attempt
    | match goal with
      | |- silent (match ?x with _ => _ end) => destruct x
      end ].

Section StageFacts.
Context {World : Type} {FU : FileUtil World} {DM : Dom World} {PF : Platform}.
Variable plugin : PluginId -> Plugin.t World.

Lemma runsWithin_forEach {A} r (l : list A) (body : A -> M World unit) :
  (forall x, runsWithin r r (body x)) -> runsWithin r r (forEach l body).
Proof.
  intros H. induction l as [|x l IH]; cbn [forEach].
  - apply silent_runsWithin. solve_silent.
  - apply (runsWithin_bind r r r); [apply H | intros _; apply IH | lia].
Qed.

Lemma silent_initializeArgument args : silent (initializeArgument (World := World) args).
Proof.
  unfold initializeArgument. destruct (Js.truthyString (Args.src args)); solve_silent.
Qed.

Lemma silent_newSpearlyJSGenerator : silent (newSpearlyJSGenerator (World := World)).
Proof. unfold newSpearlyJSGenerator. solve_silent. Qed.

Lemma silent_assignPageChildNodes state i nodes :
  silent (assignPageChildNodes (World := World) state i nodes).
Proof. unfold assignPageChildNodes. solve_silent. Qed.

Lemma eventRank_hook cp id arg r :
  eventRank (EvHook cp id arg r) = Some (checkpointRank cp).
Proof. now destruct cp. Qed.

Lemma runsWithin_callHook cp id hook arg :
  runsWithin (checkpointRank cp) (checkpointRank cp) (callHook (World := World) cp id hook arg).
Proof.
  intros m. unfold callHook. destruct (hook arg (Machine.mem m)) as [r mem'].
  eapply within_ranked; [apply eventRank_hook | lia].
Qed.

Lemma runsWithin_consoleWarn lo hi msg : runsWithin lo hi (consoleWarn (World := World) msg).
Proof. now apply runsWithin_emit_unranked. Qed.

Lemma runsWithin_loggerError lo hi e : runsWithin lo hi (loggerError (World := World) e).
Proof. now apply runsWithin_emit_unranked. Qed.


Lemma runsWithin_stateHookStep cp id state :
  runsWithin (checkpointRank cp) (checkpointRank cp) (stateHookStep plugin cp id state).
Proof.
  unfold stateHookStep. destruct (hookSlot cp (plugin id)) as [hook|].
  - set (r := checkpointRank cp).
    apply (runsWithin_bind r r r); [| | lia].
    + apply runsWithin_attempt. apply runsWithin_then_silent.
      * apply runsWithin_callHook.
      * intros [l|]; solve_silent.
    + intros [state'|e].
      * apply silent_runsWithin. solve_silent.
      * apply runsWithin_then_silent; [apply runsWithin_consoleWarn | intros; solve_silent].
  - apply silent_runsWithin. solve_silent.
Qed.

Lemma runsWithin_runStateHooks cp plugins state :
  runsWithin (checkpointRank cp) (checkpointRank cp) (runStateHooks plugin cp plugins state).
Proof.
  revert state. induction plugins as [|id rest IH]; intros state; cbn [runStateHooks].
  - apply silent_runsWithin. solve_silent.
  - set (r := checkpointRank cp).
    apply (runsWithin_bind r r r); [apply runsWithin_stateHookStep | intros; apply IH | lia].
Qed.

Lemma runsWithin_configurationHookStep id :
  runsWithin 1 1 (configurationHookStep plugin id).
Proof.
  unfold configurationHookStep. destruct (hookSlot Configuration (plugin id)) as [hook|].
  - apply (runsWithin_bind 1 1 1); [| | lia].
    + apply runsWithin_attempt. apply runsWithin_bind_silent; [solve_silent |].
      intros m0. apply runsWithin_then_silent.
      * apply (runsWithin_callHook Configuration).
      * intros [l|]; solve_silent.
    + intros [[]|e].
      * apply silent_runsWithin. solve_silent.
      * apply runsWithin_consoleWarn.
  - apply silent_runsWithin. solve_silent.
Qed.

Lemma runsWithin_runConfigurationHooks plugins :
  runsWithin 1 1 (runConfigurationHooks plugin plugins).
Proof. apply runsWithin_forEach. apply runsWithin_configurationHookStep. Qed.

Lemma runsWithin_callLoadFile pattern : runsWithin 0 0 (callLoadFile (World := World) pattern).
Proof.
  apply runsWithin_onWorld. intros r. now apply (within_ranked 0 0 _ 0).
Qed.

Lemma runsWithin_loadSettingsPrologue : runsWithin 0 0 (loadSettingsPrologue (World := World)).
Proof.
  unfold loadSettingsPrologue. apply runsWithin_then_silent; [| intros; solve_silent].
  unfold loadSettingsFromFile. apply runsWithin_bind_silent; [solve_silent | intros m0].
  apply runsWithin_then_silent; [apply runsWithin_callLoadFile |].
  intros [data|]; solve_silent.
Qed.

Lemma runsWithin_loadSettings : runsWithin 0 1 (loadSettings plugin).
Proof.
  unfold loadSettings.
  apply (runsWithin_bind 0 0 1); [apply runsWithin_loadSettingsPrologue | | lia].
  intros _. apply runsWithin_bind_silent; [solve_silent | intros s].
  eapply runsWithin_weaken; [apply runsWithin_runConfigurationHooks | lia | lia].
Qed.

Lemma runsWithin_callCreateDir : runsWithin 3 3 (callCreateDir (World := World)).
Proof.
  unfold callCreateDir. apply runsWithin_bind_silent; [solve_silent | intros s].
  apply runsWithin_onWorld. intros r. now apply (within_ranked 3 3 _ 3).
Qed.

Lemma runsWithin_callParseComponents state dir :
  runsWithin 4 4 (callParseComponents (World := World) state dir).
Proof.
  intros m. unfold callParseComponents. destruct (parseComponents _ _ _ _) as [[r s] w].
  now apply (within_ranked 4 4 _ 4).
Qed.

Lemma runsWithin_callParsePages state dir :
  runsWithin 5 5 (callParsePages (World := World) state dir).
Proof.
  intros m. unfold callParsePages. destruct (parsePages _ _ _) as [[r s] w].
  now apply (within_ranked 5 5 _ 5).
Qed.

Lemma runsWithin_callParseElements state nodes gen :
  runsWithin 6 6 (callParseElements (World := World) state nodes gen).
Proof.
  unfold callParseElements. apply runsWithin_bind_silent; [solve_silent | intros m0].
  apply runsWithin_onWorld. intros r. now apply (within_ranked 6 6 _ 6).
Qed.

Lemma runsWithin_callGenerateAliasPages state gen :
  runsWithin 7 7 (callGenerateAliasPages (World := World) state gen).
Proof.
  unfold callGenerateAliasPages. apply runsWithin_bind_silent; [solve_silent | intros m0].
  apply runsWithin_onWorld. intros r. now apply (within_ranked 7 7 _ 7).
Qed.

Lemma runsWithin_callDumpPages state :
  runsWithin 9 9 (callDumpPages (World := World) state).
Proof.
  unfold callDumpPages. apply runsWithin_bind_silent; [solve_silent | intros m0].
  apply runsWithin_onWorld. intros r. now apply (within_ranked 9 9 _ 9).
Qed.

Lemma runsWithin_resolveComponents state gen todo componentsList :
  runsWithin 6 6 (resolveComponents (World := World) state gen todo componentsList).
Proof.
  revert componentsList. induction todo as [|component rest IH]; intros acc;
    cbn [resolveComponents].
  - apply silent_runsWithin. solve_silent.
  - apply (runsWithin_bind 6 6 6); [apply runsWithin_callParseElements | | lia].
    intros [|first others]; [apply silent_runsWithin; solve_silent | apply IH].
Qed.

Lemma runsWithin_resolvePage state gen i :
  runsWithin 6 6 (resolvePage (World := World) state gen i).
Proof.
  unfold resolvePage. apply runsWithin_bind_silent; [solve_silent | intros s].
  destruct (State.pagesList s !! i) as [page|]; [| apply silent_runsWithin; solve_silent].
  apply (runsWithin_bind 6 6 6); [apply runsWithin_callParseElements | | lia].
  intros nodes. apply runsWithin_bind_silent; [apply silent_assignPageChildNodes |].
  intros _. apply runsWithin_bind_silent; [solve_silent | intros s'].
  destruct (State.pagesList s' !! i) as [page'|]; [| apply silent_runsWithin; solve_silent].
  apply runsWithin_then_silent; [apply runsWithin_callParseElements |].
  intros nodes'. apply silent_assignPageChildNodes.
Qed.

Lemma runsWithin_bundleResolve state gen :
  runsWithin 6 7 (bundleResolve (World := World) state gen).
Proof.
  unfold bundleResolve. apply runsWithin_bind_silent; [solve_silent | intros s].
  apply (runsWithin_bind 6 6 7); [apply runsWithin_resolveComponents | | lia].
  intros componentsList. apply runsWithin_bind_silent; [solve_silent | intros s1].
  apply runsWithin_bind_silent; [solve_silent | intros _].
  apply runsWithin_bind_silent; [solve_silent | intros s2].
  apply (runsWithin_bind 6 6 7); [| | lia].
  - apply runsWithin_forEach. intros i. apply runsWithin_resolvePage.
  - intros _. apply runsWithin_then_silent; [| intros; solve_silent].
    eapply runsWithin_weaken; [apply runsWithin_callGenerateAliasPages | lia | lia].
Qed.

Lemma runsWithin_bundleFinish state : runsWithin 8 10 (bundleFinish plugin state).
Proof.
  unfold bundleFinish. apply runsWithin_bind_silent; [solve_silent | intros s].
  apply (runsWithin_bind 8 8 10); [apply (runsWithin_runStateHooks AfterBuild) | | lia].
  intros state1. apply (runsWithin_bind 8 9 10); [| | lia].
  - eapply runsWithin_weaken; [apply runsWithin_callDumpPages | lia | lia].
  - intros _. apply runsWithin_bind_silent; [solve_silent | intros s1].
    apply runsWithin_then_silent; [| intros; solve_silent].
    eapply runsWithin_weaken; [apply (runsWithin_runStateHooks Bundle) | cbn; lia | cbn; lia].
Qed.

Lemma runsWithin_parseComponentsLoop state :
  runsWithin 4 4
    (s ← readSettings;
     forEach (DefaultSettings.componentsFolder s) (callParseComponents (World := World) state)).
Proof.
  apply runsWithin_bind_silent; [solve_silent | intros s].
  apply runsWithin_forEach. intros dir. apply runsWithin_callParseComponents.
Qed.

Lemma runsWithin_parsePagesLoop state :
  runsWithin 5 5
    (s ← readSettings;
     forEach (DefaultSettings.srcDir s) (callParsePages (World := World) state)).
Proof.
  apply runsWithin_bind_silent; [solve_silent | intros s].
  apply runsWithin_forEach. intros dir. apply runsWithin_callParsePages.
Qed.

Lemma runsWithin_bundleAfterParse state gen :
  runsWithin 6 10 (bundleAfterParse plugin state gen).
Proof.
  unfold bundleAfterParse. apply (runsWithin_bind 6 7 10); [| | lia].
  - apply runsWithin_bundleResolve.
  - intros _. eapply runsWithin_weaken; [apply runsWithin_bundleFinish | lia | lia].
Qed.

Lemma runsWithin_bundleParse state gen : runsWithin 4 10 (bundleParse plugin state gen).
Proof.
  unfold bundleParse. apply (runsWithin_bind 4 4 10); [| | lia].
  { apply runsWithin_attempt. apply runsWithin_parseComponentsLoop. }
  intros [_|e].
  - apply (runsWithin_bind 4 5 10); [| | lia].
    { apply runsWithin_attempt.
      eapply runsWithin_weaken; [apply runsWithin_parsePagesLoop | lia | lia]. }
    intros [_|e].
    + eapply runsWithin_weaken; [apply runsWithin_bundleAfterParse | lia | lia].
    + apply runsWithin_then_silent; [apply runsWithin_loggerError | intros; solve_silent].
  - apply runsWithin_then_silent; [apply runsWithin_loggerError | intros; solve_silent].
Qed.

Lemma runsWithin_bundleFrom state : runsWithin 2 10 (bundleFrom plugin state).
Proof.
  unfold bundleFrom.
  apply runsWithin_bind_silent; [apply silent_newSpearlyJSGenerator | intros gen].
  apply runsWithin_bind_silent; [solve_silent | intros s].
  apply (runsWithin_bind 2 2 10); [apply (runsWithin_runStateHooks BeforeBuild) | | lia].
  intros state1. apply (runsWithin_bind 2 3 10); [| | lia].
  { eapply runsWithin_weaken; [apply runsWithin_callCreateDir | lia | lia]. }
  intros _. eapply runsWithin_weaken; [apply runsWithin_bundleParse | lia | lia].
Qed.

Lemma runsWithin_bundle : runsWithin 2 10 (bundle plugin).
Proof.
  unfold bundle. apply runsWithin_bind_silent; [solve_silent | intros state].
  apply runsWithin_bundleFrom.
Qed.



End StageFacts.

(** ** Which plugins a run invokes *)

Section HookCallFacts.
Context {World : Type} {FU : FileUtil World} {DM : Dom World} {PF : Platform}.
Variable plugin : PluginId -> Plugin.t World.

Lemma hookCalls_app cp evs1 evs2 :
  hookCalls cp (evs1 ++ evs2) = hookCalls cp evs1 ++ hookCalls cp evs2.
Proof. apply omap_app. Qed.

Lemma hookCall_rank cp ev id :
  hookCall cp ev = Some id -> eventRank ev = Some (checkpointRank cp).
Proof.
  destruct ev; cbn; try discriminate.
  destruct (decide (cp0 = cp)) as [->|]; [| discriminate].
  intros _. now destruct cp.
Qed.

Lemma hookCalls_outside lo hi cp evs :
  within lo hi evs -> ~ (lo <= checkpointRank cp <= hi) -> hookCalls cp evs = [].
Proof.
  intros Hw Hout. destruct (hookCalls cp evs) as [|id ids] eqn:E; [reflexivity |].
  exfalso. assert (Hin : id ∈ hookCalls cp evs) by (rewrite E; constructor).
  apply list_elem_of_omap in Hin as (ev & Hev & Hcall).
  apply Hout. eapply within_rank; eauto using hookCall_rank.
  now apply list_elem_of_In.
Qed.

Lemma events_callHook cp id hook arg (m : Machine.t World) :
  eventsOf (callHook cp id hook arg m)
  = [EvHook cp id arg (resultOf (callHook cp id hook arg m))].
Proof. unfold callHook. destruct (hook arg (Machine.mem m)) as [r mem']. reflexivity. Qed.

Lemma stateHookStep_run cp id state (m : Machine.t World) :
  exists state',
    resultOf (stateHookStep plugin cp id state m) = Normal state' /\
    hookCalls cp (eventsOf (stateHookStep plugin cp id state m))
    = if hasHook plugin cp id then [id] else [].
Proof.
  unfold hasHook. destruct (hookSlot cp (plugin id)) as [hook|] eqn:Hslot.
  - destruct (hook state (Machine.mem m)) as [[[newState|]|e] mem'] eqn:Hrun.
    + rewrite (stateHookStep_truthy _ _ _ _ _ _ _ _ Hslot Hrun).
      eexists. split; [reflexivity |]. cbn. now rewrite decide_True.
    + rewrite (stateHookStep_falsy _ _ _ _ _ _ _ Hslot Hrun).
      eexists. split; [reflexivity |]. cbn. now rewrite decide_True.
    + rewrite (stateHookStep_throw _ _ _ _ _ _ _ _ Hslot Hrun).
      eexists. split; [reflexivity |]. cbn. now rewrite decide_True.
  - rewrite (stateHookStep_absent _ _ _ _ _ Hslot). eexists. split; reflexivity.
Qed.

Lemma runStateHooks_normal cp plugins state (m : Machine.t World) :
  exists state', resultOf (runStateHooks plugin cp plugins state m) = Normal state'.
Proof.
  revert state m. induction plugins as [|id rest IH]; intros state m; cbn [runStateHooks].
  - eexists. reflexivity.
  - rewrite result_bind.
    destruct (stateHookStep_run cp id state m) as (state' & -> & _). apply IH.
Qed.

Lemma hookCalls_runStateHooks cp plugins state (m : Machine.t World) :
  hookCalls cp (eventsOf (runStateHooks plugin cp plugins state m))
  = List.filter (hasHook plugin cp) plugins.
Proof.
  revert state m. induction plugins as [|id rest IH]; intros state m; cbn [runStateHooks].
  - reflexivity.
  - rewrite events_bind.
    destruct (stateHookStep_run cp id state m) as (state' & -> & Hcalls).
    rewrite hookCalls_app, Hcalls, IH. cbn [List.filter].
    now destruct (hasHook plugin cp id).
Qed.

Lemma configurationHookStep_run id (m : Machine.t World) :
  resultOf (configurationHookStep plugin id m) = Normal tt /\
  hookCalls Configuration (eventsOf (configurationHookStep plugin id m))
  = if hasHook plugin Configuration id then [id] else [].
Proof.
  unfold hasHook, configurationHookStep.
  destruct (hookSlot Configuration (plugin id)) as [hook|] eqn:Hslot; [| split; reflexivity].
  rewrite result_bind, events_bind, run_attempt. cbn [resultOf machineOf eventsOf fst snd].
  set (body := (m0 ← getMachine; _)).
  assert (Hev : exists r, eventsOf (body m)
                = [EvHook Configuration id (Machine.Settings m) r]).
  { subst body. rewrite events_bind. cbn [getMachine resultOf eventsOf fst snd].
    rewrite events_bind, events_callHook.
    destruct (resultOf (callHook _ _ _ _ _)) as [[l|]|e]; cbn; eexists; reflexivity. }
  destruct Hev as [r Hev]. rewrite Hev.
  destruct (resultOf (body m)) as [[]|e]; split; try reflexivity; cbn;
    now rewrite decide_True.
Qed.


End HookCallFacts.

(** ** The parse loops *)

Section ParseFacts.
Context {World : Type} {FU : FileUtil World} {DM : Dom World} {PF : Platform}.
Variable plugin : PluginId -> Plugin.t World.

Lemma forEach_parse_run {A} (body : A -> M World unit) (l : list A) :
  (forall x m, exists ev, eventsOf (body x m) = [ev] /\
     match resultOf (body x m) with
     | Normal _ => parsedOk ev
     | Throw e => parseThrew ev e
     end) ->
  forall m,
  match resultOf (forEach l body m) with
  | Normal _ => Forall parsedOk (eventsOf (forEach l body m))
  | Throw e => exists evP ev, eventsOf (forEach l body m) = evP ++ [ev] /\
               Forall parsedOk evP /\ parseThrew ev e
  end.
Proof.
  intros Hbody. induction l as [|x l IH]; intros m; cbn [forEach].
  - constructor.
  - rewrite result_bind, events_bind.
    destruct (Hbody x m) as (ev & Hev & Hres). rewrite Hev.
    destruct (resultOf (body x m)) as [[]|e].
    + specialize (IH (machineOf (body x m))).
      destruct (resultOf (forEach l body _)) as [[]|e].
      * constructor; assumption.
      * destruct IH as (evP & ev' & -> & Hok & Hthrew).
        exists (ev :: evP), ev'. split; [reflexivity |]. split; [constructor |]; assumption.
    + exists [], ev. split; [reflexivity |]. split; [constructor | assumption].
Qed.

Lemma callParseComponents_run state dir (m : Machine.t World) :
  exists ev, eventsOf (callParseComponents state dir m) = [ev] /\
    match resultOf (callParseComponents state dir m) with
    | Normal _ => parsedOk ev
    | Throw e => parseThrew ev e
    end.
Proof.
  unfold callParseComponents. destruct (parseComponents _ _ _ _) as [[[[]|e] s] w];
    eexists; (split; [reflexivity |]); exists dir; now left.
Qed.

Lemma callParsePages_run state dir (m : Machine.t World) :
  exists ev, eventsOf (callParsePages state dir m) = [ev] /\
    match resultOf (callParsePages state dir m) with
    | Normal _ => parsedOk ev
    | Throw e => parseThrew ev e
    end.
Proof.
  unfold callParsePages. destruct (parsePages _ _ _) as [[[[]|e] s] w];
    eexists; (split; [reflexivity |]); exists dir; now right.
Qed.

Lemma parseLoop_run {A} (field : DefaultSettings.t -> list A) (body : A -> M World unit) :
  (forall x m, exists ev, eventsOf (body x m) = [ev] /\
     match resultOf (body x m) with
     | Normal _ => parsedOk ev
     | Throw e => parseThrew ev e
     end) ->
  forall m,
  let run := (s ← readSettings; forEach (field s) body) m in
  match resultOf run with
  | Normal _ => Forall parsedOk (eventsOf run)
  | Throw e => exists evP ev, eventsOf run = evP ++ [ev] /\
               Forall parsedOk evP /\ parseThrew ev e
  end.
Proof.
  intros Hbody m run. subst run. rewrite result_bind, events_bind.
  cbn [readSettings resultOf machineOf eventsOf fst snd app].
  apply forEach_parse_run, Hbody.
Qed.

(** The parse phase ends in one of two ways: a parse call threw, the
    error is logged and the result is [false]; or every parse call
    returned and the pass goes on. *)
Lemma bundleParse_cases state gen (m : Machine.t World) :
  let run := bundleParse plugin state gen m in
  (exists evP ev e,
      eventsOf run = evP ++ [ev; EvLoggerError e] /\
      Forall parsedOk evP /\ parseThrew ev e /\ resultOf run = Normal false) \/
  (exists evP m',
      eventsOf run = evP ++ eventsOf (bundleAfterParse plugin state gen m') /\
      Forall parsedOk evP /\
      resultOf run = resultOf (bundleAfterParse plugin state gen m')).
Proof.
  intros run. subst run. unfold bundleParse.
  rewrite events_attempt_bind, result_attempt_bind.
  pose proof (parseLoop_run DefaultSettings.componentsFolder _
                (callParseComponents_run state) m) as H1. cbn zeta in H1.
  set (run1 := (s ← readSettings; forEach _ _) m) in *.
  destruct (resultOf run1) as [[]|e].
  - rewrite events_attempt_bind, result_attempt_bind.
    pose proof (parseLoop_run DefaultSettings.srcDir _
                  (callParsePages_run state) (machineOf run1)) as H2. cbn zeta in H2.
    set (run2 := (s ← readSettings; forEach _ _) (machineOf run1)) in *.
    destruct (resultOf run2) as [[]|e].
    + right. exists (eventsOf run1 ++ eventsOf run2), (machineOf run2).
      split; [now rewrite app_assoc |]. split; [| reflexivity].
      apply Forall_app; split; assumption.
    + left. destruct H2 as (evP & ev & -> & Hok & Hthrew).
      exists (eventsOf run1 ++ evP), ev, e.
      split; [cbn; now rewrite <- !app_assoc |].
      split; [apply Forall_app; split; assumption |]. split; [assumption | reflexivity].
  - left. destruct H1 as (evP & ev & -> & Hok & Hthrew).
    exists evP, ev, e. split; [cbn; now rewrite <- !app_assoc |].
    split; [assumption |]. split; [assumption | reflexivity].
Qed.

Lemma callCreateDir_run (m : Machine.t World) :
  eventsOf (callCreateDir m) = [EvCreateDir (resultOf (callCreateDir m))].
Proof.
  unfold callCreateDir. rewrite events_bind, result_bind.
  cbn [readSettings resultOf machineOf eventsOf fst snd app].
  apply (events_onWorld _ (fun r => [EvCreateDir r])).
Qed.

Lemma newSpearlyJSGenerator_run (m : Machine.t World) :
  exists gen,
    resultOf (newSpearlyJSGenerator m) = Normal gen /\
    eventsOf (newSpearlyJSGenerator m) = [] /\
    currentSettings (machineOf (newSpearlyJSGenerator m)) = currentSettings m /\
    Mem.stateObjs (Machine.mem (machineOf (newSpearlyJSGenerator m)))
    = Mem.stateObjs (Machine.mem m).
Proof. eexists. repeat split. Qed.

(** The three ways a pass ends after the beforeBuild hooks. *)
Lemma bundleFrom_cases state (m : Machine.t World) :
  let run := bundleFrom plugin state m in
  let evB := eventsOf (runStateHooks plugin BeforeBuild
                         (DefaultSettings.plugins (currentSettings m)) state
                         (machineOf (newSpearlyJSGenerator m))) in
  (exists e, eventsOf run = evB ++ [EvCreateDir (Throw e)] /\ resultOf run = Throw e) \/
  (exists evP ev e,
      eventsOf run = evB ++ EvCreateDir (Normal tt) :: evP ++ [ev; EvLoggerError e] /\
      Forall parsedOk evP /\ parseThrew ev e /\ resultOf run = Normal false) \/
  (exists evP state' gen m',
      eventsOf run
      = evB ++ EvCreateDir (Normal tt) :: evP ++
        eventsOf (bundleAfterParse plugin state' gen m') /\
      Forall parsedOk evP /\
      resultOf run = resultOf (bundleAfterParse plugin state' gen m')).
Proof.
  intros run evB. subst run evB. unfold bundleFrom.
  rewrite events_bind, result_bind.
  destruct (newSpearlyJSGenerator_run m) as (gen & -> & -> & Hs & _).
  set (m0 := machineOf (newSpearlyJSGenerator m)) in *.
  rewrite events_bind, result_bind.
  cbn [readSettings resultOf machineOf eventsOf fst snd app]. rewrite Hs.
  rewrite events_bind, result_bind.
  set (runB := runStateHooks plugin BeforeBuild _ state m0).
  assert (exists state1, resultOf runB = Normal state1) as [state1 ->]
    by apply runStateHooks_normal.
  rewrite events_bind, result_bind, callCreateDir_run.
  destruct (resultOf (callCreateDir (machineOf runB))) as [[]|e].
  - destruct (bundleParse_cases state1 gen (machineOf (callCreateDir (machineOf runB))))
      as [(evP & ev & e & -> & Hok & Hthrew & ->) | (evP & m' & -> & Hok & ->)].
    + right. left. exists evP, ev, e. repeat split; assumption.
    + right. right. exists evP, state1, gen, m'. repeat split; assumption.
  - left. exists e. split; reflexivity.
Qed.

End ParseFacts.

(** ** Fatal parse failures *)

Section ParseFailure.
Context {World : Type} {FU : FileUtil World} {DM : Dom World} {PF : Platform}.
Variable plugin : PluginId -> Plugin.t World.

Lemma within_upTo lo hi evs : within lo hi evs -> Forall (upTo hi) evs.
Proof.
  intros Hw. apply Forall_forall. intros ev Hin r Hr.
  now apply (within_rank _ _ _ _ _ Hw Hin Hr).
Qed.

Lemma parsedOk_upTo ev : parsedOk ev -> upTo 5 ev.
Proof. intros [dir [-> | ->]] r; cbn; intros [= <-]; lia. Qed.

Lemma parseThrew_upTo ev e : parseThrew ev e -> upTo 5 ev.
Proof. intros [dir [-> | ->]] r; cbn; intros [= <-]; lia. Qed.

Lemma parseThrew_rank ev e :
  parseThrew ev e -> exists r, eventRank ev = Some r /\ 4 <= r <= 5.
Proof. intros [dir [-> | ->]]; cbn; eexists; (split; [reflexivity | lia]). Qed.

Lemma parseThrew_not_parsedOk ev e : parseThrew ev e -> parsedOk ev -> False.
Proof. intros [dir [-> | ->]] [dir' [H | H]]; discriminate. Qed.

Lemma parseThrew_inj ev e e' : parseThrew ev e -> parseThrew ev e' -> e = e'.
Proof. intros [dir [-> | ->]] [dir' [H | H]]; congruence. Qed.

Lemma parseThrew_outside lo hi evs ev e :
  within lo hi evs -> parseThrew ev e -> ~ (lo <= 5 /\ 4 <= hi) -> ~ In ev evs.
Proof.
  intros Hw Hthrew Hout Hin. destruct (parseThrew_rank _ _ Hthrew) as (r & Hr & Hb).
  pose proof (within_rank _ _ _ _ _ Hw Hin Hr). lia.
Qed.

Lemma hookCalls_upTo n cp evs :
  Forall (upTo n) evs -> n < checkpointRank cp -> hookCalls cp evs = [].
Proof.
  intros Hall Hn. induction Hall as [|ev evs Hev _ IH]; [reflexivity |].
  unfold hookCalls in *. cbn. rewrite IH.
  destruct (hookCall cp ev) as [id|] eqn:E; [| reflexivity].
  apply hookCall_rank in E. apply Hev in E. lia.
Qed.

Lemma noDumpPages_upTo n evs :
  Forall (upTo n) evs -> n < 9 -> Forall (fun ev => isDumpPages ev = false) evs.
Proof.
  intros Hall Hn. eapply Forall_impl; [| exact Hall]. cbn.
  intros ev Hev. destruct ev; try reflexivity.
  specialize (Hev 9 eq_refl). lia.
Qed.

Lemma events_bundle (m : Machine.t World) :
  exists state m1,
    eventsOf (bundle plugin m) = eventsOf (bundleFrom plugin state m1) /\
    resultOf (bundle plugin m) = resultOf (bundleFrom plugin state m1) /\
    currentSettings m1 = currentSettings m.
Proof.
  unfold bundle. rewrite events_bind, result_bind.
  cbn [newStateObject resultOf machineOf eventsOf fst snd app].
  eexists _, _. repeat split.
Qed.

End ParseFailure.

(** C3. If, during a pass, the parse of a configured component directory
    or of a configured source directory throws [e], then [bundle()]
    returns [false]; logging [e] is the last thing it does, right after
    the failed parse call; and the pass invokes no afterBuild hook, does
    not dump the pages and invokes no bundle hook. *)
Theorem parse_failure_aborts_the_pass
    {World : Type} {FU : FileUtil World} {DM : Dom World} {PF : Platform}
    (plugin : PluginId -> Plugin.t World) (m : Machine.t World)
    (ev : Event) (e : Exn) :
  In ev (eventsOf (bundle plugin m)) ->
  parseThrew ev e ->
  resultOf (bundle plugin m) = Normal false /\
  (exists before, eventsOf (bundle plugin m) = before ++ [ev; EvLoggerError e]) /\
  hookCalls AfterBuild (eventsOf (bundle plugin m)) = [] /\
  hookCalls Bundle (eventsOf (bundle plugin m)) = [] /\
  Forall (fun ev => isDumpPages ev = false) (eventsOf (bundle plugin m)).
Proof.
  intros Hin Hthrew.
  destruct (events_bundle plugin m) as (state & m1 & Hev & Hres & Hs).
  rewrite Hev in *. rewrite Hres. clear Hev Hres.
  pose proof (runsWithin_runStateHooks plugin BeforeBuild
                (DefaultSettings.plugins (currentSettings m1)) state
                (machineOf (newSpearlyJSGenerator m1))) as HwB.
  destruct (bundleFrom_cases plugin state m1)
    as [(e' & Hev & Hres) | [(evP & ev' & e' & Hev & Hok & Hthrew' & Hres)
                            | (evP & state' & gen & m' & Hev & Hok & Hres)]];
    cbn zeta in *; set (evB := eventsOf (runStateHooks _ _ _ _ _)) in *;
    rewrite Hev in *; clear Hev.
  - exfalso. apply in_app_or in Hin as [Hin | [<- | []]].
    + apply (parseThrew_outside 2 2 evB ev e HwB Hthrew); [lia | exact Hin].
    + destruct Hthrew as [dir [H | H]]; discriminate.
  - assert (Hcase : ev = ev').
    { apply in_app_or in Hin as [Hin | [<- | Hin]].
      - exfalso. apply (parseThrew_outside 2 2 evB ev e HwB Hthrew); [lia | exact Hin].
      - destruct Hthrew as [dir [H | H]]; discriminate.
      - apply in_app_or in Hin as [Hin | [<- | [<- | []]]].
        + exfalso. rewrite Forall_forall in Hok.
          apply (parseThrew_not_parsedOk ev e Hthrew). now apply Hok.
        + reflexivity.
        + destruct Hthrew as [dir [H | H]]; discriminate. }
    subst ev'. assert (e' = e) as -> by eauto using parseThrew_inj.
    assert (Hall : Forall (upTo 5)
                     (evB ++ EvCreateDir (Normal tt) :: evP ++ [ev; EvLoggerError e])).
    { apply Forall_app. split.
      - eapply Forall_impl; [| apply (within_upTo _ _ _ HwB)].
        cbn. intros a Ha r Hr. apply Ha in Hr. lia.
      - constructor; [intros r [= <-]; lia |].
        apply Forall_app. split.
        + eapply Forall_impl; [| exact Hok]. apply parsedOk_upTo.
        + constructor; [eapply parseThrew_upTo; eauto |].
          constructor; [intros r; discriminate | constructor]. }
    split; [assumption |]. split.
    { exists (evB ++ EvCreateDir (Normal tt) :: evP).
      now rewrite <- app_assoc. }
    split; [apply (hookCalls_upTo 5); [assumption | cbn; lia] |].
    split; [apply (hookCalls_upTo 5); [assumption | cbn; lia] |].
    apply (noDumpPages_upTo 5); [assumption | lia].
  - exfalso. apply in_app_or in Hin as [Hin | [<- | Hin]].
    + apply (parseThrew_outside 2 2 evB ev e HwB Hthrew); [lia | exact Hin].
    + destruct Hthrew as [dir [H | H]]; discriminate.
    + apply in_app_or in Hin as [Hin | Hin].
      * rewrite Forall_forall in Hok.
        apply (parseThrew_not_parsedOk ev e Hthrew). now apply Hok.
      * apply (parseThrew_outside 6 10 _ ev e
                 (runsWithin_bundleAfterParse plugin state' gen m') Hthrew);
          [lia | exact Hin].
Qed.

(** C3 at work: the components directory of the small project cannot be
    read. *)
Lemma parse_failure_aborts_the_pass_witness :
  resultOf (bundle (FU := Fixture.unreadableComponents) Fixture.plugin Fixture.loaded)
  = Normal false /\
  hookCalls AfterBuild
    (eventsOf (bundle (FU := Fixture.unreadableComponents) Fixture.plugin Fixture.loaded))
  = [] /\
  hookCalls Bundle
    (eventsOf (bundle (FU := Fixture.unreadableComponents) Fixture.plugin Fixture.loaded))
  = [].
Proof.
  destruct (parse_failure_aborts_the_pass (FU := Fixture.unreadableComponents)
              Fixture.plugin Fixture.loaded
              (EvParseComponents "/a/components" (Throw "ENOENT")) "ENOENT")
    as (Hres & _ & Hafter & Hbundle & _).
  - vm_compute. repeat (first [left; reflexivity | right]).
  - exists "/a/components". left. reflexivity.
  - split; [exact Hres | split; [exact Hafter | exact Hbundle]].
Defined.

(** ** What makes a pass fail *)

Section Accountability.
Context {World : Type} {FU : FileUtil World} {DM : Dom World} {PF : Platform}.
Variable plugin : PluginId -> Plugin.t World.

Lemma explained_throw_app {A B} (P : A -> Prop) (Q : B -> Prop) e evs1 evs2 :
  explained P (Throw e) evs1 -> explained Q (Throw e) (evs1 ++ evs2).
Proof.
  cbn. intros [(ev & Hin & Hf) | (-> & nodes & Hin)]; [left | right].
  - exists ev. split; [apply in_or_app; now left | assumption].
  - split; [reflexivity |]. exists nodes. apply in_or_app. now left.
Qed.

Lemma explained_app {A} (Q : A -> Prop) r evs1 evs2 :
  explained Q r evs2 -> explained Q r (evs1 ++ evs2).
Proof.
  destruct r as [a|e]; cbn; [trivial |].
  intros [(ev & Hin & Hf) | (-> & nodes & Hin)]; [left | right].
  - exists ev. split; [apply in_or_app; now right | assumption].
  - split; [reflexivity |]. exists nodes. apply in_or_app. now right.
Qed.

Lemma accountable_bind {A B} (P : A -> Prop) (Q : B -> Prop)
    (c : M World A) (k : A -> M World B) :
  accountable P c -> (forall a, accountable Q (k a)) -> accountable Q (c ≫= k).
Proof.
  intros Hc Hk m. rewrite result_bind, events_bind. specialize (Hc m).
  destruct (resultOf (c m)) as [a|e].
  - apply explained_app, Hk.
  - rewrite <- (app_nil_r (eventsOf (c m))). eapply explained_throw_app, Hc.
Qed.

Lemma accountable_total {A} (Q : A -> Prop) (c : M World A) :
  (forall m, exists a, resultOf (c m) = Normal a /\ Q a) -> accountable Q c.
Proof. intros H m. destruct (H m) as (a & -> & Ha). exact Ha. Qed.

Lemma accountable_onWorld {A} (f : World -> Completion A * World) evf :
  (forall e, exists ev, In ev (evf (Throw e)) /\ collaboratorFailed ev = true) ->
  accountable (fun _ => True) (onWorld f evf).
Proof.
  intros H m. rewrite events_onWorld.
  destruct (resultOf (onWorld f evf m)) as [a|e]; cbn; [trivial |].
  left. apply H.
Qed.

Lemma accountable_forEach {A} (l : list A) (body : A -> M World unit) :
  (forall x, accountable (fun _ => True) (body x)) ->
  accountable (fun _ => True) (forEach l body).
Proof.
  intros H. induction l as [|x l IH]; cbn [forEach].
  - intros m. exact I.
  - eapply accountable_bind; [apply H | intros _; apply IH].
Qed.

Lemma accountable_callParseElements state nodes gen :
  accountable (fun _ => True) (callParseElements (World := World) state nodes gen).
Proof.
  unfold callParseElements.
  eapply (accountable_bind (fun _ => True)); [intros m; exact I | intros m0].
  apply accountable_onWorld. intros e. eexists. split; [now left | reflexivity].
Qed.

Lemma accountable_callGenerateAliasPages state gen :
  accountable (fun _ => True) (callGenerateAliasPages (World := World) state gen).
Proof.
  unfold callGenerateAliasPages.
  eapply (accountable_bind (fun _ => True)); [intros m; exact I | intros m0].
  apply accountable_onWorld. intros e. eexists. split; [now left | reflexivity].
Qed.

Lemma accountable_callDumpPages state :
  accountable (fun _ => True) (callDumpPages (World := World) state).
Proof.
  unfold callDumpPages.
  eapply (accountable_bind (fun _ => True)); [intros m; exact I | intros m0].
  apply accountable_onWorld. intros e. eexists. split; [now left | reflexivity].
Qed.

Lemma accountable_resolveComponents state gen todo componentsList :
  accountable (fun _ => True)
    (resolveComponents (World := World) state gen todo componentsList).
Proof.
  revert componentsList. induction todo as [|component rest IH]; intros acc;
    cbn [resolveComponents].
  - intros m. exact I.
  - intros m. rewrite result_bind, events_bind.
    pose proof (accountable_callParseElements state
                  (childNodes (Component.node component)) gen m) as Hcall.
    pose proof (events_onWorld
                  (parseElements (stateAt m state) (childNodes (Component.node component))
                     gen (currentSettings m))
                  (fun r => [EvParseElements (childNodes (Component.node component)) r])
                  m) as Hev.
    set (call := callParseElements state _ gen m) in *.
    destruct (resultOf call) as [[|first others]|e] eqn:Hres.
    + cbn. right. split; [reflexivity |].
      exists (childNodes (Component.node component)).
      apply in_or_app. left.
      assert (Hcallev : eventsOf call
                = [EvParseElements (childNodes (Component.node component)) (Normal [])]).
      { subst call. unfold callParseElements in *.
        rewrite events_bind, result_bind in *.
        cbn [getMachine resultOf machineOf eventsOf fst snd app] in *.
        rewrite Hev. cbn [resultOf fst] in Hres |- *. now rewrite Hres. }
      rewrite Hcallev. now left.
    + apply explained_app, IH.
    + rewrite <- (app_nil_r (eventsOf call)). eapply explained_throw_app, Hcall.
Qed.

Lemma accountable_assignPageChildNodes state i nodes :
  accountable (fun _ => True) (assignPageChildNodes (World := World) state i nodes).
Proof. intros m. exact I. Qed.

Lemma accountable_resolvePage state gen i :
  accountable (fun _ => True) (resolvePage (World := World) state gen i).
Proof.
  unfold resolvePage. eapply (accountable_bind (fun _ => True)); [intros m; exact I | intros s].
  destruct (State.pagesList s !! i) as [page|]; [| intros m; exact I].
  eapply accountable_bind; [apply accountable_callParseElements | intros nodes].
  eapply accountable_bind; [apply accountable_assignPageChildNodes | intros _].
  eapply (accountable_bind (fun _ => True)); [intros m; exact I | intros s'].
  destruct (State.pagesList s' !! i) as [page'|]; [| intros m; exact I].
  eapply accountable_bind; [apply accountable_callParseElements | intros nodes'].
  apply accountable_assignPageChildNodes.
Qed.

Lemma accountable_bundleResolve state gen :
  accountable (fun _ => True) (bundleResolve (World := World) state gen).
Proof.
  unfold bundleResolve. eapply (accountable_bind (fun _ => True)); [intros m; exact I | intros s].
  eapply accountable_bind; [apply accountable_resolveComponents | intros componentsList].
  eapply (accountable_bind (fun _ => True)); [intros m; exact I | intros s1].
  eapply (accountable_bind (fun _ => True)); [intros m; exact I | intros _].
  eapply (accountable_bind (fun _ => True)); [intros m; exact I | intros s2].
  eapply accountable_bind.
  { apply accountable_forEach. intros i. apply accountable_resolvePage. }
  intros _. eapply accountable_bind; [apply accountable_callGenerateAliasPages |].
  intros pages. eapply (accountable_bind (fun _ => True)); [intros m; exact I | intros s3].
  intros m. exact I.
Qed.

Lemma accountable_runStateHooks cp plugins state :
  accountable (fun _ => True) (runStateHooks plugin cp plugins state).
Proof.
  apply accountable_total. intros m.
  destruct (runStateHooks_normal plugin cp plugins state m) as [state' ->]. eauto.
Qed.

Lemma accountable_bundleFinish state :
  accountable (fun b => b = true) (bundleFinish plugin state).
Proof.
  unfold bundleFinish. eapply (accountable_bind (fun _ => True)); [intros m; exact I | intros s].
  eapply accountable_bind; [apply accountable_runStateHooks | intros state1].
  eapply accountable_bind; [apply accountable_callDumpPages | intros _].
  eapply (accountable_bind (fun _ => True)); [intros m; exact I | intros s1].
  eapply accountable_bind; [apply accountable_runStateHooks | intros state2].
  intros m. reflexivity.
Qed.

Lemma accountable_bundleAfterParse state gen :
  accountable (fun b => b = true) (bundleAfterParse plugin state gen).
Proof.
  unfold bundleAfterParse.
  eapply accountable_bind; [apply accountable_bundleResolve | intros _].
  apply accountable_bundleFinish.
Qed.

(** A pass in which no collaborator call throws returns [true], whatever
    the hooks do, unless a component resolves to no node. *)
Lemma bundleFrom_result state (m : Machine.t World) :
  Forall (fun ev => collaboratorFailed ev = false) (eventsOf (bundleFrom plugin state m)) ->
  resultOf (bundleFrom plugin state m) = Normal true \/
  (resultOf (bundleFrom plugin state m) = Throw undefinedOuterHTML /\
   exists nodes,
     In (EvParseElements nodes (Normal [])) (eventsOf (bundleFrom plugin state m))).
Proof.
  intros Hall. rewrite Forall_forall in Hall.
  destruct (bundleFrom_cases plugin state m)
    as [(e' & Hev & Hres) | [(evP & ev' & e' & Hev & Hok & Hthrew' & Hres)
                            | (evP & state' & gen & m' & Hev & Hok & Hres)]];
    cbn zeta in *; set (evB := eventsOf (runStateHooks _ _ _ _ _)) in *;
    rewrite Hev in *; clear Hev.
  - exfalso. specialize (Hall (EvCreateDir (Throw e'))).
    cbn in Hall. enough (true = false) by discriminate.
    apply Hall, in_or_app. right. now left.
  - exfalso. assert (Hf : collaboratorFailed ev' = true)
      by (destruct Hthrew' as [dir [-> | ->]]; reflexivity).
    rewrite Hall in Hf; [discriminate |].
    apply in_or_app. right. right. apply in_or_app. right. now left.
  - rewrite Hres. pose proof (accountable_bundleAfterParse state' gen m') as Hacc.
    destruct (resultOf (bundleAfterParse plugin state' gen m')) as [b|e]; cbn in Hacc.
    + left. now subst b.
    + destruct Hacc as [(ev & Hin & Hf) | (-> & nodes & Hin)].
      * exfalso. rewrite Hall in Hf; [discriminate |].
        apply in_or_app. right. right. apply in_or_app. now right.
      * right. split; [reflexivity |]. exists nodes.
        apply in_or_app. right. right. apply in_or_app. now right.
Qed.

End Accountability.

(** ** Plugin failure isolation and hook return values *)

Section HookOutcomes.
Context {World : Type} {FU : FileUtil World} {DM : Dom World} {PF : Platform}.
Variable plugin : PluginId -> Plugin.t World.

Lemma warnMessage_names_plugin cp name :
  exists front back, warnMessage cp name = front +:+ name +:+ back.
Proof. destruct cp; cbn; eexists _, _; reflexivity. Qed.

Lemma runStateHooks_cons cp id rest state (m : Machine.t World) state' m' evs :
  stateHookStep plugin cp id state m = (Normal state', m', evs) ->
  runStateHooks plugin cp (id :: rest) state m
  = prefixed evs (runStateHooks plugin cp rest state' m').
Proof.
  intros H. cbn [runStateHooks]. rewrite run_bind, H. unfold prefixed.
  destruct (runStateHooks plugin cp rest state' m') as [[r m2] ev2]. reflexivity.
Qed.

Lemma runConfigurationHooks_cons id rest (m : Machine.t World) m' evs :
  configurationHookStep plugin id m = (Normal tt, m', evs) ->
  runConfigurationHooks plugin (id :: rest) m
  = prefixed evs (runConfigurationHooks plugin rest m').
Proof.
  intros H. unfold runConfigurationHooks. cbn [forEach]. rewrite run_bind, H.
  unfold prefixed. destruct (forEach rest _ m') as [[r m2] ev2]. reflexivity.
Qed.

Lemma prefixed_prefixed {A} evs1 evs2
    (run : Completion A * Machine.t World * list Event) :
  prefixed evs1 (prefixed evs2 run) = prefixed (evs1 ++ evs2) run.
Proof. unfold prefixed. cbn. now rewrite app_assoc. Qed.

Lemma runStateHooks_app cp before rest :
  forall state (m : Machine.t World) state' m' evs,
  runStateHooks plugin cp before state m = (Normal state', m', evs) ->
  runStateHooks plugin cp (before ++ rest) state m
  = prefixed evs (runStateHooks plugin cp rest state' m').
Proof.
  induction before as [|id before IH]; intros state m state' m' evs.
  - cbn. intros [= <- <- <-]. unfold prefixed.
    destruct (runStateHooks plugin cp rest state m) as [[r m2] ev2]. reflexivity.
  - cbn [runStateHooks app]. rewrite !run_bind.
    destruct (stateHookStep_run plugin cp id state m) as (state1 & Hres & _).
    destruct (stateHookStep plugin cp id state m) as [[r1 m1] ev1]. cbn in Hres. subst r1.
    destruct (runStateHooks plugin cp before state1 m1) as [[r2 m2] ev2] eqn:E.
    intros [= -> <- <-]. rewrite (IH _ _ _ _ _ E). unfold prefixed.
    destruct (runStateHooks plugin cp rest state' m2) as [[r3 m3] ev3]. cbn.
    now rewrite app_assoc.
Qed.

Lemma runConfigurationHooks_app before rest :
  forall (m : Machine.t World) m' evs,
  runConfigurationHooks plugin before m = (Normal tt, m', evs) ->
  runConfigurationHooks plugin (before ++ rest) m
  = prefixed evs (runConfigurationHooks plugin rest m').
Proof.
  unfold runConfigurationHooks.
  induction before as [|id before IH]; intros m m' evs.
  - cbn. intros [= <- <-]. unfold prefixed.
    destruct (forEach rest _ m) as [[r m2] ev2]. reflexivity.
  - cbn [forEach app]. rewrite !run_bind.
    destruct (configurationHookStep_run plugin id m) as (Hres & _).
    destruct (configurationHookStep plugin id m) as [[r1 m1] ev1]. cbn in Hres. subst r1.
    destruct (forEach before (configurationHookStep plugin) m1) as [[r2 m2] ev2] eqn:E.
    intros [= -> <- <-]. rewrite (IH _ _ _ E). unfold prefixed.
    destruct (forEach rest _ m2) as [[r3 m3] ev3]. cbn.
    now rewrite app_assoc.
Qed.

Lemma bundle_true_when_valid (m : Machine.t World) :
  Forall (fun ev => collaboratorFailed ev = false) (eventsOf (bundle plugin m)) ->
  Forall (fun ev => resolvedToNothing ev = false) (eventsOf (bundle plugin m)) ->
  resultOf (bundle plugin m) = Normal true.
Proof.
  destruct (events_bundle plugin m) as (state & m1 & -> & -> & _).
  intros Hok Hne.
  destruct (bundleFrom_result plugin state m1 Hok) as [H | (_ & nodes & Hin)];
    [assumption |].
  rewrite Forall_forall in Hne. apply Hne in Hin. discriminate.
Qed.

End HookOutcomes.

(** ** Which failures end a pass *)

(** C6, as the specification states it, fails: in the small project with
    an alias generation that throws, every configured component directory
    and source directory is parsed, no parse call throws, and [bundle()]
    does not return [true]: the exception leaves it. *)
Lemma alias_failure_escapes_bundle :
  Forall (fun ev => parseFailed ev = false)
    (eventsOf (bundle (DM := Fixture.failingAlias) Fixture.plugin Fixture.loaded)) /\
  omap (fun ev => match ev with
                  | EvParseComponents dir (Normal _) => Some dir
                  | EvParsePages dir (Normal _) => Some dir
                  | _ => None
                  end)
    (eventsOf (bundle (DM := Fixture.failingAlias) Fixture.plugin Fixture.loaded))
  = DefaultSettings.componentsFolder (currentSettings Fixture.loaded)
    ++ DefaultSettings.srcDir (currentSettings Fixture.loaded) /\
  resultOf (bundle (DM := Fixture.failingAlias) Fixture.plugin Fixture.loaded)
  = Throw "alias generation failed" /\
  resultOf (bundle (DM := Fixture.failingAlias) Fixture.plugin Fixture.loaded)
  <> Normal true.
Proof.
  split; [vm_compute; repeat constructor |].
  split; [vm_compute; reflexivity |].
  split; [vm_compute; reflexivity |].
  vm_compute. discriminate.
Qed.

(** ** Order of the checkpoints and of the plugins *)

Section Ordering.
Context {World : Type} {FU : FileUtil World} {DM : Dom World} {PF : Platform}.
Variable plugin : PluginId -> Plugin.t World.

Lemma events_bundleFrom_split state (m : Machine.t World) :
  exists rest,
    eventsOf (bundleFrom plugin state m)
    = eventsOf (runStateHooks plugin BeforeBuild
                  (DefaultSettings.plugins (currentSettings m)) state
                  (machineOf (newSpearlyJSGenerator m))) ++ rest /\
    within 3 10 rest.
Proof.
  unfold bundleFrom. rewrite events_bind.
  destruct (newSpearlyJSGenerator_run m) as (gen & -> & -> & Hs & _).
  set (m0 := machineOf (newSpearlyJSGenerator m)) in *.
  rewrite events_bind.
  cbn [readSettings resultOf machineOf eventsOf fst snd app]. rewrite Hs.
  rewrite events_bind.
  set (runB := runStateHooks plugin BeforeBuild _ state m0).
  assert (exists state1, resultOf runB = Normal state1) as [state1 ->]
    by apply runStateHooks_normal.
  eexists. split; [reflexivity |].
  apply (runsWithin_bind 3 3 10); [apply runsWithin_callCreateDir | | lia].
  intros _. eapply runsWithin_weaken; [apply runsWithin_bundleParse | lia | lia].
Qed.

Lemma events_loadSettings (m : Machine.t World) :
  resultOf (loadSettingsPrologue m) = Normal tt ->
  eventsOf (loadSettings plugin m)
  = eventsOf (loadSettingsPrologue m)
    ++ eventsOf (runConfigurationHooks plugin
                   (DefaultSettings.plugins
                      (currentSettings (machineOf (loadSettingsPrologue m))))
                   (machineOf (loadSettingsPrologue m))).
Proof.
  intros H. unfold loadSettings. rewrite events_bind, H, events_bind. reflexivity.
Qed.

End Ordering.

(** ** The srcDir invariant *)

Section SrcDirInvariant.
Context {World : Type} {FU : FileUtil World} {DM : Dom World} {PF : Platform}.
Variable plugin : PluginId -> Plugin.t World.

Lemma srcDir_after_prologue (m : Machine.t World) :
  resultOf (loadSettingsPrologue m) = Normal tt ->
  exists configured,
    DefaultSettings.srcDir (currentSettings (machineOf (loadSettingsPrologue m)))
    = dedupSrcDir configured.
Proof.
  unfold loadSettingsPrologue. rewrite result_bind, machine_bind.
  destruct (resultOf (loadSettingsFromFile m)) as [[]|e]; [intros _ | discriminate].
  set (m1 := machineOf (loadSettingsFromFile m)).
  eexists. unfold currentSettings, settingsAt.
  unfold mbind, M_bind, readSettings, modifyMem, updateSettings, modifyMachine. cbn.
  unfold currentSettings, settingsAt. cbn.
  rewrite lookup_total_insert_eq. reflexivity.
Qed.

Lemma runConfigurationHooks_without_hooks plugins (m : Machine.t World) :
  (forall id, hookSlot Configuration (plugin id) = None) ->
  runConfigurationHooks plugin plugins m = (Normal tt, m, []).
Proof.
  intros Hnone. unfold runConfigurationHooks. revert m.
  induction plugins as [|id rest IH]; intros m; cbn [forEach]; [reflexivity |].
  rewrite run_bind. unfold configurationHookStep at 1. rewrite Hnone.
  cbn. rewrite IH. reflexivity.
Qed.

End SrcDirInvariant.

(** C8, as the code has it. When the settings file is loaded, at the
    moment the configuration hooks are about to fire, [Settings.srcDir]
    holds no entry that starts with a distinct entry ending with
    "components"; this is still so at the end of settings loading when no
    plugin has a configuration hook. *)
Theorem srcDir_has_nothing_nested_in_components
    {World : Type} {FU : FileUtil World} {DM : Dom World} {PF : Platform}
    (plugin : PluginId -> Plugin.t World) (m : Machine.t World) :
  resultOf (loadSettingsPrologue m) = Normal tt ->
  componentsContainmentFree
    (DefaultSettings.srcDir (currentSettings (machineOf (loadSettingsPrologue m)))) /\
  ((forall id, hookSlot Configuration (plugin id) = None) ->
   resultOf (loadSettings plugin m) = Normal tt /\
   componentsContainmentFree
     (DefaultSettings.srcDir (currentSettings (machineOf (loadSettings plugin m))))).
Proof.
  intros Hok.
  destruct (srcDir_after_prologue m Hok) as [configured Hsrc].
  assert (Hfree : componentsContainmentFree
            (DefaultSettings.srcDir (currentSettings (machineOf (loadSettingsPrologue m)))))
    by (rewrite Hsrc; apply dedupSrcDir_componentsContainmentFree).
  split; [exact Hfree |].
  intros Hnone. unfold loadSettings.
  rewrite result_bind, machine_bind, Hok, result_bind, machine_bind.
  cbn [readSettings resultOf machineOf eventsOf fst snd].
  rewrite (runConfigurationHooks_without_hooks plugin _ _ Hnone).
  split; [reflexivity | exact Hfree].
Qed.

(** C8 at work: the small project without its plugins. *)
Lemma srcDir_has_nothing_nested_in_components_witness :
  componentsContainmentFree
    (DefaultSettings.srcDir
       (currentSettings
          (machineOf (loadSettings (fun _ => Fixture.noHooks)
                        (machineOf (initializeArgument Fixture.build Fixture.start)))))).
Proof.
  destruct (srcDir_has_nothing_nested_in_components (fun _ => Fixture.noHooks)
              (machineOf (initializeArgument Fixture.build Fixture.start)))
    as [_ Hend].
  - vm_compute. reflexivity.
  - destruct (Hend (fun _ => eq_refl)) as [_ Hfree]. exact Hfree.
Defined.

(** C8, as the specification states it, fails. After the settings of the
    small project are loaded, with no plugin at all, [srcDir] still holds
    "/a/b", a sub-path of the distinct entry "/a", which is no components
    directory. And when a configuration hook returns settings whose
    [srcDir] is ["/x"; "/x/y"], these are the settings the loading ends
    with: the list is not deduplicated again. *)
Lemma srcDir_keeps_plain_nesting :
  DefaultSettings.srcDir
    (currentSettings
       (machineOf ((initializeArgument Fixture.build;; loadSettings (fun _ => Fixture.noHooks))
                     Fixture.start)))
  = ["/a"; "/a/b"; "/a/components"] /\
  ~ specContainmentFree ["/a"; "/a/b"; "/a/components"] /\
  DefaultSettings.srcDir
    (currentSettings
       (machineOf ((initializeArgument Fixture.build;; loadSettings (fun _ => Fixture.rewirer))
                     Fixture.start)))
  = ["/x"; "/x/y"] /\
  ~ specContainmentFree ["/x"; "/x/y"].
Proof.
  split; [vm_compute; reflexivity |]. split; [| split; [vm_compute; reflexivity |]].
  - intros Hfree.
    assert (Hc : componentsDir "/a").
    { apply (Hfree "/a/b" "/a").
      - right. left. reflexivity.
      - left. reflexivity.
      - intros H. inversion H.
      - exists "/b". reflexivity. }
    apply endsWith_spec in Hc. discriminate Hc.
  - intros Hfree.
    assert (Hc : componentsDir "/x").
    { apply (Hfree "/x/y" "/x").
      - right. left. reflexivity.
      - left. reflexivity.
      - intros H. inversion H.
      - exists "/y". reflexivity. }
    apply endsWith_spec in Hc. discriminate Hc.
Qed.

(** ** A fresh state for each pass *)

(** C9. Whatever the store holds when [bundle()] is called, the pass works
    on a state object that did not exist before the call and whose
    [pagesList], [componentsList], [globalProps] and [out.assetsFiles] are
    empty; no other object of the store is touched by its creation, and
    this new object, still empty, is what the first beforeBuild hook
    receives. The watch callback reloads the settings and then calls
    [bundle()], which therefore starts from such an object again;
    [bundle()] hands no state back to its caller. *)
Theorem bundle_starts_from_a_fresh_empty_state
    {World : Type} {FU : FileUtil World} {DM : Dom World} {PF : Platform}
    (plugin : PluginId -> Plugin.t World) (m : Machine.t World) :
  exists state m1,
    bundle plugin m = bundleFrom plugin state m1 /\
    (state ∉ dom (Mem.stateObjs (Machine.mem m))) /\
    stateAt m1 state = emptyState /\
    State.pagesList (stateAt m1 state) = [] /\
    State.componentsList (stateAt m1 state) = [] /\
    State.globalProps (stateAt m1 state) = ∅ /\
    Out.assetsFiles (State.out (stateAt m1 state)) = [] /\
    (forall l, l <> state ->
       Mem.stateObjs (Machine.mem m1) !! l = Mem.stateObjs (Machine.mem m) !! l) /\
    (forall id rest hook,
       DefaultSettings.plugins (currentSettings m) = id :: rest ->
       hookSlot BeforeBuild (plugin id) = Some hook ->
       exists tail,
         eventsOf (bundle plugin m)
         = EvHook BeforeBuild id state (hook state (Machine.mem m1)).1 :: tail) /\
    (forall name,
       eventsOf (onWatchEvent plugin name m)
       = EvLoggerLog ("changed: " +:+ name)
         :: eventsOf (loadSettings plugin m)
         ++ match resultOf (loadSettings plugin m) with
            | Normal _ => eventsOf (bundle plugin (machineOf (loadSettings plugin m)))
            | Throw _ => []
            end).
Proof.
  set (state := fresh (dom (Mem.stateObjs (Machine.mem m)))).
  set (m1 := Machine.setMem m
               (Mem.setStateObjs (Machine.mem m)
                  (<[state := emptyState]> (Mem.stateObjs (Machine.mem m))))).
  exists state, m1.
  assert (Hat : stateAt m1 state = emptyState)
    by (unfold stateAt; cbn; apply lookup_total_insert_eq).
  assert (Hbundle : bundle plugin m = bundleFrom plugin state m1).
  { unfold bundle. rewrite run_bind. cbn [newStateObject]. fold state. fold m1.
    destruct (bundleFrom plugin state m1) as [[r m2] ev2]. reflexivity. }
  split; [exact Hbundle |].
  split; [apply is_fresh |].
  split; [exact Hat |]. rewrite Hat.
  do 4 (split; [reflexivity |]).
  split; [intros l Hl; cbn; now apply lookup_insert_ne |].
  split.
  - intros id rest hook Hplugins Hslot. rewrite Hbundle.
    destruct (events_bundleFrom_split plugin state m1) as (tail & -> & _).
    change (currentSettings m1) with (currentSettings m). rewrite Hplugins.
    cbn [runStateHooks]. rewrite events_bind.
    set (m0 := machineOf (newSpearlyJSGenerator m1)).
    change (Machine.mem m1) with (Machine.mem m0).
    destruct (hook state (Machine.mem m0)) as [[[newState|]|e] mem'] eqn:Hrun.
    + rewrite (stateHookStep_truthy plugin _ _ _ _ _ _ _ Hslot Hrun).
      cbn. eexists. reflexivity.
    + rewrite (stateHookStep_falsy plugin _ _ _ _ _ _ Hslot Hrun).
      cbn. eexists. reflexivity.
    + rewrite (stateHookStep_throw plugin _ _ _ _ _ _ _ Hslot Hrun).
      cbn. eexists. reflexivity.
  - intros name. unfold onWatchEvent. rewrite events_bind.
    change (machineOf (loggerLog ("changed: " +:+ name) m)) with m.
    change (resultOf (loggerLog ("changed: " +:+ name) m)) with (Normal tt : Completion unit).
    change (eventsOf (loggerLog ("changed: " +:+ name) m))
      with [EvLoggerLog ("changed: " +:+ name)].
    cbn [app]. f_equal.
    rewrite events_bind. destruct (resultOf (loadSettings plugin m)) as [[]|e];
      [| now rewrite app_nil_r].
    f_equal. rewrite events_bind, run_attempt.
    cbn [resultOf eventsOf machineOf fst snd mret M_ret]. apply app_nil_r.
Qed.

(** ** The resolver passes *)

Section Resolution.
Context {World : Type} {FU : FileUtil World} {DM : Dom World} {PF : Platform}.
Variable plugin : PluginId -> Plugin.t World.

(** A resolver call changes nothing but the outside world. *)
Lemma callParseElements_run state nodes gen (m : Machine.t World) :
  exists r w,
    callParseElements state nodes gen m
    = (r, Machine.setMem m (Mem.setWorld (Machine.mem m) w), [EvParseElements nodes r]).
Proof.
  unfold callParseElements. rewrite run_bind. cbn [getMachine].
  unfold onWorld. destruct (parseElements _ _ _ _ _) as [r w].
  exists r, w. reflexivity.
Qed.

Lemma resolveComponents_run state gen todo acc (m : Machine.t World) :
  let run := resolveComponents state gen todo acc m in
  Mem.stateObjs (Machine.mem (machineOf run)) = Mem.stateObjs (Machine.mem m) /\
  (forall result, resultOf run = Normal result ->
     exists rebuilt, result = acc ++ rebuilt /\ Rebuilt todo (eventsOf run) rebuilt) /\
  (Forall resolvedToSomething (eventsOf run) -> exists result, resultOf run = Normal result).
Proof.
  revert acc m. induction todo as [|component rest IH]; intros acc m; cbn [resolveComponents].
  - cbn. split; [reflexivity |]. split.
    + intros result [= <-]. exists []. split; [now rewrite app_nil_r | constructor].
    + intros _. eexists. reflexivity.
  - cbn zeta. rewrite run_bind.
    destruct (callParseElements_run state (childNodes (Component.node component)) gen m)
      as (r & w & ->).
    destruct r as [[|first others]|e].
    + cbn. split; [reflexivity |]. split; [discriminate |].
      intros Hall. inversion Hall as [|? ? (nodes & first & others & Heq) _]. discriminate.
    + set (m1 := Machine.setMem m _).
      set (acc1 := acc ++ _).
      destruct (IH acc1 m1) as (Hstore & Hnormal & Htotal). cbn zeta in *.
      destruct (resolveComponents state gen rest acc1 m1) as [[r2 m2] ev2].
      cbn in *. split; [exact Hstore |]. split.
      * intros result ->. destruct (Hnormal _ eq_refl) as (rebuilt & -> & Hreb).
        eexists. split; [subst acc1; rewrite <- app_assoc; reflexivity |].
        now constructor.
      * intros Hall. apply Htotal. now inversion Hall.
    + cbn. split; [reflexivity |]. split; [discriminate |].
      intros Hall. inversion Hall as [|? ? (nodes & first & others & Heq) _]. discriminate.
Qed.

Lemma assignPageChildNodes_run state i nodes (m : Machine.t World) :
  assignPageChildNodes state i nodes m
  = (Normal tt,
     Machine.setMem m
       (Mem.setStateObjs (Machine.mem m)
          (<[state := State.setPagesList (stateAt m state)
                        (alter (fun page => Page.setChildNodes page nodes) i
                           (State.pagesList (stateAt m state)))]>
             (Mem.stateObjs (Machine.mem m)))),
     []).
Proof. reflexivity. Qed.

Lemma resolvePage_run state gen (m : Machine.t World) done page rest :
  State.pagesList (stateAt m state) = done ++ page :: rest ->
  let run := resolvePage state gen (length done) m in
  forall u, resultOf run = Normal u ->
    exists first second,
      eventsOf run
      = [EvParseElements (childNodes (Page.node page)) (Normal first);
         EvParseElements first (Normal second)] /\
      State.pagesList (stateAt (machineOf run) state)
      = done ++ Page.setChildNodes page second :: rest /\
      State.componentsList (stateAt (machineOf run) state)
      = State.componentsList (stateAt m state).
Proof.
  intros Hpages run u. subst run. unfold resolvePage.
  rewrite run_bind. cbn [readState]. rewrite Hpages, list_lookup_middle by reflexivity.
  rewrite run_bind.
  destruct (callParseElements_run state (childNodes (Page.node page)) gen m)
    as (r & w & ->).
  destruct r as [first|e]; [| discriminate].
  set (m1 := Machine.setMem m _).
  rewrite run_bind, assignPageChildNodes_run.
  set (m2 := Machine.setMem m1 _).
  assert (Hpages2 : State.pagesList (stateAt m2 state)
                    = done ++ Page.setChildNodes page first :: rest).
  { subst m2. unfold stateAt at 1. cbn. rewrite lookup_total_insert_eq. cbn.
    change (stateAt m1 state) with (stateAt m state). rewrite Hpages.
    rewrite alter_app_r_alt by reflexivity. now rewrite Nat.sub_diag. }
  assert (Hcomps2 : State.componentsList (stateAt m2 state)
                    = State.componentsList (stateAt m state)).
  { subst m2. unfold stateAt at 1. cbn. rewrite lookup_total_insert_eq. reflexivity. }
  rewrite run_bind. cbn [readState]. rewrite Hpages2, list_lookup_middle by reflexivity.
  rewrite run_bind.
  destruct (callParseElements_run state
              (childNodes (Page.node (Page.setChildNodes page first))) gen m2)
    as (r & w' & ->).
  destruct r as [second|e]; [| discriminate].
  set (m3 := Machine.setMem m2 _).
  rewrite assignPageChildNodes_run. cbn. intros _.
  exists first, second. split; [reflexivity |]. split.
  - unfold stateAt at 1. cbn. rewrite lookup_total_insert_eq. cbn.
    change (stateAt m3 state) with (stateAt m2 state). rewrite Hpages2.
    rewrite alter_app_r_alt by reflexivity. now rewrite Nat.sub_diag.
  - rewrite <- Hcomps2. unfold stateAt at 1. cbn.
    rewrite lookup_total_insert_eq. reflexivity.
Qed.

Lemma resolvePages_run state gen rest :
  forall done (m : Machine.t World),
  State.pagesList (stateAt m state) = done ++ rest ->
  let run := forEach (seq (length done) (length rest)) (resolvePage state gen) m in
  forall u, resultOf run = Normal u ->
    exists resolved,
      TwicePerPage rest (eventsOf run) resolved /\
      State.pagesList (stateAt (machineOf run) state) = done ++ resolved /\
      State.componentsList (stateAt (machineOf run) state)
      = State.componentsList (stateAt m state).
Proof.
  induction rest as [|page rest IH]; intros done m Hpages run u; subst run.
  - cbn. intros _. exists []. split; [constructor |]. split; [assumption | reflexivity].
  - cbn [length seq forEach]. rewrite result_bind, events_bind, machine_bind.
    pose proof (resolvePage_run state gen m done page rest Hpages) as Hpage.
    cbn zeta in Hpage.
    destruct (resultOf (resolvePage state gen (length done) m)) as [[]|e];
      [| discriminate].
    destruct (Hpage tt eq_refl) as (first & second & -> & Hpages1 & Hcomps1).
    set (m1 := machineOf (resolvePage state gen (length done) m)) in *.
    specialize (IH (done ++ [Page.setChildNodes page second]) m1).
    rewrite <- app_assoc in IH. specialize (IH Hpages1).
    rewrite length_app in IH. cbn [length] in IH.
    replace (length done + 1) with (S (length done)) in IH by lia.
    cbn zeta in IH. intros Hres. destruct (IH u Hres) as (resolved & Htwice & Hp & Hc).
    exists (Page.setChildNodes page second :: resolved).
    split; [cbn; now constructor |].
    split; [rewrite Hp, <- app_assoc; reflexivity | now rewrite Hc].
Qed.

Lemma callGenerateAliasPages_run state gen (m : Machine.t World) :
  exists r w,
    callGenerateAliasPages state gen m
    = (r, Machine.setMem m (Mem.setWorld (Machine.mem m) w), [EvGenerateAliasPages r]).
Proof.
  unfold callGenerateAliasPages. rewrite run_bind. cbn [getMachine].
  unfold onWorld. destruct (generateAliasPagesFromPagesList _ _ _ _) as [r w].
  exists r, w. reflexivity.
Qed.

Lemma bundleResolve_run state gen (m : Machine.t World) :
  resultOf (bundleResolve state gen m) = Normal tt ->
  exists evC evP rebuilt resolved aliased,
    eventsOf (bundleResolve state gen m)
    = evC ++ evP ++ [EvGenerateAliasPages (Normal aliased)] /\
    Rebuilt (State.componentsList (stateAt m state)) evC rebuilt /\
    TwicePerPage (State.pagesList (stateAt m state)) evP resolved /\
    State.componentsList (stateAt (machineOf (bundleResolve state gen m)) state) = rebuilt /\
    State.pagesList (stateAt (machineOf (bundleResolve state gen m)) state) = aliased.
Proof.
  unfold bundleResolve.
  rewrite (run_bind_silent_normal (readState state) _ m _ m eq_refl).
  pose proof (resolveComponents_run state gen (State.componentsList (stateAt m state)) [] m)
    as (Hstore & Hnormal & _). cbn zeta in *.
  destruct (resolveComponents state gen (State.componentsList (stateAt m state)) [] m)
    as [[[componentsList|e] m1] evC] eqn:E1;
    [| rewrite (run_bind_throw _ _ _ _ _ _ E1); discriminate].
  rewrite (run_bind_prefixed _ _ _ _ _ _ E1).
  cbn in Hstore. destruct (Hnormal _ eq_refl) as (rebuilt & Heq & Hreb).
  cbn in Heq, Hreb. subst componentsList. clear Hnormal.
  rewrite (run_bind_silent_normal (readState state) _ m1 _ m1 eq_refl).
  rewrite (run_bind_silent_normal (writeState state _) _ m1 _ _ eq_refl).
  set (m2 := Machine.setMem m1 _).
  rewrite (run_bind_silent_normal (readState state) _ m2 _ m2 eq_refl).
  assert (Hp2 : State.pagesList (stateAt m2 state) = State.pagesList (stateAt m state)).
  { subst m2. unfold stateAt. cbn. rewrite lookup_total_insert_eq, Hstore. reflexivity. }
  assert (Hc2 : State.componentsList (stateAt m2 state) = rebuilt).
  { subst m2. unfold stateAt. cbn. rewrite lookup_total_insert_eq. reflexivity. }
  pose proof (resolvePages_run state gen (State.pagesList (stateAt m2 state)) [] m2 eq_refl)
    as Hpages. cbn zeta in Hpages. cbn [length] in Hpages.
  destruct (forEach (seq 0 (length (State.pagesList (stateAt m2 state))))
              (resolvePage state gen) m2) as [[[[]|e] m3] evP] eqn:E3;
    [| rewrite (run_bind_throw _ _ _ _ _ _ E3); discriminate].
  rewrite (run_bind_prefixed _ _ _ _ _ _ E3).
  destruct (Hpages tt eq_refl) as (resolved & Htwice & Hp3 & Hc3).
  cbn in Htwice, Hp3, Hc3. clear Hpages.
  destruct (callGenerateAliasPages_run state gen m3) as (r & w & E4).
  destruct r as [aliased|e]; [| rewrite (run_bind_throw _ _ _ _ _ _ E4); discriminate].
  rewrite (run_bind_prefixed _ _ _ _ _ _ E4).
  set (m4 := Machine.setMem m3 _) in *.
  rewrite (run_bind_silent_normal (readState state) _ m4 _ m4 eq_refl).
  intros _. exists evC, evP, rebuilt, resolved, aliased.
  split; [reflexivity |]. split; [exact Hreb |].
  split; [now rewrite <- Hp2 |].
  unfold prefixed, stateAt. cbn. rewrite !lookup_total_insert_eq. cbn.
  split; [| reflexivity].
  change (State.componentsList (stateAt m3 state) = rebuilt). now rewrite Hc3.
Qed.

Lemma Rebuilt_length todo evs rebuilt :
  Rebuilt todo evs rebuilt -> length evs = length todo /\ length rebuilt = length todo.
Proof. induction 1; cbn; [split; reflexivity | lia]. Qed.

Lemma Rebuilt_fields todo evs rebuilt :
  Rebuilt todo evs rebuilt ->
  Forall2 (fun c c' =>
             Component.fname c' = Component.fname c /\
             Component.tagName c' = Component.tagName c /\
             Component.props c' = ∅) todo rebuilt.
Proof. induction 1; constructor; cbn; auto. Qed.

Lemma TwicePerPage_length pages evs resolved :
  TwicePerPage pages evs resolved ->
  length evs = 2 * length pages /\ length resolved = length pages.
Proof. induction 1; cbn; [split; reflexivity | lia]. Qed.

Lemma noParseElements_within lo hi evs :
  within lo hi evs -> ~ (lo <= 6 <= hi) ->
  Forall (fun ev => isParseElements ev = false) evs.
Proof.
  intros Hw Hout. apply Forall_forall. intros ev Hin.
  destruct ev; try reflexivity.
  pose proof (within_rank _ _ _ _ 6 Hw Hin eq_refl). lia.
Qed.

Lemma noParseElements_parsedOk evs :
  Forall parsedOk evs -> Forall (fun ev => isParseElements ev = false) evs.
Proof.
  intros H. eapply Forall_impl; [| exact H]. cbn.
  intros ev [dir [-> | ->]]; reflexivity.
Qed.

End Resolution.

(** C10. When every resolver call of the component re-resolution loop
    returns at least one node, the loop completes and the rebuilt list has
    one entry per component, in the same order; each entry keeps [fname]
    and [tagName], has empty [props], and takes [node] and [rawData] from
    the first node of the resolved sequence only, whatever the nodes that
    follow it. *)
Theorem component_resolution_keeps_the_first_node
    {World : Type} {FU : FileUtil World} {DM : Dom World} {PF : Platform}
    (state : loc) (gen : SpearlyJSGenerator.t) (todo : list Component.t)
    (m : Machine.t World) :
  Forall resolvedToSomething (eventsOf (resolveComponents state gen todo [] m)) ->
  exists rebuilt,
    resultOf (resolveComponents state gen todo [] m) = Normal rebuilt /\
    Rebuilt todo (eventsOf (resolveComponents state gen todo [] m)) rebuilt /\
    length rebuilt = length todo /\
    Forall2 (fun c c' =>
               Component.fname c' = Component.fname c /\
               Component.tagName c' = Component.tagName c /\
               Component.props c' = ∅) todo rebuilt.
Proof.
  intros Hall.
  destruct (resolveComponents_run state gen todo [] m) as (_ & Hnormal & Htotal).
  cbn zeta in *. destruct (Htotal Hall) as [result Hres].
  destruct (Hnormal result Hres) as (rebuilt & Heq & Hreb). cbn in Heq. subst result.
  exists rebuilt. split; [exact Hres |]. split; [exact Hreb |].
  split; [apply (Rebuilt_length _ _ _ Hreb) | apply (Rebuilt_fields _ _ _ Hreb)].
Qed.

(** C10 at work: the component of the small project resolves to two nodes
    and keeps the first. *)
Lemma component_resolution_keeps_the_first_node_witness :
  exists rebuilt,
    resultOf (resolveComponents 1%positive Fixture.generator
                [Fixture.box "/a/components"] [] Fixture.parsed)
    = Normal rebuilt /\
    Rebuilt [Fixture.box "/a/components"]
      [EvParseElements (childNodes Fixture.boxRoot)
         (Normal (map Fixture.mark (childNodes Fixture.boxRoot)))]
      rebuilt /\
    length rebuilt = 1.
Proof.
  destruct (component_resolution_keeps_the_first_node 1%positive Fixture.generator
              [Fixture.box "/a/components"] Fixture.parsed)
    as (rebuilt & Hres & Hreb & Hlen & _).
  - vm_compute. constructor; [| constructor]. eexists _, _, _. reflexivity.
  - exists rebuilt. split; [exact Hres |]. split; [exact Hreb | exact Hlen].
Defined.

(** * Further properties *)

(** ** Further properties of the deduplication *)

Section DedupFurther.

Lemma filter_all {A} (f : A -> bool) (l : list A) :
  (forall x, In x l -> f x = true) -> List.filter f l = l.
Proof.
  induction l as [|x l IH]; intros H; cbn; [reflexivity |].
  rewrite (H x) by now left. f_equal. apply IH. intros y Hy. apply H. now right.
Qed.

Lemma append_empty (a : string) : a +:+ "" = a.
Proof.
  induction a as [|c a IH]; [reflexivity |]. rewrite append_cons. now f_equal.
Qed.

Lemma append_assoc (a b c : string) : (a +:+ b) +:+ c = a +:+ (b +:+ c).
Proof.
  induction a as [|x a IH]; [now rewrite !append_nil |].
  rewrite !append_cons. now f_equal.
Qed.

Lemma length_append (a b : string) :
  String.length (a +:+ b) = String.length a + String.length b.
Proof.
  induction a as [|x a IH]; [now rewrite append_nil |].
  rewrite append_cons. cbn [String.length]. now rewrite IH.
Qed.

Lemma subPathOf_refl (a : string) : subPathOf a a.
Proof. exists "". symmetry. apply append_empty. Qed.

Lemma subPathOf_trans (a b c : string) : subPathOf a b -> subPathOf b c -> subPathOf a c.
Proof. intros [r1 ->] [r2 ->]. exists (r2 +:+ r1). apply append_assoc. Qed.

Lemma subPathOf_shorter (a b : string) :
  subPathOf a b -> b <> a -> String.length b < String.length a.
Proof.
  intros [rest ->] Hne. rewrite length_append.
  destruct rest as [|c rest]; [| cbn [String.length]; lia].
  exfalso. apply Hne. symmetry. apply append_empty.
Qed.

Lemma nestedInComponents_shorter (srcDirs : list string) (a : string) :
  nestedInComponents srcDirs a ->
  exists b, In b srcDirs /\ String.length b < String.length a /\
            subPathOf a b /\ componentsDir b.
Proof.
  intros (b & Hin & Hne & Hsub & Hcomp). exists b.
  repeat split; try assumption. now apply subPathOf_shorter.
Qed.

Lemma not_nested_kept (srcDirs : list string) (a : string) :
  In a srcDirs -> Js.some (shadowedBy a) srcDirs = false -> In a (dedupSrcDir srcDirs).
Proof.
  intros Hin Hsome. apply In_dedupSrcDir. split; [assumption |].
  intros Hnested. apply some_shadowedBy in Hnested. congruence.
Qed.

Lemma nested_in_sublist (l l' : list string) (a : string) :
  (forall x, In x l' -> In x l) -> nestedInComponents l' a -> nestedInComponents l a.
Proof. intros Hsub (b & Hin & H). exists b. split; [now apply Hsub | exact H]. Qed.

Lemma dedupSrcDir_fixpoint (l : list string) :
  (forall a, In a l -> ~ nestedInComponents l a) -> dedupSrcDir l = l.
Proof.
  intros H. apply filter_all. intros a Hin. apply negb_true_iff.
  destruct (Js.some (shadowedBy a) l) eqn:Hsome; [| reflexivity].
  exfalso. apply (H a Hin). now apply some_shadowedBy.
Qed.

Lemma shortest_exists (l : list string) :
  l <> [] ->
  exists a, In a l /\ forall b, In b l -> String.length a <= String.length b.
Proof.
  induction l as [|x l IH]; [congruence |]. intros _.
  destruct l as [|y l].
  - exists x. split; [now left |]. intros b [<- | []]. lia.
  - destruct IH as (a & Hin & Hmin); [congruence |].
    destruct (le_lt_dec (String.length x) (String.length a)) as [Hle | Hlt].
    + exists x. split; [now left |]. intros b [<- | Hb]; [lia |].
      specialize (Hmin b Hb). lia.
    + exists a. split; [now right |]. intros b [<- | Hb]; [lia |]. now apply Hmin.
Qed.

Lemma dedupSrcDir_stable (srcDirs : list string) (a : string) :
  In a (dedupSrcDir srcDirs) -> ~ nestedInComponents (dedupSrcDir srcDirs) a.
Proof.
  intros Hin Hnested. apply In_dedupSrcDir in Hin as [_ Hnot]. apply Hnot.
  eapply nested_in_sublist; [| exact Hnested].
  intros x Hx. now apply In_dedupSrcDir in Hx as [Hx _].
Qed.

Lemma dedupSrcDir_dedupSrcDir (srcDirs : list string) :
  dedupSrcDir (dedupSrcDir srcDirs) = dedupSrcDir srcDirs.
Proof. apply dedupSrcDir_fixpoint. apply dedupSrcDir_stable. Qed.

End DedupFurther.

(** X1. Deduplicating twice is deduplicating once: reloading settings
    whose [srcDir] is already deduplicated leaves the list as it is, and a
    deduplicated list has no entry left to drop. *)
Theorem dedupSrcDir_is_idempotent (srcDirs : list string) :
  dedupSrcDir (dedupSrcDir srcDirs) = dedupSrcDir srcDirs /\
  forall a, In a (dedupSrcDir srcDirs) -> ~ nestedInComponents (dedupSrcDir srcDirs) a.
Proof. split; [apply dedupSrcDir_dedupSrcDir | apply dedupSrcDir_stable]. Qed.

(** X2. Deduplication never empties the list: the entries of least length
    are always kept, so a configuration with at least one source directory
    still has one after [loadSettings]. *)
Theorem dedupSrcDir_keeps_the_shortest_entries (srcDirs : list string) :
  srcDirs <> [] ->
  dedupSrcDir srcDirs <> [] /\
  forall a, In a srcDirs ->
    (forall b, In b srcDirs -> String.length a <= String.length b) ->
    In a (dedupSrcDir srcDirs).
Proof.
  intros Hne.
  assert (H : forall a, In a srcDirs ->
                (forall b, In b srcDirs -> String.length a <= String.length b) ->
                In a (dedupSrcDir srcDirs)).
  { intros a Hin Hmin. apply In_dedupSrcDir. split; [assumption |].
    intros Hnested. apply nestedInComponents_shorter in Hnested as (b & Hb & Hlt & _).
    specialize (Hmin b Hb). lia. }
  split; [| exact H].
  destruct (shortest_exists srcDirs Hne) as (a & Hin & Hmin).
  intros Hnil. pose proof (H a Hin Hmin) as Hkept. rewrite Hnil in Hkept. destruct Hkept.
Qed.

Lemma dedupSrcDir_keeps_the_shortest_entries_witness :
  dedupSrcDir ["/a/components/sub"; "/a/components"; "/b/components"] <> [] /\
  In "/a/components" (dedupSrcDir ["/a/components/sub"; "/a/components"; "/b/components"]).
Proof.
  destruct (dedupSrcDir_keeps_the_shortest_entries
              ["/a/components/sub"; "/a/components"; "/b/components"]) as [H1 H2].
  - discriminate.
  - split; [exact H1 |]. apply H2.
    + right. left. reflexivity.
    + intros b [<- | [<- | [<- | []]]]; vm_compute; lia.
Defined.

(** X3. No source directory is lost by deduplication: every configured
    entry is kept or lies inside a kept components directory. *)
Theorem every_source_directory_stays_covered (srcDirs : list string) (a : string) :
  In a srcDirs ->
  exists b, In b (dedupSrcDir srcDirs) /\ subPathOf a b /\ (b = a \/ componentsDir b).
Proof.
  remember (String.length a) as n eqn:Hn. revert a Hn.
  induction n as [n IH] using lt_wf_ind. intros a Hn Hin.
  destruct (Js.some (shadowedBy a) srcDirs) eqn:Hsome.
  - apply some_shadowedBy, nestedInComponents_shorter in Hsome
      as (b & Hb & Hlt & Hsub & Hcomp).
    destruct (IH (String.length b) ltac:(lia) b eq_refl Hb) as (c & Hc & Hbc & Hwhich).
    exists c. split; [assumption |]. split; [now apply (subPathOf_trans a b c) |].
    right. now destruct Hwhich as [-> | Hcc].
  - exists a. split; [now apply not_nested_kept |]. split; [apply subPathOf_refl | now left].
Qed.

Lemma every_source_directory_stays_covered_witness :
  exists b,
    In b (dedupSrcDir ["/a"; "/a/components"; "/a/components/x/components";
                       "/a/components/x/components/y"]) /\
    subPathOf "/a/components/x/components/y" b /\
    (b = "/a/components/x/components/y" \/ componentsDir b).
Proof.
  apply (every_source_directory_stays_covered
           ["/a"; "/a/components"; "/a/components/x/components";
            "/a/components/x/components/y"]).
  vm_compute. tauto.
Defined.

(** X4. A list without a components directory is left as it is, whatever
    its entries contain: plain nesting such as ["/a"; "/a/b"] is never
    reduced. *)
Theorem dedupSrcDir_needs_a_components_directory (srcDirs : list string) :
  forallb (fun b => negb (Js.endsWith b "components")) srcDirs = true ->
  dedupSrcDir srcDirs = srcDirs.
Proof.
  intros Hnone. apply dedupSrcDir_fixpoint. intros a _ (b & Hb & _ & _ & Hcomp).
  rewrite forallb_forall in Hnone. specialize (Hnone b Hb).
  apply negb_true_iff in Hnone. apply endsWith_spec in Hcomp. congruence.
Qed.

Lemma dedupSrcDir_needs_a_components_directory_witness :
  dedupSrcDir ["/a"; "/a/b"; "/a/b/c"; "/a"] = ["/a"; "/a/b"; "/a/b/c"; "/a"].
Proof.
  apply (dedupSrcDir_needs_a_components_directory ["/a"; "/a/b"; "/a/b/c"; "/a"]).
  reflexivity.
Defined.

(** ** Properties that hold of every trace *)

Section TraceInduction.
Context {World : Type} {FU : FileUtil World} {DM : Dom World} {PF : Platform}.
Variable plugin : PluginId -> Plugin.t World.
Variable P : list Event -> Prop.
Hypothesis P_nil : P [].
Hypothesis P_app : forall evs1 evs2, P evs1 -> P evs2 -> P (evs1 ++ evs2).

Lemma emits_silent {A} (c : M World A) : silent c -> emits P c.
Proof. intros H m. now rewrite H. Qed.

Lemma emits_bind {A B} (c : M World A) (k : A -> M World B) :
  emits P c -> (forall a, emits P (k a)) -> emits P (c ≫= k).
Proof.
  intros Hc Hk m. rewrite events_bind. specialize (Hc m).
  destruct (resultOf (c m)); [apply P_app; [assumption | apply Hk] | assumption].
Qed.

Lemma emits_attempt {A} (c : M World A) : emits P c -> emits P (attempt c).
Proof. intros H m. rewrite run_attempt. apply H. Qed.

Lemma emits_forEach {A} (l : list A) (body : A -> M World unit) :
  (forall x, emits P (body x)) -> emits P (forEach l body).
Proof.
  intros H. induction l as [|x l IH]; cbn [forEach].
  - apply emits_silent. solve_silent.
  - apply emits_bind; [apply H | intros _; apply IH].
Qed.

Lemma emits_onWorld {A} (f : World -> Completion A * World) evf :
  (forall r, P (evf r)) -> emits P (onWorld f evf).
Proof. intros H m. rewrite events_onWorld. apply H. Qed.

Lemma emits_emit ev : P [ev] -> emits P (emit (World := World) ev).
Proof. intros H m. exact H. Qed.

Ltac emits_quiet := apply emits_silent; solve [solve_silent].
Ltac emits_after_quiet := apply emits_bind; [emits_quiet | intros ?].
Ltac emits_then_quiet := apply emits_bind; [| intros ?; emits_quiet].

(** *** Hooks *)

Hypothesis P_hook_returned : forall cp id arg r, P [EvHook cp id arg (Normal r)].
Hypothesis P_hook_threw : forall cp id arg e, P (failureEvents plugin cp id arg e).

Lemma emits_stateHookStep cp id state : emits P (stateHookStep plugin cp id state).
Proof.
  intros m. destruct (hookSlot cp (plugin id)) as [hook|] eqn:Hslot.
  - destruct (hook state (Machine.mem m)) as [[[l|]|e] mem'] eqn:Hrun.
    + erewrite stateHookStep_truthy by eassumption. apply P_hook_returned.
    + erewrite stateHookStep_falsy by eassumption. apply P_hook_returned.
    + erewrite stateHookStep_throw by eassumption. apply P_hook_threw.
  - rewrite stateHookStep_absent by assumption. apply P_nil.
Qed.

Lemma emits_runStateHooks cp plugins state :
  emits P (runStateHooks plugin cp plugins state).
Proof.
  revert state. induction plugins as [|id rest IH]; intros state; cbn [runStateHooks].
  - emits_quiet.
  - apply emits_bind; [apply emits_stateHookStep | intros; apply IH].
Qed.

Lemma emits_configurationHookStep id : emits P (configurationHookStep plugin id).
Proof.
  intros m. destruct (hookSlot Configuration (plugin id)) as [hook|] eqn:Hslot.
  - destruct (hook (Machine.Settings m) (Machine.mem m)) as [[[l|]|e] mem'] eqn:Hrun.
    + erewrite configurationHookStep_truthy by eassumption. apply P_hook_returned.
    + erewrite configurationHookStep_falsy by eassumption. apply P_hook_returned.
    + erewrite configurationHookStep_throw by eassumption. apply P_hook_threw.
  - unfold configurationHookStep. rewrite Hslot. apply P_nil.
Qed.

Lemma emits_runConfigurationHooks plugins :
  emits P (runConfigurationHooks plugin plugins).
Proof. apply emits_forEach. apply emits_configurationHookStep. Qed.

(** *** The resolver passes and the end of a pass *)

Hypothesis P_parseElements : forall nodes r, P [EvParseElements nodes r].
Hypothesis P_generateAliasPages : forall r, P [EvGenerateAliasPages r].
Hypothesis P_dumpPages : forall state r, P [EvDumpPages state r].

Lemma emits_callParseElements state nodes gen :
  emits P (callParseElements (World := World) state nodes gen).
Proof.
  unfold callParseElements. emits_after_quiet. apply emits_onWorld. intros r.
  apply P_parseElements.
Qed.

Lemma emits_resolveComponents state gen todo componentsList :
  emits P (resolveComponents (World := World) state gen todo componentsList).
Proof.
  revert componentsList. induction todo as [|component rest IH]; intros acc;
    cbn [resolveComponents].
  - emits_quiet.
  - apply emits_bind; [apply emits_callParseElements |].
    intros [|first others]; [emits_quiet | apply IH].
Qed.

Lemma emits_resolvePage state gen i :
  emits P (resolvePage (World := World) state gen i).
Proof.
  unfold resolvePage. apply emits_bind; [emits_quiet | intros s].
  destruct (State.pagesList s !! i) as [page|]; [| emits_quiet].
  apply emits_bind; [apply emits_callParseElements | intros nodes].
  apply emits_bind; [apply emits_silent, silent_assignPageChildNodes | intros _].
  apply emits_bind; [emits_quiet | intros s'].
  destruct (State.pagesList s' !! i) as [page'|]; [| emits_quiet].
  apply emits_bind; [apply emits_callParseElements | intros nodes'].
  apply emits_silent, silent_assignPageChildNodes.
Qed.

Lemma emits_bundleResolve state gen :
  emits P (bundleResolve (World := World) state gen).
Proof.
  unfold bundleResolve. emits_after_quiet.
  apply emits_bind; [apply emits_resolveComponents | intros componentsList].
  do 3 emits_after_quiet.
  apply emits_bind; [apply emits_forEach; intros i; apply emits_resolvePage | intros _].
  emits_then_quiet. unfold callGenerateAliasPages. emits_after_quiet.
  apply emits_onWorld. intros r. apply P_generateAliasPages.
Qed.

Lemma emits_bundleFinish state : emits P (bundleFinish plugin state).
Proof.
  unfold bundleFinish. emits_after_quiet.
  apply emits_bind; [apply emits_runStateHooks | intros state1].
  apply emits_bind.
  { unfold callDumpPages. emits_after_quiet. apply emits_onWorld. intros r.
    apply P_dumpPages. }
  intros _. emits_after_quiet. emits_then_quiet. apply emits_runStateHooks.
Qed.

Lemma emits_bundleAfterParse state gen : emits P (bundleAfterParse plugin state gen).
Proof.
  unfold bundleAfterParse.
  apply emits_bind; [apply emits_bundleResolve | intros _; apply emits_bundleFinish].
Qed.

(** *** The whole pass *)

Hypothesis P_createDir : forall r, P [EvCreateDir r].
Hypothesis P_parseComponents : forall dir r, P [EvParseComponents dir r].
Hypothesis P_parsePages : forall dir r, P [EvParsePages dir r].
Hypothesis P_loggerError : forall e, P [EvLoggerError e].

Lemma emits_bundleParse state gen : emits P (bundleParse plugin state gen).
Proof.
  unfold bundleParse. apply emits_bind.
  { apply emits_attempt. emits_after_quiet. apply emits_forEach. intros dir m.
    unfold callParseComponents. destruct (parseComponents _ _ _ _) as [[r s] w].
    apply P_parseComponents. }
  intros [_|e]; [| emits_then_quiet; apply emits_emit, P_loggerError].
  apply emits_bind.
  { apply emits_attempt. emits_after_quiet. apply emits_forEach. intros dir m.
    unfold callParsePages. destruct (parsePages _ _ _) as [[r s] w].
    apply P_parsePages. }
  intros [_|e]; [| emits_then_quiet; apply emits_emit, P_loggerError].
  apply emits_bundleAfterParse.
Qed.

Lemma emits_bundle : emits P (bundle plugin).
Proof.
  unfold bundle, bundleFrom. emits_after_quiet.
  apply emits_bind; [apply emits_silent, silent_newSpearlyJSGenerator | intros gen].
  emits_after_quiet.
  apply emits_bind; [apply emits_runStateHooks | intros state1].
  apply emits_bind; [| intros _; apply emits_bundleParse].
  unfold callCreateDir. emits_after_quiet. apply emits_onWorld. intros r.
  apply P_createDir.
Qed.

(** *** Settings, and the entry point *)

Hypothesis P_loadFile : forall pattern r, P [EvLoadFile pattern r].

Lemma emits_loadSettings : emits P (loadSettings plugin).
Proof.
  unfold loadSettings, loadSettingsPrologue, loadSettingsFromFile.
  apply emits_bind.
  { emits_then_quiet. emits_after_quiet. apply emits_bind.
    - apply emits_onWorld. intros r. apply P_loadFile.
    - intros [data|]; emits_quiet. }
  intros _. emits_after_quiet. apply emits_runConfigurationHooks.
Qed.

Hypothesis P_loggerLog : forall msg, P [EvLoggerLog msg].
Hypothesis P_watch : P [EvWatch].
Hypothesis P_liveServerStart :
  forall port host root isolation, P [EvLiveServerStart port host root isolation].

Lemma emits_onWatchEvent name : emits P (onWatchEvent plugin name).
Proof.
  unfold onWatchEvent.
  apply emits_bind; [apply emits_emit, P_loggerLog | intros _].
  apply emits_bind; [apply emits_loadSettings | intros _].
  emits_then_quiet. apply emits_attempt, emits_bundle.
Qed.

Lemma emits_magic args : emits P (magic plugin args).
Proof.
  unfold magic.
  apply emits_bind; [apply emits_silent, silent_initializeArgument | intros _].
  apply emits_bind.
  { destruct (String.eqb _ _); emits_quiet. }
  intros _. apply emits_bind; [apply emits_loadSettings | intros _].
  destruct (String.eqb (Args.action args) "watch").
  - apply emits_bind.
    { destruct (Js.truthyNumber _); emits_quiet. }
    intros _. apply emits_bind; [apply emits_bundle | intros _].
    apply emits_bind; [apply emits_emit, P_watch | intros _].
    emits_after_quiet.
    apply emits_bind; [apply emits_emit, P_liveServerStart | intros _].
    emits_after_quiet. emits_then_quiet. apply emits_emit, P_loggerLog.
  - destruct (String.eqb (Args.action args) "build"); [apply emits_bundle | emits_quiet].
Qed.

End TraceInduction.

(** ** Warnings *)

Section Warnings.
Context {World : Type} {FU : FileUtil World} {DM : Dom World} {PF : Platform}.
Variable plugin : PluginId -> Plugin.t World.

Lemma Warned_app evs1 evs2 :
  Warned plugin evs1 -> Warned plugin evs2 -> Warned plugin (evs1 ++ evs2).
Proof.
  induction 1 as [| cp id arg e rest _ IH | ev rest Hw Hh _ IH]; intros H2.
  - exact H2.
  - rewrite <- app_assoc. constructor. now apply IH.
  - cbn. constructor; [assumption | assumption | now apply IH].
Qed.

Lemma Warned_single ev :
  isConsoleWarn ev = false -> hookThrew ev = false -> Warned plugin [ev].
Proof. intros Hw Hh. constructor; [assumption | assumption | constructor]. Qed.

Lemma Warned_failure cp id arg e : Warned plugin (failureEvents plugin cp id arg e).
Proof.
  rewrite <- (app_nil_r (failureEvents plugin cp id arg e)). constructor. constructor.
Qed.

Lemma Warned_magic args m : Warned plugin (eventsOf (magic plugin args m)).
Proof.
  apply (emits_magic plugin (Warned plugin)); try (intros; now apply Warned_single).
  - constructor.
  - apply Warned_app.
  - apply Warned_failure.
Qed.

Lemma Warned_onWatchEvent name m : Warned plugin (eventsOf (onWatchEvent plugin name m)).
Proof.
  apply (emits_onWatchEvent plugin (Warned plugin)); try (intros; now apply Warned_single).
  - constructor.
  - apply Warned_app.
  - apply Warned_failure.
Qed.

Lemma Warned_bundle m : Warned plugin (eventsOf (bundle plugin m)).
Proof.
  apply (emits_bundle plugin (Warned plugin)); try (intros; now apply Warned_single).
  - constructor.
  - apply Warned_app.
  - apply Warned_failure.
Qed.

Lemma Warned_loadSettings m : Warned plugin (eventsOf (loadSettings plugin m)).
Proof.
  apply (emits_loadSettings plugin (Warned plugin)); try (intros; now apply Warned_single).
  - constructor.
  - apply Warned_app.
  - apply Warned_failure.
Qed.

Lemma Warned_count evs :
  Warned plugin evs ->
  length (List.filter isConsoleWarn evs) = length (List.filter hookThrew evs).
Proof.
  induction 1 as [| cp id arg e rest _ IH | ev rest Hw Hh _ IH].
  - reflexivity.
  - cbn. now rewrite IH.
  - cbn. now rewrite Hw, Hh.
Qed.

Lemma Warned_message evs msg :
  Warned plugin evs -> In (EvConsoleWarn msg) evs ->
  exists cp id arg e,
    In (EvHook cp id arg (Throw e)) evs /\
    msg = warnMessage cp (Plugin.pluginName (plugin id)).
Proof.
  induction 1 as [| cp id arg e rest _ IH | ev rest Hw Hh _ IH]; intros Hin.
  - destruct Hin.
  - destruct Hin as [Hin | [Hin | Hin]]; [discriminate | |].
    + exists cp, id, arg, e. split; [now left | congruence].
    + destruct (IH Hin) as (cp' & id' & arg' & e' & Hin' & ->).
      exists cp', id', arg', e'. split; [now right; right | reflexivity].
  - destruct Hin as [-> | Hin]; [discriminate |].
    destruct (IH Hin) as (cp' & id' & arg' & e' & Hin' & ->).
    exists cp', id', arg', e'. split; [now right | reflexivity].
Qed.

End Warnings.

(** X5. A warning is printed exactly for the hook calls that threw: in
    every run of [magic], of the watch callback, of [bundle] and of
    [loadSettings], each hook call that threw is followed at once by the
    warning of its checkpoint, which names the plugin, and nothing else is
    ever given to [console.warn]. *)
Theorem warnings_match_the_hooks_that_threw
    {World : Type} {FU : FileUtil World} {DM : Dom World} {PF : Platform}
    (plugin : PluginId -> Plugin.t World) :
  (forall args m, Warned plugin (eventsOf (magic plugin args m))) /\
  (forall name m, Warned plugin (eventsOf (onWatchEvent plugin name m))) /\
  (forall m, Warned plugin (eventsOf (bundle plugin m))) /\
  (forall m, Warned plugin (eventsOf (loadSettings plugin m))) /\
  (forall evs, Warned plugin evs ->
     length (List.filter isConsoleWarn evs) = length (List.filter hookThrew evs) /\
     forall msg, In (EvConsoleWarn msg) evs ->
       exists cp id arg e,
         In (EvHook cp id arg (Throw e)) evs /\
         msg = warnMessage cp (Plugin.pluginName (plugin id))).
Proof.
  split; [intros; apply Warned_magic |].
  split; [intros; apply Warned_onWatchEvent |].
  split; [intros; apply Warned_bundle |].
  split; [intros; apply Warned_loadSettings |].
  intros evs H. split; [now apply (Warned_count plugin) | intros msg; now apply Warned_message].
Qed.

Lemma warnings_match_the_hooks_that_threw_witness :
  length (List.filter isConsoleWarn (eventsOf (magic Fixture.plugin Fixture.build Fixture.start)))
  = 4.
Proof.
  destruct (warnings_match_the_hooks_that_threw Fixture.plugin) as (Hmagic & _ & _ & _ & Hcount).
  destruct (Hcount _ (Hmagic Fixture.build Fixture.start)) as [-> _].
  vm_compute. reflexivity.
Defined.

(** ** What a pass leaves as it was *)

Section FrameFacts.
Context {World : Type} {FU : FileUtil World} {DM : Dom World} {PF : Platform}.
Variable plugin : PluginId -> Plugin.t World.
Variable C : Mem.t World -> Mem.t World -> Prop.
Hypothesis C_refl : forall mem, C mem mem.
Hypothesis C_trans : forall mem1 mem2 mem3, C mem1 mem2 -> C mem2 mem3 -> C mem1 mem3.
Hypothesis C_world : forall mem w, C mem (Mem.setWorld mem w).
Hypothesis C_state : forall mem objs, C mem (Mem.setStateObjs mem objs).
Hypothesis C_hook :
  forall cp id hook arg mem,
    cp <> Configuration -> hookSlot cp (plugin id) = Some hook -> C mem (hook arg mem).2.

Lemma framed_refl (m : Machine.t World) : framed C m m.
Proof. repeat split. apply C_refl. Qed.

Lemma framed_trans (m1 m2 m3 : Machine.t World) :
  framed C m1 m2 -> framed C m2 m3 -> framed C m1 m3.
Proof.
  intros (Hd & Hs & Hg & Hc) (Hd' & Hs' & Hg' & Hc').
  repeat split; [congruence | congruence | congruence |].
  eapply C_trans; eassumption.
Qed.

Lemma framed_setMem (m : Machine.t World) mem' :
  C (Machine.mem m) mem' -> framed C m (Machine.setMem m mem').
Proof. intros H. repeat split. exact H. Qed.

Lemma keeps_unchanged {A} (c : M World A) :
  (forall m, machineOf (c m) = m) -> keeps C c.
Proof. intros H m. rewrite H. apply framed_refl. Qed.

Lemma keeps_bind {A B} (c : M World A) (k : A -> M World B) :
  keeps C c -> (forall a, keeps C (k a)) -> keeps C (c ≫= k).
Proof.
  intros Hc Hk m. rewrite machine_bind. specialize (Hc m).
  destruct (resultOf (c m)); [| assumption].
  eapply framed_trans; [eassumption | apply Hk].
Qed.

Lemma keeps_attempt {A} (c : M World A) : keeps C c -> keeps C (attempt c).
Proof. intros H m. rewrite run_attempt. apply H. Qed.

Lemma keeps_forEach {A} (l : list A) (body : A -> M World unit) :
  (forall x, keeps C (body x)) -> keeps C (forEach l body).
Proof.
  intros H. induction l as [|x l IH]; cbn [forEach].
  - now apply keeps_unchanged.
  - apply keeps_bind; [apply H | intros _; apply IH].
Qed.

Lemma keeps_onWorld {A} (f : World -> Completion A * World) evf :
  keeps C (onWorld f evf).
Proof.
  intros m. unfold onWorld. destruct (f _) as [r w]. apply framed_setMem, C_world.
Qed.

Lemma keeps_writeState l s : keeps C (writeState (World := World) l s).
Proof. intros m. apply framed_setMem, C_state. Qed.

Lemma keeps_newStateObject s : keeps C (newStateObject (World := World) s).
Proof. intros m. apply framed_setMem, C_state. Qed.

Lemma keeps_stateDeepCopy l : keeps C (stateDeepCopy (World := World) l).
Proof.
  unfold stateDeepCopy. apply keeps_bind; [now apply keeps_unchanged |].
  intros s. apply keeps_newStateObject.
Qed.

Ltac keeps_same := apply keeps_unchanged; intros ?; reflexivity.
Ltac keeps_after_same := apply keeps_bind; [keeps_same | intros ?].

Lemma keeps_stateHookStep cp id state :
  cp <> Configuration -> keeps C (stateHookStep plugin cp id state).
Proof.
  intros Hcp m. destruct (hookSlot cp (plugin id)) as [hook|] eqn:Hslot.
  - pose proof (C_hook cp id hook state (Machine.mem m) Hcp Hslot) as Hc.
    destruct (hook state (Machine.mem m)) as [[[l|]|e] mem'] eqn:Hrun.
    + erewrite stateHookStep_truthy by eassumption.
      apply framed_setMem. eapply C_trans; [exact Hc | apply C_state].
    + erewrite stateHookStep_falsy by eassumption. now apply framed_setMem.
    + erewrite stateHookStep_throw by eassumption. now apply framed_setMem.
  - rewrite stateHookStep_absent by assumption. apply framed_refl.
Qed.

Lemma keeps_runStateHooks cp plugins state :
  cp <> Configuration -> keeps C (runStateHooks plugin cp plugins state).
Proof.
  intros Hcp. revert state.
  induction plugins as [|id rest IH]; intros state; cbn [runStateHooks].
  - keeps_same.
  - apply keeps_bind; [now apply keeps_stateHookStep | intros; apply IH].
Qed.

Lemma keeps_callParseComponents state dir :
  keeps C (callParseComponents (World := World) state dir).
Proof.
  intros m. unfold callParseComponents. destruct (parseComponents _ _ _ _) as [[r s] w].
  apply framed_setMem. eapply C_trans; [apply C_state | apply C_world].
Qed.

Lemma keeps_callParsePages state dir :
  keeps C (callParsePages (World := World) state dir).
Proof.
  intros m. unfold callParsePages. destruct (parsePages _ _ _) as [[r s] w].
  apply framed_setMem. eapply C_trans; [apply C_state | apply C_world].
Qed.

Lemma keeps_callParseElements state nodes gen :
  keeps C (callParseElements (World := World) state nodes gen).
Proof. unfold callParseElements. keeps_after_same. apply keeps_onWorld. Qed.

Lemma keeps_resolveComponents state gen todo componentsList :
  keeps C (resolveComponents (World := World) state gen todo componentsList).
Proof.
  revert componentsList. induction todo as [|component rest IH]; intros acc;
    cbn [resolveComponents].
  - keeps_same.
  - apply keeps_bind; [apply keeps_callParseElements |].
    intros [|first others]; [keeps_same | apply IH].
Qed.

Lemma keeps_assignPageChildNodes state i nodes :
  keeps C (assignPageChildNodes (World := World) state i nodes).
Proof. unfold assignPageChildNodes. keeps_after_same. apply keeps_writeState. Qed.

Lemma keeps_resolvePage state gen i :
  keeps C (resolvePage (World := World) state gen i).
Proof.
  unfold resolvePage. apply keeps_bind; [keeps_same | intros s].
  destruct (State.pagesList s !! i) as [page|]; [| keeps_same].
  apply keeps_bind; [apply keeps_callParseElements | intros nodes].
  apply keeps_bind; [apply keeps_assignPageChildNodes | intros _].
  apply keeps_bind; [keeps_same | intros s'].
  destruct (State.pagesList s' !! i) as [page'|]; [| keeps_same].
  apply keeps_bind; [apply keeps_callParseElements | intros nodes'].
  apply keeps_assignPageChildNodes.
Qed.

Lemma keeps_bundleResolve state gen :
  keeps C (bundleResolve (World := World) state gen).
Proof.
  unfold bundleResolve. keeps_after_same.
  apply keeps_bind; [apply keeps_resolveComponents | intros componentsList].
  keeps_after_same. apply keeps_bind; [apply keeps_writeState | intros _].
  keeps_after_same.
  apply keeps_bind; [apply keeps_forEach; intros i; apply keeps_resolvePage | intros _].
  apply keeps_bind.
  { unfold callGenerateAliasPages. keeps_after_same. apply keeps_onWorld. }
  intros pages. keeps_after_same. apply keeps_writeState.
Qed.

Lemma keeps_bundleFinish state : keeps C (bundleFinish plugin state).
Proof.
  unfold bundleFinish. keeps_after_same.
  apply keeps_bind; [now apply keeps_runStateHooks | intros state1].
  apply keeps_bind.
  { unfold callDumpPages. keeps_after_same. apply keeps_onWorld. }
  intros _. keeps_after_same.
  apply keeps_bind; [now apply keeps_runStateHooks | intros state2]. keeps_same.
Qed.

Lemma keeps_bundleAfterParse state gen : keeps C (bundleAfterParse plugin state gen).
Proof.
  unfold bundleAfterParse.
  apply keeps_bind; [apply keeps_bundleResolve | intros _; apply keeps_bundleFinish].
Qed.

Lemma keeps_parseComponentsLoop state :
  keeps C (s ← readSettings;
           forEach (DefaultSettings.componentsFolder s)
             (callParseComponents (World := World) state)).
Proof.
  keeps_after_same. apply keeps_forEach. intros dir. apply keeps_callParseComponents.
Qed.

Lemma keeps_parsePagesLoop state :
  keeps C (s ← readSettings;
           forEach (DefaultSettings.srcDir s) (callParsePages (World := World) state)).
Proof.
  keeps_after_same. apply keeps_forEach. intros dir. apply keeps_callParsePages.
Qed.

Lemma keeps_bundleParse state gen : keeps C (bundleParse plugin state gen).
Proof.
  unfold bundleParse. apply keeps_bind.
  { apply keeps_attempt, keeps_parseComponentsLoop. }
  intros [_|e]; [| apply keeps_bind; [keeps_same | intros _; keeps_same]].
  apply keeps_bind.
  { apply keeps_attempt, keeps_parsePagesLoop. }
  intros [_|e]; [| apply keeps_bind; [keeps_same | intros _; keeps_same]].
  apply keeps_bundleAfterParse.
Qed.

Lemma keeps_callCreateDir : keeps C (callCreateDir (World := World)).
Proof. unfold callCreateDir. keeps_after_same. apply keeps_onWorld. Qed.

(** [bundle] assigns [jsGenerator] and nothing else among the variables
    of the module. *)
Lemma bundle_frame (m : Machine.t World) :
  Machine.dirname (machineOf (bundle plugin m)) = Machine.dirname m /\
  Machine.Settings (machineOf (bundle plugin m)) = Machine.Settings m /\
  Machine.jsGenerator (machineOf (bundle plugin m))
  = Some (generatorOf (currentSettings m)) /\
  C (Machine.mem m) (Machine.mem (machineOf (bundle plugin m))).
Proof.
  unfold bundle. rewrite machine_bind.
  pose proof (keeps_newStateObject emptyState m) as H0.
  set (run0 := newStateObject emptyState m) in *.
  assert (Hr0 : resultOf run0 = Normal (fresh (dom (Mem.stateObjs (Machine.mem m)))))
    by reflexivity.
  assert (Hs0 : currentSettings (machineOf run0) = currentSettings m) by reflexivity.
  rewrite Hr0. set (state := fresh _) in *. unfold bundleFrom. rewrite machine_bind.
  set (run1 := newSpearlyJSGenerator (machineOf run0)).
  assert (Hr1 : resultOf run1 = Normal (generatorOf (currentSettings m)))
    by (subst run1; unfold generatorOf; rewrite <- Hs0; reflexivity).
  rewrite Hr1.
  assert (H1 : Machine.dirname (machineOf run1) = Machine.dirname m /\
               Machine.Settings (machineOf run1) = Machine.Settings m /\
               Machine.jsGenerator (machineOf run1)
               = Some (generatorOf (currentSettings m)) /\
               C (Machine.mem m) (Machine.mem (machineOf run1))).
  { destruct H0 as (Hd & Hs & _ & Hc). repeat split; assumption. }
  set (rest := (s ← readSettings; _)).
  assert (Hrest : keeps C rest).
  { subst rest. keeps_after_same.
    apply keeps_bind; [apply keeps_runStateHooks; discriminate | intros state1].
    apply keeps_bind; [apply keeps_callCreateDir | intros _; apply keeps_bundleParse]. }
  destruct (Hrest (machineOf run1)) as (Hd & Hs & Hg & Hc).
  destruct H1 as (Hd1 & Hs1 & Hg1 & Hc1).
  repeat split; [congruence | congruence | congruence |].
  eapply C_trans; eassumption.
Qed.

End FrameFacts.

(** ** Loading the settings *)

Section SettingsLoading.
Context {World : Type} {FU : FileUtil World} {DM : Dom World} {PF : Platform}.
Variable plugin : PluginId -> Plugin.t World.

Lemma currentSettings_updateSettings f (m : Machine.t World) :
  currentSettings (machineOf (updateSettings f m)) = f (currentSettings m).
Proof. unfold currentSettings, settingsAt. cbn. apply lookup_total_insert_eq. Qed.

Lemma runConfigurationHooks_normal plugins (m : Machine.t World) :
  resultOf (runConfigurationHooks plugin plugins m) = Normal tt.
Proof.
  revert m. unfold runConfigurationHooks.
  induction plugins as [|id rest IH]; intros m; cbn [forEach]; [reflexivity |].
  rewrite result_bind. destruct (configurationHookStep_run plugin id m) as [-> _].
  apply IH.
Qed.

(** The settings file cannot be read: nothing else happens. *)
Lemma loadSettingsPrologue_throw (m : Machine.t World) e :
  settingsFileOutcome m = Throw e ->
  loadSettingsPrologue m
  = (Throw e,
     Machine.setMem m
       (Mem.setWorld (Machine.mem m)
          (loadFile (settingsFilePattern m) (Mem.world (Machine.mem m))).2),
     [EvLoadFile (settingsFilePattern m) (Throw e)]).
Proof.
  unfold settingsFileOutcome, settingsFilePattern. intros H.
  unfold loadSettingsPrologue, loadSettingsFromFile.
  unfold mbind, M_bind, getMachine, callLoadFile, onWorld.
  destruct (loadFile _ _) as [r w]. cbn in H. now subst r.
Qed.

Lemma loadSettings_throw (m : Machine.t World) e :
  settingsFileOutcome m = Throw e ->
  loadSettings plugin m
  = (Throw e,
     Machine.setMem m
       (Mem.setWorld (Machine.mem m)
          (loadFile (settingsFilePattern m) (Mem.world (Machine.mem m))).2),
     [EvLoadFile (settingsFilePattern m) (Throw e)]).
Proof.
  intros H. unfold loadSettings. apply run_bind_throw. now apply loadSettingsPrologue_throw.
Qed.

(** The settings file is read: the keys it defines are assigned, the
    logger follows [quiteMode], [srcDir] is deduplicated. *)
Lemma loadSettingsPrologue_normal (m : Machine.t World) data :
  settingsFileOutcome m = Normal data ->
  let m' := machineOf (loadSettingsPrologue m) in
  resultOf (loadSettingsPrologue m) = Normal tt /\
  eventsOf (loadSettingsPrologue m) = [EvLoadFile (settingsFilePattern m) (Normal data)] /\
  framed (fun mem mem' => Mem.stateObjs mem' = Mem.stateObjs mem) m m' /\
  currentSettings m' = settingsAfterLoad data (currentSettings m) /\
  Mem.loggerIsQuite (Machine.mem m')
  = DefaultSettings.quiteMode (settingsWithFile data (currentSettings m)) /\
  Mem.world (Machine.mem m')
  = (loadFile (settingsFilePattern m) (Mem.world (Machine.mem m))).2 /\
  (forall l, l <> Machine.Settings m ->
     Mem.settingsObjs (Machine.mem m') !! l = Mem.settingsObjs (Machine.mem m) !! l).
Proof.
  intros H. cbv zeta. unfold settingsFileOutcome, settingsFilePattern in *.
  unfold loadSettingsPrologue, loadSettingsFromFile.
  unfold mbind, M_bind, getMachine, callLoadFile, onWorld.
  destruct (loadFile _ _) as [r w]. cbn in H. subst r.
  destruct data as [data|]; cbn.
  - repeat split.
    + unfold currentSettings, settingsAt. cbn. rewrite lookup_total_insert_eq.
      unfold settingsAfterLoad. cbn. now rewrite lookup_total_insert_eq.
    + unfold currentSettings, settingsAt. cbn. now rewrite lookup_total_insert_eq.
    + intros l Hl. now rewrite !lookup_insert_ne by congruence.
  - repeat split.
    + unfold currentSettings, settingsAt. cbn. now rewrite lookup_total_insert_eq.
    + intros l Hl. now rewrite lookup_insert_ne by congruence.
Qed.

Lemma loadSettings_result (m : Machine.t World) :
  resultOf (loadSettings plugin m)
  = match settingsFileOutcome m with
    | Normal _ => Normal tt
    | Throw e => Throw e
    end.
Proof.
  destruct (settingsFileOutcome m) as [data|e] eqn:H.
  - unfold loadSettings. rewrite result_bind.
    destruct (loadSettingsPrologue_normal m data H) as (-> & _).
    rewrite result_bind. cbn [readSettings resultOf machineOf fst snd].
    apply runConfigurationHooks_normal.
  - now rewrite (loadSettings_throw m e H).
Qed.

Lemma loadSettings_without_hooks (m : Machine.t World) data :
  (forall id, hookSlot Configuration (plugin id) = None) ->
  settingsFileOutcome m = Normal data ->
  loadSettings plugin m = loadSettingsPrologue m.
Proof.
  intros Hnone H. unfold loadSettings.
  destruct (loadSettingsPrologue_normal m data H) as (Hres & _).
  destruct (loadSettingsPrologue m) as [[r m'] evs] eqn:Hrun. cbn in Hres. subst r.
  rewrite (run_bind_prefixed _ _ m tt m' evs Hrun).
  rewrite run_bind. cbn [readSettings].
  rewrite (runConfigurationHooks_without_hooks plugin _ m' Hnone).
  unfold prefixed. cbn. now rewrite app_nil_r.
Qed.

Lemma default_default {A} (a : A) (o : option A) : default (default a o) o = default a o.
Proof. now destruct o. Qed.

Lemma settingsAfterLoad_again data s :
  settingsAfterLoad data (settingsAfterLoad data s) = settingsAfterLoad data s.
Proof.
  unfold settingsAfterLoad.
  destruct data as [data|]; cbn [settingsWithFile].
  - destruct data as [? ? ? ? srcDir ? ? ? ? ? ? ? ? ? ? ? ? ? ?], s.
    unfold SettingsData.assignTo, DefaultSettings.setSrcDir. cbn -[dedupSrcDir].
    rewrite !default_default. destruct srcDir as [l|]; cbn -[dedupSrcDir].
    + reflexivity.
    + now rewrite dedupSrcDir_dedupSrcDir.
  - destruct s. unfold DefaultSettings.setSrcDir. cbn -[dedupSrcDir].
    now rewrite dedupSrcDir_dedupSrcDir.
Qed.

Lemma loadSettings_throw_events (m : Machine.t World) e :
  resultOf (loadSettings plugin m) = Throw e ->
  exists pattern, eventsOf (loadSettings plugin m) = [EvLoadFile pattern (Throw e)].
Proof.
  intros H. rewrite loadSettings_result in H.
  destruct (settingsFileOutcome m) as [data|e'] eqn:Hout; [discriminate |].
  injection H as ->. rewrite (loadSettings_throw m e Hout). now eexists.
Qed.

End SettingsLoading.

(** X7. Reloading an unchanged settings file changes nothing: when the
    file reads the same twice, the second load leaves the settings, and
    the object [Settings] refers to, as the first load made them. The
    same holds of [loadSettings] when no plugin has a configuration
    hook. *)
Theorem reloading_the_same_settings_file_changes_nothing
    {World : Type} {FU : FileUtil World} {DM : Dom World} {PF : Platform}
    (plugin : PluginId -> Plugin.t World) (m : Machine.t World)
    (data : option SettingsData.t) :
  settingsFileOutcome m = Normal data ->
  settingsFileOutcome (machineOf (loadSettingsPrologue m)) = Normal data ->
  currentSettings (machineOf (loadSettingsPrologue (machineOf (loadSettingsPrologue m))))
  = currentSettings (machineOf (loadSettingsPrologue m)) /\
  Machine.Settings (machineOf (loadSettingsPrologue (machineOf (loadSettingsPrologue m))))
  = Machine.Settings m /\
  ((forall id, hookSlot Configuration (plugin id) = None) ->
   currentSettings (machineOf (loadSettings plugin (machineOf (loadSettings plugin m))))
   = currentSettings (machineOf (loadSettings plugin m))).
Proof.
  intros H1 H2.
  destruct (loadSettingsPrologue_normal m data H1) as (_ & _ & Hf1 & Hs1 & _).
  destruct (loadSettingsPrologue_normal _ data H2) as (_ & _ & Hf2 & Hs2 & _).
  assert (Hsame : currentSettings
                    (machineOf (loadSettingsPrologue (machineOf (loadSettingsPrologue m))))
                  = currentSettings (machineOf (loadSettingsPrologue m))).
  { rewrite Hs2, Hs1. apply settingsAfterLoad_again. }
  split; [exact Hsame |]. split.
  - destruct Hf1 as (_ & Hb1 & _). destruct Hf2 as (_ & Hb2 & _). congruence.
  - intros Hnone. rewrite (loadSettings_without_hooks plugin m data Hnone H1).
    rewrite (loadSettings_without_hooks plugin _ data Hnone H2). exact Hsame.
Qed.

Lemma reloading_the_same_settings_file_changes_nothing_witness :
  currentSettings
    (machineOf (loadSettingsPrologue
                  (machineOf (loadSettingsPrologue
                                (machineOf (initializeArgument Fixture.build Fixture.start))))))
  = currentSettings
      (machineOf (loadSettingsPrologue
                    (machineOf (initializeArgument Fixture.build Fixture.start)))).
Proof.
  apply (reloading_the_same_settings_file_changes_nothing Fixture.plugin
           (machineOf (initializeArgument Fixture.build Fixture.start))
           (Some Fixture.settingsFile)).
  - vm_compute. reflexivity.
  - vm_compute. reflexivity.
Defined.

(** ** The entry point, stage by stage *)

Section MagicStages.
Context {World : Type} {FU : FileUtil World} {DM : Dom World} {PF : Platform}.
Variable plugin : PluginId -> Plugin.t World.

Lemma bind_assoc {A B D} (c : M World A) (k1 : A -> M World B) (k2 : B -> M World D) m :
  ((c ≫= k1) ≫= k2) m = (c ≫= (fun a => k1 a ≫= k2)) m.
Proof.
  unfold mbind, M_bind. destruct (c m) as [[[a|e] m1] ev1]; [| reflexivity].
  destruct (k1 a m1) as [[[b|e] m2] ev2]; [| reflexivity].
  destruct (k2 b m2) as [[r m3] ev3]. now rewrite app_assoc.
Qed.

Lemma magic_stages args (m : Machine.t World) :
  magic plugin args m
  = (magicPrepare args;; loadSettings plugin;; magicAfterLoad plugin args) m.
Proof. unfold magic, magicPrepare, magicAfterLoad, magicPort. now rewrite bind_assoc. Qed.

Lemma initializeArgument_run args (m : Machine.t World) :
  initializeArgument args m
  = (Normal tt,
     Machine.mk
       (Mem.setSettingsObjs (Machine.mem m)
          (<[fresh (dom (Mem.settingsObjs (Machine.mem m)))
             := defaultSettingsFor (dirnameFor args (Machine.dirname m))]>
             (Mem.settingsObjs (Machine.mem m))))
       (dirnameFor args (Machine.dirname m))
       (fresh (dom (Mem.settingsObjs (Machine.mem m))))
       (Machine.jsGenerator m),
     []).
Proof.
  unfold initializeArgument, dirnameFor. destruct (Js.truthyString _); reflexivity.
Qed.

Lemma currentSettings_initializeArgument args (m : Machine.t World) :
  currentSettings (machineOf (initializeArgument args m))
  = defaultSettingsFor (dirnameFor args (Machine.dirname m)).
Proof.
  rewrite initializeArgument_run. unfold currentSettings, settingsAt. cbn.
  apply lookup_total_insert_eq.
Qed.

(** What precedes [loadSettings]: the defaults of the directory, and in
    a watch session the temporary output directory. *)
Lemma magicPrepare_run args (m : Machine.t World) :
  let d := dirnameFor args (Machine.dirname m) in
  resultOf (magicPrepare args m) = Normal tt /\
  eventsOf (magicPrepare args m) = [] /\
  Machine.dirname (machineOf (magicPrepare args m)) = d /\
  Machine.jsGenerator (machineOf (magicPrepare args m)) = Machine.jsGenerator m /\
  Mem.world (Machine.mem (machineOf (magicPrepare args m))) = Mem.world (Machine.mem m) /\
  Mem.stateObjs (Machine.mem (machineOf (magicPrepare args m)))
  = Mem.stateObjs (Machine.mem m) /\
  currentSettings (machineOf (magicPrepare args m))
  = if String.eqb (Args.action args) "watch"
    then DefaultSettings.setDistDir (defaultSettingsFor d) (watchDistDir d)
    else defaultSettingsFor d.
Proof.
  intros d. subst d. unfold magicPrepare.
  rewrite (run_bind_silent_normal _ _ m _ _ (initializeArgument_run args m)).
  destruct (String.eqb (Args.action args) "watch").
  - unfold mbind, M_bind, getMachine, updateSettings, modifyMachine.
    repeat split. unfold currentSettings, settingsAt. cbn.
    now rewrite !lookup_total_insert_eq.
  - repeat split. unfold currentSettings, settingsAt. cbn.
    now rewrite !lookup_total_insert_eq.
Qed.

Lemma settingsFilePattern_magicPrepare args (m : Machine.t World) :
  settingsFilePattern (machineOf (magicPrepare args m))
  = dirnameFor args (Machine.dirname m) +:+ "/" +:+ "spear.config" +:+ ".?(mjs|js|json)".
Proof.
  destruct (magicPrepare_run args m) as (_ & _ & Hd & _ & _ & _ & Hs).
  unfold settingsFilePattern. rewrite Hd, Hs. now destruct (String.eqb _ _).
Qed.

Lemma magic_result args (m : Machine.t World) :
  let load := loadSettings plugin (machineOf (magicPrepare args m)) in
  resultOf (magic plugin args m)
  = match resultOf load with
    | Normal _ => resultOf (magicAfterLoad plugin args (machineOf load))
    | Throw e => Throw e
    end.
Proof.
  intros load. subst load. rewrite magic_stages, result_bind.
  destruct (magicPrepare_run args m) as (-> & _). now rewrite result_bind.
Qed.

Lemma magic_events args (m : Machine.t World) :
  let load := loadSettings plugin (machineOf (magicPrepare args m)) in
  eventsOf (magic plugin args m)
  = match resultOf load with
    | Normal _ => eventsOf load ++ eventsOf (magicAfterLoad plugin args (machineOf load))
    | Throw e => eventsOf load
    end.
Proof.
  intros load. subst load. rewrite magic_stages, events_bind.
  destruct (magicPrepare_run args m) as (-> & -> & _). now rewrite events_bind.
Qed.

Lemma magic_machine args (m : Machine.t World) :
  let load := loadSettings plugin (machineOf (magicPrepare args m)) in
  machineOf (magic plugin args m)
  = match resultOf load with
    | Normal _ => machineOf (magicAfterLoad plugin args (machineOf load))
    | Throw e => machineOf load
    end.
Proof.
  intros load. subst load. rewrite magic_stages, machine_bind.
  destruct (magicPrepare_run args m) as (-> & _). now rewrite machine_bind.
Qed.

(** A watch session once the settings are loaded: the port, the first
    pass, then the watcher and the server. *)
Lemma magicAfterLoad_watch args (m : Machine.t World) :
  Args.action args = "watch" ->
  let pass := bundle plugin (machineOf (magicPort args m)) in
  magicAfterLoad plugin args m
  = match resultOf pass with
    | Normal _ =>
        (Normal true, machineOf pass,
         eventsOf pass ++ serverEvents (currentSettings (machineOf pass)))
    | Throw e => (Throw e, machineOf pass, eventsOf pass)
    end.
Proof.
  intros Haction pass. subst pass. unfold magicAfterLoad.
  rewrite Haction, String.eqb_refl.
  assert (Hport : magicPort args m = (Normal tt, machineOf (magicPort args m), []))
    by (unfold magicPort; now destruct (Js.truthyNumber _)).
  rewrite (run_bind_silent_normal _ _ m _ _ Hport). rewrite run_bind.
  destruct (bundle plugin (machineOf (magicPort args m))) as [[[b|e] m'] evs]; reflexivity.
Qed.

End MagicStages.

(** ** Where a run that throws ends *)

Section AbruptEnd.
Context {World : Type} {FU : FileUtil World} {DM : Dom World} {PF : Platform}.
Variable plugin : PluginId -> Plugin.t World.

Lemma endsWhereItThrew_app {A} (r : Completion A) evs1 evs2 :
  endsWhereItThrew r evs2 -> endsWhereItThrew r (evs1 ++ evs2).
Proof.
  destruct r as [a|e]; [trivial |]. intros (before & ev & -> & H).
  exists (evs1 ++ before), ev. split; [now rewrite app_assoc | exact H].
Qed.

Lemma abrupt_normal {A} (c : M World A) :
  (forall m, exists a, resultOf (c m) = Normal a) -> abrupt c.
Proof. intros H m. destruct (H m) as [a ->]. exact I. Qed.

Lemma abrupt_bind {A B} (c : M World A) (k : A -> M World B) :
  abrupt c -> (forall a, abrupt (k a)) -> abrupt (c ≫= k).
Proof.
  intros Hc Hk m. rewrite result_bind, events_bind. specialize (Hc m).
  destruct (resultOf (c m)) as [a|e]; [| exact Hc].
  apply endsWhereItThrew_app, Hk.
Qed.

Lemma abrupt_attempt {A} (c : M World A) : abrupt (attempt c).
Proof. intros m. rewrite run_attempt. exact I. Qed.

Lemma abrupt_forEach {A} (l : list A) (body : A -> M World unit) :
  (forall x, abrupt (body x)) -> abrupt (forEach l body).
Proof.
  intros H. induction l as [|x l IH]; cbn [forEach].
  - apply abrupt_normal. intros m. now exists tt.
  - apply abrupt_bind; [apply H | intros _; apply IH].
Qed.

Lemma abrupt_onWorld {A} (f : World -> Completion A * World) evf :
  (forall e, exists ev, evf (Throw e) = [ev] /\ uncaught ev = Some e) ->
  abrupt (onWorld f evf).
Proof.
  intros H m. unfold onWorld. destruct (f _) as [[a|e] w]; cbn; [exact I |].
  destruct (H e) as (ev & -> & Hev). exists [], ev. split; [reflexivity | now left].
Qed.

Ltac abrupt_plain := apply abrupt_normal; intros ?; eexists; reflexivity.
Ltac abrupt_after_plain := apply abrupt_bind; [abrupt_plain | intros ?].

Lemma abrupt_callParseElements state nodes gen :
  abrupt (callParseElements (World := World) state nodes gen).
Proof.
  unfold callParseElements. abrupt_after_plain. apply abrupt_onWorld. intros e.
  eexists. split; reflexivity.
Qed.

Lemma abrupt_resolveComponents state gen todo componentsList :
  abrupt (resolveComponents (World := World) state gen todo componentsList).
Proof.
  revert componentsList. induction todo as [|component rest IH]; intros acc m;
    cbn [resolveComponents].
  - exact I.
  - rewrite result_bind, events_bind.
    destruct (callParseElements_run state (childNodes (Component.node component)) gen m)
      as (r & w & Hrun).
    rewrite Hrun. cbn [resultOf machineOf eventsOf fst snd].
    destruct r as [[|first others]|e].
    + cbn. exists [], (EvParseElements (childNodes (Component.node component)) (Normal [])).
      split; [reflexivity |]. right. split; reflexivity.
    + apply endsWhereItThrew_app, IH.
    + exists [], (EvParseElements (childNodes (Component.node component)) (Throw e)).
      split; [reflexivity | now left].
Qed.

Lemma abrupt_assignPageChildNodes state i nodes :
  abrupt (assignPageChildNodes (World := World) state i nodes).
Proof. apply abrupt_normal. intros m. rewrite assignPageChildNodes_run. now exists tt. Qed.

Lemma abrupt_resolvePage state gen i :
  abrupt (resolvePage (World := World) state gen i).
Proof.
  unfold resolvePage. apply abrupt_bind; [abrupt_plain | intros s].
  destruct (State.pagesList s !! i) as [page|]; [| abrupt_plain].
  apply abrupt_bind; [apply abrupt_callParseElements | intros nodes].
  apply abrupt_bind; [apply abrupt_assignPageChildNodes | intros _].
  apply abrupt_bind; [abrupt_plain | intros s'].
  destruct (State.pagesList s' !! i) as [page'|]; [| abrupt_plain].
  apply abrupt_bind; [apply abrupt_callParseElements | intros nodes'].
  apply abrupt_assignPageChildNodes.
Qed.

Lemma abrupt_bundleResolve state gen :
  abrupt (bundleResolve (World := World) state gen).
Proof.
  unfold bundleResolve. abrupt_after_plain.
  apply abrupt_bind; [apply abrupt_resolveComponents | intros componentsList].
  do 3 abrupt_after_plain.
  apply abrupt_bind; [apply abrupt_forEach; intros i; apply abrupt_resolvePage | intros _].
  apply abrupt_bind; [| intros pages; abrupt_after_plain; abrupt_plain].
  unfold callGenerateAliasPages. abrupt_after_plain. apply abrupt_onWorld. intros e.
  eexists. split; reflexivity.
Qed.

Lemma abrupt_runStateHooks cp plugins state :
  abrupt (runStateHooks plugin cp plugins state).
Proof. apply abrupt_normal. intros m. apply runStateHooks_normal. Qed.

Lemma abrupt_bundleFinish state : abrupt (bundleFinish plugin state).
Proof.
  unfold bundleFinish. abrupt_after_plain.
  apply abrupt_bind; [apply abrupt_runStateHooks | intros state1].
  apply abrupt_bind.
  { unfold callDumpPages. abrupt_after_plain. apply abrupt_onWorld. intros e.
    eexists. split; reflexivity. }
  intros _. abrupt_after_plain.
  apply abrupt_bind; [apply abrupt_runStateHooks | intros state2; abrupt_plain].
Qed.

Lemma abrupt_bundleAfterParse state gen : abrupt (bundleAfterParse plugin state gen).
Proof.
  unfold bundleAfterParse.
  apply abrupt_bind; [apply abrupt_bundleResolve | intros _; apply abrupt_bundleFinish].
Qed.

Lemma abrupt_bundleParse state gen : abrupt (bundleParse plugin state gen).
Proof.
  unfold bundleParse. apply abrupt_bind; [apply abrupt_attempt |].
  intros [_|e]; [| abrupt_after_plain; abrupt_plain].
  apply abrupt_bind; [apply abrupt_attempt |].
  intros [_|e]; [| abrupt_after_plain; abrupt_plain].
  apply abrupt_bundleAfterParse.
Qed.

Lemma abrupt_bundle : abrupt (bundle plugin).
Proof.
  unfold bundle, bundleFrom. abrupt_after_plain. abrupt_after_plain. abrupt_after_plain.
  apply abrupt_bind; [apply abrupt_runStateHooks | intros state1].
  apply abrupt_bind; [| intros _; apply abrupt_bundleParse].
  unfold callCreateDir. abrupt_after_plain. apply abrupt_onWorld. intros e.
  eexists. split; reflexivity.
Qed.

Lemma abrupt_loadSettings : abrupt (loadSettings plugin).
Proof.
  unfold loadSettings, loadSettingsPrologue, loadSettingsFromFile.
  apply abrupt_bind.
  { apply abrupt_bind; [| intros _; abrupt_after_plain; abrupt_after_plain; abrupt_plain].
    abrupt_after_plain. apply abrupt_bind.
    - apply abrupt_onWorld. intros e. eexists. split; reflexivity.
    - intros [data|]; abrupt_plain. }
  intros _. abrupt_after_plain. apply abrupt_normal. intros m. exists tt.
  apply runConfigurationHooks_normal.
Qed.

Lemma abrupt_magic args : abrupt (magic plugin args).
Proof.
  unfold magic.
  apply abrupt_bind.
  { apply abrupt_normal. intros m. rewrite initializeArgument_run. now exists tt. }
  intros _. apply abrupt_bind.
  { destruct (String.eqb _ _); [abrupt_after_plain |]; abrupt_plain. }
  intros _. apply abrupt_bind; [apply abrupt_loadSettings | intros _].
  destruct (String.eqb (Args.action args) "watch").
  - apply abrupt_bind.
    { destruct (Js.truthyNumber _); abrupt_plain. }
    intros _. apply abrupt_bind; [apply abrupt_bundle | intros _].
    do 5 abrupt_after_plain. abrupt_plain.
  - destruct (String.eqb (Args.action args) "build"); [apply abrupt_bundle | abrupt_plain].
Qed.

Lemma abrupt_onWatchEvent name : abrupt (onWatchEvent plugin name).
Proof.
  unfold onWatchEvent. abrupt_after_plain.
  apply abrupt_bind; [apply abrupt_loadSettings | intros _].
  apply abrupt_bind; [apply abrupt_attempt | intros r; abrupt_plain].
Qed.

End AbruptEnd.

(** ** How a pass ends *)

Section PassOutcome.
Context {World : Type} {FU : FileUtil World} {DM : Dom World} {PF : Platform}.
Variable plugin : PluginId -> Plugin.t World.

Lemma filter_none {A} (f : A -> bool) (l : list A) :
  (forall x, In x l -> f x = false) -> List.filter f l = [].
Proof.
  induction l as [|x l IH]; intros H; cbn; [reflexivity |].
  rewrite (H x) by now left. apply IH. intros y Hy. apply H. now right.
Qed.

Lemma none_at_rank (q : Event -> bool) r lo hi evs :
  (forall ev, q ev = true -> eventRank ev = Some r) ->
  within lo hi evs -> ~ (lo <= r <= hi) -> List.filter q evs = [].
Proof.
  intros Hq Hin Hout. apply filter_none. intros ev Hev.
  destruct (q ev) eqn:Hqev; [| reflexivity]. exfalso. apply Hout.
  exact (within_rank lo hi evs ev r Hin Hev (Hq ev Hqev)).
Qed.

Lemma Forall_hooks (Q : Event -> Prop) cp plugins state (m : Machine.t World) :
  (forall cp id arg r, Q (EvHook cp id arg r)) ->
  (forall msg, Q (EvConsoleWarn msg)) ->
  Forall Q (eventsOf (runStateHooks plugin cp plugins state m)).
Proof.
  intros Hhook Hwarn.
  apply (emits_runStateHooks plugin (Forall Q)).
  - constructor.
  - intros evs1 evs2 H1 H2. apply Forall_app. now split.
  - intros. constructor; [apply Hhook | constructor].
  - intros. constructor; [apply Hhook |]. constructor; [apply Hwarn | constructor].
Qed.

Lemma Forall_bundleAfterParse (Q : Event -> Prop) state gen (m : Machine.t World) :
  (forall cp id arg r, Q (EvHook cp id arg r)) ->
  (forall msg, Q (EvConsoleWarn msg)) ->
  (forall nodes r, Q (EvParseElements nodes r)) ->
  (forall r, Q (EvGenerateAliasPages r)) ->
  (forall l r, Q (EvDumpPages l r)) ->
  Forall Q (eventsOf (bundleAfterParse plugin state gen m)).
Proof.
  intros Hhook Hwarn Hresolve Halias Hdump.
  apply (emits_bundleAfterParse plugin (Forall Q)).
  - constructor.
  - intros evs1 evs2 H1 H2. apply Forall_app. now split.
  - intros. constructor; [apply Hhook | constructor].
  - intros. constructor; [apply Hhook |]. constructor; [apply Hwarn | constructor].
  - intros. constructor; [apply Hresolve | constructor].
  - intros. constructor; [apply Halias | constructor].
  - intros. constructor; [apply Hdump | constructor].
Qed.

Lemma callDumpPages_run state (m : Machine.t World) :
  exists r w,
    callDumpPages state m
    = (r, Machine.setMem m (Mem.setWorld (Machine.mem m) w), [EvDumpPages state r]).
Proof.
  unfold callDumpPages. rewrite run_bind. cbn [getMachine].
  unfold onWorld. destruct (dumpPages _ _ _ _) as [r w].
  exists r, w. reflexivity.
Qed.

(** The end of a pass: the afterBuild hooks, the dump, the bundle hooks. *)
Lemma bundleFinish_run state (m : Machine.t World) :
  exists plugins state1 m1 (outcome : Completion unit),
    let evA := eventsOf (runStateHooks plugin AfterBuild
                           (DefaultSettings.plugins (currentSettings m)) state m) in
    let evB := eventsOf (runStateHooks plugin Bundle plugins state1 m1) in
    match outcome with
    | Normal _ =>
        eventsOf (bundleFinish plugin state m)
        = evA ++ EvDumpPages state1 (Normal tt) :: evB /\
        resultOf (bundleFinish plugin state m) = Normal true
    | Throw e =>
        eventsOf (bundleFinish plugin state m) = evA ++ [EvDumpPages state1 (Throw e)] /\
        resultOf (bundleFinish plugin state m) = Throw e
    end.
Proof.
  unfold bundleFinish. rewrite events_bind, result_bind.
  cbn [readSettings resultOf machineOf eventsOf fst snd app].
  rewrite events_bind, result_bind.
  set (runA := runStateHooks plugin AfterBuild _ state m).
  assert (exists state1, resultOf runA = Normal state1) as [state1 Hres]
    by apply runStateHooks_normal.
  rewrite Hres. rewrite events_bind, result_bind.
  destruct (callDumpPages_run state1 (machineOf runA)) as (r & w & Hdump).
  rewrite Hdump. cbn [resultOf machineOf eventsOf fst snd].
  set (mD := Machine.setMem _ _). destruct r as [[]|e].
  - rewrite events_bind, result_bind.
    cbn [readSettings resultOf machineOf eventsOf fst snd app].
    rewrite events_bind, result_bind.
    exists (DefaultSettings.plugins (currentSettings mD)), state1, mD, (Normal tt).
    cbn zeta.
    destruct (runStateHooks_normal plugin Bundle
                (DefaultSettings.plugins (currentSettings mD)) state1 mD) as [state2 ->].
    cbn [mret M_ret resultOf eventsOf fst snd]. rewrite app_nil_r. split; reflexivity.
  - exists [], state1, mD, (Throw e). cbn zeta. split; reflexivity.
Qed.

(** A pass that returns: what it did once the directories were parsed. *)
Lemma bundleAfterParse_normal state gen (m : Machine.t World) b :
  resultOf (bundleAfterParse plugin state gen m) = Normal b ->
  b = true /\
  exists evR aliased evA dumped evB,
    eventsOf (bundleAfterParse plugin state gen m)
    = evR ++ EvGenerateAliasPages (Normal aliased) :: evA
      ++ EvDumpPages dumped (Normal tt) :: evB /\
    within 6 6 evR /\ within 8 8 evA /\ within 10 10 evB /\
    Forall (fun ev => collaboratorFailed ev = false) (evR ++ evA ++ evB).
Proof.
  unfold bundleAfterParse. rewrite result_bind, events_bind.
  destruct (resultOf (bundleResolve state gen m)) as [[]|e] eqn:Hres; [| discriminate].
  destruct (bundleResolve_run state gen m Hres)
    as (evC & evP & rebuilt & resolved & aliased & Hev & HC & HP & _).
  pose proof (runsWithin_bundleResolve state gen m) as Hwithin.
  rewrite Hev in *.
  set (m1 := machineOf (bundleResolve state gen m)).
  destruct (bundleFinish_run state m1) as (plugins & state1 & m2 & outcome & Hfin).
  cbn zeta in Hfin. intros Hb.
  destruct outcome as [[]|e]; destruct Hfin as [Hevs Hr]; rewrite Hr in Hb;
    [| discriminate].
  split; [congruence |].
  exists (evC ++ evP), aliased,
    (eventsOf (runStateHooks plugin AfterBuild
                 (DefaultSettings.plugins (currentSettings m1)) state m1)),
    state1, (eventsOf (runStateHooks plugin Bundle plugins state1 m2)).
  split; [rewrite Hevs; now rewrite <- !app_assoc |].
  assert (HR : within 6 6 (evC ++ evP)).
  { clear -HC HP. apply (within_app 6 6 6); [| | lia].
    - induction HC; [apply within_nil |].
      apply (within_app 6 6 6 [_]); [now apply (within_ranked 6 6 _ 6) | assumption | lia].
    - induction HP; [apply within_nil |].
      apply (within_app 6 6 6 [_; _]); [| assumption | lia].
      apply (within_app 6 6 6 [_] [_]); [| | lia]; now apply (within_ranked 6 6 _ 6). }
  split; [exact HR |].
  split; [apply (runsWithin_runStateHooks plugin AfterBuild) |].
  split; [apply (runsWithin_runStateHooks plugin Bundle) |].
  apply Forall_app. split; [| apply Forall_app; split; now apply Forall_hooks].
  clear -HC HP. apply Forall_app. split.
  - induction HC; constructor; [reflexivity | assumption].
  - induction HP; [constructor |]. constructor; [reflexivity |].
    constructor; [reflexivity | assumption].
Qed.

(** The three ways a pass ends. *)
Lemma bundle_cases (m : Machine.t World) :
  exists evB,
    within 2 2 evB /\
    hookCalls BeforeBuild evB
    = List.filter (hasHook plugin BeforeBuild) (DefaultSettings.plugins (currentSettings m)) /\
    Forall (fun ev => isLoggerError ev = false) evB /\
    Forall (fun ev => collaboratorFailed ev = false) evB /\
    ((exists e,
         eventsOf (bundle plugin m) = evB ++ [EvCreateDir (Throw e)] /\
         resultOf (bundle plugin m) = Throw e) \/
     (exists evP ev e,
         eventsOf (bundle plugin m)
         = evB ++ EvCreateDir (Normal tt) :: evP ++ [ev; EvLoggerError e] /\
         Forall parsedOk evP /\ parseThrew ev e /\
         resultOf (bundle plugin m) = Normal false) \/
     (exists evP evA,
         eventsOf (bundle plugin m) = evB ++ EvCreateDir (Normal tt) :: evP ++ evA /\
         Forall parsedOk evP /\ within 6 10 evA /\
         Forall (fun ev => isLoggerError ev = false) evA /\
         (resultOf (bundle plugin m) = Normal true \/
          exists e, resultOf (bundle plugin m) = Throw e) /\
         (resultOf (bundle plugin m) = Normal true ->
          exists evR aliased evH dumped evL,
            evA = evR ++ EvGenerateAliasPages (Normal aliased) :: evH
                  ++ EvDumpPages dumped (Normal tt) :: evL /\
            within 6 6 evR /\ within 8 8 evH /\ within 10 10 evL /\
            Forall (fun ev => collaboratorFailed ev = false) (evR ++ evH ++ evL)))).
Proof.
  destruct (events_bundle plugin m) as (state & m1 & -> & -> & Hs).
  pose proof (bundleFrom_cases plugin state m1) as Hcases. cbn zeta in Hcases.
  rewrite Hs in Hcases.
  set (evB := eventsOf (runStateHooks plugin BeforeBuild _ state _)) in *.
  exists evB.
  split; [apply (runsWithin_runStateHooks plugin BeforeBuild) |].
  split; [apply hookCalls_runStateHooks |].
  split; [now apply Forall_hooks |]. split; [now apply Forall_hooks |].
  destruct Hcases as [(e & Hev & Hres) | [(evP & ev & e & Hev & Hok & Hthrew & Hres)
                                        | (evP & state' & gen & m' & Hev & Hok & Hres)]].
  - left. now exists e.
  - right. left. now exists evP, ev, e.
  - right. right. exists evP, (eventsOf (bundleAfterParse plugin state' gen m')).
    split; [assumption |]. split; [assumption |].
    split; [apply runsWithin_bundleAfterParse |].
    split; [now apply Forall_bundleAfterParse |].
    rewrite Hres. split.
    + destruct (resultOf (bundleAfterParse plugin state' gen m')) as [b|e] eqn:Hb.
      * left. now destruct (bundleAfterParse_normal state' gen m' b Hb) as [-> _].
      * right. now exists e.
    + intros Hb. now destruct (bundleAfterParse_normal state' gen m' true Hb) as [_ H].
Qed.

Lemma parsedOk_not_parseThrew ev e : parsedOk ev -> ~ parseThrew ev e.
Proof. intros Hok Hthrew. exact (parseThrew_not_parsedOk ev e Hthrew Hok). Qed.

Lemma parsedOk_isLoggerError ev : parsedOk ev -> isLoggerError ev = false.
Proof. now intros [dir [-> | ->]]. Qed.

(** What is neither an error given to the logger nor a parse that threw. *)
Lemma uneventful_outside lo hi evs :
  within lo hi evs -> ~ (lo <= 5 /\ 4 <= hi) ->
  Forall (fun x => isLoggerError x = false) evs ->
  Forall (fun x => isLoggerError x = false /\ forall e', ~ parseThrew x e') evs.
Proof.
  intros Hin Hout Hlog. rewrite Forall_forall in *. intros x Hx.
  split; [now apply Hlog |]. intros e' Hthrew.
  exact (parseThrew_outside lo hi evs x e' Hin Hthrew Hout Hx).
Qed.

Lemma uneventful_parsedOk evs :
  Forall parsedOk evs ->
  Forall (fun x => isLoggerError x = false /\ forall e', ~ parseThrew x e') evs.
Proof.
  intros Hok. eapply Forall_impl; [| exact Hok]. intros x Hx.
  split; [now apply parsedOk_isLoggerError | intros e'; now apply parsedOk_not_parseThrew].
Qed.

Lemma uneventful_createDir r :
  isLoggerError (EvCreateDir r) = false /\ forall e', ~ parseThrew (EvCreateDir r) e'.
Proof. split; [reflexivity |]. intros e' [dir [H | H]]; discriminate. Qed.

(** A pass logs an error exactly when a parse threw, and then returns
    [false]; otherwise it does neither. *)
Lemma bundle_parse_outcome (m : Machine.t World) :
  (exists before ev e,
      eventsOf (bundle plugin m) = before ++ [ev; EvLoggerError e] /\
      parseThrew ev e /\
      resultOf (bundle plugin m) = Normal false /\
      Forall (fun x => isLoggerError x = false /\ forall e', ~ parseThrew x e') before) \/
  (resultOf (bundle plugin m) <> Normal false /\
   Forall (fun x => isLoggerError x = false /\ forall e', ~ parseThrew x e')
     (eventsOf (bundle plugin m))).
Proof.
  destruct (bundle_cases m) as (evB & HB & _ & HlogB & _ & Hcases).
  pose proof (uneventful_outside 2 2 evB HB ltac:(lia) HlogB) as HB'.
  destruct Hcases as [(e & Hev & Hres) | [(evP & ev & e & Hev & Hok & Hthrew & Hres)
                                        | (evP & evA & Hev & Hok & HA & HlogA & Hres & _)]].
  - right. rewrite Hev, Hres. split; [discriminate |].
    apply Forall_app. split; [exact HB' |].
    constructor; [apply uneventful_createDir | constructor].
  - left. exists (evB ++ EvCreateDir (Normal tt) :: evP), ev, e.
    split; [rewrite Hev; now rewrite <- app_assoc |].
    split; [assumption |]. split; [assumption |].
    apply Forall_app. split; [exact HB' |].
    constructor; [apply uneventful_createDir | now apply uneventful_parsedOk].
  - right. split; [destruct Hres as [-> | [e ->]]; discriminate |].
    rewrite Hev. apply Forall_app. split; [exact HB' |].
    constructor; [apply uneventful_createDir |].
    apply Forall_app. split; [now apply uneventful_parsedOk |].
    apply (uneventful_outside 6 10); [assumption | lia | assumption].
Qed.

(** What follows a call of a stage belongs to that stage or to a later
    one, and what precedes it to that stage or to an earlier one. *)
Lemma within_after (lo hi r : nat) before ev after :
  within lo hi (before ++ ev :: after) -> eventRank ev = Some r -> within r hi after.
Proof.
  intros [Hsorted Hrange] Hr. unfold within, inPipelineOrder in *.
  rewrite omap_app in Hsorted, Hrange. cbn in Hsorted, Hrange. rewrite Hr in *.
  apply StronglySorted_app in Hsorted as (_ & _ & Hsorted).
  apply Forall_app in Hrange as [_ Hrange].
  apply StronglySorted_inv in Hsorted as [Hs Hle]. apply Forall_inv_tail in Hrange as Hrest.
  split; [assumption |]. rewrite Forall_forall in *. intros x Hx.
  specialize (Hle x Hx). specialize (Hrest x Hx). lia.
Qed.

Lemma within_before (lo hi r : nat) before ev after :
  within lo hi (before ++ ev :: after) -> eventRank ev = Some r -> within lo r before.
Proof.
  intros [Hsorted Hrange] Hr. unfold within, inPipelineOrder in *.
  rewrite omap_app in Hsorted, Hrange. cbn in Hsorted, Hrange. rewrite Hr in *.
  apply Forall_app in Hrange as [Hrange _].
  apply StronglySorted_app in Hsorted as (Hle & Hsorted & _).
  split; [assumption |]. rewrite Forall_forall in *. intros x Hx.
  specialize (Hrange x Hx).
  assert (x <= r); [| lia].
  apply Hle; [now apply list_elem_of_In | left].
Qed.

Lemma within_raise (lo lo' hi : nat) evs :
  within lo hi evs ->
  (forall ev r, In ev evs -> eventRank ev = Some r -> lo' <= r) ->
  within lo' hi evs.
Proof.
  intros [Hsorted Hrange] Hlo. split; [assumption |].
  rewrite Forall_forall in *. intros r Hr. specialize (Hrange r Hr).
  apply list_elem_of_In, list_elem_of_omap in Hr as (ev & Hev & Hrank).
  apply list_elem_of_In in Hev. specialize (Hlo ev r Hev Hrank). lia.
Qed.

Lemma within_lower (hi hi' lo : nat) evs :
  within lo hi evs ->
  (forall ev r, In ev evs -> eventRank ev = Some r -> r <= hi') ->
  within lo hi' evs.
Proof.
  intros [Hsorted Hrange] Hhi. split; [assumption |].
  rewrite Forall_forall in *. intros r Hr. specialize (Hrange r Hr).
  apply list_elem_of_In, list_elem_of_omap in Hr as (ev & Hev & Hrank).
  apply list_elem_of_In in Hev. specialize (Hhi ev r Hev Hrank). lia.
Qed.

End PassOutcome.

(** X11. A pass that returns [true] has gone through every stage: no
    collaborator call threw, alias generation ran exactly once and
    returned, then the afterBuild hooks ran, then [dumpPages] ran exactly
    once and returned, then the bundle hooks ran. *)
Theorem a_pass_that_returns_true_has_dumped_its_pages
    {World : Type} {FU : FileUtil World} {DM : Dom World} {PF : Platform}
    (plugin : PluginId -> Plugin.t World) (m : Machine.t World) :
  resultOf (bundle plugin m) = Normal true ->
  Forall (fun ev => collaboratorFailed ev = false) (eventsOf (bundle plugin m)) /\
  length (List.filter isGenerateAliasPages (eventsOf (bundle plugin m))) = 1 /\
  length (List.filter isDumpPages (eventsOf (bundle plugin m))) = 1 /\
  exists before aliased between dumped after,
    eventsOf (bundle plugin m)
    = before ++ EvGenerateAliasPages (Normal aliased) :: between
      ++ EvDumpPages dumped (Normal tt) :: after /\
    within 2 6 before /\ within 8 8 between /\ within 10 10 after.
Proof.
  intros Htrue.
  assert (Halias : forall ev, isGenerateAliasPages ev = true -> eventRank ev = Some 7)
    by (intros []; cbn; congruence).
  assert (Hdump : forall ev, isDumpPages ev = true -> eventRank ev = Some 9)
    by (intros []; cbn; congruence).
  pose proof (runsWithin_bundle plugin m) as Hall.
  destruct (bundle_cases plugin m) as (evB & HB & _ & _ & HfB & Hcases).
  destruct Hcases as [(e & Hev & Hres) | [(evP & ev & e & Hev & Hok & Hthrew & Hres)
                                        | (evP & evA & Hev & Hok & HA & _ & _ & Hshape)]];
    [congruence | congruence |].
  destruct (Hshape Htrue) as (evR & aliased & evH & dumped & evL & -> & HR & HH & HL & Hf).
  apply Forall_app in Hf as [HfR Hf]. apply Forall_app in Hf as [HfH HfL].
  assert (HfP : Forall (fun ev => collaboratorFailed ev = false) evP).
  { eapply Forall_impl; [| exact Hok]. now intros x [dir [-> | ->]]. }
  assert (Hbefore : within 2 6 (evB ++ EvCreateDir (Normal tt) :: evP ++ evR)).
  { rewrite Hev in Hall.
    replace (evB ++ EvCreateDir (Normal tt) :: evP ++ evR ++
             EvGenerateAliasPages (Normal aliased) :: evH
             ++ EvDumpPages dumped (Normal tt) :: evL)
      with ((evB ++ EvCreateDir (Normal tt) :: evP ++ evR) ++
            EvGenerateAliasPages (Normal aliased) :: evH
            ++ EvDumpPages dumped (Normal tt) :: evL) in Hall
      by (rewrite <- !app_assoc; cbn; now rewrite <- !app_assoc).
    apply (within_lower 7).
    { eapply within_before; [exact Hall | reflexivity]. }
    intros x r Hx Hr. rewrite Forall_forall in Hok.
    apply in_app_or in Hx as [Hx | [<- | Hx]].
    - pose proof (within_rank 2 2 evB x r HB Hx Hr). lia.
    - injection Hr as <-. lia.
    - apply in_app_or in Hx as [Hx | Hx].
      + destruct (Hok x Hx) as [dir [-> | ->]]; cbn in Hr; injection Hr as <-; lia.
      + pose proof (within_rank 6 6 evR x r HR Hx Hr). lia. }
  assert (Hshape' : eventsOf (bundle plugin m)
                    = (evB ++ EvCreateDir (Normal tt) :: evP ++ evR)
                      ++ [EvGenerateAliasPages (Normal aliased)] ++ evH
                      ++ [EvDumpPages dumped (Normal tt)] ++ evL)
    by (rewrite Hev, <- !app_assoc; cbn; now rewrite <- !app_assoc).
  set (before := evB ++ EvCreateDir (Normal tt) :: evP ++ evR) in *.
  split; [| split; [| split]].
  - rewrite Hev. apply Forall_app. split; [assumption |].
    constructor; [reflexivity |]. apply Forall_app. split; [assumption |].
    apply Forall_app. split; [assumption |]. constructor; [reflexivity |].
    apply Forall_app. split; [assumption |]. constructor; [reflexivity | assumption].
  - rewrite Hshape', !filter_app. cbn.
    rewrite (none_at_rank isGenerateAliasPages 7 2 6 _ Halias Hbefore) by lia.
    rewrite (none_at_rank isGenerateAliasPages 7 8 8 _ Halias HH) by lia.
    rewrite (none_at_rank isGenerateAliasPages 7 10 10 _ Halias HL) by lia. reflexivity.
  - rewrite Hshape', !filter_app. cbn.
    rewrite (none_at_rank isDumpPages 9 2 6 _ Hdump Hbefore) by lia.
    rewrite (none_at_rank isDumpPages 9 8 8 _ Hdump HH) by lia.
    rewrite (none_at_rank isDumpPages 9 10 10 _ Hdump HL) by lia. reflexivity.
  - exists before, aliased, evH, dumped, evL.
    split; [exact Hshape' |]. split; [assumption |]. split; assumption.
Qed.

Lemma a_pass_that_returns_true_has_dumped_its_pages_witness :
  length (List.filter isDumpPages (eventsOf (bundle Fixture.plugin Fixture.loaded))) = 1.
Proof.
  apply (a_pass_that_returns_true_has_dumped_its_pages Fixture.plugin Fixture.loaded).
  vm_compute. reflexivity.
Defined.

(** ** The variables of the module and the settings during a pass *)

Section PassFrame.
Context {World : Type} {FU : FileUtil World} {DM : Dom World} {PF : Platform}.
Variable plugin : PluginId -> Plugin.t World.

Lemma framed_currentSettings (m m' : Machine.t World) :
  framed sameSettingsObjs m m' -> currentSettings m' = currentSettings m.
Proof.
  intros (_ & Hs & _ & Hobjs). unfold currentSettings, settingsAt, sameSettingsObjs in *.
  now rewrite Hs, Hobjs.
Qed.

Lemma sameSettingsObjs_refl (mem : Mem.t World) : sameSettingsObjs mem mem.
Proof. reflexivity. Qed.

Lemma sameSettingsObjs_trans (mem1 mem2 mem3 : Mem.t World) :
  sameSettingsObjs mem1 mem2 -> sameSettingsObjs mem2 mem3 -> sameSettingsObjs mem1 mem3.
Proof. unfold sameSettingsObjs. congruence. Qed.

Lemma sameSettingsObjs_world (mem : Mem.t World) w :
  sameSettingsObjs mem (Mem.setWorld mem w).
Proof. reflexivity. Qed.

Lemma sameSettingsObjs_state (mem : Mem.t World) objs :
  sameSettingsObjs mem (Mem.setStateObjs mem objs).
Proof. reflexivity. Qed.

Lemma bundle_globals (m : Machine.t World) :
  Machine.dirname (machineOf (bundle plugin m)) = Machine.dirname m /\
  Machine.Settings (machineOf (bundle plugin m)) = Machine.Settings m /\
  Machine.jsGenerator (machineOf (bundle plugin m))
  = Some (generatorOf (currentSettings m)).
Proof.
  destruct (bundle_frame plugin anyStore (fun _ => I) (fun _ _ _ _ _ => I)
              (fun _ _ => I) (fun _ _ => I) (fun _ _ _ _ _ _ _ => I) m)
    as (Hd & Hs & Hg & _).
  split; [exact Hd |]. split; [exact Hs | exact Hg].
Qed.

Hypothesis hooks_keep : stateHooksKeepSettings plugin.

Lemma bundle_keeps_settings (m : Machine.t World) :
  Mem.settingsObjs (Machine.mem (machineOf (bundle plugin m)))
  = Mem.settingsObjs (Machine.mem m) /\
  currentSettings (machineOf (bundle plugin m)) = currentSettings m.
Proof.
  destruct (bundle_frame plugin sameSettingsObjs sameSettingsObjs_refl
              sameSettingsObjs_trans sameSettingsObjs_world sameSettingsObjs_state
              hooks_keep m) as (Hd & Hs & Hg & Hobjs).
  split; [exact Hobjs |]. unfold currentSettings, settingsAt. now rewrite Hs, Hobjs.
Qed.

Lemma keeps_settings_runStateHooks cp plugins state (m : Machine.t World) :
  cp <> Configuration ->
  currentSettings (machineOf (runStateHooks plugin cp plugins state m)) = currentSettings m.
Proof.
  intros Hcp. apply framed_currentSettings.
  exact (keeps_runStateHooks plugin sameSettingsObjs sameSettingsObjs_refl
           sameSettingsObjs_trans sameSettingsObjs_state hooks_keep cp plugins state Hcp m).
Qed.

End PassFrame.

(** X12. A pass assigns no variable of the module but [jsGenerator]:
    [dirname] and [Settings] refer to what they referred to, and the
    generator is the one built from the key and the domains the settings
    had when the pass started, whatever the hooks did to the settings
    afterwards. When the hooks of the build checkpoints leave the settings
    objects alone, so does the pass. *)
Theorem a_pass_assigns_no_variable_but_the_generator
    {World : Type} {FU : FileUtil World} {DM : Dom World} {PF : Platform}
    (plugin : PluginId -> Plugin.t World) (m : Machine.t World) :
  Machine.dirname (machineOf (bundle plugin m)) = Machine.dirname m /\
  Machine.Settings (machineOf (bundle plugin m)) = Machine.Settings m /\
  Machine.jsGenerator (machineOf (bundle plugin m))
  = Some {| SpearlyJSGenerator.authKey := DefaultSettings.spearlyAuthKey (currentSettings m);
            SpearlyJSGenerator.apiDomain := DefaultSettings.apiDomain (currentSettings m);
            SpearlyJSGenerator.analysysDomain
            := DefaultSettings.analysysDomain (currentSettings m) |} /\
  (stateHooksKeepSettings plugin ->
   Mem.settingsObjs (Machine.mem (machineOf (bundle plugin m)))
   = Mem.settingsObjs (Machine.mem m) /\
   currentSettings (machineOf (bundle plugin m)) = currentSettings m).
Proof.
  destruct (bundle_globals plugin m) as (Hd & Hs & Hg).
  split; [exact Hd |]. split; [exact Hs |]. split; [exact Hg |].
  intros Hkeep. now apply bundle_keeps_settings.
Qed.

(** ** The directories a pass parses *)

Section ParsePlan.
Context {World : Type} {FU : FileUtil World} {DM : Dom World} {PF : Platform}.
Variable plugin : PluginId -> Plugin.t World.

Lemma parseCalls_app evs1 evs2 : parseCalls (evs1 ++ evs2) = parseCalls evs1 ++ parseCalls evs2.
Proof. apply omap_app. Qed.

Lemma parseCalls_outside lo hi evs :
  within lo hi evs -> ~ (lo <= 5 /\ 4 <= hi) -> parseCalls evs = [].
Proof.
  intros Hin Hout. unfold parseCalls. induction evs as [|ev evs IH]; [reflexivity |].
  assert (Hev : parseCall ev = None).
  { destruct (parseCall ev) eqn:Hcall; [| reflexivity]. exfalso. apply Hout.
    destruct ev; try discriminate.
    - pose proof (within_rank lo hi _ _ 4 Hin ltac:(now left) eq_refl). lia.
    - pose proof (within_rank lo hi _ _ 5 Hin ltac:(now left) eq_refl). lia. }
  cbn. rewrite Hev. apply IH.
  destruct Hin as [Hsorted Hrange]. unfold within, inPipelineOrder in *.
  cbn in Hsorted, Hrange. destruct (eventRank ev); [| now split].
  apply StronglySorted_inv in Hsorted as [Hsorted _].
  apply Forall_inv_tail in Hrange. now split.
Qed.

(** A parse loop calls the parser on the entries of its list, in order,
    and stops at the first call that throws. *)
Lemma forEach_parseCalls {A} (body : A -> M World unit) (call : A -> ParseCall) :
  (forall x m, exists ev, eventsOf (body x m) = [ev] /\ parseCall ev = Some (call x)) ->
  forall l m,
    (exists rest, map call l = parseCalls (eventsOf (forEach l body m)) ++ rest) /\
    (forall u, resultOf (forEach l body m) = Normal u ->
       parseCalls (eventsOf (forEach l body m)) = map call l).
Proof.
  intros Hbody. induction l as [|x l IH]; intros m; cbn [forEach].
  - split; [now exists [] | reflexivity].
  - rewrite events_bind, result_bind.
    destruct (Hbody x m) as (ev & Hev & Hcall). rewrite Hev.
    assert (Hone : parseCalls [ev] = [call x]) by (cbn; now rewrite Hcall).
    destruct (resultOf (body x m)) as [[]|e].
    + destruct (IH (machineOf (body x m))) as [[rest Hrest] Hall].
      rewrite parseCalls_app, Hone. cbn [map app]. split.
      * exists rest. now rewrite Hrest at 1.
      * intros u Hu. now rewrite (Hall u Hu).
    + rewrite Hone. cbn [map app]. split; [now exists (map call l) | discriminate].
Qed.

Lemma callParseComponents_parseCall state dir (m : Machine.t World) :
  exists ev, eventsOf (callParseComponents state dir m) = [ev] /\
             parseCall ev = Some (ParsedComponents dir).
Proof.
  unfold callParseComponents. destruct (parseComponents _ _ _ _) as [[r s] w].
  now eexists.
Qed.

Lemma callParsePages_parseCall state dir (m : Machine.t World) :
  exists ev, eventsOf (callParsePages state dir m) = [ev] /\
             parseCall ev = Some (ParsedPages dir).
Proof.
  unfold callParsePages. destruct (parsePages _ _ _) as [[r s] w].
  now eexists.
Qed.

Lemma keeps_settings_parseComponentsLoop state (m : Machine.t World) :
  currentSettings
    (machineOf ((s ← readSettings;
                 forEach (DefaultSettings.componentsFolder s) (callParseComponents state)) m))
  = currentSettings m.
Proof.
  apply framed_currentSettings.
  exact (keeps_parseComponentsLoop sameSettingsObjs sameSettingsObjs_refl
           sameSettingsObjs_trans sameSettingsObjs_world sameSettingsObjs_state state m).
Qed.

(** The parse loops follow the plan of the settings they start with. *)
Lemma bundleParse_parseCalls state gen (m : Machine.t World) :
  (exists rest,
     parsePlan (currentSettings m)
     = parseCalls (eventsOf (bundleParse plugin state gen m)) ++ rest) /\
  (resultOf (bundleParse plugin state gen m) <> Normal false ->
   parseCalls (eventsOf (bundleParse plugin state gen m)) = parsePlan (currentSettings m)).
Proof.
  unfold bundleParse, parsePlan.
  rewrite events_attempt_bind, result_attempt_bind.
  pose proof (keeps_settings_parseComponentsLoop state m) as Hs1.
  set (run1 := (s ← readSettings; forEach _ _) m) in *.
  assert (H1 : (exists rest,
                  map ParsedComponents (DefaultSettings.componentsFolder (currentSettings m))
                  = parseCalls (eventsOf run1) ++ rest) /\
               (forall u, resultOf run1 = Normal u ->
                  parseCalls (eventsOf run1)
                  = map ParsedComponents
                      (DefaultSettings.componentsFolder (currentSettings m)))).
  { subst run1. rewrite events_bind, result_bind.
    cbn [readSettings resultOf machineOf eventsOf fst snd app].
    apply forEach_parseCalls. intros dir m0. apply callParseComponents_parseCall. }
  destruct H1 as [[rest1 Hrest1] Hall1].
  destruct (resultOf run1) as [[]|e].
  - rewrite events_attempt_bind, result_attempt_bind.
    set (run2 := (s ← readSettings; forEach _ _) (machineOf run1)) in *.
    assert (H2 : (exists rest,
                    map ParsedPages (DefaultSettings.srcDir (currentSettings m))
                    = parseCalls (eventsOf run2) ++ rest) /\
                 (forall u, resultOf run2 = Normal u ->
                    parseCalls (eventsOf run2)
                    = map ParsedPages (DefaultSettings.srcDir (currentSettings m)))).
    { subst run2. rewrite events_bind, result_bind.
      cbn [readSettings resultOf machineOf eventsOf fst snd app]. rewrite Hs1.
      apply forEach_parseCalls. intros dir m0. apply callParsePages_parseCall. }
    destruct H2 as [[rest2 Hrest2] Hall2].
    rewrite !parseCalls_app, (Hall1 tt eq_refl).
    destruct (resultOf run2) as [[]|e].
    + rewrite (parseCalls_outside 6 10 _ (runsWithin_bundleAfterParse plugin state gen _))
        by lia.
      rewrite (Hall2 tt eq_refl), app_nil_r.
      split; [exists []; now rewrite app_nil_r | reflexivity].
    + cbn [mbind M_bind loggerError emit eventsOf resultOf fst snd parseCalls omap app].
      split; [| intros H; now contradiction H].
      exists rest2. rewrite Hrest2. cbn. now rewrite app_nil_r, <- app_assoc.
  - cbn [mbind M_bind loggerError emit eventsOf resultOf fst snd].
    split; [| intros H; now contradiction H].
    exists (rest1 ++ map ParsedPages (DefaultSettings.srcDir (currentSettings m))).
    rewrite Hrest1, parseCalls_app. cbn. now rewrite app_nil_r, <- app_assoc.
Qed.

Hypothesis hooks_keep : stateHooksKeepSettings plugin.

Lemma bundle_parseCalls (m : Machine.t World) :
  (exists rest,
     parsePlan (currentSettings m) = parseCalls (eventsOf (bundle plugin m)) ++ rest) /\
  (resultOf (bundle plugin m) = Normal true ->
   parseCalls (eventsOf (bundle plugin m)) = parsePlan (currentSettings m)).
Proof.
  unfold bundle. rewrite events_bind, result_bind.
  cbn [newStateObject resultOf machineOf eventsOf fst snd app].
  set (m0 := Machine.setMem m _).
  assert (Hs0 : currentSettings m0 = currentSettings m) by reflexivity.
  unfold bundleFrom. rewrite events_bind, result_bind.
  destruct (newSpearlyJSGenerator_run m0) as (gen & -> & -> & Hs1 & _).
  set (m1 := machineOf (newSpearlyJSGenerator m0)) in *.
  rewrite events_bind, result_bind.
  cbn [readSettings resultOf machineOf eventsOf fst snd app].
  rewrite events_bind, result_bind.
  pose proof (keeps_settings_runStateHooks plugin hooks_keep BeforeBuild
                (DefaultSettings.plugins (currentSettings m1))
                (fresh (dom (Mem.stateObjs (Machine.mem m)))) m1 ltac:(discriminate))
    as Hs2.
  pose proof (runsWithin_runStateHooks plugin BeforeBuild
                (DefaultSettings.plugins (currentSettings m1))
                (fresh (dom (Mem.stateObjs (Machine.mem m)))) m1) as HB.
  set (runB := runStateHooks plugin BeforeBuild _ _ m1) in *.
  assert (exists state1, resultOf runB = Normal state1) as [state1 Hres]
    by apply runStateHooks_normal.
  rewrite Hres, events_bind, result_bind, callCreateDir_run.
  assert (Hs3 : currentSettings (machineOf (callCreateDir (machineOf runB)))
                = currentSettings (machineOf runB)).
  { apply framed_currentSettings.
    exact (keeps_callCreateDir sameSettingsObjs sameSettingsObjs_refl
             sameSettingsObjs_trans sameSettingsObjs_world (machineOf runB)). }
  rewrite !parseCalls_app, (parseCalls_outside 2 2 _ HB) by lia.
  destruct (resultOf (callCreateDir (machineOf runB))) as [[]|e].
  - destruct (bundleParse_parseCalls state1 gen (machineOf (callCreateDir (machineOf runB))))
      as [Hprefix Hall].
    rewrite Hs3, Hs2, Hs1, Hs0 in Hprefix, Hall.
    rewrite parseCalls_app. cbn [parseCalls omap parseCall app].
    split; [exact Hprefix |]. intros Htrue. apply Hall. rewrite Htrue. discriminate.
  - cbn. split; [now eexists | discriminate].
Qed.

End ParsePlan.

(** ** The entry point *)

Section MagicFacts.
Context {World : Type} {FU : FileUtil World} {DM : Dom World} {PF : Platform}.
Variable plugin : PluginId -> Plugin.t World.

Lemma not_in_within lo hi evs ev r :
  within lo hi evs -> eventRank ev = Some r -> ~ (lo <= r <= hi) -> ~ In ev evs.
Proof. intros Hin Hr Hout Hev. apply Hout. exact (within_rank lo hi evs ev r Hin Hev Hr). Qed.

Lemma parseThrew_serverEvents s ev e : In ev (serverEvents s) -> ~ parseThrew ev e.
Proof.
  intros [<- | [<- | [<- | []]]] [dir [H | H]]; discriminate.
Qed.

(** A watch session, whatever its first pass returns. *)
Lemma magic_watch args (m : Machine.t World) :
  Args.action args = "watch" ->
  let load := loadSettings plugin (machineOf (magicPrepare args m)) in
  let pass := bundle plugin (machineOf (magicPort args (machineOf load))) in
  match resultOf load with
  | Throw e =>
      resultOf (magic plugin args m) = Throw e /\
      eventsOf (magic plugin args m) = eventsOf load
  | Normal _ =>
      match resultOf pass with
      | Throw e =>
          resultOf (magic plugin args m) = Throw e /\
          eventsOf (magic plugin args m) = eventsOf load ++ eventsOf pass
      | Normal _ =>
          resultOf (magic plugin args m) = Normal true /\
          eventsOf (magic plugin args m)
          = eventsOf load ++ eventsOf pass ++ serverEvents (currentSettings (machineOf pass))
      end
  end.
Proof.
  intros Haction load pass. subst load pass.
  pose proof (magic_result plugin args m) as Hr. pose proof (magic_events plugin args m) as He.
  cbn zeta in Hr, He. rewrite Hr, He.
  destruct (resultOf (loadSettings plugin (machineOf (magicPrepare args m)))) as [[]|e];
    [| now split].
  rewrite (magicAfterLoad_watch plugin args _ Haction).
  destruct (resultOf (bundle plugin _)) as [b|e]; now split.
Qed.

End MagicFacts.

(** ** The server of a watch session *)

Section ServerFacts.
Context {World : Type} {FU : FileUtil World} {DM : Dom World} {PF : Platform}.
Variable plugin : PluginId -> Plugin.t World.

Lemma settingsFileOutcome_magicPrepare args (m : Machine.t World) :
  settingsFileOutcome (machineOf (magicPrepare args m))
  = (loadFile (dirnameFor args (Machine.dirname m) +:+ "/" +:+ "spear.config" +:+
               ".?(mjs|js|json)")
       (Mem.world (Machine.mem m))).1.
Proof.
  unfold settingsFileOutcome. rewrite settingsFilePattern_magicPrepare.
  now destruct (magicPrepare_run args m) as (_ & _ & _ & _ & -> & _).
Qed.

Lemma currentSettings_magicPort args (m : Machine.t World) :
  currentSettings (machineOf (magicPort args m))
  = match Js.truthyNumber (Args.port args) with
    | Some port => DefaultSettings.setPort (currentSettings m) port
    | None => currentSettings m
    end.
Proof.
  unfold magicPort. destruct (Js.truthyNumber _) as [port|]; [| reflexivity].
  apply (currentSettings_updateSettings (fun s => DefaultSettings.setPort s port)).
Qed.

Lemma settingsAfterLoad_fields data s :
  DefaultSettings.port (settingsAfterLoad data s)
  = fromFile data SettingsData.port (DefaultSettings.port s) /\
  DefaultSettings.host (settingsAfterLoad data s)
  = fromFile data SettingsData.host (DefaultSettings.host s) /\
  DefaultSettings.distDir (settingsAfterLoad data s)
  = fromFile data SettingsData.distDir (DefaultSettings.distDir s) /\
  DefaultSettings.crossOriginIsolation (settingsAfterLoad data s)
  = fromFile data SettingsData.crossOriginIsolation (DefaultSettings.crossOriginIsolation s).
Proof. destruct data as [data|]; repeat split. Qed.

End ServerFacts.

(** X18. [initializeArgument] resets the settings to the defaults of the
    directory: [dirname] becomes the resolved [src] of the command line
    when it is given and not empty, and is left as it was otherwise;
    [Settings] then refers to a new object, no object that existed is
    changed, every path of the new settings lies under [dirname], and
    deduplication leaves the default [srcDir] as it is. *)
Theorem initializeArgument_resets_the_settings_to_the_defaults
    {World : Type} {PF : Platform} (args : Args.t) (m : Machine.t World) :
  let m' := machineOf (initializeArgument args m) in
  resultOf (initializeArgument args m) = Normal tt /\
  eventsOf (initializeArgument args m) = [] /\
  Machine.dirname m'
  = match Js.truthyString (Args.src args) with
    | Some src => path_resolve [src]
    | None => Machine.dirname m
    end /\
  (Args.src args = None \/ Args.src args = Some "" -> Machine.dirname m' = Machine.dirname m) /\
  (Machine.Settings m' ∉ dom (Mem.settingsObjs (Machine.mem m))) /\
  (forall l, l <> Machine.Settings m' ->
     Mem.settingsObjs (Machine.mem m') !! l = Mem.settingsObjs (Machine.mem m) !! l) /\
  Mem.stateObjs (Machine.mem m') = Mem.stateObjs (Machine.mem m) /\
  currentSettings m' = defaultSettingsFor (Machine.dirname m') /\
  Forall (fun path => subPathOf path (Machine.dirname m')) (settingsPaths (currentSettings m')) /\
  dedupSrcDir (DefaultSettings.srcDir (currentSettings m'))
  = DefaultSettings.srcDir (currentSettings m').
Proof.
  cbv zeta. rewrite initializeArgument_run.
  cbn [resultOf machineOf eventsOf fst snd Machine.dirname Machine.Settings Machine.mem
       Mem.settingsObjs Mem.stateObjs Mem.setSettingsObjs].
  assert (Hs : currentSettings
                 (Machine.mk
                    (Mem.setSettingsObjs (Machine.mem m)
                       (<[fresh (dom (Mem.settingsObjs (Machine.mem m)))
                          := defaultSettingsFor (dirnameFor args (Machine.dirname m))]>
                          (Mem.settingsObjs (Machine.mem m))))
                    (dirnameFor args (Machine.dirname m))
                    (fresh (dom (Mem.settingsObjs (Machine.mem m))))
                    (Machine.jsGenerator m))
               = defaultSettingsFor (dirnameFor args (Machine.dirname m))).
  { unfold currentSettings, settingsAt. cbn. apply lookup_total_insert_eq. }
  rewrite Hs.
  split; [reflexivity |]. split; [reflexivity |]. split; [reflexivity |].
  split; [intros [H | H]; unfold dirnameFor; now rewrite H |].
  split; [apply is_fresh |].
  split; [intros l Hl; now apply lookup_insert_ne |].
  split; [reflexivity |]. split; [reflexivity |]. split.
  - unfold settingsPaths, defaultSettingsFor. cbn [DefaultSettings.pagesFolder
      DefaultSettings.distDir DefaultSettings.entry DefaultSettings.template
      DefaultSettings.rootDir DefaultSettings.componentsFolder DefaultSettings.srcDir app].
    repeat (constructor; [first [apply subPathOf_refl | now eexists] |]). constructor.
  - unfold defaultSettingsFor. cbn [DefaultSettings.srcDir].
    apply dedupSrcDir_fixpoint. intros a [<- | []] (b & [<- | []] & Hne & _). congruence.
Qed.

(** ** The logger during the loading of the settings *)

Section LoggerFacts.
Context {World : Type} {FU : FileUtil World} {DM : Dom World} {PF : Platform}.
Variable plugin : PluginId -> Plugin.t World.
Hypothesis hooks_keep_logger :
  forall id hook arg mem,
    hookSlot Configuration (plugin id) = Some hook ->
    Mem.loggerIsQuite (hook arg mem).2 = Mem.loggerIsQuite mem.

Lemma logger_configurationHookStep id (m : Machine.t World) :
  Mem.loggerIsQuite (Machine.mem (machineOf (configurationHookStep plugin id m)))
  = Mem.loggerIsQuite (Machine.mem m).
Proof.
  destruct (hookSlot Configuration (plugin id)) as [hook|] eqn:Hslot.
  - pose proof (hooks_keep_logger id hook (Machine.Settings m) (Machine.mem m) Hslot) as Hk.
    destruct (hook (Machine.Settings m) (Machine.mem m)) as [[[l|]|e] mem'] eqn:Hrun.
    + erewrite configurationHookStep_truthy by eassumption. exact Hk.
    + erewrite configurationHookStep_falsy by eassumption. exact Hk.
    + erewrite configurationHookStep_throw by eassumption. exact Hk.
  - unfold configurationHookStep. now rewrite Hslot.
Qed.

Lemma logger_runConfigurationHooks plugins (m : Machine.t World) :
  Mem.loggerIsQuite (Machine.mem (machineOf (runConfigurationHooks plugin plugins m)))
  = Mem.loggerIsQuite (Machine.mem m).
Proof.
  revert m. unfold runConfigurationHooks.
  induction plugins as [|id rest IH]; intros m; cbn [forEach]; [reflexivity |].
  rewrite machine_bind. destruct (configurationHookStep_run plugin id m) as [-> _].
  rewrite IH. apply logger_configurationHookStep.
Qed.

Lemma logger_loadSettings (m : Machine.t World) data :
  settingsFileOutcome m = Normal data ->
  Mem.loggerIsQuite (Machine.mem (machineOf (loadSettings plugin m)))
  = DefaultSettings.quiteMode (settingsWithFile data (currentSettings m)).
Proof.
  intros Hfile. unfold loadSettings. rewrite machine_bind.
  destruct (loadSettingsPrologue_normal m data Hfile) as (-> & _ & _ & _ & Hlog & _).
  rewrite machine_bind. cbn [readSettings resultOf machineOf fst snd].
  now rewrite logger_runConfigurationHooks.
Qed.

End LoggerFacts.

(** X19. The logger follows the settings file, not the hooks:
    [logger.isQuite] is set from [quiteMode] once the file is read and
    before the configuration hooks run, and [loadSettings] does not set
    it again. Unless a hook changes the logger itself, it is what the
    file says (or what [quiteMode] was), also when a configuration hook
    has returned settings with another [quiteMode]. *)
Theorem the_logger_follows_the_settings_file_not_the_hooks
    {World : Type} {FU : FileUtil World} {DM : Dom World} {PF : Platform}
    (plugin : PluginId -> Plugin.t World) (m : Machine.t World)
    (data : option SettingsData.t) :
  (forall id hook arg mem,
     hookSlot Configuration (plugin id) = Some hook ->
     Mem.loggerIsQuite (hook arg mem).2 = Mem.loggerIsQuite mem) ->
  settingsFileOutcome m = Normal data ->
  Mem.loggerIsQuite (Machine.mem (machineOf (loadSettings plugin m)))
  = fromFile data SettingsData.quiteMode (DefaultSettings.quiteMode (currentSettings m)).
Proof.
  intros Hkeep Hfile. rewrite (logger_loadSettings plugin Hkeep m data Hfile).
  now destruct data.
Qed.

Lemma the_logger_follows_the_settings_file_not_the_hooks_witness :
  Mem.loggerIsQuite
    (Machine.mem (machineOf (loadSettings (fun _ => FixtureMore.hushing)
                               (machineOf (initializeArgument Fixture.build Fixture.start)))))
  = false /\
  DefaultSettings.quiteMode
    (currentSettings (machineOf (loadSettings (fun _ => FixtureMore.hushing)
                                   (machineOf (initializeArgument Fixture.build
                                                 Fixture.start)))))
  = true.
Proof.
  split; [| vm_compute; reflexivity].
  rewrite (the_logger_follows_the_settings_file_not_the_hooks (fun _ => FixtureMore.hushing)
             (machineOf (initializeArgument Fixture.build Fixture.start))
             (Some Fixture.settingsFile)).
  - reflexivity.
  - intros id hook arg mem [= <-]. reflexivity.
  - vm_compute. reflexivity.
Defined.

(** ** A project without a settings file *)

Section NoPlugins.
Context {World : Type} {FU : FileUtil World} {DM : Dom World} {PF : Platform}.
Variable plugin : PluginId -> Plugin.t World.

Lemma keeps_settings {A} (c : M World A) (m : Machine.t World) :
  keeps sameSettingsObjs c -> currentSettings (machineOf (c m)) = currentSettings m.
Proof. intros H. apply framed_currentSettings, H. Qed.

Lemma bundleFinish_without_plugins state (m : Machine.t World) cp :
  DefaultSettings.plugins (currentSettings m) = [] ->
  hookCalls cp (eventsOf (bundleFinish plugin state m)) = [].
Proof.
  intros Hnone. unfold bundleFinish. rewrite events_bind.
  cbn [readSettings resultOf machineOf eventsOf fst snd app]. rewrite Hnone.
  cbn [runStateHooks]. rewrite events_bind.
  cbn [mret M_ret resultOf machineOf eventsOf fst snd app]. rewrite events_bind.
  destruct (callDumpPages_run state m) as (r & w & Hdump). rewrite Hdump.
  cbn [resultOf machineOf eventsOf fst snd]. destruct r as [[]|e]; [| reflexivity].
  rewrite events_bind. cbn [readSettings resultOf machineOf eventsOf fst snd app].
  change (currentSettings (Machine.setMem m (Mem.setWorld (Machine.mem m) w)))
    with (currentSettings m).
  rewrite Hnone. reflexivity.
Qed.

Lemma bundleAfterParse_without_plugins state gen (m : Machine.t World) cp :
  DefaultSettings.plugins (currentSettings m) = [] ->
  hookCalls cp (eventsOf (bundleAfterParse plugin state gen m)) = [].
Proof.
  intros Hnone. unfold bundleAfterParse. rewrite events_bind.
  assert (Hresolve : hookCalls cp (eventsOf (bundleResolve state gen m)) = []).
  { apply (hookCalls_outside 6 7); [apply runsWithin_bundleResolve |].
    destruct cp; cbn; lia. }
  destruct (resultOf (bundleResolve state gen m)); [| exact Hresolve].
  rewrite hookCalls_app, Hresolve. apply bundleFinish_without_plugins.
  rewrite keeps_settings; [exact Hnone |].
  exact (keeps_bundleResolve sameSettingsObjs sameSettingsObjs_refl sameSettingsObjs_trans
           sameSettingsObjs_world sameSettingsObjs_state state gen).
Qed.

Lemma bundleParse_without_plugins state gen (m : Machine.t World) cp :
  DefaultSettings.plugins (currentSettings m) = [] ->
  hookCalls cp (eventsOf (bundleParse plugin state gen m)) = [].
Proof.
  intros Hnone. unfold bundleParse. rewrite events_attempt_bind.
  pose proof (keeps_settings _ m
                (keeps_parseComponentsLoop sameSettingsObjs sameSettingsObjs_refl
                   sameSettingsObjs_trans sameSettingsObjs_world sameSettingsObjs_state
                   state)) as Hs1.
  pose proof (runsWithin_parseComponentsLoop state m) as H1.
  set (run1 := (s ← readSettings; forEach _ _) m) in *.
  rewrite hookCalls_app, (hookCalls_outside 4 4 cp _ H1) by (destruct cp; cbn; lia).
  destruct (resultOf run1) as [[]|e]; [| reflexivity].
  rewrite events_attempt_bind.
  pose proof (keeps_settings _ (machineOf run1)
                (keeps_parsePagesLoop sameSettingsObjs sameSettingsObjs_refl
                   sameSettingsObjs_trans sameSettingsObjs_world sameSettingsObjs_state
                   state)) as Hs2.
  pose proof (runsWithin_parsePagesLoop state (machineOf run1)) as H2.
  set (run2 := (s ← readSettings; forEach _ _) (machineOf run1)) in *.
  rewrite hookCalls_app, (hookCalls_outside 5 5 cp _ H2) by (destruct cp; cbn; lia).
  destruct (resultOf run2) as [[]|e]; [| reflexivity].
  apply bundleAfterParse_without_plugins. now rewrite Hs2, Hs1.
Qed.

Lemma bundle_without_plugins (m : Machine.t World) cp :
  DefaultSettings.plugins (currentSettings m) = [] ->
  hookCalls cp (eventsOf (bundle plugin m)) = [].
Proof.
  intros Hnone. unfold bundle. rewrite events_bind.
  cbn [newStateObject resultOf machineOf eventsOf fst snd app].
  set (m0 := Machine.setMem m _).
  assert (Hs0 : currentSettings m0 = currentSettings m) by reflexivity.
  unfold bundleFrom. rewrite events_bind.
  destruct (newSpearlyJSGenerator_run m0) as (gen & -> & -> & Hs1 & _).
  set (m1 := machineOf (newSpearlyJSGenerator m0)) in *.
  rewrite events_bind. cbn [readSettings resultOf machineOf eventsOf fst snd app].
  rewrite Hs1, Hs0, Hnone. cbn [runStateHooks]. rewrite events_bind.
  cbn [mret M_ret resultOf machineOf eventsOf fst snd app].
  rewrite events_bind, callCreateDir_run.
  pose proof (keeps_settings _ m1
                (keeps_callCreateDir sameSettingsObjs sameSettingsObjs_refl
                   sameSettingsObjs_trans sameSettingsObjs_world)) as Hs2.
  destruct (resultOf (callCreateDir m1)) as [[]|e]; [| reflexivity].
  rewrite hookCalls_app. change (hookCalls cp [EvCreateDir (Normal tt)]) with (@nil PluginId).
  cbn [app]. apply bundleParse_without_plugins. now rewrite Hs2, Hs1, Hs0.
Qed.

Lemma hookThrew_hookCall ev :
  hookThrew ev = true -> exists cp id, hookCall cp ev = Some id.
Proof.
  destruct ev as [| cp id arg [] | | | | | | | | | | |]; try discriminate. intros _.
  exists cp, id. cbn. now rewrite decide_True.
Qed.

Lemma no_hook_threw evs :
  (forall cp, hookCalls cp evs = []) -> List.filter hookThrew evs = [].
Proof.
  intros Hnone. apply filter_none. intros ev Hin.
  destruct (hookThrew ev) eqn:Hthrew; [| reflexivity]. exfalso.
  destruct (hookThrew_hookCall ev Hthrew) as (cp & id & Hcall).
  specialize (Hnone cp). unfold hookCalls in Hnone.
  assert (Hid : id ∈ omap (hookCall cp) evs).
  { apply list_elem_of_omap. exists ev. split; [now apply list_elem_of_In | exact Hcall]. }
  rewrite Hnone in Hid. now apply not_elem_of_nil in Hid.
Qed.

Lemma settingsAfterLoad_defaults d :
  settingsAfterLoad None (defaultSettingsFor d) = defaultSettingsFor d /\
  forall dist,
    settingsAfterLoad None (DefaultSettings.setDistDir (defaultSettingsFor d) dist)
    = DefaultSettings.setDistDir (defaultSettingsFor d) dist.
Proof.
  assert (Hone : dedupSrcDir [d +:+ "/src"] = [d +:+ "/src"]).
  { apply dedupSrcDir_fixpoint. intros a [<- | []] (b & [<- | []] & Hne & _). congruence. }
  unfold settingsAfterLoad, settingsWithFile, DefaultSettings.setSrcDir,
    DefaultSettings.setDistDir, defaultSettingsFor.
  cbn -[dedupSrcDir]. rewrite Hone. split; reflexivity.
Qed.

End NoPlugins.

(** X20. Without a settings file the defaults are used, and no plugin is
    ever called: when [loadFile] finds no file, the settings [magic]
    works with are the defaults of the directory (with the temporary
    output directory in a watch session), their plugin list is empty,
    and the run calls no hook at any checkpoint and prints no warning,
    whatever the action. *)
Theorem without_a_settings_file_the_defaults_are_used
    {World : Type} {FU : FileUtil World} {DM : Dom World} {PF : Platform}
    (plugin : PluginId -> Plugin.t World) (args : Args.t) (m : Machine.t World) :
  (loadFile (dirnameFor args (Machine.dirname m) +:+ "/" +:+ "spear.config" +:+
             ".?(mjs|js|json)")
     (Mem.world (Machine.mem m))).1 = Normal None ->
  currentSettings (machineOf (loadSettings plugin (machineOf (magicPrepare args m))))
  = (if String.eqb (Args.action args) "watch"
     then DefaultSettings.setDistDir
            (defaultSettingsFor (dirnameFor args (Machine.dirname m)))
            (path_resolve [dirnameFor args (Machine.dirname m);
                           "node_modules"; "spear-cli"; "tmpBuild"])
     else defaultSettingsFor (dirnameFor args (Machine.dirname m))) /\
  (forall cp, hookCalls cp (eventsOf (magic plugin args m)) = []) /\
  List.filter isConsoleWarn (eventsOf (magic plugin args m)) = [].
Proof.
  intros Hfile. rewrite <- settingsFileOutcome_magicPrepare in Hfile.
  destruct (magicPrepare_run args m) as (_ & _ & _ & _ & _ & _ & Hs0).
  set (d := dirnameFor args (Machine.dirname m)) in *.
  set (m0 := machineOf (magicPrepare args m)) in *.
  destruct (loadSettingsPrologue_normal m0 None Hfile) as (Hres & Hev & _ & Hs1 & _).
  destruct (settingsAfterLoad_defaults d) as [Hplain Hwatch].
  assert (Hs1' : currentSettings (machineOf (loadSettingsPrologue m0)) = currentSettings m0).
  { rewrite Hs1, Hs0. destruct (String.eqb _ _); [apply Hwatch | apply Hplain]. }
  assert (Hnone : DefaultSettings.plugins (currentSettings m0) = []).
  { rewrite Hs0. now destruct (String.eqb _ _). }
  assert (Hload : loadSettings plugin m0 = loadSettingsPrologue m0).
  { unfold loadSettings. destruct (loadSettingsPrologue m0) as [[r m1] evs] eqn:Hrun.
    cbn in Hres, Hs1'. subst r.
    rewrite (run_bind_prefixed _ _ m0 tt m1 evs Hrun). rewrite run_bind.
    cbn [readSettings]. rewrite Hs1', Hnone. unfold prefixed. cbn.
    now rewrite app_nil_r. }
  assert (Hcalls : forall cp, hookCalls cp (eventsOf (magic plugin args m)) = []).
  { intros cp. pose proof (magic_events plugin args m) as He. cbn zeta in He.
    fold m0 in He. rewrite Hload, Hres, Hev in He. rewrite He, hookCalls_app.
    change (hookCalls cp [EvLoadFile (settingsFilePattern m0) (Normal None)])
      with (@nil PluginId).
    cbn [app]. set (m1 := machineOf (loadSettingsPrologue m0)) in *.
    unfold magicAfterLoad. destruct (String.eqb (Args.action args) "watch") eqn:Haction.
    - apply String.eqb_eq in Haction.
      pose proof (magicAfterLoad_watch plugin args m1 Haction) as Hafter. cbn zeta in Hafter.
      unfold magicAfterLoad in Hafter. rewrite Haction, String.eqb_refl in Hafter.
      rewrite Hafter.
      assert (Hpass : hookCalls cp
                        (eventsOf (bundle plugin (machineOf (magicPort args m1)))) = []).
      { apply bundle_without_plugins. rewrite currentSettings_magicPort.
        destruct (Js.truthyNumber _); cbn; now rewrite Hs1'. }
      destruct (resultOf (bundle plugin (machineOf (magicPort args m1)))); cbn [eventsOf snd].
      + rewrite hookCalls_app, Hpass. reflexivity.
      + exact Hpass.
    - destruct (String.eqb (Args.action args) "build"); [| reflexivity].
      apply bundle_without_plugins. now rewrite Hs1'. }
  split; [now rewrite Hload, Hs1', Hs0 |]. split; [exact Hcalls |].
  pose proof (Warned_count plugin _ (Warned_magic plugin args m)) as Hcount.
  rewrite (no_hook_threw _ Hcalls) in Hcount.
  now destruct (List.filter isConsoleWarn (eventsOf (magic plugin args m))).
Qed.

Lemma without_a_settings_file_the_defaults_are_used_witness :
  currentSettings
    (machineOf (loadSettings (FU := FixtureMore.noSettingsFile) Fixture.plugin
                  (machineOf (magicPrepare Fixture.build Fixture.start))))
  = defaultSettingsFor "/proj" /\
  resultOf (magic (FU := FixtureMore.noSettingsFile) Fixture.plugin Fixture.build
              Fixture.start)
  = Normal true.
Proof.
  split; [| vm_compute; reflexivity].
  destruct (without_a_settings_file_the_defaults_are_used
              (FU := FixtureMore.noSettingsFile) Fixture.plugin Fixture.build Fixture.start)
    as [Hs _].
  - vm_compute. reflexivity.
  - exact Hs.
Defined.

(** * The stages of a pass *)

(** ** The pass up to the end of parsing *)

Section PassStages.
Context {World : Type} {FU : FileUtil World} {DM : Dom World} {PF : Platform}.
Variable plugin : PluginId -> Plugin.t World.

Lemma bundleInit_run (m : Machine.t World) :
  bundleInit m
  = (Normal (fresh (dom (Mem.stateObjs (Machine.mem m))), generatorOf (currentSettings m)),
     Machine.setJsGenerator
       (Machine.setMem m
          (Mem.setStateObjs (Machine.mem m)
             (<[fresh (dom (Mem.stateObjs (Machine.mem m))) := emptyState]>
                (Mem.stateObjs (Machine.mem m)))))
       (generatorOf (currentSettings m)),
     []).
Proof. reflexivity. Qed.

Lemma currentSettings_bundleInit (m : Machine.t World) :
  currentSettings (machineOf (bundleInit m)) = currentSettings m.
Proof. reflexivity. Qed.

Lemma bind_ext {A B} (c : M World A) (k k' : A -> M World B) (m : Machine.t World) :
  (forall a m1, k a m1 = k' a m1) -> (c ≫= k) m = (c ≫= k') m.
Proof.
  intros H. unfold mbind, M_bind. destruct (c m) as [[[a|e] m1] ev1]; [| reflexivity].
  now rewrite H.
Qed.

Lemma ret_bind {A B} (a : A) (k : A -> M World B) (m : Machine.t World) :
  (mret a ≫= k) m = k a m.
Proof.
  unfold mbind, M_bind, mret, M_ret. destruct (k a m) as [[r m2] ev2]. reflexivity.
Qed.

(** [bundle], stage by stage. *)
Lemma bundle_stages (m : Machine.t World) :
  bundle plugin m
  = (p ← bundleInit; state ← bundleBefore plugin p.1; bundleParse plugin state p.2) m.
Proof.
  unfold bundle, bundleFrom, bundleInit, bundleBefore.
  rewrite bind_assoc. apply bind_ext. intros state m1.
  rewrite bind_assoc. apply bind_ext. intros gen m2.
  rewrite ret_bind. cbn [fst snd].
  rewrite bind_assoc. apply bind_ext. intros s m3.
  rewrite bind_assoc. apply bind_ext. intros state1 m4.
  rewrite bind_assoc. apply bind_ext. intros [] m5.
  now rewrite ret_bind.
Qed.

(** The two parse loops as one computation. *)
Lemma bundleParse_stages state gen (m : Machine.t World) :
  bundleParse plugin state gen m
  = match resultOf (parseDirectories state m) with
    | Normal _ =>
        prefixed (eventsOf (parseDirectories state m))
          (bundleAfterParse plugin state gen (machineOf (parseDirectories state m)))
    | Throw e =>
        (Normal false, machineOf (parseDirectories state m),
         eventsOf (parseDirectories state m) ++ [EvLoggerError e])
    end.
Proof.
  unfold bundleParse, parseDirectories.
  set (c1 := s ← readSettings;
             forEach (DefaultSettings.componentsFolder s) (callParseComponents state)).
  set (c2 := s ← readSettings;
             forEach (DefaultSettings.srcDir s) (callParsePages state)).
  rewrite !run_bind, run_attempt.
  destruct (c1 m) as [[[[]|e1] m1] ev1]; cbn [resultOf machineOf eventsOf fst snd].
  - rewrite !run_bind, run_attempt.
    destruct (c2 m1) as [[[[]|e2] m2] ev2]; cbn [resultOf machineOf eventsOf fst snd].
    + unfold prefixed. destruct (bundleAfterParse plugin state gen m2) as [[r m3] ev3].
      cbn. now rewrite app_assoc.
    + cbn. now rewrite <- ?app_assoc.
  - reflexivity.
Qed.

Lemma callCreateDir_exact (m : Machine.t World) :
  exists created w,
    callCreateDir m
    = (created, Machine.setMem m (Mem.setWorld (Machine.mem m) w), [EvCreateDir created]).
Proof.
  unfold callCreateDir.
  rewrite (run_bind_silent_normal _ _ m (currentSettings m) m eq_refl).
  unfold onWorld. destruct (createDir _ _) as [r w]. now exists r, w.
Qed.

(** The beforeBuild hooks and the output directory. *)
Lemma bundleBefore_run state (m : Machine.t World) :
  let hooks := runStateHooks plugin BeforeBuild
                 (DefaultSettings.plugins (currentSettings m)) state m in
  exists state1 created w,
    resultOf hooks = Normal state1 /\
    bundleBefore plugin state m
    = (match created with
       | Normal _ => Normal state1
       | Throw e => Throw e
       end,
       Machine.setMem (machineOf hooks) (Mem.setWorld (Machine.mem (machineOf hooks)) w),
       eventsOf hooks ++ [EvCreateDir created]).
Proof.
  intros hooks. unfold bundleBefore.
  rewrite (run_bind_silent_normal _ _ m (currentSettings m) m eq_refl).
  rewrite run_bind. fold hooks.
  destruct (runStateHooks_normal plugin BeforeBuild
              (DefaultSettings.plugins (currentSettings m)) state m) as [state1 Hres].
  fold hooks in Hres. exists state1.
  destruct hooks as [[r mB] evB]. cbn in Hres. subst r.
  destruct (callCreateDir_exact mB) as (created & w & Hcreate).
  exists created, w. split; [reflexivity |].
  rewrite run_bind, Hcreate.
  destruct created as [[]|e]; reflexivity.
Qed.

(** A pass up to the end of parsing, and the pass itself. *)
Lemma bundleParsed_run (m : Machine.t World) :
  let state0 := fresh (dom (Mem.stateObjs (Machine.mem m))) in
  let gen := generatorOf (currentSettings m) in
  let hooks := runStateHooks plugin BeforeBuild
                 (DefaultSettings.plugins (currentSettings m)) state0
                 (machineOf (bundleInit m)) in
  exists state1 (created : Completion unit) w,
    resultOf hooks = Normal state1 /\
    let mD := Machine.setMem (machineOf hooks)
                (Mem.setWorld (Machine.mem (machineOf hooks)) w) in
    match created with
    | Throw e =>
        bundleParsed plugin m = (Throw e, mD, eventsOf hooks ++ [EvCreateDir (Throw e)]) /\
        bundle plugin m = (Throw e, mD, eventsOf hooks ++ [EvCreateDir (Throw e)])
    | Normal _ =>
        bundleParsed plugin m
        = (match resultOf (parseDirectories state1 mD) with
           | Normal _ => Normal (state1, gen)
           | Throw e => Throw e
           end,
           machineOf (parseDirectories state1 mD),
           eventsOf hooks ++ EvCreateDir (Normal tt) :: eventsOf (parseDirectories state1 mD)) /\
        bundle plugin m
        = prefixed (eventsOf hooks ++ [EvCreateDir (Normal tt)])
            (bundleParse plugin state1 gen mD)
    end.
Proof.
  intros state0 gen hooks.
  destruct (bundleBefore_run state0 (machineOf (bundleInit m)))
    as (state1 & created & w & Hres & Hbefore).
  rewrite currentSettings_bundleInit in Hbefore, Hres. fold hooks in Hbefore, Hres.
  exists state1, created, w. split; [exact Hres |]. cbn zeta.
  rewrite bundle_stages. unfold bundleParsed.
  rewrite !(run_bind_silent_normal _ _ m _ _ (bundleInit_run m)).
  cbn [fst snd]. fold state0 gen.
  change (Machine.setJsGenerator _ gen) with (machineOf (bundleInit m)).
  rewrite !(run_bind (bundleBefore plugin state0)), Hbefore.
  destruct created as [[]|e]; [| split; reflexivity].
  split.
  - rewrite run_bind.
    destruct (parseDirectories state1 _) as [[[[]|e] mP] evP];
      cbn; rewrite ?app_nil_r, <- ?app_assoc; reflexivity.
  - unfold prefixed. destruct (bundleParse plugin state1 gen _) as [[r m3] ev3].
    reflexivity.
Qed.

(** The resolution step: the resolver calls, then the alias generation,
    which is its only call that is no resolver call. *)
Lemma bundleResolve_outcome state gen (m : Machine.t World) :
  exists evR,
    within 6 6 evR /\
    ((exists e,
        resultOf (bundleResolve state gen m) = Throw e /\
        eventsOf (bundleResolve state gen m) = evR) \/
     (exists outcome : Completion (list Page.t),
        eventsOf (bundleResolve state gen m) = evR ++ [EvGenerateAliasPages outcome] /\
        resultOf (bundleResolve state gen m)
        = match outcome with
          | Normal _ => Normal tt
          | Throw e => Throw e
          end)).
Proof.
  set (pre := (s ← readState state;
               componentsList ← resolveComponents state gen (State.componentsList s) [];
               s ← readState state;
               writeState state (State.setComponentsList s componentsList);;
               s ← readState state;
               forEach (seq 0 (length (State.pagesList s))) (resolvePage state gen))
              : M World unit).
  assert (Hsplit : bundleResolve state gen m
                   = (pre;; pages ← callGenerateAliasPages state gen;
                      s ← readState state;
                      writeState state (State.setPagesList s pages)) m).
  { unfold bundleResolve, pre.
    rewrite bind_assoc. apply bind_ext. intros s1 m1.
    rewrite bind_assoc. apply bind_ext. intros comps m2.
    rewrite bind_assoc. apply bind_ext. intros s2 m3.
    rewrite bind_assoc. apply bind_ext. intros [] m4.
    rewrite bind_assoc. apply bind_ext. intros s3 m5.
    reflexivity. }
  assert (Hpre : runsWithin 6 6 pre).
  { unfold pre. apply runsWithin_bind_silent; [solve_silent | intros s1].
    apply (runsWithin_bind 6 6 6); [apply runsWithin_resolveComponents | | lia].
    intros comps. apply runsWithin_bind_silent; [solve_silent | intros s2].
    apply runsWithin_bind_silent; [solve_silent | intros []].
    apply runsWithin_bind_silent; [solve_silent | intros s3].
    apply runsWithin_forEach. intros i. apply runsWithin_resolvePage. }
  rewrite Hsplit. exists (eventsOf (pre m)). split; [apply Hpre |].
  rewrite result_bind, events_bind.
  destruct (pre m) as [[[[]|e] m1] ev1]; cbn [resultOf machineOf eventsOf fst snd].
  - right. destruct (callGenerateAliasPages_run state gen m1) as (outcome & w & Halias).
    exists outcome. rewrite result_bind, events_bind, Halias.
    cbn [resultOf machineOf eventsOf fst snd].
    destruct outcome as [pages|e]; [| split; reflexivity].
    split; [now rewrite app_nil_r | reflexivity].
  - left. now exists e.
Qed.

Lemma bundleFinish_outcome state (m : Machine.t World) :
  let hooksA := runStateHooks plugin AfterBuild
                  (DefaultSettings.plugins (currentSettings m)) state m in
  exists state2 (dumped : Completion unit) w,
    resultOf hooksA = Normal state2 /\
    let mD := Machine.setMem (machineOf hooksA)
                (Mem.setWorld (Machine.mem (machineOf hooksA)) w) in
    match dumped with
    | Throw e =>
        bundleFinish plugin state m
        = (Throw e, mD, eventsOf hooksA ++ [EvDumpPages state2 (Throw e)])
    | Normal _ =>
        let hooksL := runStateHooks plugin Bundle
                        (DefaultSettings.plugins (currentSettings mD)) state2 mD in
        bundleFinish plugin state m
        = (Normal true, machineOf hooksL,
           eventsOf hooksA ++ EvDumpPages state2 (Normal tt) :: eventsOf hooksL)
    end.
Proof.
  intros hooksA. unfold bundleFinish.
  rewrite (run_bind_silent_normal _ _ m (currentSettings m) m eq_refl).
  rewrite run_bind. fold hooksA.
  destruct (runStateHooks_normal plugin AfterBuild
              (DefaultSettings.plugins (currentSettings m)) state m) as [state2 Hres].
  fold hooksA in Hres. exists state2.
  destruct hooksA as [[r mA] evA]. cbn in Hres. subst r.
  destruct (callDumpPages_run state2 mA) as (dumped & w & Hdump).
  exists dumped, w. split; [reflexivity |]. cbn zeta.
  cbn [resultOf machineOf eventsOf fst snd].
  rewrite run_bind, Hdump.
  destruct dumped as [[]|e]; [| reflexivity].
  set (mD := Machine.setMem mA _).
  rewrite (run_bind_silent_normal _ _ mD (currentSettings mD) mD eq_refl).
  rewrite run_bind.
  destruct (runStateHooks_normal plugin Bundle
              (DefaultSettings.plugins (currentSettings mD)) state2 mD) as [state3 Hres3].
  destruct (runStateHooks plugin Bundle _ state2 mD) as [[r mL] evL].
  cbn in Hres3. subst r. cbn. now rewrite app_nil_r.
Qed.

End PassStages.

(** ** The hook loops *)

Section HookRuns.
Context {World : Type} {FU : FileUtil World} {DM : Dom World} {PF : Platform}.
Variable plugin : PluginId -> Plugin.t World.

Lemma hasHook_slot cp id :
  hasHook plugin cp id = true <-> exists hook, hookSlot cp (plugin id) = Some hook.
Proof.
  unfold hasHook. destruct (hookSlot cp (plugin id)) as [hook|].
  - split; [intros _; now exists hook | reflexivity].
  - split; [discriminate | intros [hook H]; discriminate].
Qed.

Lemma HookRun_prefixed cp id rest state (m : Machine.t World) state' m' evs final :
  stateHookStep plugin cp id state m = (Normal state', m', evs) ->
  (forall evs', HookRun plugin cp rest state' evs' final ->
                HookRun plugin cp (id :: rest) state (evs ++ evs') final) ->
  resultOf (runStateHooks plugin cp rest state' m') = Normal final ->
  HookRun plugin cp rest state' (eventsOf (runStateHooks plugin cp rest state' m')) final ->
  resultOf (runStateHooks plugin cp (id :: rest) state m) = Normal final /\
  HookRun plugin cp (id :: rest) state
    (eventsOf (runStateHooks plugin cp (id :: rest) state m)) final.
Proof.
  intros Hstep Hcons Hres Hrun.
  rewrite (runStateHooks_cons plugin cp id rest _ _ _ _ _ Hstep). unfold prefixed.
  cbn [resultOf machineOf eventsOf fst snd]. split; [exact Hres |]. now apply Hcons.
Qed.

(** A loop over the plugin list is a [HookRun]. *)
Lemma HookRun_runStateHooks cp plugins :
  forall state (m : Machine.t World),
  exists final,
    resultOf (runStateHooks plugin cp plugins state m) = Normal final /\
    HookRun plugin cp plugins state (eventsOf (runStateHooks plugin cp plugins state m)) final.
Proof.
  induction plugins as [|id rest IH]; intros state m.
  - exists state. split; [reflexivity | constructor].
  - destruct (hookSlot cp (plugin id)) as [hook|] eqn:Hslot.
    + assert (Hhas : hasHook plugin cp id = true) by (apply hasHook_slot; eauto).
      destruct (hook state (Machine.mem m)) as [[[returned|]|e] mem'] eqn:Hrun.
      * pose proof (stateHookStep_truthy plugin cp id hook state m returned mem' Hslot Hrun)
          as Hstep.
        destruct (IH (fresh (dom (Mem.stateObjs mem')))
                    (Machine.setMem m
                       (Mem.setStateObjs mem'
                          (<[fresh (dom (Mem.stateObjs mem')) :=
                               Mem.stateObjs mem' !!! returned]> (Mem.stateObjs mem')))))
          as (final & Hres & Hloop).
        exists final. eapply HookRun_prefixed; eauto.
        intros evs' H. cbn [app]. eapply HookRun_replaced; eauto.
      * pose proof (stateHookStep_falsy plugin cp id hook state m mem' Hslot Hrun) as Hstep.
        destruct (IH state (Machine.setMem m mem')) as (final & Hres & Hloop).
        exists final. eapply HookRun_prefixed; eauto.
        intros evs' H. cbn [app]. now apply HookRun_nothing.
      * pose proof (stateHookStep_throw plugin cp id hook state m e mem' Hslot Hrun) as Hstep.
        destruct (IH state (Machine.setMem m mem')) as (final & Hres & Hloop).
        exists final. eapply HookRun_prefixed; eauto.
        intros evs' H. now apply HookRun_threw.
    + assert (Hhas : hasHook plugin cp id = false) by (unfold hasHook; now rewrite Hslot).
      pose proof (stateHookStep_absent plugin cp id state m Hslot) as Hstep.
      destruct (IH state m) as (final & Hres & Hloop).
      exists final. eapply HookRun_prefixed; eauto.
      intros evs' H. cbn [app]. now apply HookRun_absent.
Qed.

(** The configuration loop is a [HookRun] on the variable [Settings]. *)
Lemma HookRun_runConfigurationHooks plugins :
  forall m : Machine.t World,
  resultOf (runConfigurationHooks plugin plugins m) = Normal tt /\
  HookRun plugin Configuration plugins (Machine.Settings m)
    (eventsOf (runConfigurationHooks plugin plugins m))
    (Machine.Settings (machineOf (runConfigurationHooks plugin plugins m))).
Proof.
  induction plugins as [|id rest IH]; intros m.
  - split; [reflexivity | constructor].
  - assert (Hgo : forall m' evs,
              configurationHookStep plugin id m = (Normal tt, m', evs) ->
              (forall evs' final,
                 HookRun plugin Configuration rest (Machine.Settings m') evs' final ->
                 HookRun plugin Configuration (id :: rest) (Machine.Settings m)
                   (evs ++ evs') final) ->
              resultOf (runConfigurationHooks plugin (id :: rest) m) = Normal tt /\
              HookRun plugin Configuration (id :: rest) (Machine.Settings m)
                (eventsOf (runConfigurationHooks plugin (id :: rest) m))
                (Machine.Settings (machineOf (runConfigurationHooks plugin (id :: rest) m)))).
    { intros m' evs Hstep Hcons.
      rewrite (runConfigurationHooks_cons plugin id rest _ _ _ Hstep). unfold prefixed.
      cbn [resultOf machineOf eventsOf fst snd].
      destruct (IH m') as (Hres & Hloop). split; [exact Hres |]. now apply Hcons. }
    destruct (hookSlot Configuration (plugin id)) as [hook|] eqn:Hslot.
    + assert (Hhas : hasHook plugin Configuration id = true) by (apply hasHook_slot; eauto).
      destruct (hook (Machine.Settings m) (Machine.mem m)) as [[[returned|]|e] mem'] eqn:Hrun.
      * eapply Hgo;
          [exact (configurationHookStep_truthy plugin id hook m returned mem' Hslot Hrun) |].
        intros evs' final H. cbn [app]. eapply HookRun_replaced; eauto.
      * eapply Hgo;
          [exact (configurationHookStep_falsy plugin id hook m mem' Hslot Hrun) |].
        intros evs' final H. cbn [app]. now apply HookRun_nothing.
      * eapply Hgo;
          [exact (configurationHookStep_throw plugin id hook m e mem' Hslot Hrun) |].
        intros evs' final H. now apply HookRun_threw.
    + assert (Hhas : hasHook plugin Configuration id = false)
        by (unfold hasHook; now rewrite Hslot).
      eapply Hgo.
      * unfold configurationHookStep. rewrite Hslot. reflexivity.
      * intros evs' final H. cbn [app]. now apply HookRun_absent.
Qed.




End HookRuns.

(** ** The plugin list during a pass *)

Section PluginLists.
Context {World : Type} {FU : FileUtil World} {DM : Dom World} {PF : Platform}.
Variable plugin : PluginId -> Plugin.t World.

Lemma keepsPluginLists_refl (mem : Mem.t World) : keepsPluginLists mem mem.
Proof. intros l s H. now exists s. Qed.

Lemma keepsPluginLists_trans (mem1 mem2 mem3 : Mem.t World) :
  keepsPluginLists mem1 mem2 -> keepsPluginLists mem2 mem3 -> keepsPluginLists mem1 mem3.
Proof.
  intros H12 H23 l s Hl. destruct (H12 l s Hl) as (s2 & Hl2 & Hp2).
  destruct (H23 l s2 Hl2) as (s3 & Hl3 & Hp3). exists s3. split; [exact Hl3 | congruence].
Qed.

Lemma keepsPluginLists_world (mem : Mem.t World) w : keepsPluginLists mem (Mem.setWorld mem w).
Proof. intros l s H. now exists s. Qed.

Lemma keepsPluginLists_state (mem : Mem.t World) objs :
  keepsPluginLists mem (Mem.setStateObjs mem objs).
Proof. intros l s H. now exists s. Qed.

Lemma samePluginList_refl (m : Machine.t World) : samePluginList m m.
Proof. split; [reflexivity | apply keepsPluginLists_refl]. Qed.

Lemma samePluginList_trans (m1 m2 m3 : Machine.t World) :
  samePluginList m1 m2 -> samePluginList m2 m3 -> samePluginList m1 m3.
Proof.
  intros [Hs12 Hk12] [Hs23 Hk23]. split; [congruence |].
  eapply keepsPluginLists_trans; eassumption.
Qed.

Lemma samePluginList_framed (m m' : Machine.t World) :
  framed keepsPluginLists m m' -> samePluginList m m'.
Proof. intros (_ & Hs & _ & Hk). now split. Qed.

Lemma samePluginList_plugins (m m' : Machine.t World) :
  samePluginList m m' -> settingsAssigned m ->
  settingsAssigned m' /\
  DefaultSettings.plugins (currentSettings m') = DefaultSettings.plugins (currentSettings m).
Proof.
  intros [Hs Hk] Ha. unfold settingsAssigned in *.
  apply elem_of_dom in Ha as [s Hl]. destruct (Hk _ _ Hl) as (s' & Hl' & Hp).
  rewrite Hs. split; [apply elem_of_dom; now exists s' |].
  unfold currentSettings, settingsAt. rewrite Hs.
  now rewrite (lookup_total_correct _ _ _ Hl), (lookup_total_correct _ _ _ Hl').
Qed.

Hypothesis hooks_keep : hooksKeepPluginLists plugin.

Lemma samePluginList_runStateHooks cp plugins state (m : Machine.t World) :
  cp <> Configuration ->
  samePluginList m (machineOf (runStateHooks plugin cp plugins state m)).
Proof.
  intros Hcp. apply samePluginList_framed.
  apply (keeps_runStateHooks plugin keepsPluginLists keepsPluginLists_refl
           keepsPluginLists_trans keepsPluginLists_state); [| exact Hcp].
  intros cp' id hook arg mem _ Hslot. exact (hooks_keep cp' id hook arg mem Hslot).
Qed.

Lemma runsWithin_parseDirectories state :
  runsWithin 4 5 (parseDirectories (World := World) state).
Proof.
  unfold parseDirectories.
  apply (runsWithin_bind 4 4 5); [apply runsWithin_parseComponentsLoop | | lia].
  intros _. eapply runsWithin_weaken; [apply runsWithin_parsePagesLoop | lia | lia].
Qed.

Lemma samePluginList_parseDirectories state (m : Machine.t World) :
  samePluginList m (machineOf (parseDirectories state m)).
Proof.
  apply samePluginList_framed. unfold parseDirectories.
  apply (keeps_bind keepsPluginLists keepsPluginLists_trans).
  - apply (keeps_parseComponentsLoop keepsPluginLists keepsPluginLists_refl
             keepsPluginLists_trans keepsPluginLists_world keepsPluginLists_state).
  - intros _.
    apply (keeps_parsePagesLoop keepsPluginLists keepsPluginLists_refl
             keepsPluginLists_trans keepsPluginLists_world keepsPluginLists_state).
Qed.

Lemma samePluginList_bundleResolve state gen (m : Machine.t World) :
  samePluginList m (machineOf (bundleResolve state gen m)).
Proof.
  apply samePluginList_framed.
  apply (keeps_bundleResolve keepsPluginLists keepsPluginLists_refl
           keepsPluginLists_trans keepsPluginLists_world keepsPluginLists_state).
Qed.

Lemma samePluginList_setWorld (m : Machine.t World) w :
  samePluginList m (Machine.setMem m (Mem.setWorld (Machine.mem m) w)).
Proof. split; [reflexivity | apply keepsPluginLists_world]. Qed.

Lemma filter_nil_Forall {A} (f : A -> bool) (l : list A) :
  List.filter f l = [] -> Forall (fun x => f x = false) l.
Proof.
  induction l as [|x l IH]; [constructor |]. cbn [List.filter].
  destruct (f x) eqn:Hx; [discriminate |]. intros H. constructor; auto.
Qed.

Lemma noAliasPages_within lo hi evs :
  within lo hi evs -> ~ (lo <= 7 <= hi) ->
  Forall (fun ev => aliasPagesReturned ev = false) evs.
Proof.
  intros Hw Hout. apply filter_nil_Forall.
  apply (none_at_rank aliasPagesReturned 7 lo hi evs); [| exact Hw | exact Hout].
  intros [] H; try discriminate. reflexivity.
Qed.


(** The afterBuild and bundle loops of a pass, from the parse loops on. *)
Lemma bundleParse_loops state gen (m : Machine.t World) :
  settingsAssigned m ->
  let run := bundleParse plugin state gen m in
  let plugins := DefaultSettings.plugins (currentSettings m) in
  (within 4 7 (eventsOf run) /\
   Forall (fun ev => aliasPagesReturned ev = false) (eventsOf run) /\
   resultOf run <> Normal true)
  \/
  (exists evR aliased evA state2 dumped evL,
     eventsOf run = evR ++ EvGenerateAliasPages (Normal aliased) :: evA
                        ++ EvDumpPages state2 dumped :: evL /\
     within 4 6 evR /\
     HookRun plugin AfterBuild plugins state evA state2 /\
     match dumped with
     | Normal _ =>
         resultOf run = Normal true /\
         exists state3, HookRun plugin Bundle plugins state2 evL state3
     | Throw e => resultOf run = Throw e /\ evL = []
     end).
Proof.
  intros Hassigned run plugins. subst run. rewrite bundleParse_stages.
  pose proof (runsWithin_parseDirectories state m) as HwP.
  pose proof (samePluginList_parseDirectories state m) as HsP.
  destruct (parseDirectories state m) as [[[[]|e] mP] evP];
    cbn [resultOf machineOf eventsOf fst snd] in *.
  2:{ left. split; [| split; [| discriminate]].
      - apply (within_app 4 5 7); [exact HwP | now apply within_unranked | lia].
      - apply Forall_app. split; [| repeat constructor].
        apply (noAliasPages_within 4 5); [exact HwP | lia]. }
  unfold prefixed, bundleAfterParse. rewrite result_bind, events_bind.
  cbn [resultOf machineOf eventsOf fst snd].
  pose proof (samePluginList_bundleResolve state gen mP) as HsR.
  destruct (bundleResolve_outcome state gen mP)
    as (evR & HwR & [(e & Hres & Hev) | (outcome & Hev & Hres)]).
  { left. rewrite Hres, Hev. split; [| split; [| discriminate]].
    - apply (within_app 4 5 7); [exact HwP | | lia].
      eapply within_weaken; [exact HwR | lia | lia].
    - apply Forall_app. split.
      + apply (noAliasPages_within 4 5); [exact HwP | lia].
      + apply (noAliasPages_within 6 6); [exact HwR | lia]. }
  destruct outcome as [aliased|e].
  2:{ left. rewrite Hres, Hev. split; [| split; [| discriminate]].
      - apply (within_app 4 5 7); [exact HwP | | lia].
        apply (within_app 5 6 7); [eapply within_weaken; [exact HwR | lia | lia] | | lia].
        apply (within_ranked _ _ _ 7); [reflexivity | lia].
      - apply Forall_app. split; [apply (noAliasPages_within 4 5); [exact HwP | lia] |].
        apply Forall_app. split; [apply (noAliasPages_within 6 6); [exact HwR | lia] |].
        repeat constructor. }
  right. rewrite Hres, Hev.
  set (mR := machineOf (bundleResolve state gen mP)) in *.
  assert (HsmR : samePluginList m mR) by (eapply samePluginList_trans; eassumption).
  destruct (samePluginList_plugins m mR HsmR Hassigned) as (HaR & HpR).
  destruct (bundleFinish_outcome plugin state mR)
    as (state2 & dumped & w & HresA & Hfinish).
  cbn zeta in Hfinish. rewrite HpR in HresA, Hfinish. fold plugins in HresA, Hfinish.
  destruct (HookRun_runStateHooks plugin AfterBuild plugins state mR)
    as (state2' & HresA' & HrunA).
  rewrite HresA in HresA'. injection HresA' as <-.
  pose proof (samePluginList_runStateHooks AfterBuild plugins state mR
                ltac:(discriminate)) as HsA.
  set (hooksA := runStateHooks plugin AfterBuild plugins state mR) in *.
  exists (evP ++ evR), aliased, (eventsOf hooksA), state2, dumped.
  assert (HwPR : within 4 6 (evP ++ evR)).
  { apply (within_app 4 5 6); [exact HwP | | lia].
    eapply within_weaken; [exact HwR | lia | lia]. }
  destruct dumped as [[]|e].
  - set (mD := Machine.setMem (machineOf hooksA) _) in *.
    assert (HsmD : samePluginList m mD).
    { eapply samePluginList_trans; [exact HsmR |].
      eapply samePluginList_trans; [exact HsA |]. apply samePluginList_setWorld. }
    destruct (samePluginList_plugins m mD HsmD Hassigned) as (HaD & HpD).
    rewrite HpD in Hfinish. fold plugins in Hfinish.
    destruct (HookRun_runStateHooks plugin Bundle plugins state2 mD)
      as (state3 & HresL & HrunL).
    exists (eventsOf (runStateHooks plugin Bundle plugins state2 mD)).
    rewrite Hfinish. cbn [resultOf machineOf eventsOf fst snd].
    split; [now rewrite <- !app_assoc |].
    split; [exact HwPR |]. split; [exact HrunA |].
    split; [reflexivity |]. now exists state3.
  - exists []. rewrite Hfinish. cbn [resultOf machineOf eventsOf fst snd].
    split; [now rewrite <- !app_assoc |].
    split; [exact HwPR |]. split; [exact HrunA |]. split; reflexivity.
Qed.

(** The three hook loops of a pass. *)
Lemma bundle_hookLoops (m : Machine.t World) :
  settingsAssigned m ->
  hookLoopsOfAPass plugin (DefaultSettings.plugins (currentSettings m))
    (fresh (dom (Mem.stateObjs (Machine.mem m))))
    (resultOf (bundle plugin m)) (eventsOf (bundle plugin m)).
Proof.
  intros Hassigned.
  destruct (bundleParsed_run plugin m) as (state1 & created & w & Hres & H).
  cbn zeta in H.
  set (state0 := fresh (dom (Mem.stateObjs (Machine.mem m)))) in *.
  set (plugins := DefaultSettings.plugins (currentSettings m)) in *.
  destruct (HookRun_runStateHooks plugin BeforeBuild plugins state0 (machineOf (bundleInit m)))
    as (state1' & Hres' & HrunB).
  rewrite Hres in Hres'. injection Hres' as <-.
  pose proof (samePluginList_runStateHooks BeforeBuild plugins state0
                (machineOf (bundleInit m)) ltac:(discriminate)) as HsB.
  set (hooksB := runStateHooks plugin BeforeBuild plugins state0 (machineOf (bundleInit m)))
    in *.
  assert (Hs0 : samePluginList m (machineOf (bundleInit m))).
  { split; [reflexivity |]. rewrite bundleInit_run. apply keepsPluginLists_state. }
  exists (eventsOf hooksB), state1, created.
  destruct created as [[]|e].
  - destruct H as [_ Hbundle]. rewrite Hbundle. unfold prefixed.
    cbn [resultOf machineOf eventsOf fst snd].
    set (mD := Machine.setMem (machineOf hooksB) _) in *.
    exists (eventsOf (bundleParse plugin state1 (generatorOf (currentSettings m)) mD)).
    split; [now rewrite <- app_assoc |]. split; [exact HrunB |].
    assert (HsmD : samePluginList m mD).
    { eapply samePluginList_trans; [exact Hs0 |].
      eapply samePluginList_trans; [exact HsB |]. apply samePluginList_setWorld. }
    destruct (samePluginList_plugins m mD HsmD Hassigned) as (HaD & HpD).
    pose proof (bundleParse_loops state1 (generatorOf (currentSettings m)) mD HaD) as Hloops.
    cbn zeta in Hloops. rewrite HpD in Hloops. exact Hloops.
  - destruct H as [_ Hbundle]. rewrite Hbundle. cbn [resultOf machineOf eventsOf fst snd].
    exists []. split; [reflexivity |]. split; [exact HrunB |].
    left. split; [apply within_nil |]. split; [constructor | discriminate].
Qed.

End PluginLists.

(** ** The resolution step of a pass *)

Section PassResolution.
Context {World : Type} {FU : FileUtil World} {DM : Dom World} {PF : Platform}.
Variable plugin : PluginId -> Plugin.t World.

(** How the loop over the components ends: it completes, every resolver
    call having returned a node; or it stops at the first resolver call
    that returns no node, with a TypeError; or it stops at the first
    resolver call that throws. *)
Lemma resolveComponents_ending state gen todo :
  forall acc (m : Machine.t World),
  let run := resolveComponents state gen todo acc m in
  (exists result, resultOf run = Normal result /\ Forall resolvedToSomething (eventsOf run))
  \/
  (exists before nodes,
     resultOf run = Throw undefinedOuterHTML /\
     eventsOf run = before ++ [EvParseElements nodes (Normal [])] /\
     Forall resolvedToSomething before)
  \/
  (exists before nodes e,
     resultOf run = Throw e /\
     eventsOf run = before ++ [EvParseElements nodes (Throw e)] /\
     Forall resolvedToSomething before).
Proof.
  induction todo as [|component rest IH]; intros acc m; cbn [resolveComponents].
  - left. exists acc. split; [reflexivity | constructor].
  - cbn zeta. rewrite result_bind, events_bind.
    destruct (callParseElements_run state (childNodes (Component.node component)) gen m)
      as (r & w & Hrun).
    rewrite Hrun. cbn [resultOf machineOf eventsOf fst snd].
    destruct r as [[|first others]|e].
    + right. left. exists [], (childNodes (Component.node component)).
      split; [reflexivity |]. split; [reflexivity | constructor].
    + set (m1 := Machine.setMem m _).
      set (acc1 := acc ++ _).
      assert (Hfirst : resolvedToSomething
                         (EvParseElements (childNodes (Component.node component))
                            (Normal (first :: others))))
        by (eexists _, _, _; reflexivity).
      destruct (IH acc1 m1)
        as [(result & Hres & Hall)
           | [(before & nodes & Hres & Hev & Hall)
             | (before & nodes & e & Hres & Hev & Hall)]].
      * left. exists result. split; [exact Hres |]. cbn [app]. now constructor.
      * right. left. exists (EvParseElements (childNodes (Component.node component))
                               (Normal (first :: others)) :: before), nodes.
        split; [exact Hres |]. rewrite Hev. split; [reflexivity | now constructor].
      * right. right.
        exists (EvParseElements (childNodes (Component.node component))
                  (Normal (first :: others)) :: before), nodes, e.
        split; [exact Hres |]. rewrite Hev. split; [reflexivity | now constructor].
    + right. right. exists [], (childNodes (Component.node component)), e.
      split; [reflexivity |]. split; [reflexivity | constructor].
Qed.

Lemma resolvedToSomething_not_nothing ev :
  resolvedToSomething ev -> resolvedToNothing ev = false.
Proof. intros (nodes & first & others & ->). reflexivity. Qed.

(** The resolution step starts with the loop over the components. *)
Lemma bundleResolve_components state gen (m : Machine.t World) :
  bundleResolve state gen m
  = (componentsList ← resolveComponentsOf state gen;
     s ← readState state;
     writeState state (State.setComponentsList s componentsList);;
     s ← readState state;
     forEach (seq 0 (length (State.pagesList s))) (resolvePage state gen);;
     pages ← callGenerateAliasPages state gen;
     s ← readState state;
     writeState state (State.setPagesList s pages)) m.
Proof. unfold bundleResolve, resolveComponentsOf. now rewrite bind_assoc. Qed.

Lemma eventsOf_resolveComponentsOf state gen (m : Machine.t World) :
  resolveComponentsOf state gen m
  = resolveComponents state gen (State.componentsList (stateAt m state)) [] m.
Proof.
  unfold resolveComponentsOf.
  now rewrite (run_bind_silent_normal _ _ m (stateAt m state) m eq_refl).
Qed.

Lemma blames_bind {A B} (c : M World A) (k : A -> M World B) :
  blamesACollaborator c -> (forall a, blamesACollaborator (k a)) ->
  blamesACollaborator (c ≫= k).
Proof.
  intros Hc Hk m. rewrite result_bind, events_bind. specialize (Hc m).
  destruct (resultOf (c m)) as [a|e].
  - specialize (Hk a (machineOf (c m))).
    destruct (resultOf (k a (machineOf (c m)))); [exact I |].
    destruct Hk as (ev & Hin & Hf). exists ev. split; [| exact Hf].
    apply in_or_app. now right.
  - exact Hc.
Qed.

Lemma blames_normal {A} (c : M World A) :
  (forall m, exists a, resultOf (c m) = Normal a) -> blamesACollaborator c.
Proof. intros H m. destruct (H m) as [a ->]. exact I. Qed.

Lemma blames_forEach {A} (l : list A) (body : A -> M World unit) :
  (forall x, blamesACollaborator (body x)) -> blamesACollaborator (forEach l body).
Proof.
  intros H. induction l as [|x l IH]; cbn [forEach].
  - intros m. exact I.
  - apply blames_bind; [apply H | intros _; exact IH].
Qed.

Ltac blames_plain := apply blames_normal; intros ?; eexists; reflexivity.

Lemma blames_callParseElements state nodes gen :
  blamesACollaborator (callParseElements (World := World) state nodes gen).
Proof.
  intros m. destruct (callParseElements_run state nodes gen m) as (r & w & ->).
  cbn. destruct r as [a|e]; [exact I |].
  exists (EvParseElements nodes (Throw e)). split; [now left | reflexivity].
Qed.

Lemma blames_callGenerateAliasPages state gen :
  blamesACollaborator (callGenerateAliasPages (World := World) state gen).
Proof.
  intros m. destruct (callGenerateAliasPages_run state gen m) as (r & w & ->).
  cbn. destruct r as [a|e]; [exact I |].
  exists (EvGenerateAliasPages (Throw e)). split; [now left | reflexivity].
Qed.

Lemma blames_resolvePage state gen i :
  blamesACollaborator (resolvePage (World := World) state gen i).
Proof.
  unfold resolvePage. apply blames_bind; [blames_plain | intros s].
  destruct (State.pagesList s !! i) as [page|]; [| blames_plain].
  apply blames_bind; [apply blames_callParseElements | intros nodes].
  apply blames_bind; [blames_plain | intros _].
  apply blames_bind; [blames_plain | intros s'].
  destruct (State.pagesList s' !! i) as [page'|]; [| blames_plain].
  apply blames_bind; [apply blames_callParseElements | intros nodes'].
  blames_plain.
Qed.

(** Once the components are resolved, the resolution step fails only if a
    collaborator call throws. *)
Lemma blames_afterComponents state gen componentsList :
  blamesACollaborator
    (s ← readState state;
     writeState state (State.setComponentsList s componentsList);;
     s ← readState state;
     forEach (seq 0 (length (State.pagesList s))) (resolvePage state gen);;
     pages ← callGenerateAliasPages (World := World) state gen;
     s ← readState state;
     writeState state (State.setPagesList s pages)).
Proof.
  apply blames_bind; [blames_plain | intros s].
  apply blames_bind; [blames_plain | intros _].
  apply blames_bind; [blames_plain | intros s'].
  apply blames_bind; [apply blames_forEach; intros i; apply blames_resolvePage | intros _].
  apply blames_bind; [apply blames_callGenerateAliasPages | intros pages].
  apply blames_bind; [blames_plain | intros s'']. blames_plain.
Qed.

Lemma blames_bundleFinish state : blamesACollaborator (bundleFinish plugin state).
Proof.
  intros m. destruct (bundleFinish_outcome plugin state m)
    as (state2 & dumped & w & _ & Hfinish).
  cbn zeta in Hfinish. destruct dumped as [[]|e]; rewrite Hfinish; cbn; [exact I |].
  exists (EvDumpPages state2 (Throw e)). split; [| reflexivity].
  apply in_or_app. right. now left.
Qed.

Lemma parseThrew_collaboratorFailed ev e : parseThrew ev e -> collaboratorFailed ev = true.
Proof. intros [dir [-> | ->]]; reflexivity. Qed.

Lemma blames_parseDirectories state :
  blamesACollaborator (parseDirectories (World := World) state).
Proof.
  unfold parseDirectories. apply blames_bind; [| intros _].
  - apply blames_bind; [blames_plain | intros s]. apply blames_forEach. intros dir m.
    destruct (callParseComponents_run state dir m) as (ev & Hev & Hres).
    destruct (resultOf (callParseComponents state dir m)); [exact I |].
    exists ev. rewrite Hev. split; [now left |].
    eapply parseThrew_collaboratorFailed; eassumption.
  - apply blames_bind; [blames_plain | intros s]. apply blames_forEach. intros dir m.
    destruct (callParsePages_run state dir m) as (ev & Hev & Hres).
    destruct (resultOf (callParsePages state dir m)); [exact I |].
    exists ev. rewrite Hev. split; [now left |].
    eapply parseThrew_collaboratorFailed; eassumption.
Qed.

End PassResolution.

(** ** The checkpoints of a run *)

Section Checkpoints.
Context {World : Type} {FU : FileUtil World} {DM : Dom World} {PF : Platform}.
Variable plugin : PluginId -> Plugin.t World.

(** The configuration loop of [loadSettings]. *)
Lemma loadSettings_configurationLoop (m : Machine.t World) :
  resultOf (loadSettingsPrologue m) = Normal tt ->
  let loaded := machineOf (loadSettingsPrologue m) in
  resultOf (loadSettings plugin m) = Normal tt /\
  configurationLoop plugin (DefaultSettings.plugins (currentSettings loaded))
    (Machine.Settings loaded) (Machine.Settings (machineOf (loadSettings plugin m)))
    (eventsOf (loadSettingsPrologue m)) (eventsOf (loadSettings plugin m)).
Proof.
  intros Hres loaded. unfold loadSettings.
  rewrite result_bind, events_bind, machine_bind, Hres. fold loaded.
  rewrite (run_bind_silent_normal _ _ loaded (currentSettings loaded) loaded eq_refl).
  destruct (HookRun_runConfigurationHooks plugin
              (DefaultSettings.plugins (currentSettings loaded)) loaded) as (Hnormal & Hrun).
  split; [exact Hnormal |]. eexists. split; [reflexivity | exact Hrun].
Qed.







Hypothesis hooks_keep : hooksKeepPluginLists plugin.














End Checkpoints.

(** * Hooks and passes *)

(** The hooks of the small project leave the plugin lists alone. *)
Lemma fixture_hooks_keep_plugin_lists : hooksKeepPluginLists Fixture.plugin.
Proof.
  intros cp id hook arg mem Hslot l s Hl.
  destruct id as [|[|[|n]]]; destruct cp; cbn in Hslot; try discriminate;
    injection Hslot as <-; cbn; eauto.
Qed.

Lemma setMem_mem {World} (m : Machine.t World) : Machine.setMem m (Machine.mem m) = m.
Proof. now destruct m. Qed.

(** C2, as the code has it. At every checkpoint, when the hook of a plugin
    throws, the pipeline logs a warning that names the plugin. Its working
    state (the settings, at the configuration checkpoint) is the same
    object as before the call; the pipeline rolls nothing back, so the
    store is as the hook left it: the contents of the working object are
    those from before the call if the hook wrote nothing before it threw,
    and hold its writes otherwise. As long as no hook changes a plugin
    list, the loop then goes on, wherever the plugin stands in the list,
    with the plugins that follow it, which receive that object; the loops
    of a pass ([bundle]) and of [loadSettings] are such runs over the
    plugin list of the settings: every plugin of the list that has the
    hook is invoked, a hook that threw being followed by the warning and
    by the next plugin; and a pass in which no collaborator call throws
    and no resolver call returns an empty sequence returns [true],
    whatever the hooks do. *)
Theorem plugin_failure_is_isolated
    {World : Type} {FU : FileUtil World} {DM : Dom World} {PF : Platform}
    (plugin : PluginId -> Plugin.t World)
    (cp : Checkpoint) (id : PluginId) (hook : Hook World)
    (arg : loc) (m : Machine.t World) (e : Exn) (mem' : Mem.t World) :
  hookSlot cp (plugin id) = Some hook ->
  hook arg (Machine.mem m) = (Throw e, mem') ->
  (exists front back,
     failureEvents plugin cp id arg e
     = [EvHook cp id arg (Throw e);
        EvConsoleWarn (front +:+ Plugin.pluginName (plugin id) +:+ back)]) /\
  stateHookStep plugin cp id arg m
  = (Normal arg, Machine.setMem m mem', failureEvents plugin cp id arg e) /\
  (mem' = Machine.mem m ->
   stateHookStep plugin cp id arg m = (Normal arg, m, failureEvents plugin cp id arg e)) /\
  (cp = Configuration -> arg = Machine.Settings m ->
   configurationHookStep plugin id m
   = (Normal tt, Machine.setMem m mem', failureEvents plugin cp id arg e) /\
   Machine.Settings (Machine.setMem m mem') = Machine.Settings m) /\
  (hooksKeepPluginLists plugin ->
   (forall before rest arg0 m0 evs0,
      runStateHooks plugin cp before arg0 m0 = (Normal arg, m, evs0) ->
      runStateHooks plugin cp (before ++ id :: rest) arg0 m0
      = prefixed (evs0 ++ failureEvents plugin cp id arg e)
          (runStateHooks plugin cp rest arg (Machine.setMem m mem'))) /\
   (cp = Configuration -> arg = Machine.Settings m ->
    forall before rest m0 evs0,
      runConfigurationHooks plugin before m0 = (Normal tt, m, evs0) ->
      runConfigurationHooks plugin (before ++ id :: rest) m0
      = prefixed (evs0 ++ failureEvents plugin cp id arg e)
          (runConfigurationHooks plugin rest (Machine.setMem m mem'))) /\
   (forall m0,
      settingsAssigned m0 ->
      hookLoopsOfAPass plugin (DefaultSettings.plugins (currentSettings m0))
        (fresh (dom (Mem.stateObjs (Machine.mem m0))))
        (resultOf (bundle plugin m0)) (eventsOf (bundle plugin m0))) /\
   (forall m0,
      resultOf (loadSettingsPrologue m0) = Normal tt ->
      resultOf (loadSettings plugin m0) = Normal tt /\
      configurationLoop plugin
        (DefaultSettings.plugins (currentSettings (machineOf (loadSettingsPrologue m0))))
        (Machine.Settings (machineOf (loadSettingsPrologue m0)))
        (Machine.Settings (machineOf (loadSettings plugin m0)))
        (eventsOf (loadSettingsPrologue m0)) (eventsOf (loadSettings plugin m0))) /\
   (forall m0,
      Forall (fun ev => collaboratorFailed ev = false) (eventsOf (bundle plugin m0)) ->
      Forall (fun ev => resolvedToNothing ev = false) (eventsOf (bundle plugin m0)) ->
      resultOf (bundle plugin m0) = Normal true)).
Proof.
  intros Hslot Hrun.
  pose proof (stateHookStep_throw plugin cp id hook arg m e mem' Hslot Hrun) as Hstep.
  split.
  { destruct (warnMessage_names_plugin cp (Plugin.pluginName (plugin id)))
      as (front & back & Hw).
    exists front, back. unfold failureEvents. now rewrite Hw. }
  split; [exact Hstep |].
  split; [intros ->; now rewrite setMem_mem in Hstep |].
  split.
  { intros -> ->. split; [| reflexivity].
    exact (configurationHookStep_throw plugin id hook m e mem' Hslot Hrun). }
  intros Hkeep. split.
  { intros before rest arg0 m0 evs0 Hbefore.
    rewrite (runStateHooks_app plugin cp before (id :: rest) _ _ _ _ _ Hbefore).
    rewrite (runStateHooks_cons plugin cp id rest _ _ _ _ _ Hstep).
    apply prefixed_prefixed. }
  split.
  { intros -> -> before rest m0 evs0 Hbefore.
    pose proof (configurationHookStep_throw plugin id hook m e mem' Hslot Hrun) as Hconf.
    rewrite (runConfigurationHooks_app plugin before (id :: rest) _ _ _ Hbefore).
    rewrite (runConfigurationHooks_cons plugin id rest _ _ _ Hconf).
    apply prefixed_prefixed. }
  split; [intros m0; now apply bundle_hookLoops |].
  split; [intros m0; apply loadSettings_configurationLoop |].
  intros m0. apply bundle_true_when_valid.
Qed.

(** C2 at work: the first plugin of the small project throws at every
    checkpoint; the pass goes on with the same state object and returns
    [true]. *)
Lemma plugin_failure_is_isolated_witness :
  stateHookStep Fixture.plugin BeforeBuild 0 1%positive Fixture.loaded
  = (Normal 1%positive, Fixture.loaded,
     failureEvents Fixture.plugin BeforeBuild 0 1%positive "boom") /\
  hookLoopsOfAPass Fixture.plugin [0; 1; 2] 1%positive (Normal true)
    (eventsOf (bundle Fixture.plugin Fixture.loaded)).
Proof.
  destruct (plugin_failure_is_isolated Fixture.plugin BeforeBuild 0
              Fixture.throwing 1%positive Fixture.loaded "boom"
              (Machine.mem Fixture.loaded) eq_refl eq_refl)
    as (_ & _ & Hstep & _ & Hloop).
  split; [exact (Hstep eq_refl) |].
  destruct (Hloop fixture_hooks_keep_plugin_lists) as (_ & _ & Hloops & _).
  assert (Ha : settingsAssigned Fixture.loaded)
    by (unfold settingsAssigned; apply elem_of_dom; vm_compute; eauto).
  exact (Hloops Fixture.loaded Ha).
Defined.

(** C2, as the specification states it, fails: a hook that writes to the
    state it is given and then throws leaves its write. In the small
    project, the beforeBuild hook of the first plugin replaces the pages
    of the state and throws; the state the pipeline goes on with is the
    same object, and holds the page the hook wrote, not the pages it held
    before the call. *)
Lemma a_hook_that_throws_leaves_its_writes :
  State.pagesList (stateAt Fixture.parsed 1%positive)
  = [Fixture.indexPage "/a"; Fixture.indexPage "/a/b"] /\
  resultOf (stateHookStep FixtureMore.scribblers BeforeBuild 0 1%positive Fixture.parsed)
  = Normal 1%positive /\
  eventsOf (stateHookStep FixtureMore.scribblers BeforeBuild 0 1%positive Fixture.parsed)
  = failureEvents FixtureMore.scribblers BeforeBuild 0 1%positive "boom" /\
  State.pagesList
    (stateAt (machineOf (stateHookStep FixtureMore.scribblers BeforeBuild 0 1%positive
                           Fixture.parsed)) 1%positive)
  = [Fixture.indexPage "/scribbled"] /\
  stateAt (machineOf (stateHookStep FixtureMore.scribblers BeforeBuild 0 1%positive
                        Fixture.parsed)) 1%positive
  <> stateAt Fixture.parsed 1%positive.
Proof.
  split; [reflexivity |]. split; [reflexivity |]. split; [reflexivity |].
  split; [vm_compute; reflexivity |]. vm_compute. discriminate.
Qed.

(** C5. When a hook returns an object, the working state of the pipeline
    (the settings, at the configuration checkpoint) becomes a new object: a
    copy with the contents the returned object has at that moment, at a
    reference nothing else holds, the rest of the store unchanged; a later
    write through the reference the plugin kept does not change the copy;
    as long as no hook changes a plugin list, the plugins that follow
    receive the copy. When a hook returns nothing (or a falsy value), the
    pipeline keeps the object it had and writes nothing; the plugins that
    follow receive that object. In a pass and in [loadSettings], the loops
    over the plugin list are such runs. *)
Theorem hook_return_replaces_by_a_copy
    {World : Type} {FU : FileUtil World} {DM : Dom World} {PF : Platform}
    (plugin : PluginId -> Plugin.t World)
    (cp : Checkpoint) (id : PluginId) (hook : Hook World)
    (arg : loc) (m : Machine.t World) :
  hookSlot cp (plugin id) = Some hook ->
  (forall returned mem',
     hook arg (Machine.mem m) = (Normal (Some returned), mem') ->
     returned ∈ dom (Mem.stateObjs mem') ->
     exists copy m1,
       stateHookStep plugin cp id arg m
       = (Normal copy, m1, [EvHook cp id arg (Normal (Some returned))]) /\
       copy <> returned /\
       (copy ∉ dom (Mem.stateObjs mem')) /\
       stateAt m1 copy = Mem.stateObjs mem' !!! returned /\
       (forall l, l <> copy ->
          Mem.stateObjs (Machine.mem m1) !! l = Mem.stateObjs mem' !! l) /\
       (forall later, stateAt (machineOf (writeState returned later m1)) copy
                      = stateAt m1 copy) /\
       (hooksKeepPluginLists plugin ->
        forall rest,
          runStateHooks plugin cp (id :: rest) arg m
          = prefixed [EvHook cp id arg (Normal (Some returned))]
              (runStateHooks plugin cp rest copy m1))) /\
  (forall returned mem',
     cp = Configuration -> arg = Machine.Settings m ->
     hook arg (Machine.mem m) = (Normal (Some returned), mem') ->
     returned ∈ dom (Mem.settingsObjs mem') ->
     exists m1,
       configurationHookStep plugin id m
       = (Normal tt, m1, [EvHook cp id arg (Normal (Some returned))]) /\
       Machine.Settings m1 <> returned /\
       (Machine.Settings m1 ∉ dom (Mem.settingsObjs mem')) /\
       currentSettings m1 = Mem.settingsObjs mem' !!! returned /\
       (forall l, l <> Machine.Settings m1 ->
          Mem.settingsObjs (Machine.mem m1) !! l = Mem.settingsObjs mem' !! l) /\
       (forall later,
          currentSettings
            (Machine.setMem m1
               (Mem.setSettingsObjs (Machine.mem m1)
                  (<[returned := later]> (Mem.settingsObjs (Machine.mem m1)))))
          = currentSettings m1) /\
       (hooksKeepPluginLists plugin ->
        forall rest,
          runConfigurationHooks plugin (id :: rest) m
          = prefixed [EvHook cp id arg (Normal (Some returned))]
              (runConfigurationHooks plugin rest m1))) /\
  (forall mem',
     hook arg (Machine.mem m) = (Normal None, mem') ->
     stateHookStep plugin cp id arg m
     = (Normal arg, Machine.setMem m mem', [EvHook cp id arg (Normal None)]) /\
     (hooksKeepPluginLists plugin ->
      forall rest,
        runStateHooks plugin cp (id :: rest) arg m
        = prefixed [EvHook cp id arg (Normal None)]
            (runStateHooks plugin cp rest arg (Machine.setMem m mem'))) /\
     (cp = Configuration -> arg = Machine.Settings m ->
      configurationHookStep plugin id m
      = (Normal tt, Machine.setMem m mem', [EvHook cp id arg (Normal None)]) /\
      Machine.Settings (Machine.setMem m mem') = Machine.Settings m /\
      (hooksKeepPluginLists plugin ->
       forall rest,
         runConfigurationHooks plugin (id :: rest) m
         = prefixed [EvHook cp id arg (Normal None)]
             (runConfigurationHooks plugin rest (Machine.setMem m mem'))))) /\
  (hooksKeepPluginLists plugin ->
   (forall m0,
      settingsAssigned m0 ->
      hookLoopsOfAPass plugin (DefaultSettings.plugins (currentSettings m0))
        (fresh (dom (Mem.stateObjs (Machine.mem m0))))
        (resultOf (bundle plugin m0)) (eventsOf (bundle plugin m0))) /\
   (forall m0,
      resultOf (loadSettingsPrologue m0) = Normal tt ->
      configurationLoop plugin
        (DefaultSettings.plugins (currentSettings (machineOf (loadSettingsPrologue m0))))
        (Machine.Settings (machineOf (loadSettingsPrologue m0)))
        (Machine.Settings (machineOf (loadSettings plugin m0)))
        (eventsOf (loadSettingsPrologue m0)) (eventsOf (loadSettings plugin m0)))).
Proof.
  intros Hslot. split; [| split; [| split]].
  - intros returned mem' Hrun Hlive.
    pose proof (is_fresh (dom (Mem.stateObjs mem'))) as Hfresh.
    pose proof (stateHookStep_truthy plugin cp id hook arg m returned mem' Hslot Hrun)
      as Hstep.
    set (copy := fresh (dom (Mem.stateObjs mem'))) in *.
    assert (Hne : copy <> returned) by (intros ->; contradiction).
    eexists copy, _. split; [exact Hstep |].
    split; [exact Hne |]. split; [exact Hfresh |].
    split; [unfold stateAt; cbn; apply lookup_total_insert_eq |].
    split; [intros l Hl; cbn; now apply lookup_insert_ne |].
    split.
    + intros later. unfold stateAt. cbn.
      rewrite lookup_total_insert_ne by congruence. reflexivity.
    + intros _ rest. exact (runStateHooks_cons plugin cp id rest _ _ _ _ _ Hstep).
  - intros returned mem' -> -> Hrun Hlive.
    pose proof (is_fresh (dom (Mem.settingsObjs mem'))) as Hfresh.
    pose proof (configurationHookStep_truthy plugin id hook m returned mem' Hslot Hrun)
      as Hstep.
    set (copy := fresh (dom (Mem.settingsObjs mem'))) in *.
    assert (Hne : copy <> returned) by (intros ->; contradiction).
    eexists. split; [exact Hstep |].
    cbn. fold copy.
    split; [exact Hne |]. split; [exact Hfresh |].
    split; [unfold currentSettings, settingsAt; cbn; apply lookup_total_insert_eq |].
    split; [intros l Hl; now apply lookup_insert_ne |].
    split.
    + intros later. unfold currentSettings, settingsAt. cbn.
      rewrite lookup_total_insert_ne by congruence. reflexivity.
    + intros _ rest. exact (runConfigurationHooks_cons plugin id rest _ _ _ Hstep).
  - intros mem' Hrun.
    pose proof (stateHookStep_falsy plugin cp id hook arg m mem' Hslot Hrun) as Hstep.
    split; [exact Hstep |].
    split; [intros _ rest; exact (runStateHooks_cons plugin cp id rest _ _ _ _ _ Hstep) |].
    intros -> ->.
    pose proof (configurationHookStep_falsy plugin id hook m mem' Hslot Hrun) as Hconf.
    split; [exact Hconf |]. split; [reflexivity |].
    intros _ rest. exact (runConfigurationHooks_cons plugin id rest _ _ _ Hconf).
  - intros Hkeep. split.
    + intros m0. now apply bundle_hookLoops.
    + intros m0 Hres. now apply loadSettings_configurationLoop.
Qed.

(** C5 at work. The second plugin of the small project returns the object
    it was given, at a build checkpoint and at the configuration
    checkpoint: the pipeline goes on with a copy. The third plugin returns
    nothing at the beforeBuild checkpoint, and so does a plugin whose
    configuration hook returns nothing: the pipeline keeps its object. *)
Lemma hook_return_replaces_by_a_copy_witness :
  (exists copy m1,
     stateHookStep Fixture.plugin BeforeBuild 1 1%positive Fixture.built
     = (Normal copy, m1, [EvHook BeforeBuild 1 1%positive (Normal (Some 1%positive))]) /\
     copy <> 1%positive /\
     stateAt m1 copy = stateAt Fixture.built 1%positive /\
     forall later, stateAt (machineOf (writeState 1%positive later m1)) copy
                   = stateAt m1 copy) /\
  (exists m1,
     configurationHookStep Fixture.plugin 1 Fixture.loaded
     = (Normal tt, m1,
        [EvHook Configuration 1 (Machine.Settings Fixture.loaded)
           (Normal (Some (Machine.Settings Fixture.loaded)))]) /\
     Machine.Settings m1 <> Machine.Settings Fixture.loaded /\
     currentSettings m1 = currentSettings Fixture.loaded) /\
  stateHookStep Fixture.plugin BeforeBuild 2 1%positive Fixture.built
  = (Normal 1%positive, Fixture.built, [EvHook BeforeBuild 2 1%positive (Normal None)]) /\
  configurationHookStep FixtureMore.mutes 0 Fixture.loaded
  = (Normal tt, Fixture.loaded,
     [EvHook Configuration 0 (Machine.Settings Fixture.loaded) (Normal None)]).
Proof.
  split; [| split; [| split]].
  - destruct (hook_return_replaces_by_a_copy Fixture.plugin BeforeBuild 1
                Fixture.returningItsArgument 1%positive Fixture.built eq_refl)
      as (Hstate & _).
    destruct (Hstate 1%positive (Machine.mem Fixture.built) eq_refl)
      as (copy & m1 & Hstep & Hne & _ & Hcopy & _ & Hlater & _).
    + apply elem_of_dom. vm_compute. eexists. reflexivity.
    + exists copy, m1. repeat split; assumption.
  - destruct (hook_return_replaces_by_a_copy Fixture.plugin Configuration 1
                Fixture.returningItsArgument (Machine.Settings Fixture.loaded)
                Fixture.loaded eq_refl)
      as (_ & Hsettings & _).
    destruct (Hsettings (Machine.Settings Fixture.loaded) (Machine.mem Fixture.loaded)
                eq_refl eq_refl eq_refl)
      as (m1 & Hstep & Hne & _ & Hcopy & _).
    + apply elem_of_dom. vm_compute. eexists. reflexivity.
    + exists m1. repeat split; assumption.
  - destruct (hook_return_replaces_by_a_copy Fixture.plugin BeforeBuild 2
                Fixture.returningNothing 1%positive Fixture.built eq_refl)
      as (_ & _ & Hnothing & _).
    destruct (Hnothing (Machine.mem Fixture.built) eq_refl) as (Hstep & _).
    exact Hstep.
  - destruct (hook_return_replaces_by_a_copy FixtureMore.mutes Configuration 0
                Fixture.returningNothing (Machine.Settings Fixture.loaded)
                Fixture.loaded eq_refl)
      as (_ & _ & Hnothing & _).
    destruct (Hnothing (Machine.mem Fixture.loaded) eq_refl) as (_ & _ & Hconf).
    destruct (Hconf eq_refl eq_refl) as (Hstep & _).
    exact Hstep.
Defined.

(** C6, as the code has it. A pass in which no collaborator call throws
    (the two parse loops, and also the creation of the output directory,
    the resolver, the alias generation and the dump) gets through its
    parse loops, whatever the plugin hooks do (as long as none changes a
    plugin list), and its outcome then depends on the loop over the
    components only. If every resolver call
    of that loop returns a node, the pass runs to completion and returns
    [true], even if the resolver returns no node for a page. If a
    resolver call of that loop returns no node, reading
    [parsedNode[0].outerHTML] throws a TypeError, which leaves [bundle()]:
    that resolver call is the last call of the pass. *)
Theorem bundle_returns_true_unless_a_collaborator_fails
    {World : Type} {FU : FileUtil World} {DM : Dom World} {PF : Platform}
    (plugin : PluginId -> Plugin.t World) (m : Machine.t World) :
  hooksKeepPluginLists plugin ->
  Forall (fun ev => collaboratorFailed ev = false) (eventsOf (bundle plugin m)) ->
  exists state gen,
    resultOf (bundleParsed plugin m) = Normal (state, gen) /\
    let components := resolveComponentsOf state gen (machineOf (bundleParsed plugin m)) in
    (exists rest,
       eventsOf (bundle plugin m)
       = eventsOf (bundleParsed plugin m) ++ eventsOf components ++ rest) /\
    (Forall (fun ev => resolvedToNothing ev = false) (eventsOf components) ->
     resultOf (bundle plugin m) = Normal true) /\
    (forall nodes,
       In (EvParseElements nodes (Normal [])) (eventsOf components) ->
       resultOf (bundle plugin m) = Throw undefinedOuterHTML /\
       exists before,
         eventsOf (bundle plugin m) = before ++ [EvParseElements nodes (Normal [])]).
Proof.
  intros _.
  intros Hall. rewrite Forall_forall in Hall.
  destruct (bundleParsed_run plugin m) as (state1 & created & w & Hres & H).
  cbn zeta in H.
  set (hooksB := runStateHooks plugin BeforeBuild _ _ _) in *.
  set (mD := Machine.setMem (machineOf hooksB) _) in *.
  set (gen := generatorOf (currentSettings m)) in *.
  destruct created as [[]|e].
  2:{ exfalso. destruct H as [_ Hbundle].
      specialize (Hall (EvCreateDir (Throw e))). cbn in Hall.
      enough (true = false) by discriminate. apply Hall. rewrite Hbundle. cbn.
      apply in_or_app. right. now left. }
  destruct H as [Hparsed Hbundle].
  rewrite bundleParse_stages in Hbundle.
  pose proof (blames_parseDirectories state1 mD) as HblameP.
  destruct (resultOf (parseDirectories state1 mD)) as [[]|e] eqn:HresP.
  2:{ exfalso. destruct HblameP as (ev & Hin & Hf).
      rewrite Hall in Hf; [discriminate |]. rewrite Hbundle. cbn.
      apply in_or_app. right. apply in_or_app. left. exact Hin. }
  exists state1, gen. rewrite Hparsed. cbn [resultOf machineOf eventsOf fst snd].
  split; [reflexivity |].
  set (mP := machineOf (parseDirectories state1 mD)) in *.
  set (evP := eventsOf (parseDirectories state1 mD)) in *.
  assert (Hevents : eventsOf (bundle plugin m)
                    = (eventsOf hooksB ++ EvCreateDir (Normal ()) :: evP)
                      ++ eventsOf (bundleAfterParse plugin state1 gen mP)).
  { rewrite Hbundle. unfold prefixed. cbn. now rewrite <- !app_assoc. }
  assert (Hresult : resultOf (bundle plugin m)
                    = resultOf (bundleAfterParse plugin state1 gen mP)).
  { rewrite Hbundle. reflexivity. }
  rewrite Hevents, Hresult. rewrite Hevents in Hall. clear Hevents Hresult Hbundle Hparsed.
  set (pre := eventsOf hooksB ++ _) in *.
  unfold bundleAfterParse in *. rewrite result_bind, events_bind.
  setoid_rewrite events_bind in Hall.
  set (runC := resolveComponentsOf state1 gen mP) in *.
  assert (HrunR : bundleResolve state1 gen mP
                  = match resultOf runC with
                    | Normal result =>
                        prefixed (eventsOf runC)
                          ((s ← readState state1;
                            writeState state1 (State.setComponentsList s result);;
                            s ← readState state1;
                            forEach (seq 0 (length (State.pagesList s)))
                              (resolvePage state1 gen);;
                            pages ← callGenerateAliasPages state1 gen;
                            s ← readState state1;
                            writeState state1 (State.setPagesList s pages))
                             (machineOf runC))
                    | Throw e => (Throw e, machineOf runC, eventsOf runC)
                    end).
  { rewrite bundleResolve_components, run_bind. fold runC.
    destruct runC as [[[result|e] mC] evC]; [| reflexivity].
    unfold prefixed. cbn [resultOf machineOf eventsOf fst snd].
    match goal with
    | |- context [(readState state1 ≫= ?k) mC] =>
        destruct ((readState state1 ≫= k) mC) as [[r m2] ev2]
    end.
    reflexivity. }
  pose proof (eventsOf_resolveComponentsOf state1 gen mP) as HrunC. fold runC in HrunC.
  pose proof (resolveComponents_ending state1 gen
                (State.componentsList (stateAt mP state1)) [] mP) as Hending.
  cbn zeta in Hending. rewrite <- HrunC in Hending. clear HrunC.
  destruct Hending
    as [(result & HresC & HallC)
       | [(before & nodes & HresC & HevC & HallC)
         | (before & nodes & e & HresC & HevC & HallC)]];
    rewrite HresC in HrunR; rewrite HrunR in *; clear HrunR;
    unfold prefixed in *; cbn [resultOf machineOf eventsOf fst snd] in *.
  - set (after := (s ← readState state1; _)) in *.
    pose proof (blames_afterComponents state1 gen result (machineOf runC)) as HblameR.
    fold after in HblameR.
    set (runA := after (machineOf runC)) in *.
    split; [| split].
    + destruct (resultOf runA).
      * eexists. rewrite <- app_assoc. reflexivity.
      * exists (eventsOf runA). reflexivity.
    + intros _.
      destruct (resultOf runA) as [[]|e] eqn:HresA.
      * pose proof (blames_bundleFinish plugin state1 (machineOf runA)) as HblameF.

        destruct (resultOf (bundleFinish plugin state1 (machineOf runA))) as [b|e] eqn:HresF.
        -- destruct (bundleFinish_outcome plugin state1 (machineOf runA))
             as (state2 & dumped & w' & _ & Hfinish).
           cbn zeta in Hfinish.
           destruct dumped as [[]|e]; rewrite Hfinish in HresF; cbn in HresF; congruence.
        -- exfalso. destruct HblameF as (ev & Hin & Hf).
           rewrite Hall in Hf; [discriminate |]. rewrite !in_app_iff. tauto.
      * exfalso. destruct HblameR as (ev & Hin & Hf).
        rewrite Hall in Hf; [discriminate |]. rewrite !in_app_iff. tauto.
    + intros nodes Hin. exfalso. rewrite Forall_forall in HallC.
      apply HallC in Hin. destruct Hin as (? & ? & ? & Heq). discriminate Heq.
  - split; [| split].
    + exists []. now rewrite app_nil_r.
    + intros Hnone. exfalso. rewrite Forall_forall in Hnone.
      specialize (Hnone (EvParseElements nodes (Normal []))). cbn in Hnone.
      enough (true = false) by discriminate. apply Hnone. rewrite HevC.
      apply in_or_app. right. now left.
    + intros nodes' Hin. split; [reflexivity |].
      rewrite HevC in Hin. apply in_app_or in Hin as [Hin | [Heq | []]].
      * exfalso. rewrite Forall_forall in HallC. apply HallC in Hin.
        destruct Hin as (? & ? & ? & Heq). discriminate Heq.
      * injection Heq as <-. exists (pre ++ before). rewrite HevC.
        now rewrite <- app_assoc.
  - exfalso. specialize (Hall (EvParseElements nodes (Throw e))). cbn in Hall.
    enough (true = false) by discriminate. apply Hall.
    apply in_or_app. right. rewrite HevC. apply in_or_app. right. now left.
Qed.

(** C6 at work. In the small project a hook throws at each checkpoint of
    the pass, no collaborator call does, and the pass returns [true]; it
    still does with a resolver that returns no node for the pages; with a
    resolver that returns no node for the component, the TypeError leaves
    the pass. *)
Lemma bundle_returns_true_unless_a_collaborator_fails_witness :
  In (EvHook BeforeBuild 0 1%positive (Throw "boom"))
     (eventsOf (bundle Fixture.plugin Fixture.loaded)) /\
  resultOf (bundle Fixture.plugin Fixture.loaded) = Normal true /\
  resultOf (bundle (DM := FixtureMore.emptyForPages) Fixture.plugin Fixture.loaded)
  = Normal true /\
  resultOf (bundle (DM := FixtureMore.emptyForComponents) Fixture.plugin Fixture.loaded)
  = Throw undefinedOuterHTML.
Proof.
  split; [vm_compute; repeat (first [left; reflexivity | right]) |].
  split; [| split].
  - destruct (bundle_returns_true_unless_a_collaborator_fails Fixture.plugin Fixture.loaded
                fixture_hooks_keep_plugin_lists)
      as (state & gen & Hparsed & _ & Htrue & _).
    + vm_compute. repeat constructor.
    + vm_compute in Hparsed. injection Hparsed as <- <-.
      apply Htrue. vm_compute. repeat constructor.
  - destruct (bundle_returns_true_unless_a_collaborator_fails
                (DM := FixtureMore.emptyForPages) Fixture.plugin Fixture.loaded
                fixture_hooks_keep_plugin_lists)
      as (state & gen & Hparsed & _ & Htrue & _).
    + vm_compute. repeat constructor.
    + vm_compute in Hparsed. injection Hparsed as <- <-.
      apply Htrue. vm_compute. repeat constructor.
  - destruct (bundle_returns_true_unless_a_collaborator_fails
                (DM := FixtureMore.emptyForComponents) Fixture.plugin Fixture.loaded
                fixture_hooks_keep_plugin_lists)
      as (state & gen & Hparsed & _ & _ & Hempty).
    + vm_compute. repeat constructor.
    + vm_compute in Hparsed. injection Hparsed as <- <-.
      destruct (Hempty (childNodes Fixture.boxRoot)) as [Hthrown _]; [| exact Hthrown].
      vm_compute. left. reflexivity.
Defined.



(** C4. The resolver is not called before the parse loops of a pass are
    over, and not at all in a pass that does not get through them.
    Otherwise the resolver calls of the pass are those of its resolution
    step (lines 104-127), run on the state object of the pass in the
    store the parse loops left: nothing that follows calls the resolver.
    When the resolution step completes, it has made one resolver call per
    component of that state, on the children of the component, then two
    consecutive calls per page of that state, the second on the result of
    the first, and it ends with the alias generation: with [C] components
    and [P] pages the resolver runs [C + 2 P] times. The components are
    then those rebuilt from the first node of each result, and the pages
    those the alias generation returned. *)
Theorem resolver_runs_once_per_component_and_twice_per_page
    {World : Type} {FU : FileUtil World} {DM : Dom World} {PF : Platform}
    (plugin : PluginId -> Plugin.t World) (m : Machine.t World) :
  Forall (fun ev => isParseElements ev = false) (eventsOf (bundleParsed plugin m)) /\
  match resultOf (bundleParsed plugin m) with
  | Throw _ => Forall (fun ev => isParseElements ev = false) (eventsOf (bundle plugin m))
  | Normal (state, gen) =>
      let parsed := machineOf (bundleParsed plugin m) in
      let resolution := bundleResolve state gen parsed in
      (exists after,
         eventsOf (bundle plugin m)
         = eventsOf (bundleParsed plugin m) ++ eventsOf resolution ++ after /\
         Forall (fun ev => isParseElements ev = false) after) /\
      (resultOf resolution = Normal tt ->
       exists evC evP rebuilt resolved aliased,
         eventsOf resolution = evC ++ evP ++ [EvGenerateAliasPages (Normal aliased)] /\
         Rebuilt (State.componentsList (stateAt parsed state)) evC rebuilt /\
         length evC = length (State.componentsList (stateAt parsed state)) /\
         TwicePerPage (State.pagesList (stateAt parsed state)) evP resolved /\
         length evP = 2 * length (State.pagesList (stateAt parsed state)) /\
         State.componentsList (stateAt (machineOf resolution) state) = rebuilt /\
         State.pagesList (stateAt (machineOf resolution) state) = aliased)
  end.
Proof.
  destruct (bundleParsed_run plugin m) as (state1 & created & w & Hres & H).
  cbn zeta in H.
  set (hooksB := runStateHooks plugin BeforeBuild _ _ _) in *.
  set (mD := Machine.setMem (machineOf hooksB) _) in *.
  set (gen := generatorOf (currentSettings m)) in *.
  assert (HwB : within 2 2 (eventsOf hooksB))
    by apply (runsWithin_runStateHooks plugin BeforeBuild).
  assert (HnB : Forall (fun ev => isParseElements ev = false) (eventsOf hooksB))
    by (apply (noParseElements_within 2 2); [exact HwB | lia]).
  destruct created as [[]|e].
  2:{ destruct H as [-> ->]. cbn [resultOf machineOf eventsOf fst snd].
      assert (Forall (fun ev => isParseElements ev = false)
                (eventsOf hooksB ++ [EvCreateDir (Throw e)]))
        by (apply Forall_app; split; [exact HnB | repeat constructor]).
      now split. }
  destruct H as [Hparsed Hbundle]. rewrite Hparsed, Hbundle, bundleParse_stages.
  cbn [resultOf machineOf eventsOf fst snd].
  pose proof (runsWithin_parseDirectories state1 mD) as HwP.
  assert (HnP : Forall (fun ev => isParseElements ev = false)
                  (eventsOf (parseDirectories state1 mD)))
    by (apply (noParseElements_within 4 5); [exact HwP | lia]).
  assert (Hpre : Forall (fun ev => isParseElements ev = false)
                   (eventsOf hooksB ++ EvCreateDir (Normal ())
                    :: eventsOf (parseDirectories state1 mD)))
    by (apply Forall_app; split; [exact HnB | constructor; [reflexivity | exact HnP]]).
  split; [exact Hpre |].
  destruct (resultOf (parseDirectories state1 mD)) as [[]|e].
  2:{ cbn. rewrite <- app_assoc. cbn [app].
      apply Forall_app. split; [exact HnB |]. constructor; [reflexivity |].
      apply Forall_app. split; [exact HnP | repeat constructor]. }
  set (mP := machineOf (parseDirectories state1 mD)) in *. cbn zeta.
  split.
  - unfold prefixed, bundleAfterParse. cbn [resultOf machineOf eventsOf fst snd].
    rewrite events_bind.
    destruct (resultOf (bundleResolve state1 gen mP)) as [[]|e].
    + exists (eventsOf (bundleFinish plugin state1 (machineOf (bundleResolve state1 gen mP)))).
      split; [now rewrite <- !app_assoc |].
      apply (noParseElements_within 8 10); [apply runsWithin_bundleFinish | lia].
    + exists []. split; [now rewrite app_nil_r, <- !app_assoc | constructor].
  - intros HresR.
    destruct (bundleResolve_run state1 gen mP HresR)
      as (evC & evP & rebuilt & resolved & aliased & Hev & HC & HP & Hcomps & Hpages).
    exists evC, evP, rebuilt, resolved, aliased.
    split; [exact Hev |]. split; [exact HC |].
    split; [exact (proj1 (Rebuilt_length _ _ _ HC)) |]. split; [exact HP |].
    split; [exact (proj1 (TwicePerPage_length _ _ _ HP)) |]. now split.
Qed.

(** C4 at work: a pass of the small project, with one component and three
    pages, calls the resolver seven times, between its parse loops and
    its afterBuild hooks. *)
Lemma resolver_runs_once_per_component_and_twice_per_page_witness :
  exists evC evP aliased after,
    eventsOf (bundle Fixture.plugin Fixture.loaded)
    = eventsOf (bundleParsed Fixture.plugin Fixture.loaded)
      ++ (evC ++ evP ++ [EvGenerateAliasPages (Normal aliased)]) ++ after /\
    length evC = 1 /\ length evP = 6 /\
    Forall (fun ev => isParseElements ev = false) after.
Proof.
  destruct (resolver_runs_once_per_component_and_twice_per_page Fixture.plugin
              Fixture.loaded) as [_ Hpass].
  destruct (resultOf (bundleParsed Fixture.plugin Fixture.loaded)) as [[state gen]|e]
    eqn:Hparsed; [| vm_compute in Hparsed; discriminate Hparsed].
  vm_compute in Hparsed. injection Hparsed as <- <-.
  destruct Hpass as [(after & Hevents & Hafter) Hresolution].
  destruct Hresolution as (evC & evP & rebuilt & resolved & aliased
                           & Hev & _ & HlenC & _ & HlenP & _);
    [vm_compute; reflexivity |].
  exists evC, evP, aliased, after.
  split; [rewrite <- Hev; exact Hevents |].
  split; [rewrite HlenC; vm_compute; reflexivity |].
  split; [rewrite HlenP; vm_compute; reflexivity | exact Hafter].
Defined.

(** * Further properties of the runs of the pipeline *)

(** X6. Configuration hooks never make [loadSettings] fail. When
    [loadFile] returns, with no file or with settings of the declared
    type, [loadSettings] completes, whatever the configuration hooks do
    (as long as none changes a plugin list). When [loadFile] throws,
    [loadSettings] throws the same exception and nothing else has
    happened: no key is assigned, the logger and [srcDir] are as they
    were, no configuration hook is called. *)
Theorem configuration_hooks_never_make_loadSettings_fail
    {World : Type} {FU : FileUtil World} {DM : Dom World} {PF : Platform}
    (plugin : PluginId -> Plugin.t World) (m : Machine.t World) :
  hooksKeepPluginLists plugin ->
  (forall data : option SettingsData.t,
     settingsFileOutcome m = Normal data ->
     resultOf (loadSettings plugin m) = Normal tt /\
     exists evC,
       eventsOf (loadSettings plugin m)
       = EvLoadFile (settingsFilePattern m) (Normal data) :: evC /\
       within 1 1 evC) /\
  (forall e,
     settingsFileOutcome m = Throw e ->
     resultOf (loadSettings plugin m) = Throw e /\
     eventsOf (loadSettings plugin m) = [EvLoadFile (settingsFilePattern m) (Throw e)] /\
     machineOf (loadSettings plugin m)
     = Machine.setMem m
         (Mem.setWorld (Machine.mem m)
            (loadFile (settingsFilePattern m) (Mem.world (Machine.mem m))).2) /\
     currentSettings (machineOf (loadSettings plugin m)) = currentSettings m /\
     Mem.loggerIsQuite (Machine.mem (machineOf (loadSettings plugin m)))
     = Mem.loggerIsQuite (Machine.mem m)).
Proof.
  intros _. split.
  - intros data H. split; [rewrite loadSettings_result; now rewrite H |].
    destruct (loadSettingsPrologue_normal m data H) as (Hres & Hev & _).
    rewrite (events_loadSettings plugin m Hres), Hev. eexists. split; [reflexivity |].
    apply runsWithin_runConfigurationHooks.
  - intros e H. rewrite (loadSettings_throw plugin m e H). repeat split.
Qed.

Lemma configuration_hooks_never_make_loadSettings_fail_witness :
  resultOf (loadSettings (FU := FixtureMore.unreadableSettings) Fixture.plugin
              (machineOf (initializeArgument Fixture.build Fixture.start)))
  = Throw "EACCES" /\
  resultOf (loadSettings Fixture.plugin
              (machineOf (initializeArgument Fixture.build Fixture.start)))
  = Normal tt /\
  In (EvHook Configuration 0 1%positive (Throw "boom"))
    (eventsOf (loadSettings Fixture.plugin
                 (machineOf (initializeArgument Fixture.build Fixture.start)))).
Proof.
  split; [| split].
  - destruct (configuration_hooks_never_make_loadSettings_fail
                (FU := FixtureMore.unreadableSettings) Fixture.plugin
                (machineOf (initializeArgument Fixture.build Fixture.start))
                fixture_hooks_keep_plugin_lists) as [_ Hthrow].
    destruct (Hthrow "EACCES" eq_refl) as [Hres _]. exact Hres.
  - destruct (configuration_hooks_never_make_loadSettings_fail Fixture.plugin
                (machineOf (initializeArgument Fixture.build Fixture.start))
                fixture_hooks_keep_plugin_lists) as [Hnormal _].
    destruct (Hnormal (Some Fixture.settingsFile) eq_refl) as [Hres _]. exact Hres.
  - vm_compute. tauto.
Defined.

(** X8. A run that throws ends with the call that made it throw. When
    [bundle] throws [e], the last thing the pass did is a collaborator
    call outside every [try] block ([createDir], the resolver, alias
    generation or [dumpPages]) that threw [e], or a resolver call that
    returned no node for a component, in which case [e] is the TypeError
    of reading [parsedNode[0].outerHTML]. The same holds of [magic] when
    [loadFile] returns, with no file or with settings of the declared
    type; when [loadFile] throws, [magic] throws the same exception and
    the call of [loadFile] is all it did. A hook that throws and a parse
    that throws never make the run throw. *)
Theorem a_run_that_throws_ends_with_the_call_that_threw
    {World : Type} {FU : FileUtil World} {DM : Dom World} {PF : Platform}
    (plugin : PluginId -> Plugin.t World) :
  (forall m e,
     resultOf (bundle plugin m) = Throw e ->
     exists before ev,
       eventsOf (bundle plugin m) = before ++ [ev] /\
       (uncaught ev = Some e \/ (e = undefinedOuterHTML /\ resolvedToNothing ev = true))) /\
  (forall args m (data : option SettingsData.t) e,
     settingsFileOutcome (machineOf (magicPrepare args m)) = Normal data ->
     resultOf (magic plugin args m) = Throw e ->
     exists before ev,
       eventsOf (magic plugin args m) = before ++ [ev] /\
       (uncaught ev = Some e \/ (e = undefinedOuterHTML /\ resolvedToNothing ev = true))) /\
  (forall args m e,
     settingsFileOutcome (machineOf (magicPrepare args m)) = Throw e ->
     resultOf (magic plugin args m) = Throw e /\
     eventsOf (magic plugin args m)
     = [EvLoadFile (settingsFilePattern (machineOf (magicPrepare args m))) (Throw e)]) /\
  (forall ev e, uncaught ev = Some e -> hookThrew ev = false /\ parseFailed ev = false).
Proof.
  split; [| split; [| split]].
  - intros m e H. pose proof (abrupt_bundle plugin m) as Ha. now rewrite H in Ha.
  - intros args m data e _ H. pose proof (abrupt_magic plugin args m) as Ha.
    now rewrite H in Ha.
  - intros args m e H.
    pose proof (magic_result plugin args m) as Hr.
    pose proof (magic_events plugin args m) as He. cbn zeta in Hr, He.
    rewrite (loadSettings_throw plugin _ e H) in Hr, He. now split.
  - intros ev e H. destruct ev as [? []|? ? ? []| | | |[]|? []|? []|? []|[]|? []| |];
      cbn in H; try discriminate; split; reflexivity.
Qed.

Lemma a_run_that_throws_ends_with_the_call_that_threw_witness :
  (exists before ev,
     eventsOf (bundle (DM := Fixture.failingAlias) Fixture.plugin Fixture.loaded)
     = before ++ [ev] /\
     (uncaught ev = Some "alias generation failed" \/
      ("alias generation failed" = undefinedOuterHTML /\ resolvedToNothing ev = true))) /\
  (exists before ev,
     eventsOf (magic (DM := Fixture.failingAlias) Fixture.plugin Fixture.build Fixture.start)
     = before ++ [ev] /\
     (uncaught ev = Some "alias generation failed" \/
      ("alias generation failed" = undefinedOuterHTML /\ resolvedToNothing ev = true))).
Proof.
  destruct (a_run_that_throws_ends_with_the_call_that_threw
              (DM := Fixture.failingAlias) Fixture.plugin) as (Hbundle & Hmagic & _).
  split.
  - apply Hbundle. vm_compute. reflexivity.
  - apply (Hmagic Fixture.build Fixture.start (Some Fixture.settingsFile)).
    + reflexivity.
    + vm_compute. reflexivity.
Defined.



(** X10. Every pass creates the output directory, exactly once: after
    the beforeBuild hooks of the plugin list have run (as long as no hook
    changes a plugin list, those of every plugin of the list that has
    one) and before anything is parsed, also in a pass that then fails.
    If [createDir] throws, the pass stops there and throws the same
    exception. *)
Theorem every_pass_creates_the_output_directory_once
    {World : Type} {FU : FileUtil World} {DM : Dom World} {PF : Platform}
    (plugin : PluginId -> Plugin.t World) (m : Machine.t World) :
  hooksKeepPluginLists plugin ->
  length (List.filter isCreateDir (eventsOf (bundle plugin m))) = 1 /\
  exists before outcome after,
    eventsOf (bundle plugin m) = before ++ EvCreateDir outcome :: after /\
    within 2 2 before /\
    hookCalls BeforeBuild before
    = List.filter (hasHook plugin BeforeBuild)
        (DefaultSettings.plugins (currentSettings m)) /\
    within 4 10 after /\
    match outcome with
    | Normal _ => True
    | Throw e => after = [] /\ resultOf (bundle plugin m) = Throw e
    end.
Proof.
  intros _.
  assert (Hrank : forall ev, isCreateDir ev = true -> eventRank ev = Some 3)
    by (intros []; cbn; congruence).
  assert (Hsplit : exists before outcome after,
            eventsOf (bundle plugin m) = before ++ EvCreateDir outcome :: after /\
            within 2 2 before /\
            hookCalls BeforeBuild before
            = List.filter (hasHook plugin BeforeBuild)
                (DefaultSettings.plugins (currentSettings m)) /\
            within 4 10 after /\
            match outcome with
            | Normal _ => True
            | Throw e => after = [] /\ resultOf (bundle plugin m) = Throw e
            end).
  { pose proof (runsWithin_bundle plugin m) as Hall.
    destruct (bundle_cases plugin m) as (evB & HB & Hcalls & _ & _ & Hcases).
    destruct Hcases as [(e & Hev & Hres) | [(evP & ev & e & Hev & Hok & Hthrew & Hres)
                                          | (evP & evA & Hev & Hok & HA & _)]].
    - exists evB, (Throw e), []. split; [exact Hev |]. split; [exact HB |].
      split; [exact Hcalls |]. split; [apply within_nil | now split].
    - exists evB, (Normal tt), (evP ++ [ev; EvLoggerError e]).
      split; [exact Hev |]. split; [exact HB |]. split; [exact Hcalls |].
      split; [| exact I].
      rewrite Hev in Hall. apply (within_raise 3).
      { eapply within_after; [exact Hall | reflexivity]. }
      intros x r Hx Hr. rewrite Forall_forall in Hok.
      apply in_app_or in Hx as [Hx | [<- | [<- | []]]].
      + destruct (Hok x Hx) as [dir [-> | ->]]; cbn in Hr; injection Hr as <-; lia.
      + destruct Hthrew as [dir [-> | ->]]; cbn in Hr; injection Hr as <-; lia.
      + discriminate.
    - exists evB, (Normal tt), (evP ++ evA).
      split; [exact Hev |]. split; [exact HB |]. split; [exact Hcalls |].
      split; [| exact I].
      rewrite Hev in Hall. apply (within_raise 3).
      { eapply within_after; [exact Hall | reflexivity]. }
      intros x r Hx Hr. rewrite Forall_forall in Hok.
      apply in_app_or in Hx as [Hx | Hx].
      + destruct (Hok x Hx) as [dir [-> | ->]]; cbn in Hr; injection Hr as <-; lia.
      + pose proof (within_rank 6 10 evA x r HA Hx Hr). lia. }
  split; [| exact Hsplit].
  destruct Hsplit as (before & outcome & after & -> & HB & _ & HA & _).
  rewrite filter_app. cbn.
  rewrite (none_at_rank isCreateDir 3 2 2 before Hrank HB) by lia.
  rewrite (none_at_rank isCreateDir 3 4 10 after Hrank HA) by lia. reflexivity.
Qed.

Lemma every_pass_creates_the_output_directory_once_witness :
  length (List.filter isCreateDir (eventsOf (bundle Fixture.plugin Fixture.loaded))) = 1.
Proof.
  destruct (every_pass_creates_the_output_directory_once Fixture.plugin Fixture.loaded
              fixture_hooks_keep_plugin_lists) as [Honce _].
  exact Honce.
Defined.

(** ** The directories a pass parses *)

Section ParsedDirectories.
Context {World : Type} {FU : FileUtil World} {DM : Dom World} {PF : Platform}.
Variable plugin : PluginId -> Plugin.t World.
Hypothesis hooks_keep : beforeBuildHooksKeepSettings plugin.

Lemma currentSettings_setMem (m : Machine.t World) mem' :
  Mem.settingsObjs mem' = Mem.settingsObjs (Machine.mem m) ->
  currentSettings (Machine.setMem m mem') = currentSettings m.
Proof. intros H. unfold currentSettings, settingsAt. cbn. now rewrite H. Qed.

Lemma currentSettings_beforeBuild plugins :
  forall state (m : Machine.t World),
  currentSettings (machineOf (runStateHooks plugin BeforeBuild plugins state m))
  = currentSettings m.
Proof.
  induction plugins as [|id rest IH]; intros state m; [reflexivity |].
  assert (Hgo : forall state' m' evs,
            stateHookStep plugin BeforeBuild id state m = (Normal state', m', evs) ->
            currentSettings m' = currentSettings m ->
            currentSettings
              (machineOf (runStateHooks plugin BeforeBuild (id :: rest) state m))
            = currentSettings m).
  { intros state' m' evs Hstep Hsame.
    rewrite (runStateHooks_cons plugin BeforeBuild id rest _ _ _ _ _ Hstep).
    unfold prefixed. cbn [machineOf fst snd]. now rewrite IH. }
  destruct (hookSlot BeforeBuild (plugin id)) as [hook|] eqn:Hslot.
  - pose proof (hooks_keep id hook state (Machine.mem m) Hslot) as Hk.
    destruct (hook state (Machine.mem m)) as [[[returned|]|e] mem'] eqn:Hrun; cbn [snd] in Hk.
    + eapply Hgo;
        [exact (stateHookStep_truthy plugin BeforeBuild id hook state m returned mem'
                  Hslot Hrun) |].
      now apply currentSettings_setMem.
    + eapply Hgo;
        [exact (stateHookStep_falsy plugin BeforeBuild id hook state m mem' Hslot Hrun) |].
      now apply currentSettings_setMem.
    + eapply Hgo;
        [exact (stateHookStep_throw plugin BeforeBuild id hook state m e mem' Hslot Hrun) |].
      now apply currentSettings_setMem.
  - eapply Hgo; [exact (stateHookStep_absent plugin BeforeBuild id state m Hslot) |].
    reflexivity.
Qed.

(** The parse calls of a pass are those of its parse loops, which run on
    the settings the pass started with. *)
Lemma bundle_parsePlan (m : Machine.t World) :
  (exists rest,
     parsePlan (currentSettings m) = parseCalls (eventsOf (bundle plugin m)) ++ rest) /\
  (resultOf (bundle plugin m) = Normal true ->
   parseCalls (eventsOf (bundle plugin m)) = parsePlan (currentSettings m)).
Proof.
  destruct (bundleParsed_run plugin m) as (state1 & created & w & Hres & H).
  cbn zeta in H.
  pose proof (currentSettings_beforeBuild (DefaultSettings.plugins (currentSettings m))
                (fresh (dom (Mem.stateObjs (Machine.mem m)))) (machineOf (bundleInit m)))
    as Hsame.
  rewrite currentSettings_bundleInit in Hsame.
  set (hooksB := runStateHooks plugin BeforeBuild _ _ _) in *.
  assert (HcB : parseCalls (eventsOf hooksB) = []).
  { apply (parseCalls_outside 2 2); [| lia].
    apply (runsWithin_runStateHooks plugin BeforeBuild). }
  destruct created as [[]|e].
  - destruct H as [_ ->]. unfold prefixed. cbn [resultOf machineOf eventsOf fst snd].
    set (mD := Machine.setMem (machineOf hooksB) _).
    assert (HsD : currentSettings mD = currentSettings m) by (rewrite <- Hsame; reflexivity).
    destruct (bundleParse_parseCalls plugin state1 (generatorOf (currentSettings m)) mD)
      as [Hprefix Hall].
    rewrite HsD in Hprefix, Hall.
    rewrite !parseCalls_app, HcB. cbn [app].
    change (parseCalls [EvCreateDir (Normal ())]) with (@nil ParseCall). cbn [app].
    split; [exact Hprefix |]. intros Htrue. apply Hall. rewrite Htrue. discriminate.
  - destruct H as [_ ->]. cbn [resultOf machineOf eventsOf fst snd].
    rewrite parseCalls_app, HcB. cbn.
    split; [now exists (parsePlan (currentSettings m)) | discriminate].
Qed.

End ParsedDirectories.

(** X13. A pass parses the directories its settings list, in order and
    once each: the component directories, then the source directories. It
    parses nothing else, and a pass that returns [true] has parsed them
    all. It stops at the first parse that throws: that parse is the last
    one of the pass, and what follows it is the call of [logger.error].
    The settings are those the pass starts with, provided the beforeBuild
    hooks leave the settings objects alone. *)
Theorem a_pass_parses_the_configured_directories_in_order
    {World : Type} {FU : FileUtil World} {DM : Dom World} {PF : Platform}
    (plugin : PluginId -> Plugin.t World) (m : Machine.t World) :
  beforeBuildHooksKeepSettings plugin ->
  (exists rest,
     map ParsedComponents (DefaultSettings.componentsFolder (currentSettings m))
     ++ map ParsedPages (DefaultSettings.srcDir (currentSettings m))
     = parseCalls (eventsOf (bundle plugin m)) ++ rest) /\
  (resultOf (bundle plugin m) = Normal true ->
   parseCalls (eventsOf (bundle plugin m))
   = map ParsedComponents (DefaultSettings.componentsFolder (currentSettings m))
     ++ map ParsedPages (DefaultSettings.srcDir (currentSettings m))) /\
  (forall ev e,
     In ev (eventsOf (bundle plugin m)) -> parseThrew ev e ->
     exists before earlier call,
       eventsOf (bundle plugin m) = before ++ [ev; EvLoggerError e] /\
       Forall (fun x => forall e', ~ parseThrew x e') before /\
       parseCall ev = Some call /\
       parseCalls (eventsOf (bundle plugin m)) = earlier ++ [call]).
Proof.
  intros Hkeep. destruct (bundle_parsePlan plugin Hkeep m) as [Hprefix Hall].
  split; [exact Hprefix |]. split; [exact Hall |].
  intros ev e Hin Hthrew.
  destruct (bundle_parse_outcome plugin m)
    as [(before & ev' & e' & Hev & Hthrew' & _ & Hbefore) | (_ & Hnone)].
  - rewrite Forall_forall in Hbefore. rewrite Hev in Hin.
    apply in_app_or in Hin as [Hin | [<- | [<- | []]]].
    + destruct (Hbefore ev Hin) as [_ Hnot]. now apply Hnot in Hthrew.
    + rewrite (parseThrew_inj ev' e e' Hthrew Hthrew').
      assert (Hcall : exists call, parseCall ev' = Some call)
        by (destruct Hthrew' as [dir [-> | ->]]; eexists; reflexivity).
      destruct Hcall as [call Hcall].
      exists before, (parseCalls before), call.
      split; [exact Hev |]. split.
      * apply Forall_forall. intros x Hx. now destruct (Hbefore x Hx).
      * split; [exact Hcall |]. rewrite Hev, parseCalls_app.
        unfold parseCalls at 2. cbn. now rewrite Hcall.
    + destruct Hthrew as [dir [H | H]]; discriminate.
  - rewrite Forall_forall in Hnone. destruct (Hnone ev Hin) as [_ Hnot].
    now apply Hnot in Hthrew.
Qed.

Lemma a_pass_parses_the_configured_directories_in_order_witness :
  parseCalls (eventsOf (bundle Fixture.plugin Fixture.loaded))
  = [ParsedComponents "/a/components"; ParsedPages "/a"; ParsedPages "/a/b";
     ParsedPages "/a/components"] /\
  parseCalls (eventsOf (bundle (FU := Fixture.unreadableComponents) Fixture.plugin
                          Fixture.loaded))
  = [ParsedComponents "/a/components"].
Proof.
  assert (Hkeep : beforeBuildHooksKeepSettings Fixture.plugin).
  { intros id hook arg mem Hslot. destruct id as [|[|[|n]]]; cbn in Hslot;
      try discriminate; injection Hslot as <-; reflexivity. }
  split.
  - destruct (a_pass_parses_the_configured_directories_in_order Fixture.plugin
                Fixture.loaded Hkeep) as (_ & Hall & _).
    rewrite Hall; [| vm_compute; reflexivity]. vm_compute. reflexivity.
  - destruct (a_pass_parses_the_configured_directories_in_order
                (FU := Fixture.unreadableComponents) Fixture.plugin Fixture.loaded Hkeep)
      as (_ & _ & Hstop).
    destruct (Hstop (EvParseComponents "/a/components" (Throw "ENOENT")) "ENOENT")
      as (before & earlier & call & Hev & _ & Hcall & Hcalls).
    + vm_compute. tauto.
    + exists "/a/components". now left.
    + vm_compute. reflexivity.
Defined.

(** ** Actions, watch sessions and the watch callback *)

(** X14. An action that is neither "watch" nor "build" builds nothing,
    but it is not without effect: the settings are reset to the defaults,
    the settings file is read and the configuration hooks run, exactly as
    [loadSettings] does them. When [loadFile] returns, with no file or
    with settings of the declared type, [magic] then returns [false]
    (as long as no hook changes a plugin list); when [loadFile] throws,
    [magic] throws the same exception. *)
Theorem an_unknown_action_loads_the_settings_and_builds_nothing
    {World : Type} {FU : FileUtil World} {DM : Dom World} {PF : Platform}
    (plugin : PluginId -> Plugin.t World) (args : Args.t) (m : Machine.t World) :
  Args.action args <> "watch" ->
  Args.action args <> "build" ->
  hooksKeepPluginLists plugin ->
  (forall data : option SettingsData.t,
     settingsFileOutcome (machineOf (magicPrepare args m)) = Normal data ->
     resultOf (magic plugin args m) = Normal false) /\
  (forall e,
     settingsFileOutcome (machineOf (magicPrepare args m)) = Throw e ->
     resultOf (magic plugin args m) = Throw e) /\
  eventsOf (magic plugin args m)
  = eventsOf (loadSettings plugin (machineOf (magicPrepare args m))) /\
  machineOf (magic plugin args m)
  = machineOf (loadSettings plugin (machineOf (magicPrepare args m))) /\
  within 0 1 (eventsOf (magic plugin args m)) /\
  hookCalls BeforeBuild (eventsOf (magic plugin args m)) = [] /\
  List.filter isCreateDir (eventsOf (magic plugin args m)) = [] /\
  List.filter isDumpPages (eventsOf (magic plugin args m)) = [].
Proof.
  intros Hwatch Hbuild _.
  apply String.eqb_neq in Hwatch, Hbuild.
  pose proof (magic_result plugin args m) as Hr. pose proof (magic_events plugin args m) as He.
  pose proof (magic_machine plugin args m) as Hm. cbn zeta in Hr, He, Hm.
  unfold magicAfterLoad in Hr, He, Hm. rewrite Hwatch, Hbuild in Hr, He, Hm.
  pose proof (runsWithin_loadSettings plugin (machineOf (magicPrepare args m))) as Hwithin.
  rewrite loadSettings_result in Hr, He, Hm.
  assert (Hevents : eventsOf (magic plugin args m)
                    = eventsOf (loadSettings plugin (machineOf (magicPrepare args m)))).
  { rewrite He. destruct (settingsFileOutcome _); [apply app_nil_r | reflexivity]. }
  split; [intros data H; now rewrite Hr, H |].
  split; [intros e H; now rewrite Hr, H |].
  split; [exact Hevents |].
  split; [rewrite Hm; now destruct (settingsFileOutcome _) |].
  rewrite Hevents. split; [exact Hwithin |].
  split; [apply (hookCalls_outside 0 1); [exact Hwithin | cbn; lia] |].
  split.
  - apply (none_at_rank isCreateDir 3 0 1); [| exact Hwithin | lia].
    intros []; cbn; congruence.
  - apply (none_at_rank isDumpPages 9 0 1); [| exact Hwithin | lia].
    intros []; cbn; congruence.
Qed.

Lemma an_unknown_action_loads_the_settings_and_builds_nothing_witness :
  resultOf (magic Fixture.plugin FixtureMore.serve Fixture.start) = Normal false /\
  hookCalls Configuration (eventsOf (magic Fixture.plugin FixtureMore.serve Fixture.start))
  = [0; 1].
Proof.
  destruct (an_unknown_action_loads_the_settings_and_builds_nothing
              Fixture.plugin FixtureMore.serve Fixture.start) as (Hr & _ & He & _).
  - discriminate.
  - discriminate.
  - exact fixture_hooks_keep_plugin_lists.
  - split; [exact (Hr (Some Fixture.settingsFile) eq_refl) |].
    rewrite He. vm_compute. reflexivity.
Defined.

(** X15. A watch session never returns [false]. When a directory cannot
    be parsed in the first pass, the error is logged and the session goes
    on: the watcher and the server are started and [magic] returns [true].
    The watcher is started exactly in the runs that return [true]; the
    others throw. *)
Theorem a_watch_session_starts_even_if_the_first_pass_fails
    {World : Type} {FU : FileUtil World} {DM : Dom World} {PF : Platform}
    (plugin : PluginId -> Plugin.t World) (args : Args.t) (m : Machine.t World) :
  Args.action args = "watch" ->
  resultOf (magic plugin args m) <> Normal false /\
  (resultOf (magic plugin args m) = Normal true <->
   In EvWatch (eventsOf (magic plugin args m))) /\
  (forall ev e,
     In ev (eventsOf (magic plugin args m)) -> parseThrew ev e ->
     resultOf (magic plugin args m) = Normal true /\
     exists before s,
       eventsOf (magic plugin args m)
       = before ++ [ev; EvLoggerError e] ++
         [ EvWatch;
           EvLiveServerStart (DefaultSettings.port s) (DefaultSettings.host s)
             (DefaultSettings.distDir s) (DefaultSettings.crossOriginIsolation s);
           EvLoggerLog (chalk_green (serverStartedMessage (DefaultSettings.port s))) ]).
Proof.
  intros Haction. pose proof (magic_watch plugin args m Haction) as H. cbn zeta in H.
  pose proof (runsWithin_loadSettings plugin (machineOf (magicPrepare args m))) as HL.
  set (load := loadSettings plugin (machineOf (magicPrepare args m))) in *.
  pose proof (runsWithin_bundle plugin (machineOf (magicPort args (machineOf load)))) as HP.
  pose proof (bundle_parse_outcome plugin (machineOf (magicPort args (machineOf load))))
    as Hout.
  set (pass := bundle plugin (machineOf (magicPort args (machineOf load)))) in *.
  assert (HwL : ~ In EvWatch (eventsOf load))
    by (apply (not_in_within 0 1 _ _ 11 HL); [reflexivity | lia]).
  assert (HwP : ~ In EvWatch (eventsOf pass))
    by (apply (not_in_within 2 10 _ _ 11 HP); [reflexivity | lia]).
  assert (HtL : forall ev e, In ev (eventsOf load) -> ~ parseThrew ev e).
  { intros ev e Hin Hthrew. apply (parseThrew_outside 0 1 _ ev e HL Hthrew); [lia | exact Hin]. }
  destruct (resultOf load) as [[]|e0].
  - destruct (resultOf pass) as [b|e1] eqn:Hpass; destruct H as [Hr He]; rewrite Hr, He.
    + split; [discriminate |]. split.
      * split; [intros _ | reflexivity].
        apply in_or_app. right. apply in_or_app. right. now left.
      * intros ev e Hin Hthrew. split; [reflexivity |].
        apply in_app_or in Hin as [Hin | Hin]; [now apply HtL in Hthrew |].
        apply in_app_or in Hin as [Hin | Hin];
          [| now apply (parseThrew_serverEvents _ ev e) in Hin].
        destruct Hout as [(before & ev' & e' & Hevs & Hthrew' & _ & Hbefore) | (_ & Hall)].
        -- rewrite Hevs in Hin |- *.
           rewrite Forall_forall in Hbefore.
           apply in_app_or in Hin as [Hin | [<- | [<- | []]]].
           ++ destruct (Hbefore ev Hin) as [_ Hnot]. now apply Hnot in Hthrew.
           ++ rewrite (parseThrew_inj ev' e e' Hthrew Hthrew').
              exists (eventsOf load ++ before), (currentSettings (machineOf pass)).
              now rewrite <- !app_assoc.
           ++ destruct Hthrew as [dir [Hd | Hd]]; discriminate.
        -- rewrite Forall_forall in Hall. destruct (Hall ev Hin) as [_ Hnot].
           now apply Hnot in Hthrew.
    + split; [discriminate |]. split.
      * split; [discriminate |]. intros Hin. exfalso.
        apply in_app_or in Hin as [Hin | Hin]; tauto.
      * intros ev e Hin Hthrew. exfalso.
        apply in_app_or in Hin as [Hin | Hin]; [now apply HtL in Hthrew |].
        destruct Hout as [(_ & _ & _ & _ & _ & Hfalse & _) | (_ & Hall)]; [discriminate |].
        rewrite Forall_forall in Hall. destruct (Hall ev Hin) as [_ Hnot].
        now apply Hnot in Hthrew.
  - destruct H as [Hr He]. rewrite Hr, He.
    split; [discriminate |]. split.
    + split; [discriminate | intros Hin; now exfalso].
    + intros ev e Hin Hthrew. now apply HtL in Hthrew.
Qed.

Lemma a_watch_session_starts_even_if_the_first_pass_fails_witness :
  resultOf (magic (FU := Fixture.unreadableComponents) Fixture.plugin FixtureMore.watch
              Fixture.start)
  = Normal true /\
  In (EvParseComponents "/a/components" (Throw "ENOENT"))
    (eventsOf (magic (FU := Fixture.unreadableComponents) Fixture.plugin FixtureMore.watch
                 Fixture.start)).
Proof.
  assert (Hin : In (EvParseComponents "/a/components" (Throw "ENOENT"))
                  (eventsOf (magic (FU := Fixture.unreadableComponents) Fixture.plugin
                               FixtureMore.watch Fixture.start)))
    by (vm_compute; tauto).
  destruct (a_watch_session_starts_even_if_the_first_pass_fails
              (FU := Fixture.unreadableComponents) Fixture.plugin FixtureMore.watch
              Fixture.start eq_refl) as (_ & _ & Hfailed).
  destruct (Hfailed _ "ENOENT" Hin) as [Hr _].
  - exists "/a/components". now left.
  - split; [exact Hr | exact Hin].
Defined.


(** The message of the server, line by line: an empty first line, two
    lines indented by four spaces, an empty line, the address indented by
    six spaces, and a last line of four spaces. *)
Lemma serverStartedMessage_lines `{!Platform} (port : Z) :
  serverStartedMessage port
  = String.concat (String (ascii_of_nat 10) "")
      [ "";
        "    Server started on port " +:+ numberToString port +:+ " 🚀";
        "    You can access the following URL:";
        "";
        "      http://localhost:" +:+ numberToString port;
        "    " ].
Proof.
  unfold serverStartedMessage. cbn [String.concat].
  rewrite !append_assoc. reflexivity.
Qed.

(** X16. What the server of a watch session is started with, when no
    plugin has a configuration hook and the hooks of the build
    checkpoints leave the settings objects alone. The port is the one of
    the command line if it is given and not 0, else the one of the
    settings file, else 8080. The directory served is [distDir] of the
    settings file if the file defines it, which then replaces the
    temporary directory of watch sessions. *)
Theorem the_server_of_a_watch_session_uses_the_port_of_the_command_line
    {World : Type} {FU : FileUtil World} {DM : Dom World} {PF : Platform}
    (plugin : PluginId -> Plugin.t World) (args : Args.t) (m : Machine.t World)
    (data : option SettingsData.t) :
  Args.action args = "watch" ->
  (forall id, hookSlot Configuration (plugin id) = None) ->
  stateHooksKeepSettings plugin ->
  (loadFile (dirnameFor args (Machine.dirname m) +:+ "/" +:+ "spear.config" +:+
             ".?(mjs|js|json)")
     (Mem.world (Machine.mem m))).1 = Normal data ->
  resultOf (magic plugin args m) = Normal true ->
  let port :=
    match Js.truthyNumber (Args.port args) with
    | Some port => port
    | None => fromFile data SettingsData.port 8080%Z
    end in
  exists before,
    eventsOf (magic plugin args m)
    = before ++
      [ EvWatch;
        EvLiveServerStart port
          (fromFile data SettingsData.host "0.0.0.0")
          (fromFile data SettingsData.distDir
             (path_resolve [dirnameFor args (Machine.dirname m);
                            "node_modules"; "spear-cli"; "tmpBuild"]))
          (fromFile data SettingsData.crossOriginIsolation false);
        EvLoggerLog (chalk_green (serverStartedMessage port)) ].
Proof.
  intros Haction Hnone Hkeep Hfile Htrue port.
  pose proof (magic_watch plugin args m Haction) as H. cbn zeta in H.
  rewrite <- settingsFileOutcome_magicPrepare in Hfile.
  destruct (magicPrepare_run args m) as (_ & _ & _ & _ & _ & _ & Hs0).
  rewrite Haction, String.eqb_refl in Hs0.
  set (m0 := machineOf (magicPrepare args m)) in *.
  rewrite (loadSettings_without_hooks plugin m0 data Hnone Hfile) in H.
  destruct (loadSettingsPrologue_normal m0 data Hfile) as (Hres & _ & _ & Hs1 & _).
  rewrite Hres in H.
  set (m1 := machineOf (loadSettingsPrologue m0)) in *.
  pose proof (currentSettings_magicPort args m1) as Hs2.
  destruct (bundle_keeps_settings plugin Hkeep (machineOf (magicPort args m1))) as [_ Hs3].
  destruct (resultOf (bundle plugin (machineOf (magicPort args m1)))) as [b|e];
    destruct H as [Hr He]; [| congruence].
  exists (eventsOf (loadSettingsPrologue m0)
          ++ eventsOf (bundle plugin (machineOf (magicPort args m1)))).
  rewrite He, <- app_assoc. do 2 f_equal.
  unfold serverEvents. rewrite Hs3, Hs2, Hs1, Hs0.
  destruct (settingsAfterLoad_fields data
              (DefaultSettings.setDistDir
                 (defaultSettingsFor (dirnameFor args (Machine.dirname m)))
                 (watchDistDir (dirnameFor args (Machine.dirname m)))))
    as (Hport & Hhost & Hdist & Hcoi).
  subst port. destruct (Js.truthyNumber (Args.port args)) as [p|].
  - change (DefaultSettings.port (DefaultSettings.setPort ?s p)) with p.
    change (DefaultSettings.host (DefaultSettings.setPort ?s p)) with (DefaultSettings.host s).
    change (DefaultSettings.distDir (DefaultSettings.setPort ?s p))
      with (DefaultSettings.distDir s).
    change (DefaultSettings.crossOriginIsolation (DefaultSettings.setPort ?s p))
      with (DefaultSettings.crossOriginIsolation s).
    now rewrite Hhost, Hdist, Hcoi.
  - now rewrite Hport, Hhost, Hdist, Hcoi.
Qed.

Lemma the_server_of_a_watch_session_uses_the_port_of_the_command_line_witness :
  exists before,
    eventsOf (magic (fun _ => Fixture.quiet) FixtureMore.watch Fixture.start)
    = before ++
      [ EvWatch;
        EvLiveServerStart 3000 "0.0.0.0" "/site/node_modules/spear-cli/tmpBuild" false;
        EvLoggerLog (chalk_green (serverStartedMessage 3000)) ].
Proof.
  destruct (the_server_of_a_watch_session_uses_the_port_of_the_command_line
              (fun _ => Fixture.quiet) FixtureMore.watch Fixture.start
              (Some Fixture.settingsFile)) as [before Hev].
  - reflexivity.
  - reflexivity.
  - intros cp id hook arg mem Hcp Hslot. destruct cp; try discriminate; try contradiction.
    injection Hslot as <-. reflexivity.
  - vm_compute. reflexivity.
  - vm_compute. reflexivity.
  - exists before. rewrite Hev. f_equal.
Defined.


(** X17. The watch callback and the settings file. When [loadFile]
    returns, with no file or with settings of the declared type, the
    callback starts a pass on the reloaded settings and completes,
    whatever that pass returns or throws (as long as no hook changes a
    plugin list). When [loadFile] throws, the callback throws the same
    exception, the settings are as they were and no pass is started. *)
Theorem the_watch_callback_completes_once_the_settings_are_reloaded
    {World : Type} {FU : FileUtil World} {DM : Dom World} {PF : Platform}
    (plugin : PluginId -> Plugin.t World) (name : string) (m : Machine.t World) :
  hooksKeepPluginLists plugin ->
  (forall e,
     settingsFileOutcome m = Throw e ->
     resultOf (onWatchEvent plugin name m) = Throw e /\
     eventsOf (onWatchEvent plugin name m)
     = [EvLoggerLog ("changed: " +:+ name); EvLoadFile (settingsFilePattern m) (Throw e)] /\
     currentSettings (machineOf (onWatchEvent plugin name m)) = currentSettings m) /\
  (forall data : option SettingsData.t,
     settingsFileOutcome m = Normal data ->
     resultOf (onWatchEvent plugin name m) = Normal tt /\
     eventsOf (onWatchEvent plugin name m)
     = EvLoggerLog ("changed: " +:+ name)
       :: eventsOf (loadSettings plugin m)
       ++ eventsOf (bundle plugin (machineOf (loadSettings plugin m))) /\
     machineOf (onWatchEvent plugin name m)
     = machineOf (bundle plugin (machineOf (loadSettings plugin m)))).
Proof.
  intros _. unfold onWatchEvent. rewrite result_bind, events_bind, machine_bind.
  cbn [loggerLog emit resultOf machineOf eventsOf fst snd].
  rewrite result_bind, events_bind, machine_bind.
  pose proof (loadSettings_result plugin m) as Hload.
  split.
  - intros e Hfile. rewrite (loadSettings_throw plugin m e Hfile).
    cbn [resultOf machineOf eventsOf fst snd]. split; [reflexivity |].
    split; reflexivity.
  - intros data Hfile. rewrite Hfile in Hload.
    rewrite Hload. rewrite result_attempt_bind, events_attempt_bind.
    split; [reflexivity |].
    split; [cbn [mret M_ret eventsOf snd]; now rewrite app_nil_r |].
    rewrite machine_bind, run_attempt. reflexivity.
Qed.

Lemma the_watch_callback_completes_once_the_settings_are_reloaded_witness :
  resultOf (onWatchEvent (FU := Fixture.unreadableComponents) Fixture.plugin "index.html"
              Fixture.loaded)
  = Normal tt /\
  resultOf (bundle (FU := Fixture.unreadableComponents) Fixture.plugin
              (machineOf (loadSettings (FU := Fixture.unreadableComponents) Fixture.plugin
                            Fixture.loaded)))
  = Normal false /\
  resultOf (onWatchEvent (FU := FixtureMore.unreadableSettings) Fixture.plugin "index.html"
              Fixture.loaded)
  = Throw "EACCES".
Proof.
  split; [| split; [vm_compute; reflexivity |]].
  - destruct (the_watch_callback_completes_once_the_settings_are_reloaded
                (FU := Fixture.unreadableComponents) Fixture.plugin "index.html"
                Fixture.loaded fixture_hooks_keep_plugin_lists) as [_ Hreturned].
    destruct (Hreturned (Some Fixture.settingsFile) eq_refl) as [Hres _]. exact Hres.
  - destruct (the_watch_callback_completes_once_the_settings_are_reloaded
                (FU := FixtureMore.unreadableSettings) Fixture.plugin "index.html"
                Fixture.loaded fixture_hooks_keep_plugin_lists) as [Hthrown _].
    destruct (Hthrown "EACCES" eq_refl) as [Hres _]. exact Hres.
Defined.
